(* ===== verification/_CoqProject ===== *)
-Q . S2P
Prelude.v
EventToken.v
Epoll.v
EventManager.v
VirtQueue.v
Bitmap.v
Vring.v
VhostBackend.v
VhostHandler.v
SessionSpec.v
SessionRefinement.v
DeviceRings.v
RingFrame.v
VringRace.v
VhostDaemon.v
Codec.v
GpuProtocol.v
GpuResponse.v
GpuFence.v
VirtioGpu.v
RutabagaGpu.v
GpuDisplay.v
GpuWorker.v
GpuScreen.v
GpuSystem.v
GpuConservation.v
ScreenSystem.v
GpuLocks.v
GpuConfig.v
GpuDevice.v
GpuProgram.v
PortQueueMapping.v
ConsoleControl.v
PortIo.v
EventSources.v
GuestRegions.v
LoggedMemory.v
ProcessRx.v
RxStream.v
ProcessTx.v
TxStream.v
ConsolePort.v
ConsoleWorker.v
ConsoleDevice.v
ConsoleProgram.v
ConsoleSim.v
ConsoleSystem.v
ConsoleFrame.v
ConsoleMessages.v
ConsoleOutput.v
ConsoleInput.v
ConsoleSession.v
