(* ===== verification/Prelude.v ===== *)
(** * Verification of the virtio device prototypes

    The repository implements two virtio devices, a GPU and a console, as vhost-user
    back-ends: a front-end (the monitor of a virtual machine) sends requests over a
    socket, shares the memory of its guest, and hands over the queues through which the
    guest's driver talks to the device. This library is a shallow embedding of that
    code: each Rust function is a Rocq function of the same name, where a name is free,
    on explicit state, and the theorems are about those functions.

    ** The program and its parts

    - [event_manager]: epoll with typed tokens. A token is an enum whose derive macro
      ([event_token_derive]) packs it into the 64 bits that the kernel hands back.
    - [virtio]: the traits between a transport and a device: [DeviceQueue], a queue with
      its notifications, and [VirtioDevice].
    - [vhost-user]: the transport. [handler.rs] serves the requests of the front-end and
      keeps a [Vring] per queue; a vring is a [DeviceQueue] that the device's threads
      share with the handler. [bitmap.rs] logs written pages for migration, [backend.rs]
      adapts a [VirtioDevice], and [lib.rs] is the daemon that accepts a connection and
      serves it.
    - [virtio-gpu] and [vhost-gpu]: the protocol of the GPU, the GPU itself on top of
      rutabaga, a worker thread that takes commands from two queues, and the device.
    - [virtio-console] and [vhost-console]: ports with an input and an output, a thread
      for each direction of a port, a main worker for the control queues, and the device.

    A device's thread waits for events ([EventManager]), locks a queue ([DeviceQueue]),
    pops chains of descriptors, reads and writes guest memory, puts the chains in the used
    ring and notifies the driver. The handler starts and stops the queues underneath.

    ** The files

    Every file models one part; the state of a part is a record, its operations are
    functions in the monad [M] below.

    - [Prelude]: the outcomes of Rust code, the state monad, its proof rules with the hint
      databases [preserves] and [keeps], machine integers, bits and bytes.
    - [EventToken]: [event_manager/src/lib.rs] (the trait and its instances),
      [arbitrary_int_support.rs] and [event_token_derive/src/lib.rs]. The macro's output
      is modelled over a universe [token_ty] of token types; [derive_unit_enum] is its
      instance for the enums without data that the workers use.
    - [Epoll]: the kernel's epoll and event descriptors, an interface with laws.
    - [EventManager]: [event_manager/src/lib.rs], the manager.
    - [VirtQueue]: [virtio/src/lib.rs], and the interface of the [virtio_queue] crate.
    - [Bitmap]: [vhost-user/src/bitmap.rs].  [Vring]: [vring.rs].
    - [VhostBackend]: [backend.rs].  [VhostHandler]: [handler.rs], and the replacement of
      bitmaps of [bitmap.rs].  [VhostDaemon]: [vhost-user/src/lib.rs].
    - [SessionSpec], [SessionRefinement]: what a session promises to the front-end, as a
      machine of its own on the rings' positions, the features and the memory table, and
      the proof that the handler implements it.
    - [DeviceRings]: the rings of a handler as a device's threads see them: the queue
      with an index behind its lock, and what a thread that holds the lock can change.
      [RingFrame]: what the requests for one ring leave of another.
    - [EventSources]: the sources that the threads register with their event managers, the
      kicks of [vring.rs] and the ports of [port_io.rs].
    - [VringRace]: a worker that registers with a ring while the handler starts it, access
      by access.
    - [Codec]: layouts of structures as bytes ([ByteValued]).
    - [GpuProtocol], [GpuResponse]: [virtio-gpu/src/protocol.rs], commands and responses.
    - [GpuFence], [VirtioGpu], [RutabagaGpu]: [virtio_gpu.rs]: the fences that the worker
      shares with rutabaga's callback, the trait of a GPU, and its implementation.
      [GpuDisplay]: what the implementation promises to the display, as a machine on
      scanouts, and the proof that it keeps the promise.
    - [GpuWorker]: [worker.rs].  [GpuScreen]: the worker and the promise put together, from
      the chains of a queue to the screens.  [GpuConfig]: [virtio-gpu/src/lib.rs] and the arguments of
      [vhost-gpu].  [GpuDevice]: [virtio-gpu/src/device.rs] and [vhost-gpu/src/lib.rs].
    - [GpuSystem]: the handler, the worker, rutabaga's callback and the guest together, on
      shared rings.  [GpuConservation]: the chains of the control ring in such runs.
      [ScreenSystem]: what the screens show in such runs.
      [GpuLocks]: the order in which worker and callback take their locks.
    - [GpuProgram], [ConsoleProgram]: [start_backend] and [main] of [vhost-gpu], and
      [main.rs] of [vhost-console].
    - [PortQueueMapping], [ConsoleControl] (the messages of [console_control.rs]),
      [PortIo], [ProcessRx], [ProcessTx], [ConsolePort], [ConsoleWorker] (the main worker
      of [console_control.rs]), [ConsoleDevice] ([device.rs] and [vhost-console]): the
      files of [virtio-console/src] of the corresponding names.
    - [GuestRegions], [LoggedMemory]: guest memory made of regions, and with the bitmaps of
      [bitmap.rs].  [RxStream]: what the receiving thread leaves in guest memory and its log.
    - [TxStream]: a whole run over a transmit queue, on top of [ProcessTx].
    - [ConsoleSystem]: the handler, the four kinds of threads of the console and the ports
      together, on shared rings.  [ConsoleFrame]: what the steps of one part leave alone of
      another.  [ConsoleMessages]: the messages that those threads exchange with the guest's
      driver.  [ConsoleOutput]: the bytes on their way to a port's output.  [ConsoleInput]:
      what the driver reads of the bytes that a port receives.
    - [ConsoleSim], [ConsoleSession]: concrete machines for the console, with queues of
      their own and with rings in guest memory; the other examples are in a module at the
      end of each file. They evaluate the definitions, and show that the hypotheses
      of the theorems can hold.

    ** How the code is modelled

    A function that can fail or panic returns an [outcome]. A method is a function from
    the state to an outcome and the state it leaves, on errors and panics too, because
    what was assigned before an early return stays assigned. A method of a field is run
    with [zoom]. Integers are [Z] with the width of their type in the statements
    ([in_width], [wrap], [checked_add], [arith]); [usize] has 64 bits. The parameter
    [checks] says whether the build has overflow checks, where it matters.

    What is not part of the repository is an interface: a type class of operations, with
    a class of laws that state its documented behaviour, an instance that satisfies them,
    and theorems against the class. This is so for the kernel ([EpollLaws],
    [EventFdLaws], [FdOps]), the [virtio_queue] crate ([QueueConfigLaws],
    [QueueProcLaws], [ReaderLaws], [WriterLaws], [ChainStreamsLaws]), [vm_memory]
    ([GuestAccessLaws]), the driver's side of a queue ([UsedRingLaws]), rutabaga ([RutabagaLaws]), sockets and numbers from C headers.
    Interfaces connect the components of the repository, too: the worker of the GPU is
    proved against [VirtioGpuLaws], which [RutabagaGpu] discharges, and the handler
    against [VhostUserDevice].

    Loops take fuel; a run that is cut off is [NoFuel], which is no outcome of the code.
    The theorems say how much fuel is enough: one more than there are chains in a queue
    ([process_queue_conserves], [queue_event_returns], [rx_conserves],
    [control_messages_in_order]), than chains and waits for an output ([tx_conserves]), than
    descriptors that wait for a fence ([fence_handler_answers]), than interruptions of a
    wait ([wait_retry_terminates]). Only the event loops of the threads have no bound.

    Threads: each operation on shared state holds its lock for one step, so that a run of
    several threads is a sequence of such steps ([fence_step], [handler_step], [sys_step],
    [em_step]). Where a theorem compares runs with a specification, the label of a step holds the
    request of the front-end and the answer that it got ([exchange]). The console's threads hold a queue's lock over a whole
    section of code, which is a definition of its own ([rx_section], [tx_section],
    [control_rx_section], [control_tx_section]). [GpuLocks] and [VringRace] go below that: the one
    takes the operations on two locks one by one, the other the accesses of two methods. A spawned thread is kept with what its closure captured, and runs when it is joined.

    ** What the theorems show

    - Sessions. [session_refines]: every run of the handler, with its requests and their
      answers, is a run of the specification of a session, and [gpu_system_refines]: so is every run of the handler together with
      the threads of the GPU, and [console_system_refines] with those of the console;
      [console_threads_step] relates the programs of those threads to the steps of the
      system. [vring_base_stays] is what a migration relies on: the
      position that GET_VRING_BASE reports is final. [session_invariant]: in every sequence of requests the device is activated
      at most once and not before there is memory, and features and sizes stay within what
      the device offers. The theorems on single requests give their effect on every branch
      ([set_features_spec], [set_log_base_atomic], [vmm_va_to_gpa_spec]); [serve_serves] is the daemon's, and [gpu_main_status] the
      program's.
    - Queues. [kick_monitored_iff_started], [vring_stop_quiesces]: a kick is watched
      exactly while its ring is started, and a stopped ring is not processed.
      [queue_event_returns]: on a well-formed ring the worker comes back from a kick after one
      round, with EVENT_IDX or without. [em_wait_tokens]: a thread's wait gives it tokens that
      some source was registered with, kicks and ports included.
    - Migration. [mark_dirty_spec]: the log has exactly the bits of the pages that were
      written, as far as the region has whole pages ([tail_never_logged]);
      [rx_writes_in_log]: whatever a port's receiving thread writes is in the log.
    - Encodings. [token_roundtrip], [decode_roundtrip], [decode_total], [encode_object],
      [queue_mapping_bijection].
    - Nothing is lost or answered twice. [chains_conserved] for the threads of the GPU
      together with the guest and the front-end; [process_queue_conserves] and [fences_conserved]
      for the GPU, [rx_conserves], [rx_delivers], [tx_conserves] and
      [control_messages_in_order] for the console.
    - The GPU. [scanouts_consistent], and [display_refines]: the scanouts and
      resources of the implementation follow a specification of what is shown on each
      screen, command by command; [queue_displays]: so do the commands that a driver puts in
      a queue, once the worker has gone over it, and [system_displays]: those that the worker
      takes in a run of the whole system; [command_answered],
      [fenced_command_waits], [fence_handler_answers], [gpu_activate_once].
    - The console. [main_worker_new_starts], [console_activates_once], and, in every run of
      the system, [console_messages_fifo]: the driver gets the answers to its messages in the
      order in which they were made, each once; [output_stream]: what it queues on a
      port reaches the port's output as one stream of bytes; and [input_stream]: what the
      port's input delivers is what the driver reads, with one buffer in each chain.
    - Defects, as theorems about the code as it is: [fence_locks_deadlock],
      [malformed_ring_spins], [fence_handler_drops], [tail_never_logged],
      [failed_scanout_crosses], [registration_race], [console_stop_never_returns],
      [late_data_leaves_gap], and further ones beside the definitions they are
      about, such as [no_event_idx_never_signals] and [unref_refused_jams_scanout].

    ** What is not modelled

    Poisoned locks, logging, failing allocations and thread creation; weak memory (an
    atomic operation is one step, guest memory does not change while the device holds a
    chain); the diagnostics of the derive macro; [resource_create_blob] of the GPU, which
    nothing calls; the parsing of command lines by [clap]; the test double
    [virtio/src/mock.rs], all of whose methods are [todo!()]. Of the other
    code only imports, attributes, log messages, the texts of errors, accessors of raw
    descriptors and tests are left out. *)

From stdpp Require Export base tactics numbers list list_numbers gmap strings.

#[global] Open Scope Z_scope.

(** ** Outcomes of Rust code

    A Rust function that returns [Result<A, E>] can return [Ok], return [Err], or
    panic (an [unwrap] of an error, a failed [assert!], an index out of bounds).
    [NoFuel] is not an outcome of the code: it marks a run of a loop that was cut
    off because the fuel given to its model was too small, and the theorems show
    how much fuel excludes it. *)
Inductive outcome (E A : Type) : Type :=
| Ret (a : A)
| Fail (e : E)
| Panic
| NoFuel.
Arguments Ret {E A} a.
Arguments Fail {E A} e.
Arguments Panic {E A}.
Arguments NoFuel {E A}.

#[export] Instance outcome_eq_dec {E A} `{EqDecision E, EqDecision A} :
  EqDecision (outcome E A).
Proof. solve_decision. Defined.

(** [Err] and [panic!] of an outcome, as it is passed on by the operator [?]. *)
Definition outcome_bind {E A B} (o : outcome E A) (k : A → outcome E B) : outcome E B :=
  match o with
  | Ret a => k a
  | Fail e => Fail e
  | Panic => Panic
  | NoFuel => NoFuel
  end.

Definition outcome_map {E A B} (f : A → B) (o : outcome E A) : outcome E B :=
  outcome_bind o (λ a, Ret (f a)).

Definition outcome_map_err {E E' A} (f : E → E') (o : outcome E A) : outcome E' A :=
  match o with
  | Ret a => Ret a
  | Fail e => Fail (f e)
  | Panic => Panic
  | NoFuel => NoFuel
  end.

(** [Result::unwrap] and [Result::expect]. *)
Definition outcome_unwrap {E E' A} (o : outcome E A) : outcome E' A :=
  match o with
  | Ret a => Ret a
  | Fail _ => Panic
  | Panic => Panic
  | NoFuel => NoFuel
  end.

(** [Option::ok_or] *)
Definition ok_or {E A} (o : option A) (e : E) : outcome E A :=
  match o with Some a => Ret a | None => Fail e end.

(** ** Stateful Rust code

    A method with a mutable receiver is a function from the state to an outcome
    and the state it leaves behind. The state is kept on every outcome, because
    an early return with [?] keeps what was assigned before it. *)
Definition M (St E A : Type) : Type := St → outcome E A * St.

Section monad.
Context {St E : Type}.

Definition ret {A} (a : A) : M St E A := λ s, (Ret a, s).
Definition fail {A} (e : E) : M St E A := λ s, (Fail e, s).
Definition panic {A} : M St E A := λ s, (Panic, s).
Definition no_fuel {A} : M St E A := λ s, (NoFuel, s).
Definition get : M St E St := λ s, (Ret s, s).
Definition gets {A} (f : St → A) : M St E A := λ s, (Ret (f s), s).
Definition put (s' : St) : M St E unit := λ _, (Ret tt, s').
Definition modify (f : St → St) : M St E unit := λ s, (Ret tt, f s).

Definition bind {A B} (m : M St E A) (k : A → M St E B) : M St E B :=
  λ s,
    match m s with
    | (Ret a, s') => k a s'
    | (Fail e, s') => (Fail e, s')
    | (Panic, s') => (Panic, s')
    | (NoFuel, s') => (NoFuel, s')
    end.

(** A pure outcome as a stateful computation. *)
Definition lift {A} (o : outcome E A) : M St E A := λ s, (o, s).

(** [assert!] *)
Definition assert (b : bool) : M St E unit := if b then ret tt else panic.

(** [Option::unwrap], and indexing, which panics out of bounds. *)
Definition unwrap_opt {A} (o : option A) : M St E A :=
  match o with Some a => ret a | None => panic end.

(** [for x in l { f(x)? }] *)
Fixpoint for_each {A} (l : list A) (f : A → M St E unit) : M St E unit :=
  match l with
  | [] => ret tt
  | x :: l => bind (f x) (λ _, for_each l f)
  end.

(** [loop { body }]: the body says [None] to go round again and [Some v] to
    leave the loop with [v]. *)
Fixpoint loop {A} (fuel : nat) (body : M St E (option A)) : M St E A :=
  match fuel with
  | O => no_fuel
  | S fuel =>
      bind body (λ r, match r with Some v => ret v | None => loop fuel body end)
  end.
End monad.

(** [map_err(f)?] *)
Definition map_err {S E E' A} (f : E → E') (m : M S E A) : M S E' A :=
  λ s, let '(o, s') := m s in (outcome_map_err f o, s').

(** [.unwrap()] and [.expect(..)] on a stateful call *)
Definition unwrap {S E E' A} (m : M S E A) : M S E' A :=
  λ s, let '(o, s') := m s in (outcome_unwrap o, s').

(** [match call() { Ok(a) => .., Err(e) => .. }]: the error becomes a value *)
Definition attempt {S E E' A} (m : M S E A) : M S E' (E + A) :=
  λ s,
    match m s with
    | (Ret a, s') => (Ret (inr a), s')
    | (Fail e, s') => (Ret (inl e), s')
    | (Panic, s') => (Panic, s')
    | (NoFuel, s') => (NoFuel, s')
    end.

(** Running a method of a field: [zoom get put m] runs [m] on the field read by
    [get] and stores the field back with [put]. *)
Definition zoom {S T E A} (get : S → T) (put : T → S → S) (m : M T E A) : M S E A :=
  λ s, let '(o, t) := m (get s) in (o, put t s).

Declare Scope rust_scope.
Delimit Scope rust_scope with rust.
Notation "'let!' x := m 'in' k" := (bind m (λ x, k))
  (at level 10, x pattern, m at level 100, k at level 200,
   format "'[v' 'let!'  x  :=  m  'in' '/' k ']'") : rust_scope.
Notation "'do!' m 'in' k" := (bind m (λ _, k))
  (at level 10, m at level 100, k at level 200,
   format "'[v' 'do!'  m  'in' '/' k ']'") : rust_scope.
#[global] Open Scope rust_scope.

(** ** Laws of the monad and its proof rules *)

Section monad_laws.
Context {St E : Type}.
Implicit Types s : St.

Lemma bind_Ret {A B} (m : M St E A) (k : A → M St E B) s a s1 :
  m s = (Ret a, s1) → bind m k s = k a s1.
Proof. unfold bind. by intros ->. Qed.

Lemma bind_Fail {A B} (m : M St E A) (k : A → M St E B) s e s1 :
  m s = (Fail e, s1) → bind m k s = (Fail e, s1).
Proof. unfold bind. by intros ->. Qed.

Lemma bind_Panic {A B} (m : M St E A) (k : A → M St E B) s s1 :
  m s = (Panic, s1) → bind m k s = (Panic, s1).
Proof. unfold bind. by intros ->. Qed.

Lemma bind_inv_Ret {A B} (m : M St E A) (k : A → M St E B) s b s' :
  bind m k s = (Ret b, s') →
  ∃ a s1, m s = (Ret a, s1) ∧ k a s1 = (Ret b, s').
Proof.
  unfold bind. destruct (m s) as [[a|e| |] s1]; intros H; [eauto|discriminate..].
Qed.

Lemma bind_ret_l {A B} (a : A) (k : A → M St E B) s : bind (ret a) k s = k a s.
Proof. done. Qed.

Lemma bind_assoc {A B C} (m : M St E A) (k : A → M St E B) (h : B → M St E C) s :
  bind (bind m k) h s = bind m (λ a, bind (k a) h) s.
Proof. unfold bind. by destruct (m s) as [[a|e| |] s1]. Qed.

Lemma for_each_app {A} (l1 l2 : list A) (f : A → M St E unit) s :
  for_each (l1 ++ l2) f s = bind (for_each l1 f) (λ _, for_each l2 f) s.
Proof.
  revert s. induction l1 as [|x l1 IH]; intros s; [done|].
  simpl. unfold bind at 1 2 3. destruct (f x s) as [[[]|e| |] s1]; [|done..].
  by rewrite IH.
Qed.

(** A loop that has stopped with some fuel stops the same way with more. *)
Lemma loop_more_fuel {A} fuel fuel' (body : M St E (option A)) s o s' :
  loop fuel body s = (o, s') → o ≠ NoFuel → (fuel ≤ fuel')%nat →
  loop fuel' body s = (o, s').
Proof.
  revert fuel' s. induction fuel as [|fuel IH]; intros fuel' s Hl Ho Hle.
  - simpl in Hl. unfold no_fuel in Hl. by simplify_eq.
  - destruct fuel' as [|fuel']; [lia|]. simpl in *.
    unfold bind in *. destruct (body s) as [[[v|]|e| |] s1]; [done| |done..].
    apply IH; [done..|lia].
Qed.

(** A loop whose body never leaves it does not return. *)
Lemma loop_never_returns {A} fuel (body : M St E (option A)) s v :
  (∀ s v, (body s).1 ≠ Ret (Some v)) → (loop fuel body s).1 ≠ Ret v.
Proof.
  intros Hbody. revert s. induction fuel as [|fuel IH]; intros s; simpl; [done|].
  unfold bind. specialize (Hbody s). destruct (body s) as [[[u|]|e| |] s1]; simpl in *; [|done..].
  by destruct (Hbody u).
Qed.
End monad_laws.

(** [preserves I m]: whatever the outcome of [m], success, error or panic, the
    state it leaves satisfies [I] when the state it started from did. *)
Definition preserves {St E A} (I : St → Prop) (m : M St E A) : Prop :=
  ∀ s, I s → I (m s).2.

Create HintDb preserves.

Section preserves.
Context {St E : Type} (I : St → Prop).

Lemma preserves_ret {A} (a : A) : preserves (E:=E) I (ret a).
Proof. by intros s. Qed.
Lemma preserves_fail {A} (e : E) : preserves (A:=A) I (fail e).
Proof. by intros s. Qed.
Lemma preserves_panic {A} : preserves (E:=E) (A:=A) I panic.
Proof. by intros s. Qed.
Lemma preserves_gets {A} (f : St → A) : preserves (E:=E) I (gets f).
Proof. by intros s. Qed.
Lemma preserves_lift {A} (o : outcome E A) : preserves I (lift o).
Proof. by intros s. Qed.
Lemma preserves_assert b : preserves (E:=E) I (assert b).
Proof. by destruct b; intros s. Qed.
Lemma preserves_unwrap_opt {A} (o : option A) : preserves (E:=E) I (unwrap_opt o).
Proof. by destruct o; intros s. Qed.

Lemma preserves_bind {A B} (m : M St E A) (k : A → M St E B) :
  preserves I m → (∀ a, preserves I (k a)) → preserves I (bind m k).
Proof.
  intros Hm Hk s Hs. unfold bind. specialize (Hm s Hs).
  destruct (m s) as [[a|e| |] s1]; [by apply Hk|done..].
Qed.

(** The same rule when the continuation may use what the first step returned. *)
Lemma preserves_bind_run {A B} (m : M St E A) (k : A → M St E B) s :
  I (m s).2 → (∀ a s1, m s = (Ret a, s1) → I s1 → I (k a s1).2) →
  I (bind m k s).2.
Proof.
  intros Hm Hk. unfold bind. destruct (m s) as [[a|e| |] s1] eqn:Hms; [|done..].
  by apply Hk.
Qed.

Lemma preserves_modify (f : St → St) :
  (∀ s, I s → I (f s)) → preserves (E:=E) I (modify f).
Proof. intros Hf s. apply Hf. Qed.

Lemma preserves_for_each {A} (l : list A) (f : A → M St E unit) :
  (∀ x, preserves I (f x)) → preserves I (for_each l f).
Proof.
  intros Hf. induction l as [|x l IH]; simpl; [apply preserves_ret|].
  by apply preserves_bind.
Qed.

Lemma preserves_for_each_in {A} (l : list A) (f : A → M St E unit) :
  (∀ x, x ∈ l → preserves I (f x)) → preserves I (for_each l f).
Proof.
  induction l as [|x l IH]; simpl; intros Hf; [apply preserves_ret|].
  apply preserves_bind; [apply Hf; by constructor|]. intros _. apply IH. intros y Hy. apply Hf. by constructor.
Qed.

Lemma preserves_loop {A} fuel (body : M St E (option A)) :
  preserves I body → preserves I (loop fuel body).
Proof.
  intros Hb. induction fuel as [|fuel IH]; simpl; [by intros s|].
  apply preserves_bind; [done|]. by intros [v|]; [apply preserves_ret|].
Qed.

Lemma preserves_if {A} (b : bool) (m1 m2 : M St E A) :
  preserves I m1 → preserves I m2 → preserves I (if b then m1 else m2).
Proof. by destruct b. Qed.
End preserves.

Lemma preserves_map_err {St E E' A} (I : St → Prop) (f : E → E') (m : M St E A) :
  preserves I m → preserves I (map_err f m).
Proof. intros Hm s Hs. unfold map_err. specialize (Hm s Hs). by destruct (m s). Qed.

Lemma preserves_unwrap {St E E' A} (I : St → Prop) (m : M St E A) :
  preserves I m → preserves (E:=E') I (unwrap m).
Proof. intros Hm s Hs. unfold unwrap. specialize (Hm s Hs). by destruct (m s). Qed.

Lemma preserves_attempt {St E E' A} (I : St → Prop) (m : M St E A) :
  preserves I m → preserves (E:=E') I (attempt m).
Proof.
  intros Hm s Hs. unfold attempt. specialize (Hm s Hs).
  by destruct (m s) as [[]].
Qed.

(** A method of a field keeps an invariant of the whole record when every new
    value of the field would. *)
Lemma preserves_zoom {St T E A} (I : St → Prop) (J : T → Prop)
    (g : St → T) (p : T → St → St) (m : M T E A) :
  (∀ s, I s → J (g s)) → (∀ s t, I s → J t → I (p t s)) →
  preserves J m → preserves I (zoom g p m).
Proof.
  intros Hg Hp Hm s Hs. unfold zoom.
  specialize (Hm (g s) (Hg s Hs)). destruct (m (g s)) as [o t]; simpl in *. auto.
Qed.

#[export] Hint Resolve preserves_ret preserves_fail preserves_panic preserves_gets
  preserves_lift preserves_assert preserves_unwrap_opt preserves_bind
  preserves_for_each preserves_loop preserves_if preserves_map_err
  preserves_unwrap preserves_attempt : preserves.

(** [keeps v m]: whatever the outcome of [m], it leaves the view [v] of the state
    alone, and it is a run of the code, not one that was cut off. *)
Definition keeps {St E A V} (v : St → V) (m : M St E A) : Prop :=
  ∀ s, v (m s).2 = v s ∧ (m s).1 ≠ NoFuel.

Create HintDb keeps.

Section keeps.
Context {St E V : Type} (v : St → V).

Lemma keeps_ret {A} (a : A) : keeps (E:=E) v (ret a).
Proof. by intros s. Qed.
Lemma keeps_fail {A} (e : E) : keeps (A:=A) v (fail e).
Proof. by intros s. Qed.
Lemma keeps_panic {A} : keeps (E:=E) (A:=A) v panic.
Proof. by intros s. Qed.
Lemma keeps_gets {A} (f : St → A) : keeps (E:=E) v (gets f).
Proof. by intros s. Qed.
Lemma keeps_lift {A} (o : outcome E A) : o ≠ NoFuel → keeps v (lift o).
Proof. by intros Ho s. Qed.
Lemma keeps_assert b : keeps (E:=E) v (assert b).
Proof. by destruct b; intros s. Qed.
Lemma keeps_unwrap_opt {A} (o : option A) : keeps (E:=E) v (unwrap_opt o).
Proof. by destruct o; intros s. Qed.
Lemma keeps_modify (f : St → St) : (∀ s, v (f s) = v s) → keeps (E:=E) v (modify f).
Proof. intros Hf s. by split; [apply Hf|]. Qed.

Lemma keeps_bind {A B} (m : M St E A) (k : A → M St E B) :
  keeps v m → (∀ a, keeps v (k a)) → keeps v (bind m k).
Proof.
  intros Hm Hk s. unfold bind. destruct (Hm s) as [Hv Ho].
  destruct (m s) as [[a|e| |] s1]; simpl in *; [|done..].
  destruct (Hk a s1) as [Hv' Ho']. by rewrite Hv', Hv.
Qed.

Lemma keeps_if {A} (b : bool) (m1 m2 : M St E A) :
  keeps v m1 → keeps v m2 → keeps v (if b then m1 else m2).
Proof. by destruct b. Qed.

Lemma keeps_for_each {A} (l : list A) (f : A → M St E unit) :
  (∀ x, keeps v (f x)) → keeps v (for_each l f).
Proof.
  intros Hf. induction l as [|x l IH]; simpl; [apply keeps_ret|]. by apply keeps_bind.
Qed.
End keeps.

Lemma keeps_unit {St E A V} (v : St → V) (m : M St E A) : keeps v m → keeps (λ _, tt) m.
Proof. intros Hm s. by destruct (Hm s). Qed.

Lemma keeps_map_err {St E E' A V} (v : St → V) (f : E → E') (m : M St E A) :
  keeps v m → keeps v (map_err f m).
Proof.
  intros Hm s. unfold map_err. destruct (Hm s) as [Hv Ho].
  by destruct (m s) as [[] s1]; simpl in *.
Qed.

Lemma keeps_attempt {St E E' A V} (v : St → V) (m : M St E A) :
  keeps v m → keeps (E:=E') v (attempt m).
Proof.
  intros Hm s. unfold attempt. destruct (Hm s) as [Hv Ho].
  by destruct (m s) as [[] s1]; simpl in *.
Qed.

(** A method of a field keeps what can be seen of the record when it keeps what can
    be seen of the field. *)
Lemma keeps_zoom {St T E A V V'} (v : St → V) (v' : T → V') (g : St → T) (p : T → St → St)
    (m : M T E A) :
  (∀ s t, v' t = v' (g s) → v (p t s) = v s) → keeps v' m → keeps v (zoom g p m).
Proof.
  intros Hp Hm s. unfold zoom. destruct (Hm (g s)) as [Hv Ho].
  destruct (m (g s)) as [o t]; simpl in *. split; [by apply Hp|done].
Qed.

#[export] Hint Resolve keeps_ret keeps_fail keeps_panic keeps_gets keeps_assert keeps_unwrap_opt keeps_bind
  keeps_if keeps_for_each keeps_map_err keeps_attempt : keeps.

(** [infallible m]: [m] returns, panics or is cut off, but has no error. *)
Definition infallible {St E A} (m : M St E A) : Prop := ∀ s e, (m s).1 ≠ Fail e.

Create HintDb infallible.

Section infallible.
Context {St E : Type}.

Lemma infallible_ret {A} (a : A) : infallible (St:=St) (E:=E) (ret a).
Proof. by intros s e. Qed.
Lemma infallible_panic {A} : infallible (St:=St) (E:=E) (A:=A) panic.
Proof. by intros s e. Qed.
Lemma infallible_gets {A} (f : St → A) : infallible (E:=E) (gets f).
Proof. by intros s e. Qed.
Lemma infallible_modify (f : St → St) : infallible (E:=E) (modify f).
Proof. by intros s e. Qed.

Lemma infallible_unwrap {E' A} (m : M St E' A) : infallible (E:=E) (unwrap m).
Proof. intros s e. unfold unwrap. by destruct (m s) as [[] ?]. Qed.

Lemma infallible_bind {A B} (m : M St E A) (k : A → M St E B) :
  infallible m → (∀ a, infallible (k a)) → infallible (bind m k).
Proof.
  intros Hm Hk s e. unfold bind. specialize (Hm s).
  destruct (m s) as [[a|e'| |] s1]; [apply Hk|by destruct (Hm e')|done..].
Qed.

Lemma infallible_if {A} (b : bool) (m1 m2 : M St E A) :
  infallible m1 → infallible m2 → infallible (if b then m1 else m2).
Proof. by destruct b. Qed.

Lemma infallible_for_each {A} (l : list A) (f : A → M St E unit) :
  (∀ x, infallible (f x)) → infallible (for_each l f).
Proof.
  intros Hf. induction l as [|x l IH]; simpl; [apply infallible_ret|]. by apply infallible_bind.
Qed.
End infallible.

#[export] Hint Resolve infallible_ret infallible_panic infallible_gets infallible_modify
  infallible_unwrap infallible_bind infallible_if infallible_for_each : infallible.

(** Turns a hypothesis that a [bind] returned into what each step returned. *)
Ltac bind_inv :=
  repeat match goal with
  | H : bind _ _ _ = (Ret _, _) |- _ =>
      let a := fresh "a" in let s := fresh "s" in let Ha := fresh "Hrun" in
      apply bind_inv_Ret in H; destruct H as (a & s & Ha & H); simpl in Ha
  | H : ret _ _ = (_, _) |- _ => unfold ret in H; simplify_eq
  | H : gets _ _ = (_, _) |- _ => unfold gets in H; simplify_eq
  | H : modify _ _ = (_, _) |- _ => unfold modify in H; simplify_eq
  | H : fail _ _ = (Ret _, _) |- _ => discriminate H
  | H : panic _ = (Ret _, _) |- _ => discriminate H
  end.

(** ** Machine integers

    A [uN] value is a [Z] in the range of its width. [usize] is 64 bits wide, the
    width of the platforms the code is built for. *)
Definition in_width (w z : Z) : Prop := 0 ≤ z < 2 ^ w.

#[export] Instance in_width_dec w z : Decision (in_width w z).
Proof. unfold in_width. apply _. Defined.

(** The cast [z as uN] *)
Definition wrap (w z : Z) : Z := z `mod` 2 ^ w.

Definition checked_add (w a b : Z) : option Z :=
  if bool_decide (in_width w (a + b)) then Some (a + b) else None.
Definition checked_mul (w a b : Z) : option Z :=
  if bool_decide (in_width w (a * b)) then Some (a * b) else None.
Definition saturating_add (w a b : Z) : Z := Z.min (a + b) (2 ^ w - 1).

(** The plain operators [+] and [*] on unsigned integers: a result that does not
    fit panics in a build with overflow checks and wraps around without them. *)
Definition arith {E} (checks : bool) (w z : Z) : outcome E Z :=
  if bool_decide (in_width w z) then Ret z
  else if checks then Panic else Ret (wrap w z).

(** [usize::try_from] and its like *)
Definition try_into {E} (w z : Z) (e : E) : outcome E Z :=
  if bool_decide (in_width w z) then Ret z else Fail e.

Lemma in_width_wrap w z : 0 ≤ w → in_width w (wrap w z).
Proof. intros. unfold in_width, wrap. apply Z.mod_pos_bound. lia. Qed.

Lemma wrap_small w z : in_width w z → wrap w z = z.
Proof. apply Z.mod_small. Qed.

Lemma in_width_mono w w' z : w ≤ w' → in_width w z → in_width w' z.
Proof.
  unfold in_width. intros Hw Hz. destruct (decide (0 ≤ w)).
  - pose proof (Z.pow_le_mono_r 2 w w'). lia.
  - rewrite (Z.pow_neg_r 2 w) in Hz; lia.
Qed.

Lemma in_width_nonneg w z : in_width w z → 0 ≤ z.
Proof. unfold in_width. lia. Qed.

Lemma checked_add_Some w a b z :
  checked_add w a b = Some z ↔ z = a + b ∧ in_width w (a + b).
Proof. unfold checked_add. case_bool_decide; naive_solver. Qed.

Lemma checked_mul_Some w a b z :
  checked_mul w a b = Some z ↔ z = a * b ∧ in_width w (a * b).
Proof. unfold checked_mul. case_bool_decide; naive_solver. Qed.

Lemma arith_fits {E} checks w z : in_width w z → arith (E:=E) checks w z = Ret z.
Proof. intros. unfold arith. by rewrite bool_decide_eq_true_2. Qed.

Lemma try_into_Ret {E} w z (e : E) z' : try_into w z e = Ret z' ↔ z' = z ∧ in_width w z.
Proof. unfold try_into. case_bool_decide; naive_solver. Qed.

(** ** Bits *)

Lemma testbit_lor_bit x i j :
  0 ≤ i → Z.testbit (Z.lor x (Z.shiftl 1 i)) j = Z.testbit x j || bool_decide (i = j).
Proof.
  intros Hi. destruct (decide (0 ≤ j)) as [Hj|Hj].
  - rewrite Z.lor_spec, Z.shiftl_spec by done. f_equal. case_bool_decide; subst.
    + by rewrite Z.sub_diag.
    + destruct (decide (j < i)); [by rewrite Z.testbit_neg_r by lia|].
      replace 1 with (2 ^ 0) by done. rewrite Z.pow2_bits_false by lia. done.
  - rewrite !Z.testbit_neg_r by lia. rewrite bool_decide_eq_false_2 by lia. done.
Qed.

Lemma testbit_lxor_bit x i j :
  0 ≤ i → Z.testbit (Z.lxor x (Z.shiftl 1 i)) j = xorb (Z.testbit x j) (bool_decide (i = j)).
Proof.
  intros Hi. destruct (decide (0 ≤ j)) as [Hj|Hj].
  - rewrite Z.lxor_spec, Z.shiftl_spec by done. f_equal. case_bool_decide; subst.
    + by rewrite Z.sub_diag.
    + destruct (decide (j < i)); [by rewrite Z.testbit_neg_r by lia|].
      replace 1 with (2 ^ 0) by done. rewrite Z.pow2_bits_false by lia. done.
  - rewrite !Z.testbit_neg_r by lia. rewrite bool_decide_eq_false_2 by lia. done.
Qed.

Lemma land_bit_testbit x i :
  0 ≤ i → bool_decide (Z.land x (Z.shiftl 1 i) ≠ 0) = Z.testbit x i.
Proof.
  intros Hi. destruct (Z.testbit x i) eqn:Hx.
  - apply bool_decide_eq_true_2. intros Hz.
    assert (Z.testbit (Z.land x (Z.shiftl 1 i)) i = false) as Hb by (by rewrite Hz, Z.bits_0).
    rewrite Z.land_spec, Hx, Z.shiftl_spec, Z.sub_diag in Hb by done. done.
  - apply bool_decide_eq_false_2. intros Hz. apply Hz. apply Z.bits_inj_0. intros j.
    destruct (decide (0 ≤ j)) as [Hj|]; [|by rewrite Z.testbit_neg_r by lia].
    rewrite Z.land_spec, Z.shiftl_spec by done.
    destruct (decide (j = i)) as [->|]; [by rewrite Hx|].
    replace 1 with (2 ^ 0) by done.
    destruct (decide (j < i)); [rewrite (Z.testbit_neg_r _ (j - i)) by lia|
      rewrite Z.pow2_bits_false by lia]; apply andb_false_r.
Qed.

(** Two fields side by side: the low [n] bits and what is shifted above them. *)
Lemma lor_shiftl_add i r n :
  0 ≤ n → in_width n i → Z.lor i (Z.shiftl r n) = i + r * 2 ^ n.
Proof.
  intros Hn Hi. rewrite <-Z.shiftl_mul_pow2 by done.
  assert (Z.land i (Z.shiftl r n) = 0) as Hland.
  { apply Z.bits_inj_0. intros j. rewrite Z.land_spec.
    destruct (decide (j < n)); [|].
    - destruct (decide (0 ≤ j)); [|by rewrite Z.testbit_neg_r by lia].
      rewrite Z.shiftl_spec_low by lia. apply andb_false_r.
    - rewrite <-(Z.mod_small i (2 ^ n)) by done.
      by rewrite Z.mod_pow2_bits_high by lia. }
  rewrite Z.add_nocarry_lxor by done. by rewrite Z.lxor_lor.
Qed.

Lemma shiftl_1_ones n : 0 ≤ n → Z.shiftl 1 n - 1 = Z.ones n.
Proof. intros. by rewrite Z.ones_equiv, Z.shiftl_1_l, Z.sub_1_r. Qed.

(** A set of bits [a] inside the set [m]: [a & !m == 0]. *)
Definition bits_subset (a m : Z) : Prop := Z.land a m = a.

#[export] Instance bits_subset_dec a m : Decision (bits_subset a m).
Proof. unfold bits_subset. apply _. Defined.

Lemma bits_subset_testbit a m :
  bits_subset a m ↔ ∀ i, Z.testbit a i = true → Z.testbit m i = true.
Proof.
  unfold bits_subset. split.
  - intros Ha i Hi. rewrite <-Ha, Z.land_spec in Hi. by destruct (Z.testbit m i), (Z.testbit a i).
  - intros H. apply Z.bits_inj. intros i. rewrite Z.land_spec.
    specialize (H i). destruct (Z.testbit a i); [by rewrite H|done].
Qed.

Lemma land_ldiff_zero a m : Z.ldiff a m = 0 ↔ bits_subset a m.
Proof.
  rewrite bits_subset_testbit. split.
  - intros H i Hi. assert (Z.testbit (Z.ldiff a m) i = false) as Hb by (by rewrite H, Z.bits_0).
    rewrite Z.ldiff_spec, Hi in Hb. by destruct (Z.testbit m i).
  - intros H. apply Z.bits_inj_0. intros i. rewrite Z.ldiff_spec.
    specialize (H i). destruct (Z.testbit a i); [by rewrite H|done].
Qed.

(** ** Bytes *)

Definition is_byte (b : Z) : Prop := 0 ≤ b < 2 ^ 8.
Abbreviation bytes := (list Z).

Lemma lor_bit_byte x i : is_byte x → 0 ≤ i < 8 → is_byte (Z.lor x (Z.shiftl 1 i)).
Proof.
  intros [Hx0 Hx] Hi. assert (0 ≤ Z.lor x (Z.shiftl 1 i)) as H0.
  { apply Z.lor_nonneg. rewrite Z.shiftl_1_l. lia. }
  split; [done|]. apply Z.bounded_iff_bits_nonneg; [done..|]. intros l Hl.
  rewrite testbit_lor_bit, bool_decide_eq_false_2, orb_false_r by lia.
  by apply (proj1 (Z.bounded_iff_bits_nonneg 8 x ltac:(done) Hx0) Hx).
Qed.

(** The [n] bytes of a little-endian integer, and the integer of some bytes. *)
Definition le_bytes (n : Z) (z : Z) : bytes := Z_to_little_endian n 8 z.
Definition le_val (bs : bytes) : Z := little_endian_to_Z 8 bs.

Lemma length_le_bytes n z : 0 ≤ n → length (le_bytes n z) = Z.to_nat n.
Proof.
  intros. pose proof (length_Z_to_little_endian n 8 z ltac:(done)) as H'.
  unfold le_bytes. lia.
Qed.

Lemma le_bytes_bytes n z : 0 ≤ n → Forall is_byte (le_bytes n z).
Proof. intros. apply Z_to_little_endian_bound; lia. Qed.

Lemma le_val_le_bytes n z : 0 ≤ n → in_width (n * 8) z → le_val (le_bytes n z) = z.
Proof.
  intros Hn Hz. unfold le_val, le_bytes.
  rewrite little_endian_to_Z_to_little_endian by lia. by apply wrap_small.
Qed.

Lemma le_bytes_le_val bs :
  Forall is_byte bs → le_bytes (Z.of_nat (length bs)) (le_val bs) = bs.
Proof. intros Hbs. apply Z_to_little_endian_to_Z; [lia|lia|done]. Qed.

Lemma le_val_width bs : Forall is_byte bs → in_width (Z.of_nat (length bs) * 8) (le_val bs).
Proof. intros Hbs. apply little_endian_to_Z_bound; [lia|done]. Qed.

Lemma le_val_nonneg bs : Forall is_byte bs → 0 ≤ le_val bs.
Proof. intros H%le_val_width. by apply in_width_nonneg in H. Qed.

(** ** Lists *)

Lemma take_drop_app {A} n (l1 l2 : list A) :
  length l1 = n → take n (l1 ++ l2) = l1 ∧ drop n (l1 ++ l2) = l2.
Proof. intros <-. by rewrite take_app_length, drop_app_length. Qed.

Lemma Forall2_compose {A B C} (P : A → B → Prop) (R : B → C → Prop) (Q : A → C → Prop) l1 l2 l3 :
  (∀ x y z, P x y → R y z → Q x z) →
  Forall2 P l1 l2 → Forall2 R l2 l3 → Forall2 Q l1 l3.
Proof.
  intros HPR HP. revert l3. induction HP as [|x y l1 l2 Hxy HP IH]; intros l3 HR;
    inversion HR; subst; constructor; eauto.
Qed.

(** ** Runs of a labelled step relation *)

Inductive runs {L S : Type} (step : L → S → S → Prop) : list L → S → S → Prop :=
| runs_nil s : runs step [] s s
| runs_cons l ls s s1 s' : step l s s1 → runs step ls s1 s' → runs step (l :: ls) s s'.

Lemma runs_app {L S} (step : L → S → S → Prop) ls1 ls2 s s1 s2 :
  runs step ls1 s s1 → runs step ls2 s1 s2 → runs step (ls1 ++ ls2) s s2.
Proof. induction 1; [done|]. intros. econstructor; eauto. Qed.

Lemma runs_app_inv {L S} (step : L → S → S → Prop) ls1 ls2 s s2 :
  runs step (ls1 ++ ls2) s s2 → ∃ s1, runs step ls1 s s1 ∧ runs step ls2 s1 s2.
Proof.
  revert s. induction ls1 as [|l ls1 IH]; intros s Hruns; simpl in Hruns.
  { exists s. split; [apply runs_nil|done]. }
  inversion Hruns as [|? ? ? s1 ? Hstep Hrest]; subst. destruct (IH s1 Hrest) as (s3 & Hruns1 & Hruns2).
  exists s3. split; [by eapply runs_cons|done].
Qed.

(** A simulation of steps is one of runs. *)
Lemma runs_simulation {L S S'} (step : L → S → S → Prop) (step' : L → S' → S' → Prop) (R : S → S')
    ls s s1 :
  (∀ l s s1, step l s s1 → step' l (R s) (R s1)) → runs step ls s s1 → runs step' ls (R s) (R s1).
Proof. intros Hsim. induction 1; econstructor; eauto. Qed.

(** The same with an invariant of the simulating machine *)
Lemma runs_simulation_inv {L S S'} (step : L → S → S → Prop) (step' : L → S' → S' → Prop)
    (I : S → Prop) (R : S → S') ls s s1 :
  (∀ l s s1, I s → step l s s1 → I s1 ∧ step' l (R s) (R s1)) → I s → runs step ls s s1 →
  I s1 ∧ runs step' ls (R s) (R s1).
Proof.
  intros Hsim Hi. induction 1 as [s|l ls s s1 s' Hstep _ IH]; [split; [done|constructor]|].
  destruct (Hsim _ _ _ Hi Hstep) as [Hi1 Hstep1]. destruct (IH Hi1). split; [done|]. by econstructor.
Qed.
