(* ===== verification/EventToken.v ===== *)
(** * Event tokens: [event_manager/src/lib.rs] (the trait [EventToken] and its
    instances), [event_manager/src/arbitrary_int_support.rs] and the code that
    the derive macro of [event_token_derive/src/lib.rs] generates.

    A type that implements [EventToken] is described by a [token_ty] (its
    variants, each with at most one field), a value of it by a [token_val].
    [used_bits], [as_raw_token] and [from_raw_token] are the associated constant
    and the two methods; the associated constant is [None] when its evaluation
    panics, which rejects the enum at compile time. *)

From S2P Require Import Prelude.

(** ** Types and values that are tokens *)

#[local] Unset Elimination Schemes.
Inductive token_ty : Type :=
| Tusize
| Tu64
| Tu32
| Tu16
| Tu8
| Tunit
| TUInt (n : Z)                              (* arbitrary_int's UInt<_, N> *)
| TEnum (variants : list (option token_ty)). (* a derived enum *)

Inductive token_val : Type :=
| VInt (z : Z)
| VUnit
| VEnum (index : nat) (data : option token_val).
#[local] Set Elimination Schemes.

(** [usize::next_power_of_two] and [usize::trailing_zeros] *)
Definition next_power_of_two (n : Z) : Z := 2 ^ Z.log2_up n.

Fixpoint pos_trailing_zeros (p : positive) : Z :=
  match p with
  | xO p => 1 + pos_trailing_zeros p
  | _ => 0
  end.

Definition trailing_zeros (n : Z) : Z :=
  match n with Zpos p => pos_trailing_zeros p | _ => 64 end.

Definition variant_bits {A} (variants : list A) : Z :=
  match variants with
  | [] => 0
  | _ => trailing_zeros (next_power_of_two (Z.of_nat (length variants)))
  end.

(** The generated [maximum] *)
Definition maximum (nums : list Z) : Z :=
  fold_left (λ max x, if x >? max then x else max) nums 0.

(** *** [arbitrary_int_support.rs]: the instance of the trait for [UInt<_, N>] *)

Definition uint_used_bits (n : Z) : Z := n.

Definition uint_as_raw_token (self : Z) : Z := self.

(** [Self::try_from(data).unwrap()] *)
Definition uint_from_raw_token (n data : Z) : outcome unit Z :=
  if bool_decide (in_width n data) then Ret data else Panic.

(** *** The macro *)

(** The generated constant [USED_BITS] *)
Fixpoint used_bits (t : token_ty) : option Z :=
  match t with
  | Tusize => Some 64
  | Tu64 => Some 64
  | Tu32 => Some 32
  | Tu16 => Some 16
  | Tu8 => Some 8
  | Tunit => Some 0
  | TUInt n => Some (uint_used_bits n)
  | TEnum variants =>
      let max_allowed_bits := 64 - variant_bits variants in
      let fix exprs (vs : list (option token_ty)) : option (list Z) :=
        match vs with
        | [] => Some []
        | None :: vs => exprs vs
        | Some ty :: vs =>
            match used_bits ty with
            | Some b =>
                if b <=? max_allowed_bits
                then match exprs vs with Some bs => Some (b :: bs) | None => None end
                else None
            | None => None
            end
        end in
      match exprs variants with
      | Some bs => Some (maximum bs + variant_bits variants)
      | None => None
      end
  end.

(** The method [as_raw_token]; [None] only for a value that is not of the type. *)
Fixpoint as_raw_token (t : token_ty) (v : token_val) : option Z :=
  match t, v with
  | (Tusize | Tu64 | Tu32 | Tu16 | Tu8), VInt z => Some z
  | TUInt _, VInt z => Some (uint_as_raw_token z)
  | Tunit, VUnit => Some 0
  | TEnum variants, VEnum index data =>
      let vbits := variant_bits variants in
      let fix arm (vs : list (option token_ty)) (i : nat) : option Z :=
        match vs, i with
        | Some ty :: _, O =>
            match data with
            | Some d =>
                match as_raw_token ty d with
                | Some r => Some (Z.lor (Z.of_nat index) (wrap 64 (Z.shiftl r vbits)))
                | None => None
                end
            | None => None
            end
        | None :: _, O => match data with None => Some (Z.of_nat index) | Some _ => None end
        | _ :: vs, S i => arm vs i
        | [], _ => None
        end in
      arm variants index
  | _, _ => None
  end.

(** The method [from_raw_token]; it panics on a variant index that no arm
    matches ([unreachable!()]) and on a value that does not fit a [UInt]. *)
Fixpoint from_raw_token (t : token_ty) (data : Z) : outcome unit token_val :=
  match t with
  | Tusize => Ret (VInt (wrap 64 data))
  | Tu64 => Ret (VInt data)
  | Tu32 => Ret (VInt (wrap 32 data))
  | Tu16 => Ret (VInt (wrap 16 data))
  | Tu8 => Ret (VInt (wrap 8 data))
  | Tunit => Ret VUnit
  | TUInt n => outcome_map VInt (uint_from_raw_token n data)
  | TEnum variants =>
      let vbits := variant_bits variants in
      let variant_mask := Z.shiftl 1 vbits - 1 in
      let index := Z.to_nat (Z.land data variant_mask) in
      let fix arm (vs : list (option token_ty)) (i : nat) : outcome unit token_val :=
        match vs, i with
        | Some ty :: _, O =>
            match from_raw_token ty (Z.shiftr data vbits) with
            | Ret d => Ret (VEnum index (Some d))
            | Fail e => Fail e
            | Panic => Panic
            | NoFuel => NoFuel
            end
        | None :: _, O => Ret (VEnum index None)
        | _ :: vs, S i => arm vs i
        | [], _ => Panic
        end in
      arm variants index
  end.

(** ** The values of a type *)

Inductive has_type : token_ty → token_val → Prop :=
| has_usize z : in_width 64 z → has_type Tusize (VInt z)
| has_u64 z : in_width 64 z → has_type Tu64 (VInt z)
| has_u32 z : in_width 32 z → has_type Tu32 (VInt z)
| has_u16 z : in_width 16 z → has_type Tu16 (VInt z)
| has_u8 z : in_width 8 z → has_type Tu8 (VInt z)
| has_unit : has_type Tunit VUnit
| has_UInt n z : 0 ≤ n ≤ 64 → in_width n z → has_type (TUInt n) (VInt z)
| has_unit_variant vs i : vs !! i = Some None → has_type (TEnum vs) (VEnum i None)
| has_data_variant vs i ty d :
    vs !! i = Some (Some ty) → has_type ty d → has_type (TEnum vs) (VEnum i (Some d)).

(** ** The number of bits of the variant index *)

Lemma pos_trailing_zeros_pow2 k :
  0 ≤ k → trailing_zeros (2 ^ k) = k.
Proof.
  intros Hk. pattern k. apply natlike_ind; [done| |done].
  intros x Hx IH. rewrite Z.pow_succ_r by done.
  pose proof (Z.pow_pos_nonneg 2 x ltac:(lia) Hx).
  destruct (2 ^ x) as [|p|p]; [lia| |lia].
  change (2 * Z.pos p) with (Z.pos p~0). simpl in *. lia.
Qed.

Lemma variant_bits_log2_up {A} (vs : list A) :
  variant_bits vs = Z.log2_up (Z.of_nat (length vs)).
Proof.
  unfold variant_bits, next_power_of_two. destruct vs; [done|].
  apply pos_trailing_zeros_pow2, Z.log2_up_nonneg.
Qed.

Lemma variant_bits_nonneg {A} (vs : list A) : 0 ≤ variant_bits vs.
Proof. rewrite variant_bits_log2_up. apply Z.log2_up_nonneg. Qed.

(** Every variant index fits the bits reserved for it. *)
Lemma variant_index_fits {A} (vs : list A) i x :
  vs !! i = Some x → Z.of_nat i < 2 ^ variant_bits vs.
Proof.
  intros Hi%lookup_lt_Some. rewrite variant_bits_log2_up.
  pose proof (Z.log2_up_spec (Z.of_nat (length vs))) as Hspec.
  destruct (decide (Z.of_nat (length vs) = 1)) as [H1|]; [rewrite H1; change (2 ^ _) with 1; lia|].
  specialize (Hspec ltac:(lia)). lia.
Qed.

(** ** What the macro's checks establish *)

Lemma maximum_spec nums :
  0 ≤ maximum nums ∧ (∀ x, x ∈ nums → x ≤ maximum nums) ∧
  (∀ m, 0 ≤ m → (∀ x, x ∈ nums → x ≤ m) → maximum nums ≤ m).
Proof.
  unfold maximum.
  assert (∀ acc, acc ≤ fold_left (λ max x, if x >? max then x else max) nums acc ∧
    (∀ x, x ∈ nums → x ≤ fold_left (λ max x, if x >? max then x else max) nums acc) ∧
    (∀ m, acc ≤ m → (∀ x, x ∈ nums → x ≤ m) →
      fold_left (λ max x, if x >? max then x else max) nums acc ≤ m)) as H; [|by apply H].
  induction nums as [|y nums IH]; intros acc; simpl.
  { split_and!; [done|set_solver|done]. }
  destruct (IH (if y >? acc then y else acc)) as (H1 & H2 & H3).
  destruct (y >? acc) eqn:Hy; split_and!; try lia.
  1,3: intros x [->|Hx]%elem_of_cons; [lia|by apply H2].
  all: intros m Hm Hall; apply H3; [set_solver|]; intros; apply Hall; set_solver.
Qed.

(** An enum that the macro accepts leaves room for the index and each field. *)
Lemma used_bits_enum vs b :
  used_bits (TEnum vs) = Some b →
  variant_bits vs ≤ b ∧
  ∀ i ty, vs !! i = Some (Some ty) →
    ∃ bt, used_bits ty = Some bt ∧ bt ≤ 64 - variant_bits vs ∧ bt + variant_bits vs ≤ b.
Proof.
  cbn [used_bits].
  set (exprs := fix exprs (l : list (option token_ty)) := _).
  assert (∀ l bs, exprs l = Some bs → ∀ i ty, l !! i = Some (Some ty) →
    ∃ bt, used_bits ty = Some bt ∧ bt ≤ 64 - variant_bits vs ∧ bt ∈ bs) as Hex.
  { induction l as [|[ty0|] l IH]; intros bs Hbs [|i] ty Hi; simpl in *; simplify_eq; eauto.
    - destruct (used_bits ty) as [bt|]; [|done]. destruct (_ <=? _) eqn:?; [|done].
      destruct (exprs l); simplify_eq. exists bt. split_and!; [done|lia|set_solver].
    - destruct (used_bits ty0) as [bt0|]; [|done]. destruct (_ <=? _); [|done].
      destruct (exprs l) as [bs'|] eqn:Hl; simplify_eq.
      destruct (IH _ eq_refl _ _ Hi) as (bt & ? & ? & ?).
      exists bt. split_and!; [done..|set_solver]. }
  destruct (exprs vs) as [bs|] eqn:Hbs; [|done]. intros ?; simplify_eq.
  destruct (maximum_spec bs) as (Hm0 & Hm & _). split; [lia|].
  intros i ty Hi. destruct (Hex _ _ Hbs _ _ Hi) as (bt & ? & ? & Hin).
  exists bt. specialize (Hm _ Hin). split_and!; [done..|lia].
Qed.

Lemma as_raw_token_unit vs i :
  vs !! i = Some None → as_raw_token (TEnum vs) (VEnum i None) = Some (Z.of_nat i).
Proof.
  cbn [as_raw_token]. set (arm := fix arm (l : list (option token_ty)) := _).
  assert (∀ l j, l !! j = Some None → arm l j = Some (Z.of_nat i)) as H; [|by apply H].
  induction l as [|[ty|] l IH]; intros [|j] Hj; simpl in *; simplify_eq; auto.
Qed.

Lemma as_raw_token_data vs i ty d r :
  vs !! i = Some (Some ty) → as_raw_token ty d = Some r →
  as_raw_token (TEnum vs) (VEnum i (Some d)) =
    Some (Z.lor (Z.of_nat i) (wrap 64 (Z.shiftl r (variant_bits vs)))).
Proof.
  intros Hi Hr. cbn [as_raw_token]. set (arm := fix arm (l : list (option token_ty)) := _).
  assert (∀ l j, l !! j = Some (Some ty) → arm l j =
    Some (Z.lor (Z.of_nat i) (wrap 64 (Z.shiftl r (variant_bits vs))))) as H; [|by apply H].
  induction l as [|[ty'|] l IH]; intros [|j] Hj; simpl in *; simplify_eq; auto.
  by rewrite Hr.
Qed.

Lemma from_raw_token_enum vs data i f :
  Z.to_nat (Z.land data (Z.shiftl 1 (variant_bits vs) - 1)) = i → vs !! i = Some f →
  from_raw_token (TEnum vs) data =
    match f with
    | None => Ret (VEnum i None)
    | Some ty =>
        outcome_map (λ d, VEnum i (Some d)) (from_raw_token ty (Z.shiftr data (variant_bits vs)))
    end.
Proof.
  intros Hidx Hi. cbn [from_raw_token]. rewrite Hidx.
  set (arm := fix arm (l : list (option token_ty)) := _).
  assert (∀ l j, l !! j = Some f → arm l j =
    match f with
    | None => Ret (VEnum i None)
    | Some ty =>
        outcome_map (λ d, VEnum i (Some d)) (from_raw_token ty (Z.shiftr data (variant_bits vs)))
    end) as H; [|by apply H].
  induction l as [|[ty'|] l IH]; intros [|j] Hj; simpl in *; simplify_eq; auto.
Qed.

(** ** The tokens of an accepted type round-trip *)

Lemma uint_token_roundtrip n z :
  in_width n z → uint_from_raw_token n (uint_as_raw_token z) = Ret z.
Proof. intros Hz. unfold uint_from_raw_token. by rewrite bool_decide_eq_true_2. Qed.

Lemma token_roundtrip_strong t v :
  has_type t v → ∀ b, used_bits t = Some b →
  ∃ r, as_raw_token t v = Some r ∧ in_width b r ∧ from_raw_token t r = Ret v.
Proof.
  induction 1 as [z Hz|z Hz|z Hz|z Hz|z Hz| |n z Hn Hz|vs i Hi|vs i ty d Hi Hd IH];
    intros b Hb; try (cbn in Hb; simplify_eq; exists z; cbn; rewrite ?wrap_small by done; by split_and!).
  - cbn in Hb. simplify_eq. by exists 0.
  - cbn in Hb. simplify_eq. exists (uint_as_raw_token z). cbn [from_raw_token].
    by rewrite (uint_token_roundtrip _ z).
  - destruct (used_bits_enum _ _ Hb) as [Hvb _].
    pose proof (variant_bits_nonneg vs). pose proof (variant_index_fits _ _ _ Hi).
    exists (Z.of_nat i). split_and!; [by apply as_raw_token_unit| |].
    { apply (in_width_mono (variant_bits vs)); [done|]. unfold in_width. lia. }
    rewrite (from_raw_token_enum _ _ i None); [done| |done].
    rewrite shiftl_1_ones, Z.land_ones, Z.mod_small by lia. lia.
  - destruct (used_bits_enum _ _ Hb) as [Hvb Hfit].
    destruct (Hfit _ _ Hi) as (bt & Hbt & Hle & Hle').
    destruct (IH _ Hbt) as (r & Hr & Hrw & Hfrom).
    pose proof (variant_bits_nonneg vs) as Hn. pose proof (variant_index_fits _ _ _ Hi) as Hif.
    set (n := variant_bits vs) in *.
    assert (0 ≤ bt) as Hbt0.
    { destruct (decide (0 ≤ bt)); [done|]. unfold in_width in Hrw.
      rewrite Z.pow_neg_r in Hrw by lia. lia. }
    assert (0 ≤ r * 2 ^ n ∧ Z.of_nat i + r * 2 ^ n < 2 ^ (bt + n)) as [Hnn Hlt].
    { rewrite Z.pow_add_r by done. unfold in_width in Hrw.
      pose proof (Z.pow_pos_nonneg 2 n). nia. }
    assert (Z.lor (Z.of_nat i) (wrap 64 (Z.shiftl r n)) = Z.of_nat i + r * 2 ^ n) as Heq.
    { rewrite wrap_small.
      - apply lor_shiftl_add; [done|]. unfold in_width. lia.
      - rewrite Z.shiftl_mul_pow2 by done. unfold in_width.
        pose proof (Z.pow_le_mono_r 2 (bt + n) 64). lia. }
    exists (Z.of_nat i + r * 2 ^ n). split_and!.
    + rewrite (as_raw_token_data _ _ _ _ _ Hi Hr). by f_equal.
    + apply (in_width_mono (bt + n)); [done|]. unfold in_width. lia.
    + rewrite (from_raw_token_enum _ _ i (Some ty)); [| |done].
      * fold n. rewrite Z.shiftr_div_pow2, Z.div_add, (Z.div_small (Z.of_nat i)) by lia.
        rewrite Z.add_0_l, Hfrom. done.
      * fold n. rewrite shiftl_1_ones, Z.land_ones, Z.mod_add, Z.mod_small by lia. lia.
Qed.

(** Claim C15. Every value of a type whose [USED_BITS] evaluates packs into a raw
    token of at most [USED_BITS] bits, and unpacking that raw token gives the
    value back, at every level of nesting; in particular no arm panics. *)
Theorem token_roundtrip t v b :
  has_type t v → used_bits t = Some b →
  ∃ r, as_raw_token t v = Some r ∧ in_width b r ∧ from_raw_token t r = Ret v.
Proof. intros Ht Hb. by apply (token_roundtrip_strong t v). Qed.

(** The enum [TokL1] of the crate's tests, over the nested [TokL2] and [TokL3]. *)
Definition TokL2 : token_ty := TEnum [Some Tu32; Some Tu32].
Definition TokL3 : token_ty := TEnum [Some TokL2; Some TokL2].
Definition TokL1 : token_ty := TEnum [None; Some TokL2; Some TokL3].

Lemma token_roundtrip_witness :
  has_type TokL1 (VEnum 2 (Some (VEnum 1 (Some (VEnum 0 (Some (VInt 7))))))) ∧
  used_bits TokL1 = Some 36 ∧
  ∃ r, as_raw_token TokL1 (VEnum 2 (Some (VEnum 1 (Some (VEnum 0 (Some (VInt 7))))))) = Some r ∧
    in_width 36 r ∧
    from_raw_token TokL1 r = Ret (VEnum 2 (Some (VEnum 1 (Some (VEnum 0 (Some (VInt 7))))))).
Proof.
  assert (has_type TokL1 (VEnum 2 (Some (VEnum 1 (Some (VEnum 0 (Some (VInt 7)))))))) as Ht.
  { repeat (eapply has_data_variant; [reflexivity|]). apply has_u32. by compute. }
  split_and!; [done|reflexivity|].
  exact (token_roundtrip TokL1 _ 36 Ht eq_refl).
Defined.

(** Two different values of an accepted type never share a raw token,
    so an event delivered by epoll identifies the source it was registered for. *)
Theorem token_injective t v1 v2 b :
  has_type t v1 → has_type t v2 → used_bits t = Some b →
  as_raw_token t v1 = as_raw_token t v2 → v1 = v2.
Proof.
  intros H1 H2 Hb Heq.
  destruct (token_roundtrip_strong _ _ H1 _ Hb) as (r1 & E1 & _ & F1).
  destruct (token_roundtrip_strong _ _ H2 _ Hb) as (r2 & E2 & _ & F2).
  congruence.
Qed.

Lemma token_injective_witness :
  ∃ v, has_type TokL2 v ∧ used_bits TokL2 = Some 33 ∧
    as_raw_token TokL2 v = as_raw_token TokL2 (VEnum 1 (Some (VInt 5))) ∧
    v = VEnum 1 (Some (VInt 5)).
Proof.
  assert (has_type TokL2 (VEnum 1 (Some (VInt 5)))) as Ht.
  { eapply has_data_variant; [reflexivity|]. apply has_u32. by compute. }
  exists (VEnum 1 (Some (VInt 5))). split_and!; [done|reflexivity|reflexivity|].
  exact (token_injective TokL2 _ _ 33 Ht Ht eq_refl eq_refl).
Defined.

Lemma used_bits_exprs_None vs m :
  (fix exprs (l : list (option token_ty)) : option (list Z) :=
    match l with
    | [] => Some []
    | None :: l => exprs l
    | Some ty :: l =>
        match used_bits ty with
        | Some b =>
            if b <=? m then match exprs l with Some bs => Some (b :: bs) | None => None end
            else None
        | None => None
        end
    end) vs = None ↔
  ∃ ty, Some ty ∈ vs ∧ (used_bits ty = None ∨ ∃ bt, used_bits ty = Some bt ∧ m < bt).
Proof.
  induction vs as [|[ty|] vs IH].
  - split; [done|]. intros (? & ?%elem_of_nil & _). done.
  - destruct (used_bits ty) as [bt|] eqn:Hbt.
    + destruct (bt <=? m) eqn:Hle.
      * match type of IH with ?e = None ↔ _ => destruct e eqn:He end.
        -- split; [done|]. intros (ty' & [Heq|Hin]%elem_of_cons & Hbad).
           ++ simplify_eq. destruct Hbad as [|(? & ? & ?)]; simplify_eq; lia.
           ++ discriminate (proj2 IH (ex_intro _ ty' (conj Hin Hbad))).
        -- split; [|done]. intros _. destruct (proj1 IH eq_refl) as (ty' & ? & ?).
           exists ty'. split; [by constructor|done].
      * split; [|done]. intros _. exists ty. split; [by constructor|].
        right. exists bt. split; [done|lia].
    + split; [|done]. intros _. exists ty. split; [by constructor|by left].
  - rewrite IH. split; intros (ty & Hin & Hbad); exists ty; (split; [|done]).
    + by constructor.
    + by apply elem_of_cons in Hin as [|].
Qed.

(** The macro rejects an enum at compile time exactly when the data of
    some variant is itself rejected or needs more bits than the variant index
    leaves of the 64. *)
Theorem derive_rejects vs :
  used_bits (TEnum vs) = None ↔
  ∃ ty, Some ty ∈ vs ∧
    (used_bits ty = None ∨ ∃ bt, used_bits ty = Some bt ∧ 64 - variant_bits vs < bt).
Proof.
  cbn [used_bits].
  rewrite <-(used_bits_exprs_None vs (64 - variant_bits vs)).
  match goal with |- match ?e with _ => _ end = None ↔ _ => by destruct e end.
Qed.

(** The limits the macro's documentation gives. *)
Example derive_limit_63 : used_bits (TEnum [Some (TUInt 63); Some (TUInt 33)]) = Some 64.
Proof. reflexivity. Qed.
Example derive_limit_64 : used_bits (TEnum [Some (TUInt 64); None]) = None.
Proof. reflexivity. Qed.
Example derive_limit_four : used_bits (TEnum [Some (TUInt 62); None; None; None]) = Some 64.
Proof. reflexivity. Qed.

(** ** The trait as an interface

    What the event manager relies on: a token fits its [USED_BITS] and comes back
    from its raw form. *)
Class EventToken (T : Type) := {
  USED_BITS : Z;
  token_as_raw : T → Z;
  token_from_raw : Z → outcome unit T;
  token_valid : T → Prop;
  token_fits t : token_valid t → in_width USED_BITS (token_as_raw t);
  token_from_as_raw t : token_valid t → token_from_raw (token_as_raw t) = Ret t;
}.

(** The derived instance of an enum whose variants carry no data. *)
Definition unit_enum {T} (variants : list T) : token_ty := TEnum (const None <$> variants).

Definition unit_enum_as_raw {T} `{EqDecision T} (variants : list T) (t : T) : Z :=
  match list_find (t =.) variants with
  | Some (i, _) => default 0 (as_raw_token (unit_enum variants) (VEnum i None))
  | None => 0
  end.

Definition unit_enum_from_raw {T} (variants : list T) (data : Z) : outcome unit T :=
  outcome_bind (from_raw_token (unit_enum variants) data) (λ v,
    match v with
    | VEnum i None => match variants !! i with Some t => Ret t | None => Panic end
    | _ => Panic
    end).

Lemma unit_enum_used_bits {T} (variants : list T) :
  used_bits (unit_enum variants) = Some (variant_bits variants).
Proof.
  unfold unit_enum. cbn [used_bits].
  set (exprs := fix exprs (l : list (option token_ty)) := _).
  assert (∀ l : list T, exprs (const None <$> l) = Some []) as ->.
  { induction l as [|? l IH]; [done|]. apply IH. }
  change (maximum []) with 0. by rewrite !variant_bits_log2_up, length_fmap.
Qed.

Program Definition derive_unit_enum {T} `{EqDecision T} (variants : list T) : EventToken T := {|
  USED_BITS := variant_bits variants;
  token_as_raw := unit_enum_as_raw variants;
  token_from_raw := unit_enum_from_raw variants;
  token_valid t := t ∈ variants;
|}.
Next Obligation.
  intros T ? variants t Ht. unfold unit_enum_as_raw.
  destruct (list_find_elem_of (t =.) variants t Ht eq_refl) as [[i t'] Hf]. rewrite Hf.
  apply list_find_Some in Hf as (Hi & <- & _).
  assert (has_type (unit_enum variants) (VEnum i None)) as Hty.
  { constructor. by rewrite list_lookup_fmap, Hi. }
  destruct (token_roundtrip_strong _ _ Hty _ (unit_enum_used_bits variants)) as (r & -> & ? & _).
  done.
Qed.
Next Obligation.
  intros T ? variants t Ht. unfold unit_enum_as_raw, unit_enum_from_raw.
  destruct (list_find_elem_of (t =.) variants t Ht eq_refl) as [[i t'] Hf]. rewrite Hf.
  apply list_find_Some in Hf as (Hi & <- & _).
  assert (has_type (unit_enum variants) (VEnum i None)) as Hty.
  { constructor. by rewrite list_lookup_fmap, Hi. }
  destruct (token_roundtrip_strong _ _ Hty _ (unit_enum_used_bits variants)) as (r & -> & _ & Hr).
  change (default 0 (Some r)) with r. rewrite Hr. simpl. by rewrite Hi.
Qed.
