(* ===== verification/Epoll.v ===== *)
(** * The epoll facility the program relies on

    [vmm_sys_util::epoll::Epoll] and the kernel behind it are not part of the
    program. They are an interface here: the operations as a class over a world
    [W], an observation [watched] of the interest lists, and the documented
    behaviour of [epoll_ctl] and [epoll_wait] as laws. A small reference instance
    [Sim] satisfies the laws and serves the concrete examples. *)

From S2P Require Import Prelude.

Inductive errno : Type := EEXIST | ENOENT | EINTR | EAGAIN | EOTHER (code : Z).

#[export] Instance errno_eq_dec : EqDecision errno.
Proof. solve_decision. Defined.

Inductive ctl_op : Type := CtlAdd | CtlModify | CtlDelete.

(** [EpollEvent]: the event mask and the 64-bit user data (the raw token). *)
Record epoll_event : Type := EpollEvent { ev_events : Z; ev_data : Z }.

(** An [Arc<Epoll>]: the allocation and the descriptor it owns. *)
Record EpollArc : Type := MkEpollArc { arc_id : Z; arc_raw : Z }.

#[export] Instance EpollArc_eq_dec : EqDecision EpollArc.
Proof. solve_decision. Defined.

(** The flags of [EventSet] and the mask of all flags it knows. *)
Class EventSetBits : Type := {
  ES_IN : Z;
  ES_OUT : Z;
  ES_HANG_UP : Z;
  ES_READ_HANG_UP : Z;
  ES_EDGE_TRIGGERED : Z;
  ES_ALL : Z;
}.

(** [EventSet::contains] *)
Definition es_contains (set flag : Z) : bool := bool_decide (Z.land set flag = flag).

(** [EventSet::from_bits_truncate] *)
Definition es_from_bits_truncate `{EventSetBits} (bits : Z) : Z := Z.land bits ES_ALL.

Class EpollOps (W : Type) : Type := {
  epoll_create : M W errno Z;
  epoll_ctl : Z → ctl_op → Z → epoll_event → M W errno unit;
  (* the epoll descriptor, the timeout in milliseconds, the number of slots *)
  epoll_wait : Z → Z → nat → M W errno (list epoll_event);
  (* the event an epoll instance watches a descriptor for *)
  watched : W → Z → Z → option epoll_event;
}.

Definition watched_set {W} `{EpollOps W} (w w' : W) (ep fd : Z) (v : option epoll_event) : Prop :=
  ∀ ep' fd', watched w' ep' fd' =
    if bool_decide (ep' = ep ∧ fd' = fd) then v else watched w ep' fd'.

Definition same_watched {W} `{EpollOps W} (w w' : W) : Prop :=
  ∀ ep fd, watched w' ep fd = watched w ep fd.

Class EpollLaws (W : Type) `{EpollOps W} : Prop := {
  (* EPOLL_CTL_ADD adds an entry that was not there, and fails with EEXIST else *)
  ctl_add_ok ep fd ev w w' :
    epoll_ctl ep CtlAdd fd ev w = (Ret tt, w') →
    watched w ep fd = None ∧ watched_set w w' ep fd (Some ev);
  (* EPOLL_CTL_MOD replaces an entry, and fails with ENOENT when there is none *)
  ctl_modify_ok ep fd ev w w' :
    epoll_ctl ep CtlModify fd ev w = (Ret tt, w') →
    watched w ep fd ≠ None ∧ watched_set w w' ep fd (Some ev);
  (* EPOLL_CTL_DEL removes an entry, and fails with ENOENT when there is none *)
  ctl_delete_ok ep fd ev w w' :
    epoll_ctl ep CtlDelete fd ev w = (Ret tt, w') →
    watched w ep fd ≠ None ∧ watched_set w w' ep fd None;
  (* a failing epoll_ctl changes nothing, and the call itself never panics *)
  ctl_fail ep op fd ev w e w' :
    epoll_ctl ep op fd ev w = (Fail e, w') → same_watched w w';
  ctl_result ep op fd ev w :
    (∃ w', epoll_ctl ep op fd ev w = (Ret tt, w')) ∨
    (∃ e w', epoll_ctl ep op fd ev w = (Fail e, w'));
  (* epoll_wait reports at most the slots it was given, each with the user data
     of a watched descriptor; a wait without a timeout reports at least one *)
  wait_ok ep timeout slots w evs w' :
    epoll_wait ep timeout slots w = (Ret evs, w') →
    (length evs ≤ slots)%nat ∧
    (timeout < 0 → (0 < slots)%nat → evs ≠ []) ∧
    (∀ e, e ∈ evs → ∃ fd ev, watched w ep fd = Some ev ∧ ev_data e = ev_data ev);
  wait_watched ep timeout slots w :
    same_watched w (epoll_wait ep timeout slots w).2;
  wait_result ep timeout slots w :
    (∃ evs w', epoll_wait ep timeout slots w = (Ret evs, w')) ∨
    (∃ e w', epoll_wait ep timeout slots w = (Fail e, w'));
  (* a new epoll instance watches nothing and leaves the others alone *)
  create_ok w ep w' :
    epoll_create w = (Ret ep, w') →
    (∀ fd, watched w' ep fd = None) ∧
    (∀ ep' fd, ep' ≠ ep → watched w' ep' fd = watched w ep' fd);
}.

(** ** [EventFd], of [vmm_sys_util] *)

(** Event descriptors: [vmm_sys_util::eventfd::EventFd]. *)
Class EventFdOps (W : Type) : Type := {
  efd_read : Z → M W errno Z;
  efd_write : Z → Z → M W errno unit;
}.

Class EventFdLaws (W : Type) `{EpollOps W} `{EventFdOps W} : Prop := {
  efd_read_watched fd w : same_watched w (efd_read fd w).2;
  efd_write_watched fd n w : same_watched w (efd_write fd n w).2;
  efd_read_result fd w :
    (∃ n w', efd_read fd w = (Ret n, w')) ∨ (∃ e w', efd_read fd w = (Fail e, w'));
  efd_write_result fd n w :
    (∃ w', efd_write fd n w = (Ret tt, w')) ∨ (∃ e w', efd_write fd n w = (Fail e, w'));
}.

(** Creating an [EventFd] and duplicating it *)
Class EventFdMake (W : Type) : Type := {
  efd_new : M W errno Z;
  efd_try_clone : Z → M W errno Z;
}.

Section facts.
Context {W : Type} `{EpollLaws W}.

Lemma same_watched_refl (w : W) : same_watched w w.
Proof. done. Qed.

Lemma same_watched_trans (w1 w2 w3 : W) :
  same_watched w1 w2 → same_watched w2 w3 → same_watched w1 w3.
Proof. intros H1 H2 ep fd. by rewrite H2, H1. Qed.

Lemma watched_set_eq (w w' : W) ep fd v : watched_set w w' ep fd v → watched w' ep fd = v.
Proof. intros Hs. rewrite (Hs ep fd). by rewrite bool_decide_eq_true_2. Qed.

Lemma watched_set_ne (w w' : W) ep fd v ep' fd' :
  watched_set w w' ep fd v → ep' ≠ ep ∨ fd' ≠ fd → watched w' ep' fd' = watched w ep' fd'.
Proof. intros Hs Hne. rewrite (Hs ep' fd'), bool_decide_eq_false_2; [done|naive_solver]. Qed.
End facts.

(** ** A reference instance *)
Module Sim.

(** [interest] is the interest list of every instance, [ready] the descriptors
    with a pending event, in the order they became ready, [interrupts] how many
    of the next waits a signal interrupts. *)
Record world : Type := World {
  interest : gmap (Z * Z) epoll_event;
  ready : list Z;
  interrupts : nat;
  next_ep : Z;
}.

Definition ctl (ep : Z) (op : ctl_op) (fd : Z) (ev : epoll_event) : M world errno unit :=
  λ w,
    match op, interest w !! (ep, fd) with
    | CtlAdd, Some _ => (Fail EEXIST, w)
    | CtlAdd, None =>
        (Ret tt, World (<[(ep, fd) := ev]> (interest w)) (ready w) (interrupts w) (next_ep w))
    | CtlModify, Some _ =>
        (Ret tt, World (<[(ep, fd) := ev]> (interest w)) (ready w) (interrupts w) (next_ep w))
    | CtlModify, None => (Fail ENOENT, w)
    | CtlDelete, Some _ =>
        (Ret tt, World (delete (ep, fd) (interest w)) (ready w) (interrupts w) (next_ep w))
    | CtlDelete, None => (Fail ENOENT, w)
    end.

Definition pending (w : world) (ep : Z) : list epoll_event :=
  omap (λ fd, interest w !! (ep, fd)) (ready w).

Definition wait (ep timeout : Z) (slots : nat) : M world errno (list epoll_event) :=
  λ w,
    match interrupts w with
    | S n => (Fail EINTR, World (interest w) (ready w) n (next_ep w))
    | O =>
        match take slots (pending w ep) with
        | [] => if timeout <? 0 then (Fail (EOTHER 0), w) else (Ret [], w)
        | evs => (Ret evs, w)
        end
    end.

(** A new instance takes the next free number. *)
Definition create : M world errno Z :=
  λ w,
    (Ret (next_ep w),
     World (filter (λ kv, kv.1.1 ≠ next_ep w) (interest w)) (ready w) (interrupts w)
       (next_ep w + 1)).

#[export] Instance ops : EpollOps world := {|
  epoll_create := create;
  epoll_ctl := ctl;
  epoll_wait := wait;
  watched w ep fd := interest w !! (ep, fd);
|}.

#[export] Instance laws : EpollLaws world.
Proof.
  split; simpl.
  - intros ep fd ev w w'. unfold ctl. destruct (interest w !! (ep, fd)) eqn:?; [done|].
    intros ?; simplify_eq. split; [done|]. intros ep' fd'. simpl.
    case_bool_decide as Hd; [destruct Hd as [-> ->]; by rewrite lookup_insert_eq|].
    rewrite lookup_insert_ne by naive_solver. done.
  - intros ep fd ev w w'. unfold ctl. destruct (interest w !! (ep, fd)) eqn:?; [|done].
    intros ?; simplify_eq. split; [done|]. intros ep' fd'. simpl.
    case_bool_decide as Hd; [destruct Hd as [-> ->]; by rewrite lookup_insert_eq|].
    rewrite lookup_insert_ne by naive_solver. done.
  - intros ep fd ev w w'. unfold ctl. destruct (interest w !! (ep, fd)) eqn:?; [|done].
    intros ?; simplify_eq. split; [done|]. intros ep' fd'. simpl.
    case_bool_decide as Hd; [destruct Hd as [-> ->]; by rewrite lookup_delete_eq|].
    rewrite lookup_delete_ne by naive_solver. done.
  - intros ep op fd ev w e w'. unfold ctl.
    destruct op, (interest w !! (ep, fd)); intros ?; simplify_eq; done.
  - intros ep op fd ev w. unfold ctl. destruct op, (interest w !! (ep, fd)); eauto.
  - intros ep timeout slots w evs w'. unfold wait. destruct (interrupts w); [|done].
    destruct (take slots (pending w ep)) as [|e l] eqn:Ht.
    + destruct (timeout <? 0) eqn:?; intros ?; simplify_eq. simpl.
      split_and!; [lia|lia|by intros ? ?%elem_of_nil].
    + intros ?; simplify_eq. rewrite <-Ht. split_and!; [rewrite length_take; lia|by rewrite Ht|].
      intros e' He'%(subseteq_take slots).
      unfold pending in He'. apply list_elem_of_omap in He' as (fd & ? & ?). eauto.
  - intros ep timeout slots w ep' fd'. unfold wait. destruct (interrupts w); [|done].
    destruct (take _ _); [by destruct (timeout <? 0)|done].
  - intros ep timeout slots w. unfold wait. destruct (interrupts w); [|eauto].
    destruct (take _ _); [destruct (timeout <? 0)|]; eauto.
  - intros w ep w'. unfold create. intros ?; simplify_eq. simpl. split.
    + intros fd. apply map_lookup_filter_None. right. naive_solver.
    + intros ep' fd Hne. destruct (interest w !! (ep', fd)) eqn:Hl.
      * apply map_lookup_filter_Some. split; [done|]. simpl. done.
      * apply map_lookup_filter_None. by left.
Qed.

(** The flags of Linux. *)
#[export] Instance linux : EventSetBits := {|
  ES_IN := 1; ES_OUT := 4; ES_HANG_UP := 16; ES_READ_HANG_UP := 8192;
  ES_EDGE_TRIGGERED := 2147483648;
  ES_ALL := 1 + 2 + 4 + 8 + 16 + 8192 + 2 ^ 29 + 2 ^ 30 + 2 ^ 31 + 2 ^ 28;
|}.

Definition empty_world : world := World ∅ [] 0 100.
End Sim.
