(* ===== verification/EventManager.v ===== *)
(** * The event manager: [event_manager/src/lib.rs]

    [EventManager<T>] owns an epoll instance; its state is the number of that
    instance, the rest of its state is the kernel's interest list. A source
    registers itself with the raw form of a token; a wait turns the user data of
    every event back into a token. *)

From S2P Require Import Prelude EventToken Epoll.

(** [TriggeredEvent<T>] *)
Record TriggeredEvent (T : Type) : Type := MkTriggeredEvent {
  te_token : T;
  te_readable : bool;
  te_writable : bool;
  te_hungup : bool;
}.
Arguments MkTriggeredEvent {T}.
Arguments te_token {T}.
Arguments te_readable {T}.
Arguments te_writable {T}.
Arguments te_hungup {T}.

(** The trait [EventSource] *)
Class EventSource (W Src : Type) : Type := {
  register_self : Src → Z → Z → M W errno unit;
  unregister_self : Src → Z → M W errno unit;
}.

Section event_manager.
Context {W : Type} `{EpollOps W} `{EventSetBits} {T : Type} `{EventToken T}.

(** An [EventFd] is the number of its descriptor here. *)
Record EventFd : Type := MkEventFd { eventfd_raw : Z }.

Definition eventfd_register_self (src : EventFd) (epoll token : Z) : M W errno unit :=
  epoll_ctl epoll CtlAdd (eventfd_raw src) (EpollEvent ES_IN token).

Definition eventfd_unregister_self (src : EventFd) (epoll : Z) : M W errno unit :=
  epoll_ctl epoll CtlDelete (eventfd_raw src) (EpollEvent 0 0).

#[export] Instance eventfd_source : EventSource W EventFd := {|
  register_self := eventfd_register_self;
  unregister_self := eventfd_unregister_self;
|}.

(** [EventManager]: the epoll instance it wraps *)
Record EventManager : Type := MkEventManager { em_epoll : Z }.

Definition em_new : M W errno EventManager :=
  let! epoll := epoll_create in ret (MkEventManager epoll).

Definition em_add {Src} `{EventSource W Src} (em : EventManager) (src : Src) (token : T) :
    M W errno unit :=
  register_self src (em_epoll em) (token_as_raw token).

Definition em_remove {Src} `{EventSource W Src} (em : EventManager) (src : Src) :
    M W errno unit :=
  unregister_self src (em_epoll em).

Definition em_add_fd (em : EventManager) (fd event_set : Z) (token : T) : M W errno unit :=
  let event := EpollEvent event_set (token_as_raw token) in
  do! epoll_ctl (em_epoll em) CtlAdd fd event in ret tt.

Definition em_modify_fd (em : EventManager) (fd event_type : Z) (token : T) :
    M W errno unit :=
  let event := EpollEvent event_type (token_as_raw token) in
  do! epoll_ctl (em_epoll em) CtlModify fd event in ret tt.

Definition em_delete_fd (em : EventManager) (fd : Z) : M W errno unit :=
  do! epoll_ctl (em_epoll em) CtlDelete fd (EpollEvent 0 0) in ret tt.

(** [timeout.map_or(-1, |t| t.as_millis().try_into().unwrap_or(i32::MAX))] *)
Definition timeout_millis (timeout : option Z) : Z :=
  match timeout with
  | None => -1
  | Some ms => if bool_decide (ms ≤ 2 ^ 31 - 1) then ms else 2 ^ 31 - 1
  end.

(** One turn of the loop around [epoll.wait]: an interrupted wait is retried. *)
Definition wait_turn (em : EventManager) (timeout_ms : Z) (slots : nat) :
    M W errno (option (list epoll_event)) :=
  λ w,
    match epoll_wait (em_epoll em) timeout_ms slots w with
    | (Ret evs, w') => (Ret (Some evs), w')
    | (Fail e, w') => if bool_decide (e = EINTR) then (Ret None, w') else (Fail e, w')
    | (Panic, w') => (Panic, w')
    | (NoFuel, w') => (NoFuel, w')
    end.

Definition wait_retry (fuel : nat) (em : EventManager) (timeout_ms : Z) (slots : nat) :
    M W errno (list epoll_event) :=
  loop fuel (wait_turn em timeout_ms slots).

(** The closure that turns an epoll event into a [TriggeredEvent]. *)
Definition triggered_event (e : epoll_event) : outcome errno (TriggeredEvent T) :=
  let event_set := es_from_bits_truncate (ev_events e) in
  match token_from_raw (ev_data e) with
  | Ret token =>
      Ret (MkTriggeredEvent token
        (es_contains event_set ES_IN)
        (es_contains event_set ES_OUT)
        (es_contains event_set ES_HANG_UP || es_contains event_set ES_READ_HANG_UP))
  | NoFuel => NoFuel
  | _ => Panic
  end.

Fixpoint triggered_events (es : list epoll_event) : outcome errno (list (TriggeredEvent T)) :=
  match es with
  | [] => Ret []
  | e :: es =>
      outcome_bind (triggered_event e) (λ t,
        outcome_bind (triggered_events es) (λ ts, Ret (t :: ts)))
  end.

Definition em_wait_timeout (fuel : nat) (em : EventManager) (timeout : option Z) :
    M W errno (list (TriggeredEvent T)) :=
  let! events := wait_retry fuel em (timeout_millis timeout) 16 in
  lift (triggered_events events).

Definition em_wait (fuel : nat) (em : EventManager) : M W errno (list (TriggeredEvent T)) :=
  em_wait_timeout fuel em None.

Definition em_wait_one (fuel : nat) (em : EventManager) : M W errno (TriggeredEvent T) :=
  let! events := wait_retry fuel em (-1) 1 in
  do! assert (bool_decide (length events = 1%nat)) in
  let! e := unwrap_opt (events !! 0%nat) in
  lift (triggered_event e).
End event_manager.

(** ** Waiting for events *)

(** Some sources keep the tokens they were registered with, in lists of their own, to
    change what an instance watches later on: [token_held w ep t] when one of them holds [t]
    for the descriptor [ep] of a living instance. The kernel's calls leave these lists
    alone. *)
Class HeldTokens (W : Type) : Type := token_held : W → Z → Z → Prop.

Class HeldTokensLaws (W : Type) `{EpollOps W} `{!HeldTokens W} : Prop := {
  held_ctl ep op fd ev w ep' t : token_held (epoll_ctl ep op fd ev w).2 ep' t → token_held w ep' t;
  held_wait ep timeout slots w ep' t : token_held (epoll_wait ep timeout slots w).2 ep' t → token_held w ep' t;
}.

Section source_changes.
Context {W : Type} `{EpollLaws W} `{!HeldTokens W}.

(** A change that brings instance [ep] tokens among [new] only: whatever else it watches
    afterwards, it watched already, or has a token that a source holds. *)
Definition source_change (ep : Z) (new : Z → Prop) (w w' : W) : Prop :=
  (∀ fd ev, watched w' ep fd = Some ev →
    watched w ep fd = Some ev ∨ token_held w ep (ev_data ev) ∨ new (ev_data ev)) ∧
  (∀ t, token_held w' ep t → token_held w ep t ∨ new t).

Definition nothing_new (t : Z) : Prop := False.

Lemma source_change_refl ep new w : source_change ep new w w.
Proof. split; auto. Qed.

Lemma source_change_trans ep new w w1 w2 :
  source_change ep new w w1 → source_change ep nothing_new w1 w2 → source_change ep new w w2.
Proof. intros [Hw1 Hh1] [Hw2 Hh2]. unfold nothing_new in *. split; naive_solver. Qed.

Lemma source_change_wider ep new w w' : source_change ep nothing_new w w' → source_change ep new w w'.
Proof. unfold nothing_new. intros [Hw Hh]. split; naive_solver. Qed.

Lemma source_change_ctl `{!HeldTokensLaws W} ep op fd ev w ep' :
  source_change ep' (λ t, op ≠ CtlDelete ∧ ep' = ep ∧ t = ev_data ev) w (epoll_ctl ep op fd ev w).2.
Proof.
  split; [|intros t Hh; left; by eapply held_ctl].
  intros fd' ev' Hev'. destruct (ctl_result ep op fd ev w) as [[w' Hc]|(e & w' & Hc)]; rewrite Hc in Hev'.
  - assert (∃ v, watched_set w w' ep fd v ∧ (v = None ∨ v = Some ev ∧ op ≠ CtlDelete)) as (v & Hs & Hv).
    { destruct op;
        [apply ctl_add_ok in Hc as [_ Hc]|apply ctl_modify_ok in Hc as [_ Hc]|apply ctl_delete_ok in Hc as [_ Hc]];
        eexists; (split; [exact Hc|]); auto. }
    simpl in Hev'. rewrite (Hs ep' fd') in Hev'. case_bool_decide as Hd; [|by left].
    right. right. destruct Hv as [->|[-> Hop]]; [done|]. by simplify_eq; destruct Hd.
  - left. by rewrite <-(ctl_fail _ _ _ _ _ _ _ Hc ep' fd').
Qed.
End source_changes.

(** What the implementors of [EventSource] promise: registering brings the token that was
    given to the instance that was given, and unregistering brings nothing. *)
Class EventSourceLaws (W Src : Type) `{EpollOps W} `{!HeldTokens W} `{!EventSource W Src} : Prop := {
  register_change src ep token w :
    source_change ep (λ t, t = token) w (register_self (Src:=Src) src ep token w).2;
  unregister_change src ep w :
    source_change ep nothing_new w (unregister_self (Src:=Src) src ep w).2;
}.

(** In a world where no source keeps its tokens *)
Definition no_held_tokens {W} : HeldTokens W := λ _ _ _, False.

Lemma no_held_tokens_laws {W} `{EpollOps W} : HeldTokensLaws W (HeldTokens0:=no_held_tokens).
Proof. by split. Qed.

#[export] Instance eventfd_source_laws {W} `{EpollLaws W} `{EventSetBits} `{!HeldTokens W, !HeldTokensLaws W} :
  EventSourceLaws W EventFd.
Proof.
  split.
  - intros src ep token w. destruct (source_change_ctl ep CtlAdd (eventfd_raw src) (EpollEvent ES_IN token) w ep)
      as [Hw Hh]. split; naive_solver.
  - intros src ep w. destruct (source_change_ctl ep CtlDelete (eventfd_raw src) (EpollEvent 0 0) w ep) as [Hw Hh].
    split; naive_solver.
Qed.

Section event_manager_properties.
Context {W : Type} `{EpollLaws W} `{EventSetBits} `{!HeldTokens W, !HeldTokensLaws W} {T : Type} `{!EventToken T}.
Implicit Types (w : W) (em : EventManager).

(** The raw form of a token of [T] *)
Definition raw_token (r : Z) : Prop := ∃ t : T, token_valid t ∧ r = token_as_raw t.

(** Everything the instance watches was registered with a token, and so was what the sources
    hold for it. *)
Definition tokens_registered (w : W) (ep : Z) : Prop :=
  (∀ fd ev, watched w ep fd = Some ev → raw_token (ev_data ev)) ∧
  ∀ r, token_held w ep r → raw_token r.

(** What happens to an event manager: any of its operations, with any outcome and with
    sources of every kind, and anything else that goes on in the world, where what it watches
    is changed only by sources, with the tokens that they were registered with. *)
Inductive em_step (em : EventManager) : W → W → Prop :=
| step_add Src (source : EventSource W Src) (laws : EventSourceLaws W Src) (src : Src) (t : T) w :
    token_valid t → em_step em w (em_add em src t w).2
| step_remove Src (source : EventSource W Src) (laws : EventSourceLaws W Src) (src : Src) w :
    em_step em w (em_remove em src w).2
| step_add_fd fd es (t : T) w :
    token_valid t → em_step em w (em_add_fd em fd es t w).2
| step_modify_fd fd es (t : T) w :
    token_valid t → em_step em w (em_modify_fd em fd es t w).2
| step_delete_fd fd w :
    em_step em w (em_delete_fd em fd w).2
| step_wait fuel timeout w :
    em_step em w (em_wait_timeout (T:=T) fuel em timeout w).2
| step_wait_one fuel w :
    em_step em w (em_wait_one (T:=T) fuel em w).2
| step_sources w w' :
    source_change (em_epoll em) nothing_new w w' → em_step em w w'.

Lemma tokens_registered_change w w' ep new :
  source_change ep new w w' → (∀ r, new r → raw_token r) → tokens_registered w ep → tokens_registered w' ep.
Proof.
  intros [Hw Hh] Hnew [Hreg Hheld]. split.
  - intros fd ev Hev. destruct (Hw fd ev Hev) as [?|[?|?]]; eauto.
  - intros r Hr. destruct (Hh r Hr); auto.
Qed.

Lemma source_change_ctl_outcome {A} ep op fd ev (a : A) w :
  source_change ep (λ t, op ≠ CtlDelete ∧ t = ev_data ev) w (bind (epoll_ctl ep op fd ev) (λ _, ret a) w).2.
Proof.
  destruct (source_change_ctl ep op fd ev w ep) as [Hw Hh]. unfold bind.
  destruct (epoll_ctl ep op fd ev w) as [[]]; split; naive_solver.
Qed.

(** A wait changes neither. *)
Lemma wait_turn_change em timeout slots w :
  source_change (em_epoll em) nothing_new w (wait_turn em timeout slots w).2.
Proof.
  unfold wait_turn. pose proof (wait_watched (em_epoll em) timeout slots w) as Hw.
  pose proof (held_wait (em_epoll em) timeout slots w (em_epoll em)) as Hh.
  assert (source_change (em_epoll em) nothing_new w (epoll_wait (em_epoll em) timeout slots w).2) as Hc.
  { split; [|by auto]. intros fd ev Hev. left. by rewrite <-(Hw (em_epoll em) fd). }
  destruct (epoll_wait _ _ _ w) as [[evs|e| |] w']; [done| |done..]. by case_bool_decide.
Qed.

Lemma wait_retry_change fuel em timeout slots w :
  source_change (em_epoll em) nothing_new w (wait_retry fuel em timeout slots w).2.
Proof.
  unfold wait_retry.
  apply (preserves_loop (source_change (em_epoll em) nothing_new w)); [|apply source_change_refl].
  intros w1 Hw1. eapply source_change_trans; [done|]. apply wait_turn_change.
Qed.

(** A wait that stops has seen an answer of the kernel other than EINTR, in a
    world with the same interest lists. *)
Lemma wait_retry_cases fuel em timeout slots w o w' :
  wait_retry fuel em timeout slots w = (o, w') →
  o = NoFuel ∨
  ∃ w1, same_watched w w1 ∧ epoll_wait (em_epoll em) timeout slots w1 = (o, w') ∧
    o ≠ Fail EINTR.
Proof.
  unfold wait_retry. revert w. induction fuel as [|fuel IH]; intros w; simpl.
  { unfold no_fuel. intros ?; simplify_eq. by left. }
  unfold bind, wait_turn at 1, ret.
  pose proof (wait_watched (em_epoll em) timeout slots w) as Hsame.
  destruct (epoll_wait (em_epoll em) timeout slots w) as [[evs|e| |] w1] eqn:He.
  - intros ?; simplify_eq. right. exists w. by split_and!.
  - case_bool_decide as Hint.
    + intros Hl. destruct (IH _ Hl) as [|(w2 & ? & ? & ?)]; [by left|].
      right. exists w2. split_and!; [|done..]. by eapply same_watched_trans.
    + intros ?; simplify_eq. right. exists w.
      split_and!; [apply same_watched_refl|done|naive_solver].
  - intros ?; simplify_eq. right. exists w. by split_and!.
  - intros ?; simplify_eq. by left.
Qed.

Lemma triggered_event_registered ev (t : T) :
  token_valid t → ev_data ev = token_as_raw t →
  ∃ te, triggered_event ev = Ret te ∧ te_token te = t.
Proof.
  intros Ht Hev. unfold triggered_event. rewrite Hev, token_from_as_raw by done. eauto.
Qed.

Lemma triggered_events_registered w ep evs :
  tokens_registered w ep →
  (∀ e, e ∈ evs → ∃ fd ev, watched w ep fd = Some ev ∧ ev_data e = ev_data ev) →
  ∃ tes, triggered_events (T:=T) evs = Ret tes ∧ length tes = length evs ∧
    ∀ te, te ∈ tes → token_valid (te_token te) ∧
      ∃ fd ev, watched w ep fd = Some ev ∧ ev_data ev = token_as_raw (te_token te).
Proof.
  intros Hw. induction evs as [|e evs IH]; intros Hevs; simpl.
  { exists []. split_and!; [done..|]. by intros ? ?%elem_of_nil. }
  destruct IH as (tes & Htes & Hlen & Hin); [intros; apply Hevs; by constructor|].
  destruct (Hevs e) as (fd & ev & Hwd & Hd); [by constructor|].
  destruct (proj1 Hw _ _ Hwd) as (t & Ht & Hdt).
  destruct (triggered_event_registered e t) as (te & Hte & Htok); [done|congruence|].
  rewrite Hte. simpl. rewrite Htes. exists (te :: tes). split_and!; [done|simpl; congruence|].
  intros te' [->|Hte']%elem_of_cons; [|by apply Hin].
  rewrite Htok. split; [done|]. exists fd, ev. split; congruence.
Qed.

Lemma em_step_registered em w w' :
  em_step em w w' → tokens_registered w (em_epoll em) → tokens_registered w' (em_epoll em).
Proof.
  intros Hst Hw. destruct Hst as [Src source laws src t w Ht|Src source laws src w|fd es t w Ht|fd es t w Ht|
    fd w|fuel timeout w|fuel w|w w' Hc].
  - eapply tokens_registered_change; [apply register_change| |done]. intros r ->. by exists t.
  - eapply tokens_registered_change; [apply unregister_change|done|done].
  - eapply tokens_registered_change; [apply source_change_ctl_outcome| |done]. intros r [_ ->]. by exists t.
  - eapply tokens_registered_change; [apply source_change_ctl_outcome| |done]. intros r [_ ->]. by exists t.
  - eapply tokens_registered_change; [apply source_change_ctl_outcome| |done]. by intros r [[] _].
  - apply (preserves_bind (λ w, tokens_registered w (em_epoll em))); [|intros; by intros ?|done].
    intros w1 Hw1. eapply tokens_registered_change; [apply wait_retry_change|done|done].
  - apply (preserves_bind (λ w, tokens_registered w (em_epoll em))); [| |done].
    + intros w1 Hw1. eapply tokens_registered_change; [apply wait_retry_change|done|done].
    + intros evs. eauto with preserves.
  - by eapply tokens_registered_change.
Qed.

(** A manager that was just created: its instance watches nothing, and no source knows it. *)
Definition fresh_instance (w : W) (em : EventManager) : Prop :=
  (∀ fd, watched w (em_epoll em) fd = None) ∧ ∀ r, ¬ token_held w (em_epoll em) r.

Lemma fresh_registered w em : fresh_instance w em → tokens_registered w (em_epoll em).
Proof. intros [Hw Hh]. split; [intros fd ev; by rewrite Hw|]. intros r Hr. by destruct (Hh r). Qed.

Lemma em_reach_registered em w w' :
  rtc (em_step em) w w' → tokens_registered w (em_epoll em) → tokens_registered w' (em_epoll em).
Proof. induction 1; eauto using em_step_registered. Qed.

(** Claim C35. However a program has used an event manager since it was created, with
    sources of any kind that keep the promise of [EventSource] (event descriptors, ports
    and the kicks of rings do), and whatever those sources have done since with the
    tokens that they keep, as a ring does when it is started, stopped or given another
    kick, with nobody else changing what the manager watches: a wait that is not
    interrupted for ever does not panic. It fails with an error other than an
    interruption, or returns at most 16 events, each carrying a token that some watched
    descriptor was registered with. *)
Theorem em_wait_tokens fuel em timeout w0 w o w' :
  fresh_instance w0 em →
  rtc (em_step em) w0 w →
  em_wait_timeout (T:=T) fuel em timeout w = (o, w') →
  o = NoFuel ∨ (∃ e, o = Fail e ∧ e ≠ EINTR) ∨
  ∃ tes, o = Ret tes ∧ (length tes ≤ 16)%nat ∧
    ∀ te, te ∈ tes → token_valid (te_token te) ∧
      ∃ fd ev, watched w (em_epoll em) fd = Some ev ∧
        ev_data ev = token_as_raw (te_token te).
Proof.
  intros Hnew Hreach.
  assert (tokens_registered w (em_epoll em)) as Hw.
  { by apply (em_reach_registered _ _ _ Hreach), fresh_registered. }
  unfold em_wait_timeout, bind, lift.
  destruct (wait_retry fuel em (timeout_millis timeout) 16 w) as [o1 w1] eqn:Hr.
  destruct (wait_retry_cases _ _ _ _ _ _ _ Hr) as [->|(w2 & Hs & He & Hint)].
  { intros ?; simplify_eq. by left. }
  destruct o1 as [evs|e| |].
  - destruct (wait_ok _ _ _ _ _ _ He) as (Hlen & _ & Hevs).
    destruct (triggered_events_registered w (em_epoll em) evs Hw) as (tes & Htes & Hl & Hin).
    { intros e Hein. destruct (Hevs e Hein) as (fd & ev & Hwd & ?).
      exists fd, ev. by rewrite <-Hs. }
    intros ?; simplify_eq. right. right. exists tes. rewrite Hl. split_and!; [done|lia|done].
  - intros ?; simplify_eq. right. left. exists e. split; [done|]. naive_solver.
  - destruct (wait_result (em_epoll em) (timeout_millis timeout) 16 w2)
      as [(? & ? & Hx)|(? & ? & Hx)]; rewrite Hx in He; discriminate.
  - intros ?; simplify_eq. by left.
Qed.

(** [wait_one] never fails its assertion that exactly one event was
    reported: it fails with an error other than an interruption or returns one
    event with the token of a watched descriptor. *)
Theorem em_wait_one_token fuel em w0 w o w' :
  fresh_instance w0 em →
  rtc (em_step em) w0 w →
  em_wait_one (T:=T) fuel em w = (o, w') →
  o = NoFuel ∨ (∃ e, o = Fail e ∧ e ≠ EINTR) ∨
  ∃ te, o = Ret te ∧ token_valid (te_token te) ∧
    ∃ fd ev, watched w (em_epoll em) fd = Some ev ∧
      ev_data ev = token_as_raw (te_token te).
Proof.
  intros Hnew Hreach.
  assert (tokens_registered w (em_epoll em)) as Hw.
  { by apply (em_reach_registered _ _ _ Hreach), fresh_registered. }
  unfold em_wait_one. unfold bind at 1.
  destruct (wait_retry fuel em (-1) 1 w) as [o1 w1] eqn:Hr.
  destruct (wait_retry_cases _ _ _ _ _ _ _ Hr) as [->|(w2 & Hs & He & Hint)].
  { intros ?; simplify_eq. by left. }
  destruct o1 as [evs|e| |].
  - destruct (wait_ok _ _ _ _ _ _ He) as (Hlen & Hne & Hevs).
    specialize (Hne ltac:(lia) ltac:(lia)).
    destruct evs as [|ev [|? ?]]; [done| |simpl in Hlen; lia].
    destruct (Hevs ev) as (fd & ev' & Hwd & Hd); [by constructor|].
    rewrite Hs in Hwd. destruct (proj1 Hw _ _ Hwd) as (t & Ht & Hdt).
    destruct (triggered_event_registered ev t) as (te & Hte & Htok); [done|congruence|].
    unfold bind, ret, assert, unwrap_opt, lift. simpl. rewrite Hte. intros ?; simplify_eq.
    right. right. exists te. split_and!; [done|done|]. exists fd, ev'. split; congruence.
  - intros ?; simplify_eq. right. left. exists e. split; [done|]. naive_solver.
  - destruct (wait_result (em_epoll em) (-1) 1 w2)
      as [(? & ? & Hx)|(? & ? & Hx)]; rewrite Hx in He; discriminate.
  - intros ?; simplify_eq. by left.
Qed.

(** [n] interrupted waits in a row. *)
Inductive interrupted (ep timeout : Z) (slots : nat) : nat → W → W → Prop :=
| interrupted_0 w : interrupted ep timeout slots 0 w w
| interrupted_S n w w1 w2 :
    epoll_wait ep timeout slots w = (Fail EINTR, w1) →
    interrupted ep timeout slots n w1 w2 →
    interrupted ep timeout slots (S n) w w2.

(** The retry loop terminates as soon as the kernel stops
    interrupting: after [n] interruptions it returns what the next wait
    returns, with any fuel above [n]. *)
Theorem wait_retry_terminates em timeout slots n fuel w w1 o w2 :
  interrupted (em_epoll em) timeout slots n w w1 →
  epoll_wait (em_epoll em) timeout slots w1 = (o, w2) → o ≠ Fail EINTR →
  (n < fuel)%nat →
  wait_retry fuel em timeout slots w = (o, w2).
Proof.
  intros Hi Hw1 Ho. revert fuel. unfold wait_retry.
  induction Hi as [w|n w wa wb Hint Hi IH]; intros fuel Hlt.
  - destruct fuel as [|fuel]; [lia|]. simpl. unfold bind, wait_turn at 1. rewrite Hw1.
    destruct o as [evs|e| |]; [done| |done..].
    rewrite bool_decide_eq_false_2; [done|]. intros ->. done.
  - destruct fuel as [|fuel]; [lia|]. simpl. unfold bind, wait_turn at 1. rewrite Hint.
    rewrite bool_decide_eq_true_2 by done. apply IH; [done|lia].
Qed.

(** A descriptor that is not watched cannot be deleted: the call fails, with the error of
    the kernel, and changes nothing. *)
Theorem em_delete_unwatched_fails em fd w :
  watched w (em_epoll em) fd = None →
  ∃ e w', em_delete_fd em fd w = (Fail e, w') ∧ same_watched w w'.
Proof.
  intros Hw. unfold em_delete_fd, bind.
  destruct (ctl_result (em_epoll em) CtlDelete fd (EpollEvent 0 0) w) as [(w' & Hr)|(e & w' & Hr)];
    rewrite Hr.
  - by apply ctl_delete_ok in Hr as [[] _].
  - exists e, w'. split; [done|]. by eapply ctl_fail.
Qed.
End event_manager_properties.

(** ** Instances on the reference epoll *)

Module EventManagerExamples.
Import Sim.

#[local] Existing Instance no_held_tokens.
#[local] Existing Instance no_held_tokens_laws.

Inductive Tok : Type := TokA | TokB | TokC.
#[local] Instance Tok_eq_dec : EqDecision Tok.
Proof. solve_decision. Defined.
#[local] Instance Tok_token : EventToken Tok := derive_unit_enum [TokA; TokB; TokC].

Definition em : EventManager := MkEventManager 7.
Definition w0 : world := World ∅ [5] 2 100.
Definition w1 : world := (em_add_fd em 5 ES_IN TokC w0).2.

Lemma w1_reached : rtc (em_step (T:=Tok) em) w0 w1.
Proof.
  apply rtc_once. apply (step_add_fd (T:=Tok) em 5 ES_IN TokC w0).
  apply elem_of_list_here || (repeat constructor).
Qed.

Definition waited_one : outcome errno (TriggeredEvent Tok) :=
  Ret (MkTriggeredEvent TokC true false false).

Lemma em_wait_one_token_witness :
  em_wait_one (T:=Tok) 3 em w1 =
    (waited_one, World (interest w1) [5] 0 100) ∧
  (waited_one = NoFuel ∨
   (∃ e, waited_one = Fail e ∧ e ≠ EINTR) ∨
   ∃ te, waited_one = Ret te ∧ token_valid (te_token te) ∧
    ∃ fd ev, watched w1 (em_epoll em) fd = Some ev ∧
      ev_data ev = token_as_raw (te_token te)).
Proof.
  split; [reflexivity|].
  apply (em_wait_one_token (T:=Tok) 3 em w0 w1 _ (World (interest w1) [5] 0 100));
    [by split; [|intros ? []]|exact w1_reached|reflexivity].
Defined.

Lemma wait_retry_terminates_witness :
  wait_retry 3 em (-1) 1 w1 =
    (Ret [EpollEvent ES_IN (token_as_raw TokC)], World (interest w1) [5] 0 100).
Proof.
  apply (wait_retry_terminates em (-1) 1 2 3 w1 (World (interest w1) [5] 0 100));
    [|reflexivity|discriminate|lia].
  eapply interrupted_S; [reflexivity|]. eapply interrupted_S; [reflexivity|].
  apply interrupted_0.
Defined.

Lemma em_delete_unwatched_fails_witness :
  (em_delete_fd em 6 w1).1 = Fail ENOENT ∧
  ∃ e w', em_delete_fd em 6 w1 = (Fail e, w') ∧ same_watched w1 w'.
Proof. split; [reflexivity|]. by apply (em_delete_unwatched_fails em 6 w1). Defined.
End EventManagerExamples.
