(* ===== verification/VirtQueue.v ===== *)
(** * The device side of virtio: [virtio/src/lib.rs] and the queue it rests on

    The first part is an interface: the queue of the [virtio_queue] crate, with
    the byte stream [Reader] and [Writer] of its descriptor chains, as classes
    whose laws are that crate's documented behaviour. The second part is the
    crate [virtio] itself: [QueueArgs] and the traits [DeviceQueue] and
    [VirtioDevice] with their default methods. The module [SimQueue] is a
    concrete queue that satisfies the laws, for examples. *)

From S2P Require Import Prelude Epoll.

Inductive vq_error : Type := VqError (code : Z).

(** ** Queues *)

(** The configuration of a queue, as the control plane uses it. *)
Class QueueConfig (Q Mem : Type) : Type := {
  q_new : Z → outcome vq_error Q;
  q_try_set_desc_table_address : Z → M Q vq_error unit;
  q_try_set_avail_ring_address : Z → M Q vq_error unit;
  q_try_set_used_ring_address : Z → M Q vq_error unit;
  q_set_ready : bool → Q → Q;
  q_ready : Q → bool;
  q_set_size : Z → Q → Q;
  q_size : Q → Z;
  q_max_size : Q → Z;
  q_set_event_idx : bool → Q → Q;
  q_event_idx_enabled : Q → bool;
  q_set_next_avail : Z → Q → Q;
  q_next_avail : Q → Z;
  q_set_next_used : Z → Q → Q;
  q_used_idx : Q → Mem → outcome vq_error Z;
}.

(** What a setter that is not about them leaves alone: the ready flag, the
    EVENT_IDX flag and the maximal size. *)
Definition q_same_flags {Q Mem} `{QueueConfig Q Mem} (q q' : Q) : Prop :=
  q_ready q' = q_ready q ∧ q_event_idx_enabled q' = q_event_idx_enabled q ∧
  q_max_size q' = q_max_size q.

(** What the processing of a queue leaves alone as well: its size. *)
Definition q_same_setup {Q Mem} `{QueueConfig Q Mem} (q q' : Q) : Prop :=
  q_same_flags q q' ∧ q_size q' = q_size q.

Class QueueConfigLaws (Q Mem : Type) `{QueueConfig Q Mem} : Prop := {
  q_new_ok max q : q_new max = Ret q →
    q_ready q = false ∧ q_max_size q = max ∧ 0 < q_size q ≤ max;
  q_new_next_avail max q : q_new max = Ret q → q_next_avail q = 0;
  q_new_result max : (∃ q, q_new max = Ret q) ∨ (∃ e, q_new max = Fail e);
  q_set_ready_ready b q : q_ready (q_set_ready b q) = b;
  q_set_ready_event_idx b q : q_event_idx_enabled (q_set_ready b q) = q_event_idx_enabled q;
  q_set_ready_size b q : q_size (q_set_ready b q) = q_size q;
  q_set_ready_max_size b q : q_max_size (q_set_ready b q) = q_max_size q;
  q_set_ready_next_avail b q : q_next_avail (q_set_ready b q) = q_next_avail q;
  q_set_event_idx_event_idx b q : q_event_idx_enabled (q_set_event_idx b q) = b;
  q_set_event_idx_ready b q : q_ready (q_set_event_idx b q) = q_ready q;
  q_set_event_idx_size b q :
    q_size (q_set_event_idx b q) = q_size q ∧ q_max_size (q_set_event_idx b q) = q_max_size q;
  (* a size above the maximum, zero, or not a power of two is ignored *)
  q_set_size_flags n q : q_same_flags q (q_set_size n q);
  q_set_size_size n q : q_size (q_set_size n q) = n ∨ q_size (q_set_size n q) = q_size q;
  q_set_next_avail_flags n q : q_same_flags q (q_set_next_avail n q);
  q_set_next_avail_size n q : q_size (q_set_next_avail n q) = q_size q;
  q_set_next_avail_next_avail n q : q_next_avail (q_set_next_avail n q) = n;
  q_set_next_used_flags n q : q_same_flags q (q_set_next_used n q);
  q_set_next_used_size n q : q_size (q_set_next_used n q) = q_size q;
  q_try_set_desc_table_flags a q :
    q_same_flags q (q_try_set_desc_table_address a q).2 ∧
    q_size (q_try_set_desc_table_address a q).2 = q_size q;
  q_try_set_avail_ring_flags a q :
    q_same_flags q (q_try_set_avail_ring_address a q).2 ∧
    q_size (q_try_set_avail_ring_address a q).2 = q_size q;
  q_try_set_used_ring_flags a q :
    q_same_flags q (q_try_set_used_ring_address a q).2 ∧
    q_size (q_try_set_used_ring_address a q).2 = q_size q;
  (* only its own setter and the processing move the position in the available ring *)
  q_set_event_idx_next_avail b q : q_next_avail (q_set_event_idx b q) = q_next_avail q;
  q_set_size_next_avail n q : q_next_avail (q_set_size n q) = q_next_avail q;
  q_set_next_used_next_avail n q : q_next_avail (q_set_next_used n q) = q_next_avail q;
  q_try_set_desc_table_next_avail a q :
    q_next_avail (q_try_set_desc_table_address a q).2 = q_next_avail q;
  q_try_set_avail_ring_next_avail a q :
    q_next_avail (q_try_set_avail_ring_address a q).2 = q_next_avail q;
  q_try_set_used_ring_next_avail a q :
    q_next_avail (q_try_set_used_ring_address a q).2 = q_next_avail q;
}.

(** The processing of a queue by a device. *)
Class QueueProc (Q Mem Chain : Type) : Type := {
  q_pop_descriptor_chain : Mem → Q → option Chain * Q;
  q_go_to_previous_position : Q → Q;
  q_add_used : Z → Z → M (Q * Mem) vq_error unit;
  q_disable_notification : M (Q * Mem) vq_error unit;
  q_enable_notification : M (Q * Mem) vq_error bool;
  chain_head_index : Chain → Z;
  (* the chains the driver has made available and the device has not popped, and
     the entries of the used ring, oldest first *)
  q_avail : Q → Mem → list Chain;
  q_used : Q → Mem → list (Z * Z);
}.

Class QueueProcLaws (Q Mem Chain : Type) `{QueueProc Q Mem Chain} : Prop := {
  q_pop_Some m q c q' : q_pop_descriptor_chain m q = (Some c, q') →
    q_avail q m = c :: q_avail q' m ∧ q_used q' m = q_used q m ∧
    q_avail (q_go_to_previous_position q') m = q_avail q m ∧
    q_used (q_go_to_previous_position q') m = q_used q m;
  (* nothing available, or a malformed ring *)
  q_pop_None m q q' : q_pop_descriptor_chain m q = (None, q') →
    q_avail q' m = q_avail q m ∧ q_used q' m = q_used q m;
  q_add_used_ok head len q m q' m' : q_add_used head len (q, m) = (Ret tt, (q', m')) →
    q_used q' m' = q_used q m ++ [(head, len)] ∧ q_avail q' m' = q_avail q m;
  q_add_used_fail head len q m e q' m' : q_add_used head len (q, m) = (Fail e, (q', m')) →
    q_used q' m' = q_used q m ∧ q_avail q' m' = q_avail q m;
  q_add_used_result head len s :
    (∃ s', q_add_used head len s = (Ret tt, s')) ∨ (∃ e s', q_add_used head len s = (Fail e, s'));
  q_disable_notification_views q m q' m' o : q_disable_notification (q, m) = (o, (q', m')) →
    q_used q' m' = q_used q m ∧ q_avail q' m' = q_avail q m;
  q_enable_notification_views q m q' m' o : q_enable_notification (q, m) = (o, (q', m')) →
    q_used q' m' = q_used q m ∧ q_avail q' m' = q_avail q m;
}.

(** Processing a queue moves its positions and writes guest memory; how the front-end
    has set the queue up stays. *)
Class QueueProcSetup (Q Mem Chain : Type) `{QueueConfig Q Mem} `{QueueProc Q Mem Chain} : Prop := {
  q_pop_setup m q : q_same_setup q (q_pop_descriptor_chain m q).2;
  q_go_to_previous_setup q : q_same_setup q (q_go_to_previous_position q);
  q_add_used_setup head len s : q_same_setup s.1 (q_add_used head len s).2.1;
  q_disable_notification_setup s : q_same_setup s.1 (q_disable_notification s).2.1;
  q_enable_notification_setup s : q_same_setup s.1 (q_enable_notification s).2.1;
}.

(** ** The byte streams of a chain *)

Class ReaderOps (R : Type) : Type := {
  (* io::Read::read_exact; read_obj reads the bytes of the object with it *)
  r_read_exact : nat → M R unit bytes;
  r_remaining : R → bytes;
}.

Class ReaderLaws (R : Type) `{ReaderOps R} : Prop := {
  r_read_enough n r : (n ≤ length (r_remaining r))%nat →
    ∃ r', r_read_exact n r = (Ret (take n (r_remaining r)), r') ∧
      r_remaining r' = drop n (r_remaining r);
  r_read_short n r : (length (r_remaining r) < n)%nat →
    ∃ r', r_read_exact n r = (Fail tt, r');
  r_remaining_bytes r : Forall is_byte (r_remaining r);
}.

(** The writer puts bytes in the chain's writable buffers. *)
Class WriterOps (Wr : Type) : Type := {
  w_available_bytes : Wr → Z;
  w_write : bytes → M Wr unit Z;      (* io::Write::write *)
  w_write_obj : bytes → M Wr unit unit; (* Writer::write_obj *)
  w_written : Wr → bytes;
}.

Class WriterLaws (Wr : Type) `{WriterOps Wr} : Prop := {
  w_available_nonneg w : 0 ≤ w_available_bytes w;
  w_write_ok bs w n w' : w_write bs w = (Ret n, w') →
    n = Z.min (Z.of_nat (length bs)) (w_available_bytes w) ∧
    w_written w' = w_written w ++ take (Z.to_nat n) bs ∧
    w_available_bytes w' = w_available_bytes w - n;
  w_write_result bs w :
    (∃ n w', w_write bs w = (Ret n, w')) ∨ (∃ w', w_write bs w = (Fail tt, w'));
  w_write_obj_room bs w : Z.of_nat (length bs) ≤ w_available_bytes w →
    ∃ w', w_write_obj bs w = (Ret tt, w') ∧
      w_written w' = w_written w ++ bs ∧
      w_available_bytes w' = w_available_bytes w - Z.of_nat (length bs);
  w_write_obj_short bs w : w_available_bytes w < Z.of_nat (length bs) →
    ∃ w', w_write_obj bs w = (Fail tt, w');
}.

(** Opening the streams of a chain, and what a writer leaves in guest memory. A
    writer puts its bytes there as it goes; here its effect on the memory is
    applied by [chain_commit] when the writer has been used. *)
Class ChainStreams (Mem Chain R Wr : Type) : Type := {
  chain_reader : Mem → Chain → outcome vq_error R;
  chain_writer : Mem → Chain → outcome vq_error Wr;
  chain_commit : Wr → Mem → Mem;
}.

(** The buffers that a driver gives to the device are not part of its rings. *)
Class ChainStreamsLaws (Q Mem Chain R Wr : Type) `{QueueProc Q Mem Chain}
    `{ChainStreams Mem Chain R Wr} : Prop := {
  chain_reader_result m c :
    (∃ r, chain_reader m c = Ret r) ∨ (∃ e, chain_reader m c = Fail e);
  chain_writer_result m c :
    (∃ w, chain_writer m c = Ret w) ∨ (∃ e, chain_writer m c = Fail e);
  chain_commit_views w q m :
    q_avail q (chain_commit w m) = q_avail q m ∧ q_used q (chain_commit w m) = q_used q m;
}.

(** ** [virtio/src/lib.rs] *)

Record QueueArgs : Type := MkQueueArgs { qa_max_size : Z }.

(** The trait [DeviceQueue] over a device world [D]: the queue behind the lock,
    and the notifications in both directions. [dq_try_lock_queue] gives the queue
    when it may be processed; the guard's changes are stored with [dq_store]. *)
Class DeviceQueue (D Q : Type) : Type := {
  dq_try_lock_queue : D → option Q;
  dq_store : Q → D → D;
  dq_signal_used_queue : M D errno unit;
  dq_kick_register : EpollArc → Z → M D errno unit;   (* kick_event().register_self *)
  dq_read_kick : M D errno bool;
}.

(** A queue that can be locked stays so while entries are added to its used ring
    and the driver is notified, and the lock shows the queue as it was left. *)
Class DeviceQueueLaws (D Q Mem Chain : Type) `{DeviceQueue D Q} `{QueueProc Q Mem Chain} : Prop := {
  dq_store_lock d q head len (m : Mem) o q' m' :
    dq_try_lock_queue d = Some q → q_add_used head len (q, m) = (o, (q', m')) →
    dq_try_lock_queue (dq_store q' d) = Some q';
  dq_signal_lock d : dq_try_lock_queue (dq_signal_used_queue d).2 = dq_try_lock_queue d;
}.

(** The trait [VirtioDevice]: errors of [anyhow] are their messages. *)
Class VirtioDevice (D Mem Q : Type) : Type := {
  vd_device_type : D → outcome string Z;
  vd_avail_features : D → Z;
  vd_acked_features : D → Z;
  vd_set_acked_features : Z → M D string unit;
  vd_queues : D → list QueueArgs;
  vd_read_config : Z → bytes → D → outcome string bytes;
  vd_write_config : Z → bytes → M D string unit;
  vd_activate : Mem → gmap nat Q → M D string unit;
  vd_stop : M D string unit;
  vd_reset : M D string bool;
}.

(** The default [update_memory] and [reset] of the trait. *)
Definition default_update_memory {D E} : M D E unit := ret tt.

Definition default_reset {D E} (stop : M D E unit) : M D E bool :=
  do! stop in ret false.

(** ** A concrete queue *)
Module SimQueue.

Record chain : Type := Chain { c_head : Z; c_readable : bytes; c_writable : Z }.

Record queue : Type := Queue {
  sq_ready : bool; sq_event_idx : bool; sq_size : Z; sq_max_size : Z;
  sq_next_avail : Z; sq_next_used : Z; sq_addrs : Z * Z * Z;
  sq_avail : list chain; sq_popped : list chain; sq_notify : bool;
}.

(** The guest memory is reduced to the used ring, the index field as the driver left
    it, and the contents of the buffers that were written, oldest first. *)
Record mem : Type := Mem {
  mem_used : list (Z * Z); mem_used_idx : option Z; mem_written : list bytes;
}.

Definition set_ready b q := Queue b (sq_event_idx q) (sq_size q) (sq_max_size q)
  (sq_next_avail q) (sq_next_used q) (sq_addrs q) (sq_avail q) (sq_popped q) (sq_notify q).
Definition set_event_idx b q := Queue (sq_ready q) b (sq_size q) (sq_max_size q)
  (sq_next_avail q) (sq_next_used q) (sq_addrs q) (sq_avail q) (sq_popped q) (sq_notify q).
Definition set_size n q := Queue (sq_ready q) (sq_event_idx q)
  (if bool_decide (0 < n ≤ sq_max_size q) then n else sq_size q) (sq_max_size q)
  (sq_next_avail q) (sq_next_used q) (sq_addrs q) (sq_avail q) (sq_popped q) (sq_notify q).
Definition set_next_avail n q := Queue (sq_ready q) (sq_event_idx q) (sq_size q)
  (sq_max_size q) n (sq_next_used q) (sq_addrs q) (sq_avail q) (sq_popped q) (sq_notify q).
Definition set_next_used n q := Queue (sq_ready q) (sq_event_idx q) (sq_size q)
  (sq_max_size q) (sq_next_avail q) n (sq_addrs q) (sq_avail q) (sq_popped q) (sq_notify q).
Definition set_addrs a q := Queue (sq_ready q) (sq_event_idx q) (sq_size q)
  (sq_max_size q) (sq_next_avail q) (sq_next_used q) a (sq_avail q) (sq_popped q) (sq_notify q).
Definition set_chains av po q := Queue (sq_ready q) (sq_event_idx q) (sq_size q)
  (sq_max_size q) (sq_next_avail q) (sq_next_used q) (sq_addrs q) av po (sq_notify q).

(** Ring addresses must be 16-byte, 2-byte and 4-byte aligned. *)
Definition try_set (align : Z) (upd : Z → Z * Z * Z → Z * Z * Z) (a : Z) : M queue vq_error unit :=
  λ q,
    if bool_decide (a `mod` align = 0)
    then (Ret tt, set_addrs (upd a (sq_addrs q)) q)
    else (Fail (VqError 1), q).

Definition new (max : Z) : outcome vq_error queue :=
  if bool_decide (0 < max ≤ 32768)
  then Ret (Queue false false max max 0 0 (0, 0, 0) [] [] true)
  else Fail (VqError 2).

#[export] Instance config : QueueConfig queue mem := {|
  q_new := new;
  q_try_set_desc_table_address := try_set 16 (λ a '(_, y, z), (a, y, z));
  q_try_set_avail_ring_address := try_set 2 (λ a '(x, _, z), (x, a, z));
  q_try_set_used_ring_address := try_set 4 (λ a '(x, y, _), (x, y, a));
  q_set_ready := set_ready;
  q_ready := sq_ready;
  q_set_size := set_size;
  q_size := sq_size;
  q_max_size := sq_max_size;
  q_set_event_idx := set_event_idx;
  q_event_idx_enabled := sq_event_idx;
  q_set_next_avail := set_next_avail;
  q_next_avail := sq_next_avail;
  q_set_next_used := set_next_used;
  q_used_idx _ m := match mem_used_idx m with Some i => Ret i | None => Fail (VqError 3) end;
|}.

#[export] Instance config_laws : QueueConfigLaws queue mem.
Proof.
  assert (∀ al u a q, q_same_flags q (try_set al u a q).2 ∧
    sq_size (try_set al u a q).2 = sq_size q) as Htry.
  { intros. unfold try_set. by case_bool_decide. }
  split; try (intros; apply Htry); try done.
  - intros max q. simpl. unfold new. case_bool_decide; [|done]. intros ?; simplify_eq.
    simpl. split_and!; try done; lia.
  - intros max q. simpl. unfold new. case_bool_decide; [|done]. by intros [= <-].
  - intros max. simpl. unfold new. case_bool_decide; eauto.
  - intros n q. simpl. case_bool_decide; auto.
  - intros a q. simpl. unfold try_set. by case_bool_decide.
  - intros a q. simpl. unfold try_set. by case_bool_decide.
  - intros a q. simpl. unfold try_set. by case_bool_decide.
Qed.

Definition pop (m : mem) (q : queue) : option chain * queue :=
  match sq_avail q with
  | [] => (None, q)
  | c :: cs => (Some c, set_chains cs (c :: sq_popped q) q)
  end.

Definition go_back (q : queue) : queue :=
  match sq_popped q with
  | [] => q
  | c :: cs => set_chains (c :: sq_avail q) cs q
  end.

Definition add_used (head len : Z) : M (queue * mem) vq_error unit :=
  λ '(q, m),
    if bool_decide (0 ≤ head < sq_size q)
    then (Ret tt, (q, Mem (mem_used m ++ [(head, len)]) (mem_used_idx m) (mem_written m)))
    else (Fail (VqError 4), (q, m)).

#[export] Instance proc : QueueProc queue mem chain := {|
  q_pop_descriptor_chain := pop;
  q_go_to_previous_position := go_back;
  q_add_used := add_used;
  q_disable_notification := λ s, (Ret tt, s);
  q_enable_notification := λ s, (Ret (negb (bool_decide (length (sq_avail s.1) = 0%nat))), s);
  chain_head_index := c_head;
  q_avail q _ := sq_avail q;
  q_used _ m := mem_used m;
|}.

#[export] Instance proc_laws : QueueProcLaws queue mem chain.
Proof.
  split; simpl.
  - intros m q c q'. unfold pop. destruct (sq_avail q) eqn:?; [done|].
    intros ?; simplify_eq. by split_and!.
  - intros m q q'. unfold pop. destruct (sq_avail q) eqn:?; intros; by simplify_eq.
  - intros head len q m q' m'. case_bool_decide; intros; by simplify_eq.
  - intros head len q m e q' m'. case_bool_decide; intros; by simplify_eq.
  - intros head len [q m]. simpl. case_bool_decide; eauto.
  - intros. by simplify_eq.
  - intros. by simplify_eq.
Qed.

#[export] Instance proc_setup : QueueProcSetup queue mem chain.
Proof.
  split; simpl; [intros m q; unfold pop; by destruct (sq_avail q)
    |intros q; unfold go_back; by destruct (sq_popped q)
    |intros head len [q m]; simpl; by case_bool_decide|done..].
Qed.

(** A reader is the bytes left; the bytes are kept in range by construction. *)
Record reader : Type := Reader { rd_bytes : bytes; rd_ok : bool_decide (Forall is_byte rd_bytes) }.

Definition mk_reader (bs : bytes) : reader.
Proof.
  refine (Reader ((λ b, wrap 8 b) <$> bs) _).
  apply bool_decide_pack, Forall_forall. intros x (b & -> & _)%list_elem_of_fmap.
  by apply in_width_wrap.
Defined.

Definition read_exact (n : nat) : M reader unit bytes :=
  λ r,
    if bool_decide (n ≤ length (rd_bytes r))%nat
    then (Ret (take n (rd_bytes r)), mk_reader (drop n (rd_bytes r)))
    else (Fail tt, r).

#[export] Instance reader_ops : ReaderOps reader :=
  {| r_read_exact := read_exact; r_remaining := rd_bytes |}.

#[export] Instance reader_laws : ReaderLaws reader.
Proof.
  split; simpl.
  - intros n r Hn. unfold read_exact. rewrite bool_decide_eq_true_2 by done.
    eexists. split; [done|]. simpl.
    pose proof (bool_decide_unpack _ (rd_ok r)) as Hb.
    apply (Forall_drop _ n) in Hb. revert Hb. generalize (drop n (rd_bytes r)).
    induction 1 as [|x l Hx Hl IH]; [done|]. rewrite fmap_cons, IH. by rewrite wrap_small.
  - intros n r Hn. unfold read_exact. rewrite bool_decide_eq_false_2 by lia. eauto.
  - intros r. apply (bool_decide_unpack _ (rd_ok r)).
Qed.

Record writer : Type := Writer { wr_room : nat; wr_written : bytes }.

Definition write (bs : bytes) : M writer unit Z :=
  λ w,
    let n := Nat.min (length bs) (wr_room w) in
    (Ret (Z.of_nat n), Writer (wr_room w - n) (wr_written w ++ take n bs)).

Definition write_obj (bs : bytes) : M writer unit unit :=
  λ w,
    if bool_decide (length bs ≤ wr_room w)%nat
    then (Ret tt, Writer (wr_room w - length bs) (wr_written w ++ bs))
    else (Fail tt, w).

#[export] Instance writer_ops : WriterOps writer := {|
  w_available_bytes w := Z.of_nat (wr_room w);
  w_write := write;
  w_write_obj := write_obj;
  w_written := wr_written;
|}.

#[export] Instance writer_laws : WriterLaws writer.
Proof.
  split; simpl.
  - intros. lia.
  - intros bs w n w'. unfold write. intros ?; simplify_eq. simpl.
    rewrite Nat2Z.id. split_and!; [lia|done|lia].
  - eauto.
  - intros bs w Hr. unfold write_obj. rewrite bool_decide_eq_true_2 by lia.
    eexists. split_and!; [done..|simpl; lia].
  - intros bs w Hr. unfold write_obj. rewrite bool_decide_eq_false_2 by lia. eauto.
Qed.

#[export] Instance streams : ChainStreams mem chain reader writer := {|
  chain_reader _ c := Ret (mk_reader (c_readable c));
  chain_writer _ c := Ret (Writer (Z.to_nat (c_writable c)) []);
  chain_commit w m := Mem (mem_used m) (mem_used_idx m) (mem_written m ++ [wr_written w]);
|}.

#[export] Instance streams_laws : ChainStreamsLaws queue mem chain reader writer.
Proof. split; [by eauto..|done]. Qed.

(** A device with a queue, which counts how often it has notified the driver. *)
Record device : Type := Device { sd_queue : option queue; sd_signals : nat }.

#[export] Instance counting_device : DeviceQueue device queue := {|
  dq_try_lock_queue := sd_queue;
  dq_store q d := Device (Some q) (sd_signals d);
  dq_signal_used_queue := modify (λ d, Device (sd_queue d) (S (sd_signals d)));
  dq_kick_register _ _ := ret tt;
  dq_read_kick := gets (λ d, bool_decide (is_Some (sd_queue d)));
|}.
End SimQueue.
