(* ===== verification/Bitmap.v ===== *)
(** * The dirty-page log of live migration: [vhost-user/src/bitmap.rs]

    The front-end's log is a run of bytes shared by the bitmaps of all memory
    regions, one bit per 4096-byte page of guest memory. The log is the state of
    the operations here; a bitmap ([AtomicBitmapMmap]) is the window of one region
    into it; a [BitmapMmapRegion] is the replaceable bitmap behind a lock, seen
    through a slice that starts at [br_base_address]. *)

From S2P Require Import Prelude.

Definition LOG_PAGE_SIZE : Z := 0x1000.
Definition LOG_WORD_SIZE : Z := 8.

Inductive io_error : Type :=
| InvalidData
| Unsupported
| OsError (code : Z).

#[export] Instance io_error_eq_dec : EqDecision io_error.
Proof. solve_decision. Defined.

Definition page_number (addr : Z) : Z := addr / LOG_PAGE_SIZE.
Definition page_word (page : Z) : Z := page / LOG_WORD_SIZE.
Definition page_bit (page : Z) : Z := page `mod` LOG_WORD_SIZE.

(** [io_try_into]: a conversion whose error is [InvalidData] *)
Definition io_try_into (w z : Z) : outcome io_error Z := try_into w z InvalidData.

(** ** The mapping of the log: [MmapLogReg] *)

Section from_file.
(** [libc::mmap]: the length, the descriptor and the offset; the mapped bytes. *)
Context (mmap : Z → Z → Z → outcome io_error bytes).

(** [isize] holds what fits 63 bits of a [u64]. *)
Definition from_file (fd offset len : Z) : outcome io_error bytes :=
  outcome_bind (io_try_into 63 offset) (λ offset,
    outcome_bind (io_try_into 64 len) (λ len,
      if bool_decide (2 ^ 63 - 1 < len) then Fail InvalidData
      else mmap len fd offset)).
End from_file.

Definition log_len (log : bytes) : Z := Z.of_nat (length log).

(** [Index::index], which asserts that the index is inside the mapping *)
Definition log_index {E} (index : Z) : M bytes E Z :=
  λ log,
    if bool_decide (0 ≤ index < log_len log)
    then (Ret (log !!! Z.to_nat index), log)
    else (Panic, log).

(** [self.logmem[i].fetch_or(v)]: the update is one atomic step. *)
Definition log_fetch_or {E} (index v : Z) : M bytes E unit :=
  let! old := log_index index in
  modify (λ log, <[Z.to_nat index := Z.lor old v]> log).

(** ** The bitmap of a region *)

(** A guest memory region: its first address and its length. *)
Record MemRegion : Type := MkMemRegion { mr_start_addr : Z; mr_len : Z }.

Record AtomicBitmapMmap : Type := MkAtomicBitmapMmap {
  pages_before_region : Z;
  number_of_pages : Z;
}.

Definition bitmap_new (region : MemRegion) (log : bytes) : outcome io_error AtomicBitmapMmap :=
  outcome_bind (io_try_into 64 (mr_start_addr region)) (λ region_start_addr,
  outcome_bind (io_try_into 64 (mr_len region)) (λ region_len,
  if bool_decide (region_len = 0) then Fail InvalidData
  else
    outcome_bind (ok_or (checked_add 64 region_start_addr (region_len - 1)) InvalidData)
      (λ region_end_addr,
    let region_end_log_word := page_word (page_number region_end_addr) in
    if bool_decide (log_len log ≤ region_end_log_word) then Fail InvalidData
    else
      let offset_pages := page_number region_start_addr in
      let size_page := page_number region_len in
      Ret (MkAtomicBitmapMmap offset_pages size_page)))).

(** [for page in first_page..=last_page], left with [break] at the first page
    that the bitmap does not index. *)
Fixpoint mark_pages {E} (bm : AtomicBitmapMmap) (pages : list Z) : M bytes E unit :=
  match pages with
  | [] => ret tt
  | page :: pages =>
      if bool_decide (number_of_pages bm ≤ page) then ret tt
      else
        let page := pages_before_region bm + page in
        do! log_fetch_or (page_word page) (Z.shiftl 1 (page_bit page)) in
        mark_pages bm pages
  end.

Definition bitmap_mark_dirty {E} (bm : AtomicBitmapMmap) (offset len : Z) : M bytes E unit :=
  if bool_decide (len = 0) then ret tt
  else
    let first_page := page_number offset in
    let last_page := page_number (saturating_add 64 offset (len - 1)) in
    mark_pages bm (seqZ first_page (last_page - first_page + 1)).

Definition bitmap_dirty_at {E} (bm : AtomicBitmapMmap) (offset : Z) : M bytes E bool :=
  let page := page_number offset in
  if bool_decide (number_of_pages bm ≤ page) then ret false
  else
    let page := pages_before_region bm + page in
    let! word := log_index (page_word page) in
    let page_bit := Z.land word (Z.shiftl 1 (page_bit page)) in
    ret (bool_decide (page_bit ≠ 0)).

(** ** The replaceable bitmap of a region: [BitmapMmapRegion] *)

(** What all slices of one region share: the inner bitmap and its log. *)
Record region_bitmap : Type := MkRegionBitmap {
  rb_inner : option AtomicBitmapMmap;
  rb_log : bytes;
}.

Definition rb_on_log {E A} : M bytes E A → M region_bitmap E A :=
  zoom rb_log (λ log rb, MkRegionBitmap (rb_inner rb) log).

Record BitmapMmapRegion : Type := MkBitmapMmapRegion { br_base_address : Z }.

Definition region_mark_dirty {E} (br : BitmapMmapRegion) (offset len : Z) :
    M region_bitmap E unit :=
  let! inner := gets rb_inner in
  match inner with
  | Some bitmap =>
      match checked_add 64 (br_base_address br) offset with
      | Some absolute_offset => rb_on_log (bitmap_mark_dirty bitmap absolute_offset len)
      | None => ret tt
      end
  | None => ret tt
  end.

Definition region_dirty_at {E} (br : BitmapMmapRegion) (offset : Z) : M region_bitmap E bool :=
  let! inner := gets rb_inner in
  match inner with
  | Some bitmap =>
      rb_on_log (bitmap_dirty_at bitmap (saturating_add 64 (br_base_address br) offset))
  | None => ret false
  end.

Definition region_slice_at (br : BitmapMmapRegion) (offset : Z) : BitmapMmapRegion :=
  MkBitmapMmapRegion (saturating_add 64 (br_base_address br) offset).

(** [BitmapReplace::replace] takes the bitmap with the log it was made from. *)
Definition region_replace {E} (bitmap : AtomicBitmapMmap) (log : bytes) :
    M region_bitmap E unit :=
  put (MkRegionBitmap (Some bitmap) log).

(** [NewBitmap::with_len] *)
Definition region_with_len (len : Z) : BitmapMmapRegion * region_bitmap :=
  (MkBitmapMmapRegion 0, MkRegionBitmap None []).

(** The unit bitmap of the devices that do not log. *)
Definition unit_bitmap_new (region : MemRegion) (log : bytes) : outcome io_error unit :=
  Fail Unsupported.
Definition unit_bitmap_replace {St E} (bitmap : unit) : M St E unit := panic.

(** ** The bits of a log *)

Definition log_dirty (log : bytes) (page : Z) : bool :=
  Z.testbit (log !!! Z.to_nat (page_word page)) (page_bit page).

(** The window of the bitmap lies inside the log. *)
Definition bitmap_fits (bm : AtomicBitmapMmap) (log : bytes) : Prop :=
  0 ≤ pages_before_region bm ∧ 0 ≤ number_of_pages bm ∧
  (0 < number_of_pages bm →
   page_word (pages_before_region bm + number_of_pages bm - 1) < log_len log).

Lemma page_word_bit_inj p q :
  page_word p = page_word q → page_bit p = page_bit q → p = q.
Proof.
  unfold page_word, page_bit, LOG_WORD_SIZE. intros Hw Hb.
  rewrite (Z.div_mod p 8), (Z.div_mod q 8) by done. by rewrite Hw, Hb.
Qed.

Lemma page_bit_range p : 0 ≤ page_bit p < 8.
Proof. apply Z.mod_pos_bound. done. Qed.

Lemma page_word_mono p q : p ≤ q → page_word p ≤ page_word q.
Proof. unfold page_word, LOG_WORD_SIZE. intros. by apply Z.div_le_mono. Qed.

Lemma page_word_nonneg p : 0 ≤ p → 0 ≤ page_word p.
Proof. unfold page_word, LOG_WORD_SIZE. intros. by apply Z.div_pos. Qed.

Lemma page_number_mono a b : a ≤ b → page_number a ≤ page_number b.
Proof. unfold page_number, LOG_PAGE_SIZE. intros. by apply Z.div_le_mono. Qed.

(** A bitmap that [new] accepts fits the log it was made from. *)
Lemma bitmap_new_fits region log bm :
  bitmap_new region log = Ret bm →
  bitmap_fits bm log ∧ pages_before_region bm = page_number (mr_start_addr region) ∧
  number_of_pages bm = page_number (mr_len region).
Proof.
  unfold bitmap_new, io_try_into, try_into, outcome_bind, ok_or.
  case_bool_decide as Hs; [|done]. case_bool_decide as Hl; [|done].
  case_bool_decide as Hz; [done|].
  destruct (checked_add _ _ _) as [e|] eqn:He; [|done].
  apply checked_add_Some in He as [-> He]. case_bool_decide as Hlog; [done|].
  intros ?; simplify_eq. unfold bitmap_fits. simpl.
  split_and!; try done; unfold page_number, LOG_PAGE_SIZE in *.
  - apply Z.div_pos; [|done]. apply Hs.
  - apply Z.div_pos; [|done]. apply Hl.
  - intros Hpos. eapply Z.le_lt_trans; [|by apply Z.lt_nge in Hlog].
    apply page_word_mono.
    assert (mr_start_addr region / 4096 + mr_len region / 4096 ≤
      (mr_start_addr region + mr_len region) / 4096) as Hadd.
    { apply Z.div_le_lower_bound; [done|].
      pose proof (Z.mul_div_le (mr_start_addr region) 4096 ltac:(done)).
      pose proof (Z.mul_div_le (mr_len region) 4096 ltac:(done)). lia. }
    assert ((mr_start_addr region + mr_len region) / 4096 - 1 ≤
      (mr_start_addr region + (mr_len region - 1)) / 4096).
    { replace ((mr_start_addr region + mr_len region) / 4096 - 1)
        with ((mr_start_addr region + mr_len region + (-1) * 4096) / 4096)
        by (rewrite Z.div_add by done; lia).
      apply Z.div_le_mono; [done|lia]. }
    lia.
Qed.

Lemma bitmap_new_result region log :
  (∃ bm, bitmap_new region log = Ret bm) ∨ ∃ e, bitmap_new region log = Fail e.
Proof.
  unfold bitmap_new, io_try_into, try_into, outcome_bind, ok_or.
  repeat case_bool_decide; eauto; destruct (checked_add _ _ _); eauto; case_bool_decide; eauto.
Qed.

(** One atomic step of [mark_dirty] on a page inside the log. *)
Definition set_page (page : Z) (log : bytes) : bytes :=
  <[Z.to_nat (page_word page) :=
      Z.lor (log !!! Z.to_nat (page_word page)) (Z.shiftl 1 (page_bit page))]> log.

Lemma length_set_page p log : length (set_page p log) = length log.
Proof. apply length_insert. Qed.

Lemma log_len_set_page p log : log_len (set_page p log) = log_len log.
Proof. unfold log_len. by rewrite length_set_page. Qed.

Lemma log_fetch_or_set_page {E} p log :
  0 ≤ p → page_word p < log_len log →
  log_fetch_or (E:=E) (page_word p) (Z.shiftl 1 (page_bit p)) log = (Ret tt, set_page p log).
Proof.
  intros Hp Hlt. pose proof (page_word_nonneg p Hp).
  unfold log_fetch_or, log_index, bind. by rewrite bool_decide_eq_true_2 by lia.
Qed.

Lemma log_dirty_set_page p q log :
  0 ≤ p → 0 ≤ q → page_word p < log_len log →
  log_dirty (set_page p log) q = log_dirty log q || bool_decide (q = p).
Proof.
  intros Hp Hq Hlt. unfold log_dirty, set_page, log_len in *.
  pose proof (page_word_nonneg p Hp). pose proof (page_word_nonneg q Hq).
  pose proof (page_bit_range p). pose proof (page_bit_range q).
  destruct (decide (page_word q = page_word p)) as [Hw|Hw].
  - rewrite Hw, list_lookup_total_insert_eq by lia. rewrite testbit_lor_bit by lia.
    f_equal. apply bool_decide_ext. split; [|by intros ->].
    intros Hb. symmetry. by apply page_word_bit_inj.
  - rewrite list_lookup_total_insert_ne by lia.
    rewrite bool_decide_eq_false_2, orb_false_r; [done|]. by intros ->.
Qed.

(** Marking the pages of a list one after the other. *)
Definition set_pages (pages : list Z) (log : bytes) : bytes := foldl (flip set_page) log pages.

Lemma length_set_pages ps log : length (set_pages ps log) = length log.
Proof.
  revert log. induction ps as [|p ps IH]; intros log; [done|].
  change (length (set_pages ps (set_page p log)) = length log).
  by rewrite IH, length_set_page.
Qed.

Lemma log_dirty_set_pages ps q log :
  0 ≤ q → Forall (λ p, 0 ≤ p ∧ page_word p < log_len log) ps →
  log_dirty (set_pages ps log) q = log_dirty log q || bool_decide (q ∈ ps).
Proof.
  intros Hq. revert log. induction ps as [|p ps IH]; intros log Hps.
  { by rewrite bool_decide_eq_false_2, orb_false_r by (by intros ?%elem_of_nil). }
  apply Forall_cons in Hps as [[Hp Hlt] Hps].
  change (set_pages (p :: ps) log) with (set_pages ps (set_page p log)).
  rewrite IH, log_dirty_set_page, <-orb_assoc; [|done..|].
  - f_equal. rewrite <-bool_decide_or. apply bool_decide_ext. by rewrite elem_of_cons.
  - eapply Forall_impl; [done|]. intros x. simpl. by rewrite log_len_set_page.
Qed.

(** Two logs of the same length, holding bytes, with the same bits are equal. *)
Lemma log_ext (log1 log2 : bytes) :
  length log1 = length log2 → Forall is_byte log1 → Forall is_byte log2 →
  (∀ q, 0 ≤ q → log_dirty log1 q = log_dirty log2 q) → log1 = log2.
Proof.
  intros Hlen Hb1 Hb2 Hq. apply list_eq_same_length with (n := length log1); [done|done|].
  intros i x y Hi Hx Hy. apply Z.bits_inj. intros j.
  assert (is_byte x ∧ is_byte y) as [Hx8 Hy8].
  { rewrite Forall_forall in Hb1, Hb2. split;
      [apply Hb1|apply Hb2]; eapply list_elem_of_lookup_2; done. }
  destruct (decide (0 ≤ j < 8)) as [Hj|Hj].
  - assert (page_word (Z.of_nat i * 8 + j) = Z.of_nat i) as Hw.
    { unfold page_word, LOG_WORD_SIZE. rewrite Z.div_add_l, (Z.div_small j) by lia. lia. }
    assert (page_bit (Z.of_nat i * 8 + j) = j) as Hbit.
    { unfold page_bit, LOG_WORD_SIZE. rewrite Z.add_comm, Z.mod_add, Z.mod_small by lia. done. }
    specialize (Hq (Z.of_nat i * 8 + j) ltac:(lia)). unfold log_dirty in Hq.
    rewrite Hw, Hbit, Nat2Z.id in Hq.
    by rewrite !list_lookup_total_alt, Hx, Hy in Hq.
  - destruct (decide (j < 0)); [by rewrite !Z.testbit_neg_r by lia|].
    unfold is_byte in *.
    rewrite <-(Z.mod_small x (2 ^ 8)), <-(Z.mod_small y (2 ^ 8)) by done.
    by rewrite !Z.mod_pow2_bits_high by lia.
Qed.

Lemma set_page_bytes p log :
  0 ≤ p → page_word p < log_len log → Forall is_byte log → Forall is_byte (set_page p log).
Proof.
  intros Hp Hlt Hlog. apply Forall_insert; [done|].
  apply lor_bit_byte; [|apply page_bit_range].
  pose proof (page_word_nonneg p Hp). unfold log_len in Hlt.
  destruct (lookup_lt_is_Some_2 log (Z.to_nat (page_word p))) as [x Hx]; [lia|].
  rewrite list_lookup_total_alt, Hx. simpl. rewrite Forall_forall in Hlog.
  apply Hlog. by eapply list_elem_of_lookup_2.
Qed.

Lemma set_pages_bytes ps log :
  Forall (λ p, 0 ≤ p ∧ page_word p < log_len log) ps → Forall is_byte log →
  Forall is_byte (set_pages ps log).
Proof.
  revert log. induction ps as [|p ps IH]; intros log Hps Hlog; [done|].
  apply Forall_cons in Hps as [[Hp Hlt] Hps].
  apply (IH (set_page p log)); [|by apply set_page_bytes].
  eapply Forall_impl; [done|]. intros x. simpl. by rewrite log_len_set_page.
Qed.

(** The pages of the bitmap that a write of [len] bytes at [offset] touches. *)
Definition touched_pages (bm : AtomicBitmapMmap) (offset len : Z) : list Z :=
  if bool_decide (len = 0) then []
  else
    let first_page := page_number offset in
    let last_page := Z.min (page_number (saturating_add 64 offset (len - 1)))
                       (number_of_pages bm - 1) in
    Z.add (pages_before_region bm) <$> seqZ first_page (last_page - first_page + 1).

Lemma mark_pages_run {E} bm log first n :
  bitmap_fits bm log → 0 ≤ first →
  mark_pages (E:=E) bm (seqZ first n) log =
    (Ret tt, set_pages (Z.add (pages_before_region bm) <$>
      seqZ first (Z.min n (number_of_pages bm - first))) log).
Proof.
  intros Hfits Hfirst.
  destruct (decide (0 ≤ n)) as [Hn|]; [|by rewrite !seqZ_nil by lia].
  revert first log Hfits Hfirst. pattern n. apply natlike_ind; [| |done]; clear n Hn.
  { intros first log _ _. rewrite !seqZ_nil by lia. done. }
  intros n Hn IH first log Hfits Hfirst.
  rewrite seqZ_cons by lia. cbn [mark_pages].
  case_bool_decide as Hout.
  { by rewrite seqZ_nil by lia. }
  rewrite (seqZ_cons first (Z.min _ _)) by lia. rewrite fmap_cons.
  assert (0 ≤ pages_before_region bm + first ∧
    page_word (pages_before_region bm + first) < log_len log) as [Hp0 Hplt].
  { destruct Hfits as (Hb & Hnp & Hf). split; [lia|].
    eapply Z.le_lt_trans; [|apply Hf; lia]. apply page_word_mono. lia. }
  unfold bind. rewrite log_fetch_or_set_page by done.
  rewrite Z.pred_succ.
  rewrite IH; [| |lia].
  - simpl. repeat f_equal. lia.
  - destruct Hfits as (? & ? & Hf). unfold bitmap_fits. rewrite log_len_set_page. done.
Qed.

Lemma mark_dirty_run {E} bm log offset len :
  bitmap_fits bm log → 0 ≤ offset → 0 ≤ len →
  bitmap_mark_dirty (E:=E) bm offset len log =
    (Ret tt, set_pages (touched_pages bm offset len) log).
Proof.
  intros Hfits Ho Hl. unfold bitmap_mark_dirty, touched_pages.
  case_bool_decide as Hz; [done|]. cbn zeta.
  rewrite mark_pages_run; [|done|apply Z.div_pos; done].
  repeat f_equal. lia.
Qed.

Lemma touched_pages_in_log bm log offset len :
  bitmap_fits bm log → 0 ≤ offset →
  Forall (λ p, 0 ≤ p ∧ page_word p < log_len log) (touched_pages bm offset len).
Proof.
  intros (Hb & Hn & Hf) Ho. unfold touched_pages. case_bool_decide; [constructor|].
  apply Forall_forall. intros p (k & -> & Hk%elem_of_seqZ)%list_elem_of_fmap.
  assert (0 ≤ page_number offset) by (apply Z.div_pos; done).
  split; [lia|]. eapply Z.le_lt_trans; [|apply Hf; lia]. apply page_word_mono. lia.
Qed.

Lemma elem_of_touched_pages bm offset len p :
  p ∈ touched_pages bm offset len ↔
  len ≠ 0 ∧ page_number offset ≤ p - pages_before_region bm ≤
    page_number (saturating_add 64 offset (len - 1)) ∧
  p - pages_before_region bm < number_of_pages bm.
Proof.
  unfold touched_pages. case_bool_decide as Hz.
  { split; [by intros ?%elem_of_nil|naive_solver]. }
  rewrite list_elem_of_fmap. setoid_rewrite elem_of_seqZ. split.
  - intros (k & -> & Hk). split_and!; try done; lia.
  - intros (_ & Hp & Hn). exists (p - pages_before_region bm). split; lia.
Qed.

Lemma dirty_at_run {E} bm log offset :
  bitmap_fits bm log → 0 ≤ offset →
  bitmap_dirty_at (E:=E) bm offset log =
    (Ret (bool_decide (page_number offset < number_of_pages bm) &&
          log_dirty log (pages_before_region bm + page_number offset)), log).
Proof.
  intros (Hb & Hn & Hf) Ho. unfold bitmap_dirty_at.
  assert (0 ≤ page_number offset) by (apply Z.div_pos; done).
  case_bool_decide as Hout.
  { by rewrite bool_decide_eq_false_2 by lia. }
  rewrite (bool_decide_eq_true_2 (_ < _)) by lia. cbn zeta.
  pose proof (page_word_nonneg (pages_before_region bm + page_number offset) ltac:(lia)).
  assert (page_word (pages_before_region bm + page_number offset) < log_len log).
  { eapply Z.le_lt_trans; [|apply Hf; lia]. apply page_word_mono. lia. }
  unfold log_index, bind. rewrite bool_decide_eq_true_2 by lia. unfold ret.
  by rewrite land_bit_testbit by apply page_bit_range.
Qed.

(** ** Properties *)

(** What marking a range does to the bits of the log *)
Lemma mark_dirty_bits {E} region log bm offset len :
  bitmap_new region log = Ret bm → 0 ≤ offset → 0 ≤ len →
  ∃ log', bitmap_mark_dirty (E:=E) bm offset len log = (Ret tt, log') ∧
    length log' = length log ∧
    ∀ page, 0 ≤ page →
      log_dirty log' page =
        log_dirty log page ||
        bool_decide (len ≠ 0 ∧
          page_number offset ≤ page - page_number (mr_start_addr region) ≤
            page_number (saturating_add 64 offset (len - 1)) ∧
          page - page_number (mr_start_addr region) < page_number (mr_len region)).
Proof.
  intros (Hfits & Hb & Hn)%bitmap_new_fits Ho Hl.
  eexists. split_and!; [by apply mark_dirty_run|apply length_set_pages|].
  intros page Hp. rewrite log_dirty_set_pages; [|done|by apply touched_pages_in_log].
  f_equal. apply bool_decide_ext. by rewrite elem_of_touched_pages, Hb, Hn.
Qed.

(** Claim C16. A bitmap accepted by [new] never indexes outside the log: marking
    [len] bytes at [offset] succeeds, keeps the length of the log, and turns on
    exactly the bits of the pages of the region that the range touches, however
    far past the region the range runs. *)
Theorem mark_dirty_spec region log bm offset len :
  bitmap_new region log = Ret bm → 0 ≤ offset → 0 ≤ len →
  ∃ log', bitmap_mark_dirty (E:=io_error) bm offset len log = (Ret tt, log') ∧
    length log' = length log ∧
    ∀ page, 0 ≤ page →
      log_dirty log' page =
        log_dirty log page ||
        bool_decide (len ≠ 0 ∧
          page_number offset ≤ page - page_number (mr_start_addr region) ≤
            page_number (saturating_add 64 offset (len - 1)) ∧
          page - page_number (mr_start_addr region) < page_number (mr_len region)).
Proof. apply mark_dirty_bits. Qed.

Lemma mark_dirty_spec_witness :
  ∃ log', bitmap_mark_dirty (E:=io_error) (MkAtomicBitmapMmap 3 6) 4096 8192 [0; 0; 0; 0] =
      (Ret tt, log') ∧ log' = [48; 0; 0; 0] ∧
    length log' = 4%nat ∧
    ∀ page, 0 ≤ page →
      log_dirty log' page =
        log_dirty [0; 0; 0; 0] page ||
        bool_decide (8192 ≠ 0 ∧
          page_number 4096 ≤ page - page_number 12288 ≤
            page_number (saturating_add 64 4096 (8192 - 1)) ∧
          page - page_number 12288 < page_number 24576).
Proof.
  destruct (mark_dirty_spec (MkMemRegion 12288 24576) [0; 0; 0; 0] (MkAtomicBitmapMmap 3 6)
    4096 8192 eq_refl ltac:(lia) ltac:(lia)) as (log' & Hrun & Hlen & Hbits).
  exists log'. split_and!; [done| |done|done].
  vm_compute in Hrun. by simplify_eq.
Defined.

(** After a range has been marked, every byte of it that lies in a page
    the bitmap indexes reads as dirty, and a byte of a page that the range does
    not touch reads as before. *)
Theorem mark_then_dirty_at region log bm offset len o :
  bitmap_new region log = Ret bm →
  0 ≤ offset → 0 < len → 0 ≤ o → offset + len ≤ 2 ^ 64 →
  ∃ log' d d', bitmap_mark_dirty (E:=io_error) bm offset len log = (Ret tt, log') ∧
    bitmap_dirty_at (E:=io_error) bm o log = (Ret d, log) ∧
    bitmap_dirty_at (E:=io_error) bm o log' = (Ret d', log') ∧
    d' = d || bool_decide (page_number offset ≤ page_number o ≤ page_number (offset + len - 1) ∧
                           page_number o < page_number (mr_len region)).
Proof.
  intros (Hfits & Hb & Hn)%bitmap_new_fits Ho Hl Hoo Hend.
  assert (bitmap_fits bm (set_pages (touched_pages bm offset len) log)) as Hfits'.
  { unfold bitmap_fits, log_len. by rewrite length_set_pages. }
  eexists _, _, _. split_and!; [apply mark_dirty_run; [done..|lia]|by apply dirty_at_run| |].
  { by apply dirty_at_run. }
  assert (0 ≤ page_number o) by (apply Z.div_pos; done).
  rewrite log_dirty_set_pages; [|destruct Hfits; lia|by apply touched_pages_in_log].
  rewrite Hn. destruct (decide (page_number o < page_number (mr_len region))) as [Hin|Hin].
  - rewrite bool_decide_eq_true_2 by done. simpl. f_equal. apply bool_decide_ext.
    rewrite elem_of_touched_pages, Hn.
    replace (saturating_add 64 offset (len - 1)) with (offset + len - 1)
      by (unfold saturating_add; lia).
    replace (pages_before_region bm + page_number o - pages_before_region bm)
      with (page_number o) by lia. intuition lia.
  - rewrite (bool_decide_eq_false_2 (page_number o < _)) by done.
    simpl. by rewrite bool_decide_eq_false_2 by tauto.
Qed.

Lemma mark_then_dirty_at_witness :
  ∃ log' d d', bitmap_mark_dirty (E:=io_error) (MkAtomicBitmapMmap 0 32) 5000 10 [0; 0; 0; 0] =
      (Ret tt, log') ∧
    bitmap_dirty_at (E:=io_error) (MkAtomicBitmapMmap 0 32) 4096 [0; 0; 0; 0] = (Ret d, [0; 0; 0; 0]) ∧
    bitmap_dirty_at (E:=io_error) (MkAtomicBitmapMmap 0 32) 4096 log' = (Ret d', log') ∧
    d' = d || bool_decide (page_number 5000 ≤ page_number 4096 ≤ page_number (5000 + 10 - 1) ∧
                           page_number 4096 < page_number 131072).
Proof.
  apply (mark_then_dirty_at (MkMemRegion 0 131072) [0; 0; 0; 0] (MkAtomicBitmapMmap 0 32) 5000 10 4096);
    [reflexivity|lia..].
Defined.

(** Two regions that share no page of the log do not interfere: writes
    to the one never change what the other reports. *)
Theorem regions_independent r1 r2 log bm1 bm2 offset len o :
  bitmap_new r1 log = Ret bm1 → bitmap_new r2 log = Ret bm2 →
  page_number (mr_start_addr r1) + page_number (mr_len r1) ≤ page_number (mr_start_addr r2) ∨
  page_number (mr_start_addr r2) + page_number (mr_len r2) ≤ page_number (mr_start_addr r1) →
  0 ≤ offset → 0 ≤ len → 0 ≤ o →
  ∃ log' d, bitmap_mark_dirty (E:=io_error) bm1 offset len log = (Ret tt, log') ∧
    bitmap_dirty_at (E:=io_error) bm2 o log = (Ret d, log) ∧
    bitmap_dirty_at (E:=io_error) bm2 o log' = (Ret d, log').
Proof.
  intros (Hf1 & Hb1 & Hn1)%bitmap_new_fits (Hf2 & Hb2 & Hn2)%bitmap_new_fits Hdis Ho Hl Hoo.
  assert (bitmap_fits bm2 (set_pages (touched_pages bm1 offset len) log)) as Hf2'.
  { unfold bitmap_fits, log_len. by rewrite length_set_pages. }
  eexists _, _. split_and!; [by apply mark_dirty_run|by apply dirty_at_run|].
  rewrite dirty_at_run by done. f_equal. f_equal.
  assert (0 ≤ page_number o) by (apply Z.div_pos; done).
  assert (0 ≤ page_number offset) by (apply Z.div_pos; done).
  destruct (decide (page_number o < number_of_pages bm2)) as [Hin|];
    [|by rewrite bool_decide_eq_false_2 by done].
  f_equal. rewrite log_dirty_set_pages; [|destruct Hf2; lia|by apply touched_pages_in_log].
  rewrite bool_decide_eq_false_2, orb_false_r; [done|].
  rewrite elem_of_touched_pages. lia.
Qed.

Lemma regions_independent_witness :
  ∃ log' d, bitmap_mark_dirty (E:=io_error) (MkAtomicBitmapMmap 0 4) 0 99999 [0] = (Ret tt, log') ∧
    bitmap_dirty_at (E:=io_error) (MkAtomicBitmapMmap 4 4) 100 [0] = (Ret d, [0]) ∧
    bitmap_dirty_at (E:=io_error) (MkAtomicBitmapMmap 4 4) 100 log' = (Ret d, log').
Proof.
  apply (regions_independent (MkMemRegion 0 16384) (MkMemRegion 16384 16384) [0]
    (MkAtomicBitmapMmap 0 4) (MkAtomicBitmapMmap 4 4) 0 99999 100); [reflexivity|reflexivity| |lia|lia|lia].
  left. by vm_compute.
Defined.

(** The atomic steps of concurrent [mark_dirty] calls commute: whatever
    the order in which the single-page updates of several writers reach the log,
    the log they leave is the same. *)
Theorem set_pages_interleaving pages pages' log :
  Forall is_byte log → Forall (λ p, 0 ≤ p ∧ page_word p < log_len log) pages →
  pages ≡ₚ pages' →
  set_pages pages log = set_pages pages' log.
Proof.
  intros Hlog Hps Hperm.
  assert (Forall (λ p, 0 ≤ p ∧ page_word p < log_len log) pages') as Hps'.
  { by rewrite <-Hperm. }
  apply log_ext; [by rewrite !length_set_pages|by apply set_pages_bytes..|].
  intros q Hq. rewrite !log_dirty_set_pages by done. f_equal.
  apply bool_decide_ext. by rewrite Hperm.
Qed.

Lemma set_pages_interleaving_witness :
  set_pages [1; 9; 2] [0; 0] = set_pages [2; 1; 9] [0; 0] ∧ set_pages [1; 9; 2] [0; 0] = [6; 2].
Proof.
  split; [|reflexivity]. apply set_pages_interleaving.
  - repeat constructor; done.
  - repeat constructor; done.
  - apply (Permutation_cons_append [1; 9] 2) || (symmetry; apply (Permutation_cons_append [1; 9] 2)).
Defined.

(** Claim C36. The bytes of a trailing partial page are never tracked: when the
    length of a region is not a whole number of pages, writes to its last bytes
    leave the log as it was and are reported clean. *)
Theorem tail_never_logged region log bm offset len :
  bitmap_new region log = Ret bm → 0 < len →
  page_number (mr_len region) * LOG_PAGE_SIZE ≤ offset < mr_len region →
  bitmap_mark_dirty (E:=io_error) bm offset len log = (Ret tt, log) ∧
  bitmap_dirty_at (E:=io_error) bm offset log = (Ret false, log).
Proof.
  intros (Hfits & Hb & Hn)%bitmap_new_fits Hl Hoff.
  assert (0 ≤ page_number (mr_len region)) as Hpn by (destruct Hfits; lia).
  assert (page_number (mr_len region) ≤ page_number offset) as Hpage.
  { change (page_number offset) with (offset / 4096). change LOG_PAGE_SIZE with 4096 in Hoff.
    apply Z.div_le_lower_bound; lia. }
  unfold LOG_PAGE_SIZE in Hoff. split.
  - rewrite mark_dirty_run by (done || lia). unfold touched_pages.
    rewrite bool_decide_eq_false_2 by lia. cbn zeta. by rewrite Hn, seqZ_nil by lia.
  - rewrite dirty_at_run by (done || lia). by rewrite Hn, bool_decide_eq_false_2 by lia.
Qed.

Lemma tail_never_logged_witness :
  bitmap_new (MkMemRegion 0 6000) [0] = Ret (MkAtomicBitmapMmap 0 1) ∧
  bitmap_mark_dirty (E:=io_error) (MkAtomicBitmapMmap 0 1) 5000 100 [0] = (Ret tt, [0]) ∧
  bitmap_dirty_at (E:=io_error) (MkAtomicBitmapMmap 0 1) 5000 [0] = (Ret false, [0]).
Proof.
  split; [reflexivity|].
  apply (tail_never_logged (MkMemRegion 0 6000)); [reflexivity|lia|].
  change (4096 ≤ 5000 < 6000). lia.
Defined.

(** A slice of a slice behaves as one slice while no address overflows. *)
Lemma slice_mark_dirty {E} br off o len rb :
  0 ≤ br_base_address br → 0 ≤ off → 0 ≤ o → br_base_address br + off + o < 2 ^ 64 →
  region_mark_dirty (E:=E) (region_slice_at br off) o len rb =
  region_mark_dirty br (off + o) len rb.
Proof.
  intros Hb Ho Hoo Hlt. unfold region_mark_dirty, region_slice_at, bind, gets. simpl.
  destruct (rb_inner rb) as [bm|]; [|done].
  unfold checked_add, saturating_add, in_width.
  rewrite Z.min_l by lia. rewrite !bool_decide_eq_true_2 by lia. by rewrite Z.add_assoc.
Qed.
