(* ===== verification/Vring.v ===== *)
(** * A queue shared with the front-end: [vhost-user/src/vring.rs]

    A [Vring] is a queue behind a lock together with its state: whether the
    front-end enabled it, the event descriptors for kicks, calls and errors, and
    the epoll instances of the device's workers that watch the kick descriptor.
    The queue's ready flag says whether the ring is started. The methods run on a
    vring and the environment all vrings share: which epoll instances are still
    alive (the vring holds weak references) and the kernel. Each method is one
    step; the lock's poisoning is not modelled. *)

From S2P Require Import Prelude EventToken Epoll EventManager VirtQueue.

Record VringState : Type := MkVringState {
  vs_enabled : bool;
  vs_kick : option Z;
  vs_call : option Z;
  vs_err : option Z;
  vs_epolls : list (EpollArc * Z);
}.

Record Vring (Q : Type) : Type := MkVring { vr_queue : Q; vr_state : VringState }.
Arguments MkVring {Q}.
Arguments vr_queue {Q}.
Arguments vr_state {Q}.

(** The environment: the allocations of epoll instances that have an owner, and
    the kernel. *)
Record Env (W : Type) : Type := MkEnv { env_live : gset Z; env_world : W }.
Arguments MkEnv {W}.
Arguments env_live {W}.
Arguments env_world {W}.

Section vring.
Context {W Q Mem : Type} `{EpollOps W} `{EventSetBits} `{EventFdOps W} `{QueueConfig Q Mem}.

Definition VE : Type := Vring Q * Env W.

Definition set_state (f : VringState → VringState) (s : VE) : VE :=
  (MkVring (vr_queue s.1) (f (vr_state s.1)), s.2).
Definition on_queue (f : Q → Q) (s : VE) : VE :=
  (MkVring (f (vr_queue s.1)) (vr_state s.1), s.2).
Definition on_world {E A} : M W E A → M VE E A :=
  zoom (λ s, env_world s.2) (λ w s, (s.1, MkEnv (env_live s.2) w)).

Definition register_kick (epoll : EpollArc) (kick_fd token : Z) : M W errno unit :=
  epoll_ctl (arc_raw epoll) CtlAdd kick_fd (EpollEvent ES_IN token).

Definition unregister_kick (epoll : EpollArc) (kick_fd : Z) : M W errno unit :=
  epoll_ctl (arc_raw epoll) CtlDelete kick_fd (EpollEvent ES_IN 0).

Definition vring_new (queue_args : QueueArgs) : outcome vq_error (Vring Q) :=
  outcome_bind (q_new (qa_max_size queue_args)) (λ queue,
    Ret (MkVring queue (MkVringState false None None None []))).

Definition set_queue_info (desc_table avail_ring used_ring : Z) : M (Vring Q) vq_error unit :=
  zoom vr_queue (λ q v, MkVring q (vr_state v))
    (do! q_try_set_desc_table_address desc_table in
     do! q_try_set_avail_ring_address avail_ring in
     q_try_set_used_ring_address used_ring).

Definition is_enabled (s : VE) : bool := vs_enabled (vr_state s.1).

Definition set_enabled {E} (enabled : bool) : M VE E unit :=
  modify (set_state (λ st, MkVringState enabled (vs_kick st) (vs_call st) (vs_err st) (vs_epolls st))).

Definition is_started (s : VE) : bool := q_ready (vr_queue s.1).

Definition kick_of (s : VE) : option Z := vs_kick (vr_state s.1).

(** The epoll instances whose weak reference can still be upgraded. *)
Definition live_epolls (s : VE) : list (EpollArc * Z) :=
  filter (λ et, arc_id et.1 ∈ env_live s.2) (vs_epolls (vr_state s.1)).

Definition update_one (old_kick new_kick : option Z) (et : EpollArc * Z) : M W errno unit :=
  do! match old_kick with Some fd => unregister_kick et.1 fd | None => ret tt end in
  match new_kick with Some fd => register_kick et.1 fd et.2 | None => ret tt end.

Definition update_epolls (old_kick_efd new_kick_efd : option Z) : M VE errno unit :=
  let! epolls := gets live_epolls in
  on_world (for_each epolls (update_one old_kick_efd new_kick_efd)).

Definition vring_stop : M VE errno unit :=
  let! kick := gets kick_of in
  do! match kick with
      | Some kick_efd => update_epolls (Some kick_efd) None
      | None => ret tt
      end in
  modify (on_queue (q_set_ready false)).

Definition vring_start : M VE errno unit :=
  do! modify (on_queue (q_set_ready true)) in
  let! kick := gets kick_of in
  update_epolls None kick.

Definition set_call {E} (file : option Z) : M VE E unit :=
  modify (set_state (λ st, MkVringState (vs_enabled st) (vs_kick st) file (vs_err st) (vs_epolls st))).

Definition set_kick (file : option Z) : M VE errno unit :=
  let! old_kick_efd := gets kick_of in
  do! modify (set_state (λ st,
        MkVringState (vs_enabled st) file (vs_call st) (vs_err st) (vs_epolls st))) in
  let! started := gets is_started in
  if started : bool then update_epolls old_kick_efd file else ret tt.

Definition set_err {E} (file : option Z) : M VE E unit :=
  modify (set_state (λ st, MkVringState (vs_enabled st) (vs_kick st) (vs_call st) file (vs_epolls st))).

Definition has_kick_event (s : VE) : bool := bool_decide (is_Some (kick_of s)).

Definition set_epolls (f : gset Z → list (EpollArc * Z) → list (EpollArc * Z)) (s : VE) : VE :=
  set_state (λ st, MkVringState (vs_enabled st) (vs_kick st) (vs_call st) (vs_err st)
    (f (env_live s.2) (vs_epolls st))) s.

Definition add_epoll {E} (epoll : EpollArc) (token : Z) : M VE E unit :=
  modify (set_epolls (λ live epolls,
    filter (λ et, arc_id et.1 ∈ live) epolls ++ [(epoll, token)])).

Definition remove_epoll {E} (epoll : EpollArc) : M VE E unit :=
  modify (set_epolls (λ live epolls,
    filter (λ et, arc_id et.1 ∈ live ∧ arc_raw et.1 ≠ arc_raw epoll) epolls)).

(** [VhostKickEvent] as an event source *)
Definition kick_register_self (epoll : EpollArc) (token : Z) : M VE errno unit :=
  let! kick := gets kick_of in
  do! match kick with
      | Some kick_efd => on_world (register_kick epoll kick_efd token)
      | None => ret tt
      end in
  add_epoll epoll token.

Definition kick_unregister_self (epoll : EpollArc) : M VE errno unit :=
  do! remove_epoll epoll in
  let! kick := gets kick_of in
  match kick with
  | Some kick_efd => on_world (unregister_kick epoll kick_efd)
  | None => ret tt
  end.

Definition try_lock_queue (s : VE) : option Q :=
  if negb (is_enabled s) then None
  else
    let queue := vr_queue s.1 in
    if is_enabled s && q_ready queue then Some queue else None.

Definition signal_used_queue : M VE errno unit :=
  let! call := gets (λ s, vs_call (vr_state s.1)) in
  match call with
  | Some fd => on_world (efd_write fd 1)
  | None => ret tt
  end.

Definition read_kick : M VE errno bool :=
  let! kick := gets kick_of in
  do! match kick with
      | Some fd =>
          let! r := attempt (on_world (efd_read fd)) in
          match r with
          | inr _ => ret tt
          | inl e => if bool_decide (e = EAGAIN) then ret tt else fail e
          end
      | None => ret tt
      end in
  gets is_enabled.

#[export] Instance vring_device_queue : DeviceQueue VE Q := {|
  dq_try_lock_queue := try_lock_queue;
  dq_store q s := on_queue (λ _, q) s;
  dq_signal_used_queue := signal_used_queue;
  dq_kick_register := kick_register_self;
  dq_read_kick := read_kick;
|}.
End vring.
Arguments VE : clear implicits.

(** ** What the kernel watches *)

Section vring_properties.
Context {W Q Mem : Type} `{EpollLaws W} `{EventSetBits} `{!EventFdOps W, !EventFdLaws W}
  `{!QueueConfig Q Mem, !QueueConfigLaws Q Mem}.
Implicit Types (s : VE W Q) (w : W).

(** The epoll instances of a list own distinct descriptors. *)
Definition distinct_raws (l : list (EpollArc * Z)) : Prop :=
  NoDup ((λ et, arc_raw et.1) <$> l).

(** [fd] is watched by every instance of [l], with the token it came with. *)
Definition all_watch (l : list (EpollArc * Z)) (fd : Z) (w : W) : Prop :=
  ∀ e t, (e, t) ∈ l → watched w (arc_raw e) fd = Some (EpollEvent ES_IN t).
Definition none_watch (l : list (EpollArc * Z)) (fd : Z) (w : W) : Prop :=
  ∀ e t, (e, t) ∈ l → watched w (arc_raw e) fd = None.

(** What [update_epolls] does to what instance [e] watches of descriptor [fd]. *)
Definition updated (old new : option Z) (t : Z) (w : W) (ep fd : Z) : option epoll_event :=
  if bool_decide (new = Some fd) then Some (EpollEvent ES_IN t)
  else if bool_decide (old = Some fd) then None
  else watched w ep fd.

Lemma update_one_ok old new e t w w' :
  update_one old new (e, t) w = (Ret tt, w') →
  (∀ fd, watched w' (arc_raw e) fd = updated old new t w (arc_raw e) fd) ∧
  (∀ ep fd, ep ≠ arc_raw e → watched w' ep fd = watched w ep fd).
Proof.
  unfold update_one. intros Hrun. apply bind_inv_Ret in Hrun as ([] & w1 & Hold & Hnew).
  simpl in *.
  assert ((∀ fd, watched w1 (arc_raw e) fd = updated old None t w (arc_raw e) fd) ∧
    (∀ ep fd, ep ≠ arc_raw e → watched w1 ep fd = watched w ep fd)) as [Hw1 Hw1'].
  { destruct old as [o|].
    - apply ctl_delete_ok in Hold as [_ Hs]. split.
      + intros fd. rewrite (Hs (arc_raw e) fd). unfold updated.
        rewrite (bool_decide_eq_false_2 (None = Some fd)) by done.
        repeat case_bool_decide; naive_solver.
      + intros ep fd Hne. apply (watched_set_ne _ _ _ _ _ _ _ Hs). by left.
    - unfold ret in Hold. simplify_eq. by split. }
  destruct new as [n|].
  - apply ctl_add_ok in Hnew as [_ Hs]. split.
    + intros fd. rewrite (Hs (arc_raw e) fd), Hw1. unfold updated.
      rewrite (bool_decide_eq_false_2 (None = Some fd)) by done.
      repeat case_bool_decide; naive_solver.
    + intros ep fd Hne. rewrite <-Hw1' by done.
      apply (watched_set_ne _ _ _ _ _ _ _ Hs). by left.
  - unfold ret in Hnew. by simplify_eq.
Qed.

Lemma updates_ok old new l w w' :
  distinct_raws l → for_each l (update_one old new) w = (Ret tt, w') →
  (∀ e t fd, (e, t) ∈ l → watched w' (arc_raw e) fd = updated old new t w (arc_raw e) fd) ∧
  (∀ ep fd, (∀ e t, (e, t) ∈ l → arc_raw e ≠ ep) → watched w' ep fd = watched w ep fd).
Proof.
  unfold distinct_raws. revert w. induction l as [|[e t] l IH]; intros w Hd Hrun; simpl in Hrun.
  { unfold ret in Hrun. simplify_eq. split; [by intros ??? ?%elem_of_nil|done]. }
  apply bind_inv_Ret in Hrun as ([] & w1 & Hone & Hrest).
  rewrite fmap_cons in Hd. simpl in Hd. apply NoDup_cons in Hd as [Hnotin Hd].
  apply update_one_ok in Hone as [He Hother].
  destruct (IH w1 Hd Hrest) as [Hin Hout].
  assert (∀ e' t', (e', t') ∈ l → arc_raw e' ≠ arc_raw e) as Hne.
  { intros e' t' Hin' Heq. apply Hnotin. rewrite <-Heq.
    apply list_elem_of_fmap. by exists (e', t'). }
  split.
  - intros e' t' fd [[= -> ->]|Hin']%elem_of_cons.
    + rewrite Hout by (intros; eauto). apply He.
    + rewrite (Hin _ _ _ Hin'). unfold updated.
      repeat case_bool_decide; [done..|]. eauto.
  - intros ep fd Hep. rewrite Hout by (intros e1 t1 ?; apply (Hep e1 t1); by constructor).
    apply Hother. intros ->. apply (Hep e t); [by constructor|done].
Qed.

Lemma update_epolls_ok old new s s' :
  distinct_raws (live_epolls s) → update_epolls old new s = (Ret tt, s') →
  s'.1 = s.1 ∧ env_live s'.2 = env_live s.2 ∧
  (∀ e t fd, (e, t) ∈ live_epolls s → watched (env_world s'.2) (arc_raw e) fd =
    updated old new t (env_world s.2) (arc_raw e) fd) ∧
  (∀ ep fd, (∀ e t, (e, t) ∈ live_epolls s → arc_raw e ≠ ep) →
    watched (env_world s'.2) ep fd = watched (env_world s.2) ep fd).
Proof.
  unfold update_epolls, bind, gets, on_world, zoom. intros Hd.
  destruct (for_each _ _ _) as [o w'] eqn:Hrun. intros ?; simplify_eq. simpl.
  destruct (updates_ok _ _ _ _ _ Hd Hrun) as [Hin Hout]. by split_and!.
Qed.

(** ** The life of a vring *)

(** The kick descriptor is watched by the workers' epoll instances exactly while
    the ring is started. *)
Definition vring_monitored s : Prop :=
  distinct_raws (live_epolls s) ∧
  ∀ k, kick_of s = Some k →
    if is_started s then all_watch (live_epolls s) k (env_world s.2)
    else none_watch (live_epolls s) k (env_world s.2).

(** What may happen to a vring: the operations of the front-end's requests when
    they succeed (a failure is a panic of the caller), at any time; workers that register
    an epoll instance of their own with a ring that is started or has no kick, or
    unregister it; the processing of the queue; and other owners' epoll instances that come
    and go. A kick descriptor that a stopped ring gets is one that is not being watched. *)
Inductive vring_step : VE W Q → VE W Q → Prop :=
| vstep_start s s' : vring_start s = (Ret tt, s') → vring_step s s'
| vstep_stop s s' : vring_stop s = (Ret tt, s') → vring_step s s'
| vstep_set_kick file s s' :
    (is_started s = false → ∀ k, file = Some k → none_watch (live_epolls s) k (env_world s.2)) →
    set_kick file s = (Ret tt, s') → vring_step s s'
| vstep_register e t s s' :
    (has_kick_event s = true → is_started s = true) → arc_id e ∈ env_live s.2 →
    (∀ e' t', (e', t') ∈ live_epolls s → arc_raw e' ≠ arc_raw e) →
    kick_register_self e t s = (Ret tt, s') → vring_step s s'
| vstep_unregister e s s' :
    kick_unregister_self e s = (Ret tt, s') → vring_step s s'
| vstep_set_enabled b s : vring_step s (set_enabled (E:=errno) b s).2
| vstep_set_call file s : vring_step s (set_call (E:=errno) file s).2
| vstep_set_err file s : vring_step s (set_err (E:=errno) file s).2
| vstep_read_kick s : vring_step s (read_kick s).2
| vstep_signal s : vring_step s (signal_used_queue s).2
| vstep_queue f s :
    (∀ q, q_ready (f q) = q_ready q) → vring_step s (on_queue f s)
| vstep_env live' w' s :
    (∀ e t, (e, t) ∈ vs_epolls (vr_state s.1) → arc_id e ∈ live' →
      arc_id e ∈ env_live s.2 ∧
      ∀ fd, watched w' (arc_raw e) fd = watched (env_world s.2) (arc_raw e) fd) →
    vring_step s (s.1, MkEnv live' w').

Lemma distinct_raws_sublist l l' : sublist l' l → distinct_raws l → distinct_raws l'.
Proof.
  unfold distinct_raws. intros Hs Hd. eapply sublist_NoDup; [done|]. by apply fmap_sublist.
Qed.

Lemma distinct_raws_raw l e e' t t' :
  distinct_raws l → (e, t) ∈ l → (e', t') ∈ l → arc_raw e = arc_raw e' → e = e' ∧ t = t'.
Proof.
  intros Hd [i Hi]%list_elem_of_lookup_1 [j Hj]%list_elem_of_lookup_1 Hr.
  assert (i = j) as ->; [|by simplify_eq].
  apply (NoDup_lookup _ _ _ (arc_raw e) Hd);
    rewrite list_lookup_fmap; [by rewrite Hi|rewrite Hj; simpl; congruence].
Qed.

Lemma start_ok s s' :
  vring_monitored s → vring_start s = (Ret tt, s') → is_started s' = true ∧ vring_monitored s'.
Proof.
  intros [Hd Hk] Hrun. unfold vring_start, bind at 1 2, modify, gets in Hrun.
  apply update_epolls_ok in Hrun as (Hvr & Henv & Hin & _); [|done].
  assert (live_epolls s' = live_epolls s) as Hlive.
  { unfold live_epolls. by rewrite Hvr, Henv. }
  assert (is_started s' = true) as Hst'.
  { unfold is_started. rewrite Hvr. simpl. apply q_set_ready_ready. }
  split; [done|]. split; [by rewrite Hlive|]. rewrite Hlive, Hst'.
  intros k Hkick e t Het. rewrite (Hin _ _ _ Het). unfold kick_of in *. rewrite Hvr in Hkick.
  simpl in *. rewrite Hkick. unfold updated. by rewrite bool_decide_eq_true_2.
Qed.

Lemma stop_ok s s' :
  vring_monitored s → vring_stop s = (Ret tt, s') →
  is_started s' = false ∧ kick_of s' = kick_of s ∧ vring_monitored s'.
Proof.
  intros [Hd Hk] Hrun. unfold vring_stop, bind at 1, gets in Hrun.
  apply bind_inv_Ret in Hrun as ([] & s1 & Hupd & Hmod). unfold modify in Hmod. simplify_eq.
  assert (s1.1 = s.1 ∧ env_live s1.2 = env_live s.2 ∧ ∀ k, kick_of s = Some k →
    none_watch (live_epolls s) k (env_world s1.2)) as (Hvr & Henv & Hnone).
  { destruct (kick_of s) as [k|] eqn:Hkick; [|unfold ret in Hupd; by simplify_eq].
    apply update_epolls_ok in Hupd as (Hvr & Henv & Hin & _); [|done].
    split_and!; [done..|]. intros k' [= <-] e t Het. rewrite (Hin _ _ _ Het).
    unfold updated. rewrite bool_decide_eq_false_2 by done. by rewrite bool_decide_eq_true_2. }
  assert (live_epolls (on_queue (q_set_ready false) s1) = live_epolls s) as Hlive.
  { unfold live_epolls, on_queue. simpl. by rewrite Hvr, Henv. }
  assert (is_started (on_queue (q_set_ready false) s1) = false) as Hst'.
  { unfold is_started, on_queue. simpl. apply q_set_ready_ready. }
  assert (kick_of (on_queue (q_set_ready false) s1) = kick_of s) as Hkick.
  { unfold kick_of, on_queue. simpl. by rewrite Hvr. }
  split_and!; [done..|]. split; [by rewrite Hlive|].
  intros k. rewrite Hkick, Hst', Hlive. apply Hnone.
Qed.

Lemma set_kick_ok file s s' :
  vring_monitored s →
  (is_started s = false → ∀ k, file = Some k → none_watch (live_epolls s) k (env_world s.2)) →
  set_kick file s = (Ret tt, s') →
  is_started s' = is_started s ∧ kick_of s' = file ∧ vring_monitored s'.
Proof.
  intros [Hd Hk] Hfresh Hrun. unfold set_kick, bind, gets, modify in Hrun.
  change (is_started (set_state _ s)) with (is_started s) in Hrun.
  destruct (is_started s) eqn:Hst.
  - apply update_epolls_ok in Hrun as (Hvr & Henv & Hin & _); [|done].
    assert (live_epolls s' = live_epolls s) as Hlive.
    { unfold live_epolls. by rewrite Hvr, Henv. }
    assert (is_started s' = true) as Hst' by (unfold is_started in *; by rewrite Hvr).
    assert (kick_of s' = file) as Hkick by (unfold kick_of; by rewrite Hvr).
    split_and!; [done..|]. split; [by rewrite Hlive|].
    intros k. rewrite Hkick, Hst', Hlive. intros -> e t Het.
    rewrite (Hin _ _ _ Het). unfold updated. by rewrite bool_decide_eq_true_2.
  - unfold ret in Hrun. simplify_eq. split_and!; [done..|]. split; [done|].
    intros k Hkick. change (is_started _) with (is_started s). rewrite Hst.
    by apply Hfresh.
Qed.

Lemma register_ok e t s s' :
  vring_monitored s → (has_kick_event s = true → is_started s = true) →
  arc_id e ∈ env_live s.2 →
  (∀ e' t', (e', t') ∈ live_epolls s → arc_raw e' ≠ arc_raw e) →
  kick_register_self e t s = (Ret tt, s') → vring_monitored s'.
Proof.
  intros [Hd Hk] Hstarted Hlive Hfresh Hrun.
  unfold kick_register_self, bind at 1, gets in Hrun.
  apply bind_inv_Ret in Hrun as ([] & s1 & Hreg & Hadd).
  unfold add_epoll, modify in Hadd. simplify_eq.
  assert (s1.1 = s.1 ∧ env_live s1.2 = env_live s.2 ∧ ∀ k, kick_of s = Some k →
    watched_set (env_world s.2) (env_world s1.2) (arc_raw e) k (Some (EpollEvent ES_IN t)))
    as (Hvr & Henv & Hset).
  { destruct (kick_of s) as [k|]; [|unfold ret in Hreg; by simplify_eq].
    unfold on_world, zoom in Hreg.
    destruct (register_kick e k t (env_world s.2)) as [o w1] eqn:Hctl. simplify_eq. simpl.
    apply ctl_add_ok in Hctl as [_ Hs]. split_and!; [done..|]. by intros ? [= <-]. }
  set (s' := set_epolls _ s1).
  assert (live_epolls s' = live_epolls s ++ [(e, t)]) as Hl.
  { unfold live_epolls, s', set_epolls, set_state. simpl. rewrite Henv, Hvr.
    rewrite filter_app, list_filter_filter_l by done. f_equal.
    by rewrite filter_cons_True by done. }
  assert (kick_of s' = kick_of s) as Hkick' by (unfold kick_of, s'; simpl; by rewrite Hvr).
  assert (is_started s' = is_started s) as Hst' by (unfold is_started, s'; simpl; by rewrite Hvr).
  split.
  - rewrite Hl. unfold distinct_raws. rewrite fmap_app. apply NoDup_app. split_and!; [done| |].
    + intros r ([e' t'] & -> & Hin)%list_elem_of_fmap [He|He%elem_of_nil]%elem_of_cons; [|done].
      by apply (Hfresh e' t').
    + apply NoDup_singleton.
  - intros k. rewrite Hkick', Hst'. intros Hkick.
    specialize (Hset k Hkick). specialize (Hk k Hkick).
    rewrite Hstarted in Hk |- *; [|unfold has_kick_event; by rewrite bool_decide_eq_true_2..].
    rewrite Hl. intros e' t' [Hin|[= -> ->]%list_elem_of_singleton]%elem_of_app.
    + rewrite (watched_set_ne _ _ _ _ _ _ _ Hset); [by apply Hk|].
      left. by apply (Hfresh e' t').
    + by apply watched_set_eq in Hset.
Qed.

Lemma unregister_ok e s s' :
  vring_monitored s → kick_unregister_self e s = (Ret tt, s') → vring_monitored s'.
Proof.
  intros [Hd Hk] Hrun. unfold kick_unregister_self, remove_epoll, bind, modify, gets in Hrun.
  set (s1 := set_epolls _ s) in Hrun.
  assert (live_epolls s1 = filter (λ et, arc_raw et.1 ≠ arc_raw e) (live_epolls s)) as Hl.
  { unfold live_epolls, s1, set_epolls, set_state. simpl. rewrite !list_filter_filter.
    apply list_filter_iff. naive_solver. }
  change (kick_of s1) with (kick_of s) in Hrun.
  assert (s'.1 = s1.1 ∧ env_live s'.2 = env_live s.2 ∧ ∀ k ep fd, kick_of s = Some k →
    ep ≠ arc_raw e → watched (env_world s'.2) ep fd = watched (env_world s.2) ep fd)
    as (Hvr & Henv & Hsame).
  { destruct (kick_of s) as [k|]; [|unfold ret in Hrun; by simplify_eq].
    unfold on_world, zoom in Hrun.
    destruct (unregister_kick e k (env_world s1.2)) as [o w1] eqn:Hctl. simplify_eq. simpl.
    apply ctl_delete_ok in Hctl as [_ Hs]. split_and!; [done..|].
    intros k' ep fd [= <-] Hne. apply (watched_set_ne _ _ _ _ _ _ _ Hs). by left. }
  assert (live_epolls s' = live_epolls s1) as Hl'.
  { unfold live_epolls. by rewrite Hvr, Henv. }
  split.
  { rewrite Hl', Hl. eapply distinct_raws_sublist; [apply sublist_filter|done]. }
  intros k. unfold kick_of, is_started. rewrite Hvr, Hl', Hl. intros Hkick.
  change (kick_of s = Some k) in Hkick. specialize (Hk k Hkick).
  change (q_ready (vr_queue s1.1)) with (is_started s).
  destruct (is_started s); intros e' t' [Hne Hin]%list_elem_of_filter;
    rewrite (Hsame k) by done; by apply (Hk e' t').
Qed.

Lemma monitored_same s s' :
  vring_monitored s → kick_of s' = kick_of s → is_started s' = is_started s →
  live_epolls s' = live_epolls s → same_watched (env_world s.2) (env_world s'.2) →
  vring_monitored s'.
Proof.
  intros [Hd Hk] Hkick Hst Hl Hw. split; [by rewrite Hl|].
  intros k. rewrite Hkick, Hst, Hl. intros Hk'. specialize (Hk k Hk').
  destruct (is_started s); intros e t Hin; rewrite (Hw _ _); by apply (Hk e t).
Qed.

Lemma read_kick_same s :
  (read_kick s).2.1 = s.1 ∧ env_live (read_kick s).2.2 = env_live s.2 ∧
  same_watched (env_world s.2) (env_world (read_kick s).2.2).
Proof.
  unfold read_kick, bind, gets, attempt, on_world, zoom.
  destruct (kick_of s) as [k|]; [|by split_and!].
  pose proof (efd_read_watched k (env_world s.2)) as Hw.
  destruct (efd_read k (env_world s.2)) as [[n|err| |] w1]; simpl in *; try by split_and!.
  case_bool_decide; by split_and!.
Qed.

Lemma signal_same s :
  (signal_used_queue s).2.1 = s.1 ∧ env_live (signal_used_queue s).2.2 = env_live s.2 ∧
  same_watched (env_world s.2) (env_world (signal_used_queue s).2.2).
Proof.
  unfold signal_used_queue, bind, gets, on_world, zoom.
  destruct (vs_call _) as [k|]; [|by split_and!].
  pose proof (efd_write_watched k 1 (env_world s.2)) as Hw.
  destruct (efd_write k 1 (env_world s.2)) as [o w1]. by split_and!.
Qed.

Lemma monitored_same_vring s s' :
  vring_monitored s → s'.1 = s.1 → env_live s'.2 = env_live s.2 →
  same_watched (env_world s.2) (env_world s'.2) → vring_monitored s'.
Proof.
  intros Hm Hv He Hw. apply (monitored_same s); [done|..|done].
  - unfold kick_of. by rewrite Hv.
  - unfold is_started. by rewrite Hv.
  - unfold live_epolls. by rewrite Hv, He.
Qed.

Lemma env_ok live' w' s :
  vring_monitored s →
  (∀ e t, (e, t) ∈ vs_epolls (vr_state s.1) → arc_id e ∈ live' →
    arc_id e ∈ env_live s.2 ∧
    ∀ fd, watched w' (arc_raw e) fd = watched (env_world s.2) (arc_raw e) fd) →
  vring_monitored (s.1, MkEnv live' w').
Proof.
  intros [Hd Hk] Henv.
  assert (live_epolls (s.1, MkEnv live' w') = filter (λ et, arc_id et.1 ∈ live') (live_epolls s))
    as Hl.
  { unfold live_epolls. simpl. rewrite list_filter_filter. revert Henv.
    generalize (vs_epolls (vr_state s.1)). intros l Henv. induction l as [|[e t] l IH]; [done|].
    rewrite !filter_cons. rewrite IH by (intros e' t' ?; apply (Henv e' t'); by constructor).
    specialize (Henv e t ltac:(constructor)). simpl.
    repeat case_decide; naive_solver. }
  split.
  - rewrite Hl. eapply distinct_raws_sublist; [apply sublist_filter|done].
  - intros k Hkick. change (kick_of s = Some k) in Hkick. specialize (Hk k Hkick).
    change (is_started _) with (is_started s). rewrite Hl. simpl.
    destruct (is_started s); intros e t [Hlive Hin]%list_elem_of_filter; simpl in Hlive;
      pose proof (Hk e t Hin) as He; apply list_elem_of_filter in Hin as [_ Hin];
      by rewrite (proj2 (Henv e t Hin Hlive)).
Qed.

Lemma vring_step_monitored s s' : vring_step s s' → vring_monitored s → vring_monitored s'.
Proof.
  intros Hstep Hm. destruct Hstep.
  - by eapply start_ok.
  - by eapply stop_ok.
  - by eapply set_kick_ok.
  - by eapply register_ok.
  - by eapply unregister_ok.
  - by apply (monitored_same s).
  - by apply (monitored_same s).
  - by apply (monitored_same s).
  - destruct (read_kick_same s) as (? & ? & ?). by apply (monitored_same_vring s).
  - destruct (signal_same s) as (? & ? & ?). by apply (monitored_same_vring s).
  - apply (monitored_same s); [done..| |done|done]. unfold is_started, on_queue. simpl. done.
  - by apply env_ok.
Qed.

Lemma vring_new_monitored args v env : vring_new args = Ret v → vring_monitored (v, env).
Proof.
  unfold vring_new, outcome_bind. destruct (q_new _); [|done..]. intros ?; simplify_eq.
  split; [apply NoDup_nil_2|]. done.
Qed.

Lemma vring_reach_monitored s s' :
  rtc vring_step s s' → vring_monitored s → vring_monitored s'.
Proof. induction 1; eauto using vring_step_monitored. Qed.

Lemma update_epolls_result old new s :
  ∃ o s', update_epolls old new s = (o, s') ∧ (o = Ret tt ∨ ∃ e, o = Fail e) ∧ s'.1 = s.1.
Proof.
  unfold update_epolls, bind at 1, gets, on_world, zoom.
  assert (∀ l w, (∃ w', for_each l (update_one old new) w = (Ret tt, w')) ∨
    ∃ e w', for_each l (update_one old new) w = (Fail e, w')) as Hloop.
  { intros l. induction l as [|[e t] l IH]; intros w; [by left; exists w|]. simpl.
    assert ((∃ w', update_one old new (e, t) w = (Ret tt, w')) ∨
      ∃ er w', update_one old new (e, t) w = (Fail er, w')) as [[w1 Hone]|(er & w1 & Hone)].
    { unfold update_one, bind. destruct old as [o|], new as [n|]; unfold ret; simpl; eauto;
        try apply ctl_result;
        destruct (ctl_result (arc_raw e) CtlDelete o (EpollEvent ES_IN 0) w)
          as [(w1 & Hw)|(er & w1 & Hw)]; unfold unregister_kick; rewrite Hw; eauto.
      apply ctl_result. }
    - unfold bind. rewrite Hone. apply IH.
    - unfold bind. rewrite Hone. eauto. }
  destruct (Hloop (live_epolls s) (env_world s.2)) as [[w' Hw]|(e & w' & Hw)]; rewrite Hw; eauto 10.
Qed.

(** Claim C14. From the moment a vring is made, in whatever order the front-end starts it,
    stops it and gives it kick descriptors, and workers register, unregister and
    process its queue: while the ring is started every live epoll instance that registered
    with it watches the current kick descriptor, under the token it gave; while the
    ring is stopped none of them does. This is so as long as the calls succeed (when one
    fails, the handler panics), workers register, each with an epoll instance that is not
    in use here, only when the ring is started or has no kick descriptor, a stopped ring is
    not given a descriptor that they watch already, and nobody else changes what these
    instances watch. *)
Theorem kick_monitored_iff_started args v env s k e t :
  vring_new args = Ret v → rtc vring_step (v, env) s →
  kick_of s = Some k → (e, t) ∈ live_epolls s →
  watched (env_world s.2) (arc_raw e) k =
    if is_started s then Some (EpollEvent ES_IN t) else None.
Proof.
  intros Hnew Hreach Hkick Hin.
  destruct (vring_reach_monitored _ _ Hreach) as [_ Hk].
  { by eapply vring_new_monitored. }
  specialize (Hk k Hkick). destruct (is_started s); by apply (Hk e t).
Qed.

(** Claim C30. Stopping a started ring either succeeds, and then the device can
    no longer lock the queue and no live epoll instance watches the kick
    descriptor, or fails and leaves the ring started. It never panics. *)
Theorem vring_stop_quiesces args v env s :
  vring_new args = Ret v → rtc vring_step (v, env) s → is_started s = true →
  ∃ o s', vring_stop s = (o, s') ∧
    ((o = Ret tt ∧ try_lock_queue s' = None ∧
      ∀ k, kick_of s = Some k → none_watch (live_epolls s') k (env_world s'.2)) ∨
     (∃ err, o = Fail err ∧ is_started s' = true)).
Proof.
  intros Hnew Hreach Hst.
  assert (vring_monitored s) as Hm.
  { eapply vring_reach_monitored; [done|]. by eapply vring_new_monitored. }
  destruct (vring_stop s) as [o s'] eqn:Hrun. exists o, s'. split; [done|].
  assert (o = Ret tt ∨ ∃ err, o = Fail err ∧ is_started s' = true) as [->|(err & -> & Hst')].
  { unfold vring_stop, bind, gets, modify, ret in Hrun. destruct (kick_of s) as [k|].
    - destruct (update_epolls_result (Some k) None s) as (o1 & s1 & Hu & Ho1 & Hvr).
      rewrite Hu in Hrun. destruct Ho1 as [->|[er ->]]; simplify_eq; [by left|].
      right. eexists. split; [done|]. unfold is_started in *. by rewrite Hvr.
    - simplify_eq. by left. }
  - left. destruct (stop_ok _ _ Hm Hrun) as (Hst' & Hkick & _ & Hk).
    split_and!; [done| |].
    + unfold try_lock_queue. unfold is_started in Hst'. rewrite Hst', andb_false_r.
      by destruct (is_enabled s').
    + intros k Hks. rewrite Hst' in Hk. apply Hk. by rewrite Hkick.
  - right. eauto.
Qed.

(** A vring is a device queue whose lock is kept by the processing of its queue,
    as long as that does not touch the ready flag. *)
Lemma vring_device_queue_laws {Chain} `{!QueueProc Q Mem Chain} :
  (∀ head len q (m : Mem) o q' m', q_add_used head len (q, m) = (o, (q', m')) →
    q_ready q' = q_ready q) →
  DeviceQueueLaws (VE W Q) Q Mem Chain.
Proof.
  intros Hready. split.
  - intros s q head len m o q' m' Hlock Hadd. apply Hready in Hadd.
    simpl in *. unfold try_lock_queue in *. simpl in *.
    change (is_enabled (on_queue _ s)) with (is_enabled s).
    destruct (is_enabled s); simpl in *; [|done].
    destruct (q_ready (vr_queue s.1)) eqn:Hr; simplify_eq. by rewrite Hadd, Hr.
  - intros s. simpl. unfold try_lock_queue, is_enabled.
    by destruct (signal_same s) as (-> & _).
Qed.
End vring_properties.

(** ** A ring on the reference epoll *)

Module VringExamples.
Import Sim SimQueue.

(** Reading a descriptor that is not ready would block. *)
#[export] Instance sim_efd : EventFdOps world := {|
  efd_read fd w :=
    if bool_decide (fd ∈ ready w)
    then (Ret 1, World (interest w) (filter (λ f, f ≠ fd) (ready w)) (interrupts w) (next_ep w))
    else (Fail EAGAIN, w);
  efd_write fd n w := (Ret tt, World (interest w) (fd :: ready w) (interrupts w) (next_ep w));
|}.

#[export] Instance sim_efd_laws : EventFdLaws world.
Proof.
  split; simpl.
  - intros fd w. by case_bool_decide.
  - done.
  - intros fd w. case_bool_decide; eauto.
  - eauto.
Qed.

(** A ring with a kick descriptor and one worker, started and then stopped. *)
Definition args : QueueArgs := MkQueueArgs 256.
Definition v0 : Vring SimQueue.queue :=
  MkVring (SimQueue.Queue false false 256 256 0 0 (0, 0, 0) [] [] true)
    (MkVringState false None None None []).
Definition worker : EpollArc := MkEpollArc 1 70.
Definition env0 : Env world := MkEnv {[1]} empty_world.
Definition s1 : VE world SimQueue.queue := (set_kick (Some 40) (v0, env0)).2.
Definition s2 : VE world SimQueue.queue := (vring_start s1).2.
Definition s3 : VE world SimQueue.queue := (kick_register_self worker 9 s2).2.
Definition s4 : VE world SimQueue.queue := (set_enabled (E:=errno) true s3).2.

Lemma s4_reached : rtc vring_step (v0, env0) s4.
Proof.
  eapply rtc_l; [apply (vstep_set_kick (Some 40) _ s1); [by intros _ ??? ? ?%elem_of_nil|reflexivity]|].
  eapply rtc_l; [apply (vstep_start s1 s2); reflexivity|].
  eapply rtc_l; [apply (vstep_register worker 9 s2 s3); [done|vm_compute; done| |reflexivity]|].
  { by intros ?? ?%elem_of_nil. }
  apply rtc_once. apply (vstep_set_enabled true s3).
Qed.

Lemma kick_monitored_iff_started_witness :
  is_started s4 = true ∧
  watched (env_world s4.2) 70 40 = Some (EpollEvent ES_IN 9).
Proof.
  split; [reflexivity|].
  assert ((worker, 9) ∈ live_epolls s4) as Hin by (vm_compute; constructor).
  exact (kick_monitored_iff_started args v0 env0 s4 40 worker 9 eq_refl s4_reached eq_refl Hin).
Defined.

Lemma vring_stop_quiesces_witness :
  try_lock_queue s4 ≠ None ∧
  ∃ o s', vring_stop s4 = (o, s') ∧
    ((o = Ret tt ∧ try_lock_queue s' = None ∧
      ∀ k, kick_of s4 = Some k → none_watch (live_epolls s') k (env_world s'.2)) ∨
     (∃ err, o = Fail err ∧ is_started s' = true)).
Proof.
  split; [done|].
  apply (vring_stop_quiesces args v0 env0 s4); [reflexivity|exact s4_reached|reflexivity].
Defined.
End VringExamples.
