(* ===== verification/VhostBackend.v ===== *)
(** * Delegation to a virtio device: [vhost-user/src/backend.rs]

    [VhostUserDevice] is what the handler of vhost-user requests asks of a device.
    [VhostUserDeviceImplementer] gives it for anything that holds a
    [VirtioDevice]: every method is passed on, and the feature methods hide the
    bit of the vhost-user protocol features from the device. *)

From S2P Require Import Prelude VirtQueue.

(** The trait [VhostUserDevice], over the device [D], the guest memory [Mem] and
    the queues [Q]; [S] is the type of the GPU socket. *)
Class VhostUserDevice (D Mem Q S : Type) : Type := {
  vud_protocol_features : D → Z;
  vud_avail_features : D → Z;
  vud_acked_features : D → Z;
  vud_set_acked_features : Z → M D string unit;
  vud_queues : D → list QueueArgs;
  vud_read_config : Z → bytes → D → outcome string bytes;
  vud_write_config : Z → bytes → M D string unit;
  vud_activate : Mem → gmap nat Q → M D string unit;
  vud_stop : M D string unit;
  vud_reset : M D string bool;
  vud_set_gpu_socket : S → M D string unit;
}.

(** The feature masks of the [vhost] crate that the code names; the handler needs
    no more of them than that the mask of the protocol features is not empty. *)
Class VhostUserBits : Type := {
  PROTOCOL_FEATURES : Z;
  REPLY_ACK : Z;
  SHARED_OBJECT : Z;
  VIRTIO_RING_F_EVENT_IDX : Z;
  protocol_features_positive : 0 < PROTOCOL_FEATURES;
}.

Section implementer.
Context {I D Mem Q S : Type} `{VirtioDevice D Mem Q} `{VhostUserBits}.

(** [AsRef] and [AsMut] of the implementer, and what it has to say itself. *)
Context (as_ref : I → D) (as_mut : D → I → I).
Context (protocol_features : I → Z) (set_gpu_socket : S → M I string unit).

Definition impl_avail_features (i : I) : Z :=
  Z.lor (vd_avail_features (as_ref i)) PROTOCOL_FEATURES.

Definition impl_acked_features (i : I) : Z :=
  Z.lor (vd_acked_features (as_ref i)) PROTOCOL_FEATURES.

Definition impl_set_acked_features (acked_features : Z) : M I string unit :=
  do! assert (bool_decide (Z.land acked_features PROTOCOL_FEATURES = PROTOCOL_FEATURES)) in
  zoom as_ref as_mut (vd_set_acked_features (Z.lxor acked_features PROTOCOL_FEATURES)).

Definition impl_queues (i : I) : list QueueArgs := vd_queues (as_ref i).

Definition impl_read_config (offset : Z) (data : bytes) (i : I) : outcome string bytes :=
  vd_read_config offset data (as_ref i).

Definition impl_write_config (offset : Z) (data : bytes) : M I string unit :=
  zoom as_ref as_mut (vd_write_config offset data).

Definition impl_activate (mem : Mem) (queues : gmap nat Q) : M I string unit :=
  zoom as_ref as_mut (vd_activate mem queues).

Definition impl_stop : M I string unit := zoom as_ref as_mut vd_stop.

Definition impl_reset : M I string bool := zoom as_ref as_mut vd_reset.

(** The blanket implementation of [VhostUserDevice] for every implementer. *)
Definition implementer_device : VhostUserDevice I Mem Q S := {|
  vud_protocol_features := protocol_features;
  vud_avail_features := impl_avail_features;
  vud_acked_features := impl_acked_features;
  vud_set_acked_features := impl_set_acked_features;
  vud_queues := impl_queues;
  vud_read_config := impl_read_config;
  vud_write_config := impl_write_config;
  vud_activate := impl_activate;
  vud_stop := impl_stop;
  vud_reset := impl_reset;
  vud_set_gpu_socket := set_gpu_socket;
|}.
End implementer.

(** The default [set_gpu_socket]: generic devices have no GPU socket. *)
Definition default_set_gpu_socket {I S : Type} (gpu_backend : S) : M I string unit := ret tt.

(** ** Masks *)

Lemma lxor_full_mask a m : Z.land a m = m → Z.lxor a m = Z.ldiff a m.
Proof.
  intros Ham. apply Z.bits_inj. intros i. rewrite Z.lxor_spec, Z.ldiff_spec.
  assert (Z.testbit (Z.land a m) i = Z.testbit m i) as Hi by (by rewrite Ham).
  rewrite Z.land_spec in Hi. by destruct (Z.testbit a i), (Z.testbit m i).
Qed.

Lemma lor_ldiff_mask a m : Z.land a m = m → Z.lor (Z.ldiff a m) m = a.
Proof.
  intros Ham. apply Z.bits_inj. intros i. rewrite Z.lor_spec, Z.ldiff_spec.
  assert (Z.testbit (Z.land a m) i = Z.testbit m i) as Hi by (by rewrite Ham).
  rewrite Z.land_spec in Hi. by destruct (Z.testbit a i), (Z.testbit m i).
Qed.

Lemma lor_ldiff_subset a avail m :
  bits_subset a (Z.lor avail m) → bits_subset (Z.ldiff a m) avail.
Proof.
  rewrite !bits_subset_testbit. intros Ha i. rewrite Z.ldiff_spec.
  specialize (Ha i). rewrite Z.lor_spec in Ha.
  destruct (Z.testbit a i), (Z.testbit m i); simpl; try done.
  rewrite orb_false_r in Ha. auto.
Qed.

(** ** Features as the front-end and as the device see them *)

Section features.
Context {I D Mem Q : Type} `{VirtioDevice D Mem Q} `{VhostUserBits}.
Context (as_ref : I → D) (as_mut : D → I → I).
Context (as_ref_mut : ∀ d i, as_ref (as_mut d i) = d).

(** What the trait asks of the device's own [set_acked_features]: it keeps any
    set of features that the device offers. *)
Definition stores_acked_features (d : D) : Prop :=
  ∀ f, bits_subset f (vd_avail_features d) →
    ∃ d', vd_set_acked_features f d = (Ret tt, d') ∧ vd_acked_features d' = f.

(** Acknowledging features is a round trip through the device for any
    set of offered features with the protocol-features mask: the device sees
    exactly its own features, a subset of those it offers, and the front-end
    reads back what it acknowledged. Without the mask the call panics and the
    device is left alone. *)
Theorem acked_features_roundtrip (i : I) f :
  stores_acked_features (as_ref i) → bits_subset f (impl_avail_features as_ref i) →
  (Z.land f PROTOCOL_FEATURES = PROTOCOL_FEATURES →
    ∃ i', impl_set_acked_features as_ref as_mut f i = (Ret tt, i') ∧
      impl_acked_features as_ref i' = f ∧
      vd_acked_features (as_ref i') = Z.ldiff f PROTOCOL_FEATURES ∧
      bits_subset (vd_acked_features (as_ref i')) (vd_avail_features (as_ref i))) ∧
  (Z.land f PROTOCOL_FEATURES ≠ PROTOCOL_FEATURES →
    impl_set_acked_features as_ref as_mut f i = (Panic, i)).
Proof.
  intros Hdev Hsub. unfold impl_set_acked_features, impl_acked_features.
  case_bool_decide as Hm; [|done]. split; [intros _|done].
  apply lor_ldiff_subset in Hsub.
  destruct (Hdev _ Hsub) as (d' & Hset & Hacked).
  exists (as_mut d' i). unfold bind, assert, ret, zoom.
  rewrite lxor_full_mask, Hset, as_ref_mut, Hacked by done.
  split_and!; [done|by apply lor_ldiff_mask|done|done].
Qed.
End features.

(** ** A device that stores what it is given *)
Module BackendExamples.

#[export] Instance bits : VhostUserBits.
Proof. refine {| PROTOCOL_FEATURES := 2 ^ 30; REPLY_ACK := 8; SHARED_OBJECT := 2 ^ 18;
  VIRTIO_RING_F_EVENT_IDX := 29 |}. done. Defined.

Record dev : Type := Dev { d_acked : Z; d_activations : nat }.

#[export] Instance dev_virtio (Mem Q : Type) : VirtioDevice dev Mem Q := {|
  vd_device_type _ := Ret 3;
  vd_avail_features _ := 2 ^ 32 + 2 ^ 29 + 3;
  vd_acked_features := d_acked;
  vd_set_acked_features f := modify (λ d, Dev f (d_activations d));
  vd_queues _ := [MkQueueArgs 256; MkQueueArgs 64];
  vd_read_config offset data _ := Ret data;
  vd_write_config offset data := fail "read only"%string;
  vd_activate _ _ := modify (λ d, Dev (d_acked d) (S (d_activations d)));
  vd_stop := ret tt;
  vd_reset := default_reset (ret tt);
|}.

Lemma acked_features_roundtrip_witness :
  let f := 2 ^ 32 + 2 ^ 30 + 1 in
  ∃ i', impl_set_acked_features (Mem:=unit) (Q:=unit) id (λ d _, d) f (Dev 0 0) = (Ret tt, i') ∧
    impl_acked_features (Mem:=unit) (Q:=unit) id i' = f ∧
    vd_acked_features (Mem:=unit) (Q:=unit) i' = Z.ldiff f PROTOCOL_FEATURES ∧
    bits_subset (vd_acked_features (Mem:=unit) (Q:=unit) i')
      (vd_avail_features (Mem:=unit) (Q:=unit) (Dev 0 0)).
Proof.
  apply (acked_features_roundtrip (Mem:=unit) (Q:=unit) id (λ d _, d) (λ _ _, eq_refl)
    (Dev 0 0) (2 ^ 32 + 2 ^ 30 + 1)); [|reflexivity..].
  intros f Hf. eexists. split; reflexivity.
Defined.
End BackendExamples.
