(* ===== verification/VhostHandler.v ===== *)
(** * The requests of the front-end: [vhost-user/src/handler.rs]

    [VhostUserHandler] keeps the device, what was negotiated, the memory table and
    the rings; every message of the vhost-user protocol is one of its methods. A
    method is a computation on the handler here, with the error the front-end
    gets. The guest memory, its regions and the mapping of files are an interface;
    the bitmaps of the regions and the log they write to are kept next to the
    memory they belong to. The feature [postcopy] is modelled, too; its requests are not
    among those of a session here. *)

From S2P Require Import Prelude Epoll EventManager VirtQueue Bitmap Vring VhostBackend.

(** The part of [vhost::vhost_user::Error] that the code builds or matches; the
    others are numbered. *)
Inductive req_error : Type :=
| ReqIo (e : io_error)
| ReqMemory (code : Z)
| ReqMissingMapping
| ReqNoUffd
| ReqOs (e : errno).

Inductive VhostUserError : Type :=
| InvalidParam
| InvalidOperation (msg : string)
| InactiveFeature (feature : Z)
| BackendInternalError
| ReqHandlerError (e : req_error)
| SocketBroken (code : Z)
| Disconnected
| PartialMessage
| OtherError (code : Z).

Inductive VhostUserHandlerError : Type :=
| CreateVring (e : vq_error)
| MissingMemoryMapping.

Definition MAX_MEM_SLOTS : Z := 509.

(** The first field is there with the feature [postcopy] only. *)
Record AddrMapping : Type := MkAddrMapping {
  am_local_addr : Z;
  am_vmm_addr : Z;
  am_size : Z;
  am_gpa_base : Z;
}.

(** [VhostUserMemoryRegion] and [VhostUserSingleMemoryRegion] *)
Record VhostUserMemoryRegion : Type := MkVhostUserMemoryRegion {
  vm_guest_phys_addr : Z;
  vm_memory_size : Z;
  vm_user_addr : Z;
  vm_mmap_offset : Z;
}.

(** [VhostUserLog] *)
Record VhostUserLog : Type := MkVhostUserLog { vl_mmap_size : Z; vl_mmap_offset : Z }.

(** Guest memory: [vm_memory] and the mapping of a region's file. *)
Class GuestMemory (Mem Region Mmap File : Type) : Type := {
  mmap_region : VhostUserMemoryRegion → File → outcome VhostUserError Mmap;
  guest_region_new : Mmap → Z → outcome Z Region;
  region_as_ptr : Region → Z;   (* where the region is mapped in this process *)
  region_info : Region → MemRegion;
  from_regions : list Region → outcome Z Mem;
  insert_region : Mem → Region → outcome Z Mem;
  remove_region : Mem → Z → Z → outcome Z Mem;
  mem_regions : Mem → list Region;
  file_fd : File → Z;
  (* libc::mmap of the log file: length, descriptor, offset *)
  mmap_log : Z → Z → Z → outcome io_error bytes;
}.

(** [BitmapReplace]: the inner bitmap of a region is made from the region and the
    log; the map of all inner bitmaps is keyed by the regions' first addresses. *)
Class BitmapReplace (B : Type) : Type := {
  inner_new : MemRegion → bytes → outcome io_error B;
  inner_replace : Z → B → gmap Z B → outcome VhostUserError (gmap Z B);
}.

#[export] Instance bitmap_mmap_replace : BitmapReplace AtomicBitmapMmap := {|
  inner_new := bitmap_new;
  inner_replace start b m := Ret (<[start := b]> m);
|}.

#[export] Instance unit_replace : BitmapReplace () := {|
  inner_new := unit_bitmap_new;
  inner_replace start b m := Panic;
|}.

(** [GM<T::Bitmap>]: the memory, the inner bitmaps of its regions and the log that
    these share. *)
Record GuestMem (Mem B : Type) : Type := MkGuestMem {
  gm_mem : Mem;
  gm_bitmaps : gmap Z B;
  gm_log : bytes;
}.
Arguments MkGuestMem {Mem B}.
Arguments gm_mem {Mem B}.
Arguments gm_bitmaps {Mem B}.
Arguments gm_log {Mem B}.

Record VhostUserHandler (D Mem Q W B : Type) : Type := MkVhostUserHandler {
  h_device : D;
  h_device_activated : bool;
  h_memory_updated : bool;
  h_requested_queues : list QueueArgs;
  h_owned : bool;
  h_features_acked : bool;
  h_acked_features : Z;
  h_acked_protocol_features : Z;
  h_mappings : list AddrMapping;
  h_atomic_mem : GuestMem Mem B;
  h_vrings : list (Vring Q);
  h_env : Env W;
}.
Arguments MkVhostUserHandler {D Mem Q W B}.
Arguments h_device {D Mem Q W B}.
Arguments h_device_activated {D Mem Q W B}.
Arguments h_memory_updated {D Mem Q W B}.
Arguments h_requested_queues {D Mem Q W B}.
Arguments h_owned {D Mem Q W B}.
Arguments h_features_acked {D Mem Q W B}.
Arguments h_acked_features {D Mem Q W B}.
Arguments h_acked_protocol_features {D Mem Q W B}.
Arguments h_mappings {D Mem Q W B}.
Arguments h_atomic_mem {D Mem Q W B}.
Arguments h_vrings {D Mem Q W B}.
Arguments h_env {D Mem Q W B}.

(** ** Assignments *)

Section assignments.
Context {D Mem Q W B : Type}.
Implicit Types h : VhostUserHandler D Mem Q W B.

Definition set_device x h : VhostUserHandler D Mem Q W B :=
  MkVhostUserHandler x (h_device_activated h) (h_memory_updated h) (h_requested_queues h) (h_owned h) (h_features_acked h) (h_acked_features h) (h_acked_protocol_features h) (h_mappings h) (h_atomic_mem h) (h_vrings h) (h_env h).
Definition set_device_activated x h : VhostUserHandler D Mem Q W B :=
  MkVhostUserHandler (h_device h) x (h_memory_updated h) (h_requested_queues h) (h_owned h) (h_features_acked h) (h_acked_features h) (h_acked_protocol_features h) (h_mappings h) (h_atomic_mem h) (h_vrings h) (h_env h).
Definition set_memory_updated x h : VhostUserHandler D Mem Q W B :=
  MkVhostUserHandler (h_device h) (h_device_activated h) x (h_requested_queues h) (h_owned h) (h_features_acked h) (h_acked_features h) (h_acked_protocol_features h) (h_mappings h) (h_atomic_mem h) (h_vrings h) (h_env h).
Definition set_owned x h : VhostUserHandler D Mem Q W B :=
  MkVhostUserHandler (h_device h) (h_device_activated h) (h_memory_updated h) (h_requested_queues h) x (h_features_acked h) (h_acked_features h) (h_acked_protocol_features h) (h_mappings h) (h_atomic_mem h) (h_vrings h) (h_env h).
Definition set_features_acked x h : VhostUserHandler D Mem Q W B :=
  MkVhostUserHandler (h_device h) (h_device_activated h) (h_memory_updated h) (h_requested_queues h) (h_owned h) x (h_acked_features h) (h_acked_protocol_features h) (h_mappings h) (h_atomic_mem h) (h_vrings h) (h_env h).
Definition set_acked_features x h : VhostUserHandler D Mem Q W B :=
  MkVhostUserHandler (h_device h) (h_device_activated h) (h_memory_updated h) (h_requested_queues h) (h_owned h) (h_features_acked h) x (h_acked_protocol_features h) (h_mappings h) (h_atomic_mem h) (h_vrings h) (h_env h).
Definition set_acked_protocol_features x h : VhostUserHandler D Mem Q W B :=
  MkVhostUserHandler (h_device h) (h_device_activated h) (h_memory_updated h) (h_requested_queues h) (h_owned h) (h_features_acked h) (h_acked_features h) x (h_mappings h) (h_atomic_mem h) (h_vrings h) (h_env h).
Definition set_mappings x h : VhostUserHandler D Mem Q W B :=
  MkVhostUserHandler (h_device h) (h_device_activated h) (h_memory_updated h) (h_requested_queues h) (h_owned h) (h_features_acked h) (h_acked_features h) (h_acked_protocol_features h) x (h_atomic_mem h) (h_vrings h) (h_env h).
Definition set_atomic_mem x h : VhostUserHandler D Mem Q W B :=
  MkVhostUserHandler (h_device h) (h_device_activated h) (h_memory_updated h) (h_requested_queues h) (h_owned h) (h_features_acked h) (h_acked_features h) (h_acked_protocol_features h) (h_mappings h) x (h_vrings h) (h_env h).
Definition set_vrings x h : VhostUserHandler D Mem Q W B :=
  MkVhostUserHandler (h_device h) (h_device_activated h) (h_memory_updated h) (h_requested_queues h) (h_owned h) (h_features_acked h) (h_acked_features h) (h_acked_protocol_features h) (h_mappings h) (h_atomic_mem h) x (h_env h).
Definition set_env x h : VhostUserHandler D Mem Q W B :=
  MkVhostUserHandler (h_device h) (h_device_activated h) (h_memory_updated h) (h_requested_queues h) (h_owned h) (h_features_acked h) (h_acked_features h) (h_acked_protocol_features h) (h_mappings h) (h_atomic_mem h) (h_vrings h) x.
End assignments.

(** [vmm_va_to_gpa]: the additions are plain machine additions. *)
Fixpoint vmm_va_to_gpa (checks : bool) (mappings : list AddrMapping) (vmm_va : Z) :
    outcome VhostUserHandlerError Z :=
  match mappings with
  | [] => Fail MissingMemoryMapping
  | m :: mappings =>
      if bool_decide (am_vmm_addr m ≤ vmm_va) then
        outcome_bind (arith checks 64 (am_vmm_addr m + am_size m)) (λ mapping_end,
          if bool_decide (vmm_va < mapping_end)
          then arith checks 64 (vmm_va - am_vmm_addr m + am_gpa_base m)
          else vmm_va_to_gpa checks mappings vmm_va)
      else vmm_va_to_gpa checks mappings vmm_va
  end.

(** The io error that wraps an error of the handler. *)
Definition handler_error (e : VhostUserHandlerError) : VhostUserError :=
  ReqHandlerError ReqMissingMapping.

Section handler.
Context {D Mem Q W B Sock Region Mmap File : Type}.
Context `{EpollOps W} `{EventSetBits} `{EventFdOps W} `{QueueConfig Q Mem}
  `{VhostUserBits} `{VhostUserDevice D Mem (Vring Q) Sock} `{BitmapReplace B}
  `{GuestMemory Mem Region Mmap File}.
(** whether machine additions are checked for overflow *)
Context (checks : bool).

Local Notation HD := (VhostUserHandler D Mem Q W B).
Local Notation R A := (M HD VhostUserError A).

(** [Vring::new] of every requested queue, up to the first that fails *)
Fixpoint new_vrings (queues : list QueueArgs) : outcome vq_error (list (Vring Q)) :=
  match queues with
  | [] => Ret []
  | a :: queues =>
      outcome_bind (vring_new a) (λ v,
        outcome_bind (new_vrings queues) (λ vs, Ret (v :: vs)))
  end.

Definition handler_new (device : D) (atomic_mem : GuestMem Mem B) (env : Env W) :
    outcome VhostUserHandlerError HD :=
  let requested_queues := vud_queues device in
  outcome_bind (outcome_map_err CreateVring (new_vrings requested_queues)) (λ vrings,
    Ret (MkVhostUserHandler device false false requested_queues false false 0 0 []
           atomic_mem vrings env)).

(** Calls on the device, and on ring [i] (an index out of range panics). *)
Definition on_device {E A} : M D E A → M HD E A := zoom h_device (λ d, set_device d).

Definition on_vring {E A} (i : nat) (m : M (VE W Q) E A) : M HD E A :=
  λ h,
    match h_vrings h !! i with
    | Some v =>
        let '(o, (v', env')) := m (v, h_env h) in
        (o, set_env env' (set_vrings (<[i := v']> (h_vrings h)) h))
    | None => (Panic, h)
    end.

(** [self.vrings.get_mut(index as usize).ok_or(InvalidParam)?] *)
Definition get_vring (index : Z) : R nat :=
  let! vrings := gets h_vrings in
  do! lift (ok_or (vrings !! Z.to_nat index) InvalidParam) in
  ret (Z.to_nat index).

(** [for vring in self.vrings.iter_mut()] *)
Definition for_each_vring {E} (f : nat → M HD E unit) : M HD E unit :=
  let! vrings := gets h_vrings in
  for_each (seq 0 (length vrings)) f.

Definition send_exit_event : M HD string unit := on_device vud_stop.

Definition to_gpa (vmm_va : Z) : R Z :=
  let! mappings := gets h_mappings in
  lift (outcome_map_err handler_error (vmm_va_to_gpa checks mappings vmm_va)).

Definition initialize_vring (index : Z) : R unit :=
  let i := Z.to_nat index in
  let! ready := on_vring i (gets is_started) in
  let! kick := on_vring i (gets has_kick_event) in
  if negb ready && kick then
    do! unwrap (on_vring i vring_start) in
    let! h := get in
    if negb (h_device_activated h) && h_memory_updated h then
      do! modify (set_device_activated true) in
      let! r := attempt (on_device
        (vud_activate (gm_mem (h_atomic_mem h)) (map_seq 0 (h_vrings h)))) in
      match r with
      | inl e => fail BackendInternalError
      | inr _ => ret tt
      end
    else ret tt
  else ret tt.

(** [self.acked_features & feat.bits() != 0] *)
Definition check_feature (feat : Z) : R unit :=
  let! acked := gets h_acked_features in
  if bool_decide (Z.land acked feat ≠ 0) then ret tt else fail (InactiveFeature feat).

Definition set_owner : R unit :=
  let! owned := gets h_owned in
  if owned : bool then fail (InvalidOperation "already claimed")
  else modify (set_owned true).

Definition reset_owner : R unit :=
  do! modify (set_owned false) in
  do! modify (set_features_acked false) in
  do! modify (set_acked_features 0) in
  modify (set_acked_protocol_features 0).

Definition reset_device : R unit :=
  do! for_each_vring (λ i,
        do! on_vring i (set_enabled false) in
        unwrap (on_vring i vring_stop)) in
  do! modify (set_features_acked false) in
  do! modify (set_acked_features 0) in
  do! unwrap (on_device vud_reset) in
  ret tt.

Definition get_features : R Z := gets (λ h, vud_avail_features (h_device h)).

Definition set_features (features : Z) : R unit :=
  let! avail := gets (λ h, vud_avail_features (h_device h)) in
  if bool_decide (Z.ldiff features avail ≠ 0) then fail InvalidParam
  else
    do! modify (set_acked_features features) in
    do! modify (set_features_acked true) in
    do! (if bool_decide (Z.land features PROTOCOL_FEATURES = 0)
         then for_each_vring (λ i, on_vring i (set_enabled true))
         else ret tt) in
    let event_idx :=
      bool_decide (Z.land features (Z.shiftl 1 VIRTIO_RING_F_EVENT_IDX) ≠ 0) in
    do! for_each_vring (λ i, on_vring i (modify (on_queue (q_set_event_idx event_idx)))) in
    unwrap (on_device (vud_set_acked_features features)).

(** The loop of [set_mem_table] over the regions and their files. *)
Fixpoint map_regions (ctx : list (VhostUserMemoryRegion * File)) :
    outcome VhostUserError (list AddrMapping * list Region) :=
  match ctx with
  | [] => Ret ([], [])
  | (region, file) :: ctx =>
      outcome_bind (mmap_region region file) (λ mm,
      outcome_bind (outcome_map_err (λ e, ReqHandlerError (ReqMemory e))
        (guest_region_new mm (vm_guest_phys_addr region))) (λ guest_region,
      outcome_bind (map_regions ctx) (λ '(mappings, regions),
        Ret (MkAddrMapping (region_as_ptr guest_region) (vm_user_addr region) (vm_memory_size region)
               (vm_guest_phys_addr region) :: mappings, guest_region :: regions))))
  end.

Definition set_mem_table (ctx : list VhostUserMemoryRegion) (files : list File) : R unit :=
  let! (mappings, regions) := lift (map_regions (zip ctx files)) in
  let! mem := lift (outcome_map_err (λ e, ReqHandlerError (ReqMemory e))
                      (from_regions regions)) in
  (* the regions of the new memory are fresh and have no inner bitmap *)
  do! modify (λ h, set_atomic_mem (MkGuestMem mem ∅ (gm_log (h_atomic_mem h))) h) in
  do! modify (set_memory_updated true) in
  modify (set_mappings mappings).

Definition set_vring_num (index num : Z) : R unit :=
  let! i := get_vring index in
  let! queues := gets h_requested_queues in
  if bool_decide (num = 0) then fail InvalidParam
  else
    let! args := unwrap_opt (queues !! i) in
    if bool_decide (qa_max_size args < num) then fail InvalidParam
    else on_vring i (modify (on_queue (q_set_size (wrap 16 num)))).

Definition set_vring_addr (index flags descriptor used available log : Z) : R unit :=
  let! mappings := gets h_mappings in
  if bool_decide (mappings ≠ []) then
    let! desc_table := to_gpa descriptor in
    let! avail_ring := to_gpa available in
    let! used_ring := to_gpa used in
    let! i := get_vring index in
    do! map_err (λ _, InvalidParam)
          (on_vring i (zoom fst (λ v s, (v, s.2))
            (set_queue_info desc_table avail_ring used_ring))) in
    let! h := get in
    let! idx := on_vring i (λ s, (outcome_map_err (λ _, BackendInternalError)
                  (q_used_idx (vr_queue s.1) (gm_mem (h_atomic_mem h))), s)) in
    on_vring i (modify (on_queue (q_set_next_used idx)))
  else fail InvalidParam.

Definition set_vring_base (index base : Z) : R unit :=
  let! i := get_vring index in
  on_vring i (modify (on_queue (q_set_next_avail (wrap 16 base)))).

Definition get_vring_base (index : Z) : R (Z * Z) :=
  let! i := get_vring index in
  do! unwrap (on_vring i vring_stop) in
  let! next_avail := on_vring i (gets (λ s, q_next_avail (vr_queue s.1))) in
  do! unwrap (on_vring i (set_kick None)) in
  do! on_vring i (set_call None) in
  ret (index, next_avail).

Definition set_vring_kick (index : Z) (file : option Z) : R unit :=
  let! i := get_vring index in
  do! unwrap (on_vring i (set_kick file)) in
  initialize_vring index.

Definition set_vring_call (index : Z) (file : option Z) : R unit :=
  let! i := get_vring index in
  do! on_vring i (set_call file) in
  initialize_vring index.

Definition set_vring_err (index : Z) (file : option Z) : R unit :=
  let! i := get_vring index in
  on_vring i (set_err file).

Definition get_protocol_features : R Z :=
  gets (λ h, vud_protocol_features (h_device h)).

Definition set_protocol_features (features : Z) : R unit :=
  modify (set_acked_protocol_features features).

Definition get_queue_num : R Z := gets (λ h, Z.of_nat (length (h_requested_queues h))).

Definition set_vring_enable (index : Z) (enable : bool) : R unit :=
  do! check_feature PROTOCOL_FEATURES in
  let! i := get_vring index in
  on_vring i (set_enabled enable).

(** Errors of the configuration space are not told apart. *)
Definition get_config (offset size flags : Z) : R bytes :=
  let! h := get in
  lift (outcome_map_err (λ _, BackendInternalError)
    (vud_read_config offset (replicate (Z.to_nat size) 0) (h_device h))).

Definition set_config (offset : Z) (buf : bytes) (flags : Z) : R unit :=
  map_err (λ _, BackendInternalError) (on_device (vud_write_config offset buf)).

(** The flags that the handler sets on the back-end's request channel: replies
    and shared objects. *)
Definition set_backend_req_fd : R (bool * bool) :=
  let! features := gets h_acked_protocol_features in
  ret (bool_decide (Z.land features REPLY_ACK ≠ 0),
       bool_decide (Z.land features SHARED_OBJECT ≠ 0)).

Definition handler_set_gpu_socket (gpu_backend : Sock) : R unit :=
  unwrap (on_device (vud_set_gpu_socket gpu_backend)).

Definition get_inflight_fd : R unit := fail (InvalidOperation "not supported").
Definition set_inflight_fd : R unit := fail (InvalidOperation "not supported").
Definition get_max_mem_slots : R Z := ret MAX_MEM_SLOTS.

(** [remove_region] and [insert_region] make a new memory that shares the other
    regions, and their inner bitmaps, with the old one. *)
Definition add_mem_region (region : VhostUserMemoryRegion) (file : File) : R unit :=
  let! mm := lift (mmap_region region file) in
  let! guest_region := lift (outcome_map_err (λ e, ReqHandlerError (ReqMemory e))
                               (guest_region_new mm (vm_guest_phys_addr region))) in
  let addr_mapping := MkAddrMapping (region_as_ptr guest_region) (vm_user_addr region)
                        (vm_memory_size region) (vm_guest_phys_addr region) in
  let! gm := gets h_atomic_mem in
  let! mem := lift (outcome_map_err (λ e, ReqHandlerError (ReqMemory e))
                      (insert_region (gm_mem gm) guest_region)) in
  do! modify (set_atomic_mem (MkGuestMem mem
        (delete (vm_guest_phys_addr region) (gm_bitmaps gm)) (gm_log gm))) in
  modify (λ h, set_mappings (h_mappings h ++ [addr_mapping]) h).

Definition remove_mem_region (region : VhostUserMemoryRegion) : R unit :=
  let! gm := gets h_atomic_mem in
  let! mem := lift (outcome_map_err (λ e, ReqHandlerError (ReqMemory e))
                      (remove_region (gm_mem gm) (vm_guest_phys_addr region)
                        (vm_memory_size region))) in
  do! modify (set_atomic_mem (MkGuestMem mem
        (delete (vm_guest_phys_addr region) (gm_bitmaps gm)) (gm_log gm))) in
  modify (λ h, set_mappings
    (filter (λ m, am_gpa_base m ≠ vm_guest_phys_addr region) (h_mappings h)) h).

Definition set_device_state_fd : R unit := panic.
Definition check_device_state : R unit := panic.

(** The bitmaps of all regions, or the first error. *)
Fixpoint new_bitmaps (regions : list Region) (logmem : bytes) : outcome VhostUserError (list (Region * B)) :=
  match regions with
  | [] => Ret []
  | region :: regions =>
      outcome_bind (outcome_map_err (λ e, ReqHandlerError (ReqIo e))
        (inner_new (region_info region) logmem)) (λ bitmap,
      outcome_bind (new_bitmaps regions logmem) (λ bitmaps,
        Ret ((region, bitmap) :: bitmaps)))
  end.

Definition replace_bitmap (rb : Region * B) : R unit :=
  let! gm := gets h_atomic_mem in
  let! bitmaps := lift (inner_replace (mr_start_addr (region_info rb.1)) rb.2 (gm_bitmaps gm)) in
  modify (set_atomic_mem (MkGuestMem (gm_mem gm) bitmaps (gm_log gm))).

Definition set_log_base (log : VhostUserLog) (file : File) : R unit :=
  let! gm := gets h_atomic_mem in
  let! logmem := lift (outcome_map_err (λ e, ReqHandlerError (ReqIo e))
    (from_file mmap_log (file_fd file) (vl_mmap_offset log) (vl_mmap_size log))) in
  let! bitmaps := lift (new_bitmaps (mem_regions (gm_mem gm)) logmem) in
  (* from the first replacement on the new log is in use *)
  do! modify (set_atomic_mem (MkGuestMem (gm_mem gm) (gm_bitmaps gm)
        (if bool_decide (bitmaps = []) then gm_log gm else logmem))) in
  for_each bitmaps replace_bitmap.

(** [Drop] *)
Definition handler_drop : M HD string unit := on_device vud_stop.

(** ** The requests of the feature [postcopy] *)

(** The crate [userfaultfd]: the builder's three flags, [dup] of the descriptor, and the
    registration of a range of addresses. *)
Class UffdOps (U : Type) : Type := {
  uffd_create : bool → bool → bool → M W Z U;
  uffd_dup : U → M W errno Z;
  uffd_register : U → Z → Z → M W Z unit;
}.

Context {U : Type} `{UffdOps U}.

(** The field [uffd], which only these requests use, next to the rest of the handler *)
Record PostcopyHandler : Type := MkPostcopyHandler { pc_handler : HD; pc_uffd : option U }.

Local Notation PR A := (M PostcopyHandler VhostUserError A).

Definition on_kernel {E A} : M W E A → M PostcopyHandler E A :=
  zoom (λ p, env_world (h_env (pc_handler p)))
    (λ w p, MkPostcopyHandler
      (set_env (MkEnv (env_live (h_env (pc_handler p))) w) (pc_handler p)) (pc_uffd p)).

Definition set_uffd (uffd : option U) : PR unit := modify (λ p, MkPostcopyHandler (pc_handler p) uffd).

(** The error of the system or of the crate, wrapped; [dup] reports the last one of the
    system. *)
Definition postcopy_advice : PR Z :=
  let! uffd := map_err (λ e, ReqHandlerError (ReqMemory e)) (on_kernel (uffd_create true true false)) in
  let! uffd_dup := map_err (λ e, ReqHandlerError (ReqOs e)) (on_kernel (uffd_dup uffd)) in
  do! set_uffd (Some uffd) in
  ret uffd_dup.

Definition postcopy_listen : PR unit :=
  let! uffd := gets pc_uffd in
  match uffd with
  | None => fail (ReqHandlerError ReqNoUffd)
  | Some uffd =>
      let! mappings := gets (λ p, h_mappings (pc_handler p)) in
      for_each mappings (λ mapping,
        map_err (λ e, ReqHandlerError (ReqMemory e))
          (on_kernel (uffd_register uffd (am_local_addr mapping) (am_size mapping))))
  end.

Definition postcopy_end : PR unit := set_uffd None.
End handler.

(** ** A session: the requests a front-end may send, in any order *)

Inductive request (Sock File : Type) : Type :=
| SET_OWNER | RESET_OWNER | RESET_DEVICE
| GET_FEATURES | SET_FEATURES (features : Z)
| SET_MEM_TABLE (ctx : list VhostUserMemoryRegion) (files : list File)
| SET_VRING_NUM (index num : Z)
| SET_VRING_ADDR (index flags descriptor used available log : Z)
| SET_VRING_BASE (index base : Z) | GET_VRING_BASE (index : Z)
| SET_VRING_KICK (index : Z) (file : option Z)
| SET_VRING_CALL (index : Z) (file : option Z)
| SET_VRING_ERR (index : Z) (file : option Z)
| GET_PROTOCOL_FEATURES | SET_PROTOCOL_FEATURES (features : Z)
| GET_QUEUE_NUM | SET_VRING_ENABLE (index : Z) (enable : bool)
| GET_CONFIG (offset size flags : Z)
| SET_CONFIG (offset : Z) (buf : bytes) (flags : Z)
| SET_BACKEND_REQ_FD | GPU_SET_SOCKET (gpu_backend : Sock)
| GET_INFLIGHT_FD | SET_INFLIGHT_FD | GET_MAX_MEM_SLOTS
| ADD_MEM_REG (region : VhostUserMemoryRegion) (file : File)
| REM_MEM_REG (region : VhostUserMemoryRegion)
| SET_DEVICE_STATE_FD | CHECK_DEVICE_STATE
| SET_LOG_BASE (log : VhostUserLog) (file : File).
Arguments SET_OWNER {Sock File}. Arguments RESET_OWNER {Sock File}.
Arguments RESET_DEVICE {Sock File}. Arguments GET_FEATURES {Sock File}.
Arguments SET_FEATURES {Sock File}. Arguments SET_MEM_TABLE {Sock File}.
Arguments SET_VRING_NUM {Sock File}. Arguments SET_VRING_ADDR {Sock File}.
Arguments SET_VRING_BASE {Sock File}. Arguments GET_VRING_BASE {Sock File}.
Arguments SET_VRING_KICK {Sock File}. Arguments SET_VRING_CALL {Sock File}.
Arguments SET_VRING_ERR {Sock File}. Arguments GET_PROTOCOL_FEATURES {Sock File}.
Arguments SET_PROTOCOL_FEATURES {Sock File}. Arguments GET_QUEUE_NUM {Sock File}.
Arguments SET_VRING_ENABLE {Sock File}. Arguments GET_CONFIG {Sock File}.
Arguments SET_CONFIG {Sock File}. Arguments SET_BACKEND_REQ_FD {Sock File}.
Arguments GPU_SET_SOCKET {Sock File}. Arguments GET_INFLIGHT_FD {Sock File}.
Arguments SET_INFLIGHT_FD {Sock File}. Arguments GET_MAX_MEM_SLOTS {Sock File}.
Arguments ADD_MEM_REG {Sock File}. Arguments REM_MEM_REG {Sock File}.
Arguments SET_DEVICE_STATE_FD {Sock File}. Arguments CHECK_DEVICE_STATE {Sock File}.
Arguments SET_LOG_BASE {Sock File}.

Section session.
Context {D Mem Q W B Sock Region Mmap File : Type}.
Context `{EpollLaws W} `{EventSetBits} `{!EventFdOps W} `{!QueueConfig Q Mem, !QueueConfigLaws Q Mem}
  `{VhostUserBits} `{!VhostUserDevice D Mem (Vring Q) Sock} `{!BitmapReplace B}
  `{!GuestMemory Mem Region Mmap File}.
Context (checks : bool).

Local Notation HD := (VhostUserHandler D Mem Q W B).
Implicit Types h : HD.

Definition discard {A} (m : M HD VhostUserError A) : M HD VhostUserError unit :=
  do! m in ret tt.

Definition handle (r : request Sock File) : M HD VhostUserError unit :=
  match r with
  | SET_OWNER => set_owner
  | RESET_OWNER => reset_owner
  | RESET_DEVICE => reset_device
  | GET_FEATURES => discard get_features
  | SET_FEATURES features => set_features features
  | SET_MEM_TABLE ctx files => set_mem_table ctx files
  | SET_VRING_NUM index num => set_vring_num index num
  | SET_VRING_ADDR index flags d u a l => set_vring_addr checks index flags d u a l
  | SET_VRING_BASE index base => set_vring_base index base
  | GET_VRING_BASE index => discard (get_vring_base index)
  | SET_VRING_KICK index file => set_vring_kick index file
  | SET_VRING_CALL index file => set_vring_call index file
  | SET_VRING_ERR index file => set_vring_err index file
  | GET_PROTOCOL_FEATURES => discard get_protocol_features
  | SET_PROTOCOL_FEATURES features => set_protocol_features features
  | GET_QUEUE_NUM => discard get_queue_num
  | SET_VRING_ENABLE index enable => set_vring_enable index enable
  | GET_CONFIG offset size flags => discard (get_config offset size flags)
  | SET_CONFIG offset buf flags => set_config offset buf flags
  | SET_BACKEND_REQ_FD => discard set_backend_req_fd
  | GPU_SET_SOCKET s => handler_set_gpu_socket s
  | GET_INFLIGHT_FD => get_inflight_fd
  | SET_INFLIGHT_FD => set_inflight_fd
  | GET_MAX_MEM_SLOTS => discard get_max_mem_slots
  | ADD_MEM_REG region file => add_mem_region region file
  | REM_MEM_REG region => remove_mem_region region
  | SET_DEVICE_STATE_FD => set_device_state_fd
  | CHECK_DEVICE_STATE => check_device_state
  | SET_LOG_BASE log file => set_log_base log file
  end.

(** What a request is answered with, when it succeeds *)
Inductive reply : Type :=
| Done
| Number (n : Z)
| RingState (index num : Z)
| ConfigData (buf : bytes).

Definition replying {A} (f : A → reply) (m : M HD VhostUserError A) : M HD VhostUserError reply :=
  let! a := m in ret (f a).

(** A request with its answer. The two flags of [set_backend_req_fd] are for the request
    channel, and not part of the answer. *)
Definition reply_to (r : request Sock File) : M HD VhostUserError reply :=
  match r with
  | GET_FEATURES => replying Number get_features
  | GET_VRING_BASE index => replying (λ '(index, num), RingState index num) (get_vring_base index)
  | GET_PROTOCOL_FEATURES => replying Number get_protocol_features
  | GET_QUEUE_NUM => replying Number get_queue_num
  | GET_CONFIG offset size flags => replying ConfigData (get_config offset size flags)
  | GET_MAX_MEM_SLOTS => replying Number get_max_mem_slots
  | r => replying (λ _, Done) (handle r)
  end.

Lemma replying_discard {A} (f : A → reply) (m : M HD VhostUserError A) h :
  discard m h = (outcome_map (λ _, tt) (replying f m h).1, (replying f m h).2).
Proof. unfold discard, replying, bind. by destruct (m h) as [[]]. Qed.

Lemma replying_unit f (m : M HD VhostUserError unit) h :
  m h = (outcome_map (λ _, tt) (replying f m h).1, (replying f m h).2).
Proof. unfold replying, bind. by destruct (m h) as [[[]| | |] ?]. Qed.

Lemma handle_reply r h :
  handle r h = (outcome_map (λ _, tt) (reply_to r h).1, (reply_to r h).2).
Proof. destruct r; first [exact (replying_unit _ _ h)|exact (replying_discard _ _ h)]. Qed.

(** What the workers of the device change in a ring: its epoll list and the
    positions of its queue, nothing that the front-end configured. They write guest
    memory, and its log, too. *)
Definition same_control (v v' : Vring Q) : Prop :=
  q_same_setup (vr_queue v) (vr_queue v') ∧
  vs_enabled (vr_state v') = vs_enabled (vr_state v) ∧
  vs_kick (vr_state v') = vs_kick (vr_state v) ∧
  vs_call (vr_state v') = vs_call (vr_state v).

(** The width of the integers in a message. *)
Definition request_widths (r : request Sock File) : Prop :=
  match r with
  | SET_VRING_NUM index num => in_width 32 num
  | _ => True
  end.

(** A request that was answered, or a step of the workers. After a panic the
    lock of the handler is poisoned and no request is handled any more. *)
Inductive session_step : HD → HD → Prop :=
| session_request r h :
    request_widths r → (handle r h).1 ≠ Panic → session_step h (handle r h).2
| session_worker h vrings' env' gm' :
    Forall2 same_control (h_vrings h) vrings' →
    session_step h (set_atomic_mem gm' (set_env env' (set_vrings vrings' h))).

(** ** The invariant of a session *)

(** [calls] observes how often a device was activated, and no operation but
    [activate] changes it or the set of offered features. *)
Record device_calls (calls : D → nat) : Prop := {
  dc_activate mem queues (d : D) :
    calls (vud_activate mem queues d).2 = S (calls d) ∧
    vud_avail_features (vud_activate mem queues d).2 = vud_avail_features d;
  dc_set_acked f (d : D) :
    calls (vud_set_acked_features f d).2 = calls d ∧
    vud_avail_features (vud_set_acked_features f d).2 = vud_avail_features d;
  dc_write_config offset bs (d : D) :
    calls (vud_write_config offset bs d).2 = calls d ∧
    vud_avail_features (vud_write_config offset bs d).2 = vud_avail_features d;
  dc_reset (d : D) :
    calls (vud_reset d).2 = calls d ∧
    vud_avail_features (vud_reset d).2 = vud_avail_features d;
  dc_set_gpu_socket s (d : D) :
    calls (vud_set_gpu_socket s d).2 = calls d ∧
    vud_avail_features (vud_set_gpu_socket s d).2 = vud_avail_features d;
}.

(** A ring made for [args]: its queue never grows past what the device asked. *)
Definition vring_sized (args : QueueArgs) (v : Vring Q) : Prop :=
  q_max_size (vr_queue v) = qa_max_size args ∧
  0 < q_size (vr_queue v) ≤ qa_max_size args.

Record session_ok (calls : D → nat) (h : HD) : Prop := {
  ok_vrings : Forall2 vring_sized (h_requested_queues h) (h_vrings h);
  ok_queues : Forall (λ a, in_width 16 (qa_max_size a)) (h_requested_queues h);
  ok_features : bits_subset (h_acked_features h) (vud_avail_features (h_device h));
  ok_acked : h_features_acked h = false → h_acked_features h = 0;
  ok_activated : calls (h_device h) = if h_device_activated h then 1%nat else 0%nat;
  ok_memory : h_device_activated h = true → h_memory_updated h = true;
}.

(** *** Rings keep their size bounds *)

Section sized.
Context (args : QueueArgs).
Local Notation J := (λ s : VE W Q, vring_sized args s.1).

Lemma sized_flags (q q' : Q) st :
  q_same_flags q q' → q_size q' = q_size q →
  vring_sized args (MkVring q st) → vring_sized args (MkVring q' st).
Proof.
  unfold vring_sized, q_same_flags. simpl. intros (_ & _ & ->) ->. done.
Qed.

Lemma sized_set_state {E} f : preserves (E:=E) J (modify (set_state f)).
Proof. intros s. done. Qed.

Lemma sized_set_epolls {E} f : preserves (E:=E) J (modify (set_epolls f)).
Proof. intros s. done. Qed.

Lemma sized_on_world {E A} (m : M W E A) : preserves J (on_world m).
Proof. intros s Hs. unfold on_world, zoom. by destruct (m _). Qed.

Lemma sized_on_queue {E} (f : Q → Q) :
  (∀ q, q_max_size (f q) = q_max_size q ∧ q_size (f q) = q_size q) →
  preserves (E:=E) J (modify (on_queue f)).
Proof.
  intros Hf s [Hm Hs]. destruct (Hf (vr_queue s.1)) as [Hm' Hs'].
  split; simpl; by rewrite ?Hm', ?Hs'.
Qed.

Lemma sized_set_ready {E} b : preserves (E:=E) J (modify (on_queue (q_set_ready b))).
Proof. apply sized_on_queue. eauto using q_set_ready_size, q_set_ready_max_size. Qed.

Lemma sized_set_event_idx {E} b : preserves (E:=E) J (modify (on_queue (q_set_event_idx b))).
Proof. apply sized_on_queue. intros q. by destruct (q_set_event_idx_size b q). Qed.

Lemma sized_set_next_used {E} n : preserves (E:=E) J (modify (on_queue (q_set_next_used n))).
Proof.
  apply sized_on_queue. intros q. pose proof (q_set_next_used_flags n q) as (_ & _ & ?).
  by rewrite q_set_next_used_size.
Qed.

Lemma sized_set_next_avail {E} n : preserves (E:=E) J (modify (on_queue (q_set_next_avail n))).
Proof.
  apply sized_on_queue. intros q. pose proof (q_set_next_avail_flags n q) as (_ & _ & ?).
  by rewrite q_set_next_avail_size.
Qed.

Lemma sized_set_size {E} n :
  0 < n ≤ qa_max_size args → preserves (E:=E) J (modify (on_queue (q_set_size n))).
Proof.
  intros Hn s [Hm Hs]. pose proof (q_set_size_flags n (vr_queue s.1)) as (_ & _ & Hm').
  split; simpl; [by rewrite Hm'|].
  destruct (q_set_size_size n (vr_queue s.1)) as [->| ->]; done.
Qed.

Lemma sized_set_queue_info d a u :
  preserves J (zoom fst (λ v (s : VE W Q), (v, s.2)) (set_queue_info d a u)).
Proof.
  apply (preserves_zoom _ (vring_sized args)); [done..|]. unfold set_queue_info.
  apply (preserves_zoom _ (λ q, q_max_size q = qa_max_size args ∧
    0 < q_size q ≤ qa_max_size args)); [done..|].
  apply preserves_bind; [|intros _; apply preserves_bind; [|intros _]]; intros q [Hm Hs].
  - destruct (q_try_set_desc_table_flags d q) as [(_ & _ & ->) ->]. done.
  - destruct (q_try_set_avail_ring_flags a q) as [(_ & _ & ->) ->]. done.
  - destruct (q_try_set_used_ring_flags u q) as [(_ & _ & ->) ->]. done.
Qed.

#[local] Hint Resolve sized_set_state sized_on_world sized_set_ready : preserves.

Lemma sized_update_epolls old new : preserves J (update_epolls old new).
Proof. unfold update_epolls. eauto with preserves. Qed.
#[local] Hint Resolve sized_update_epolls : preserves.

Lemma sized_stop : preserves J vring_stop.
Proof.
  unfold vring_stop. apply preserves_bind; [eauto with preserves|]. intros [k|];
  eauto with preserves.
Qed.

Lemma sized_start : preserves J vring_start.
Proof. unfold vring_start. eauto with preserves. Qed.

Lemma sized_set_kick file : preserves J (set_kick file).
Proof. unfold set_kick. eauto 8 with preserves. Qed.
End sized.

(** *** Every operation keeps the invariant *)

Section operations.
Context (calls : D → nat) (Hcalls : device_calls calls).
Local Notation Ok := (session_ok calls).

Lemma ok_on_vring {E A} i (m : M (VE W Q) E A) :
  (∀ args, preserves (λ s : VE W Q, vring_sized args s.1) m) → preserves Ok (on_vring i m).
Proof.
  intros Hm h [Hv Hq Hf Ha Hc Hmem]. unfold on_vring.
  destruct (h_vrings h !! i) as [v|] eqn:Hi; [|by split].
  destruct (Forall2_lookup_r _ _ _ _ _ Hv Hi) as (args & Hargs & Hsized).
  pose proof (Hm args (v, h_env h) Hsized) as Hs.
  destruct (m (v, h_env h)) as [o [v' env']]. simpl in *. split; simpl; try done.
  rewrite <-(list_insert_id (h_requested_queues h) i args) by done.
  by apply Forall2_insert.
Qed.

Lemma ok_on_device {E A} (m : M D E A) :
  (∀ d, calls (m d).2 = calls d ∧ vud_avail_features (m d).2 = vud_avail_features d) →
  preserves Ok (on_device m).
Proof.
  intros Hm h [Hv Hq Hf Ha Hc Hmem]. unfold on_device, zoom. specialize (Hm (h_device h)).
  destruct (m (h_device h)) as [o d']. simpl in Hm. destruct Hm as [Hm1 Hm2].
  split; simpl; by rewrite ?Hm1, ?Hm2.
Qed.

Lemma ok_for_each_vring {E} (f : nat → M HD E unit) :
  (∀ i, preserves Ok (f i)) → preserves Ok (for_each_vring f).
Proof. intros Hf. unfold for_each_vring. eauto with preserves. Qed.

Lemma ok_get_vring index : preserves Ok (get_vring index).
Proof. unfold get_vring. eauto with preserves. Qed.

(** Assignments to the fields that the invariant does not mention. *)
Lemma ok_modify {E} (f : HD → HD) :
  (∀ h, h_vrings (f h) = h_vrings h ∧ h_requested_queues (f h) = h_requested_queues h ∧
    h_acked_features (f h) = h_acked_features h ∧ h_device (f h) = h_device h ∧
    h_features_acked (f h) = h_features_acked h ∧
    h_device_activated (f h) = h_device_activated h ∧
    (h_memory_updated h = true → h_memory_updated (f h) = true)) →
  preserves (E:=E) Ok (modify f).
Proof.
  intros Hf h [Hv Hq Hfe Ha Hc Hmem]. destruct (Hf h) as (E1 & E2 & E3 & E4 & E5 & E6 & E7).
  split; simpl; rewrite ?E1, ?E2, ?E3, ?E4, ?E5, ?E6; auto.
Qed.

#[local] Hint Resolve ok_on_vring ok_on_device ok_for_each_vring ok_get_vring
  sized_set_state sized_on_world sized_set_ready sized_stop sized_start sized_set_kick
  sized_set_event_idx sized_set_next_used sized_set_next_avail sized_set_queue_info
  dc_set_acked dc_write_config dc_reset dc_set_gpu_socket : preserves.

#[local] Hint Extern 1 (preserves _ (modify _)) =>
  apply ok_modify; intros ?; by split_and! : preserves.

Lemma ok_get : preserves (E:=VhostUserError) Ok get.
Proof. by intros h. Qed.
#[local] Hint Resolve ok_get : preserves.

Lemma ok_vring_gets {E A} i (f : VE W Q → A) : preserves (E:=E) Ok (on_vring i (gets f)).
Proof. eauto with preserves. Qed.
#[local] Hint Resolve ok_vring_gets : preserves.

Lemma ok_initialize_vring index : preserves Ok (initialize_vring index).
Proof.
  unfold initialize_vring.
  apply preserves_bind; [eauto with preserves|intros ready].
  apply preserves_bind; [eauto with preserves|intros kick].
  apply preserves_if; [|eauto with preserves].
  apply preserves_bind; [eauto with preserves|intros _].
  intros h [Hv Hq Hf Ha Hc Hmem]. unfold bind at 1, get.
  destruct (h_device_activated h) eqn:Hact; simpl; [by split; rewrite ?Hact|].
  destruct (h_memory_updated h) eqn:Hup; simpl; [|by split; rewrite ?Hact].
  unfold bind at 1, modify, bind at 1, attempt, on_device, zoom. simpl.
  destruct (dc_activate _ Hcalls (gm_mem (h_atomic_mem h)) (map_seq 0 (h_vrings h)) (h_device h))
    as [Hc' Hf'].
  destruct (vud_activate _ _ (h_device h)) as [[[]|e| |] d']; simpl in *;
    (split; simpl; rewrite ?Hc', ?Hf', ?Hc; done).
Qed.
#[local] Hint Resolve ok_initialize_vring : preserves.

Lemma ok_reset_owner : preserves Ok reset_owner.
Proof. intros h [Hv Hq Hf Ha Hc Hmem]. by split. Qed.

Lemma ok_reset_device : preserves Ok reset_device.
Proof.
  unfold reset_device. apply preserves_bind; [|intros _].
  { apply ok_for_each_vring. intros i. apply preserves_bind; [|intros _];
    unfold set_enabled; eauto with preserves. }
  intros h [Hv Hq Hf Ha Hc Hmem]. unfold bind at 1 2, modify.
  apply (preserves_bind Ok); [apply preserves_unwrap, ok_on_device, dc_reset, Hcalls
    |eauto with preserves|].
  by split.
Qed.

Lemma ok_set_features features : preserves Ok (set_features features).
Proof.
  unfold set_features, bind at 1, gets. intros h Hok. case_bool_decide as Hsub; [by destruct Hok|].
  assert (bits_subset features (vud_avail_features (h_device h))) as Hf.
  { apply land_ldiff_zero. by destruct (decide (Z.ldiff features (vud_avail_features (h_device h)) = 0)). }
  clear Hsub. unfold bind at 1 2, modify. set (h' := set_features_acked true _).
  assert (Ok h') as Hok'.
  { destruct Hok as [Hv Hq _ Ha Hc Hmem]. split; simpl; done. }
  revert Hok'. generalize h'. clear h h' Hok Hf.
  change (preserves Ok (do! (if bool_decide (Z.land features PROTOCOL_FEATURES = 0)
       then for_each_vring (λ i, on_vring i (set_enabled (E:=VhostUserError) true))
       else ret tt) in
    do! for_each_vring (λ i, on_vring i (modify (on_queue (q_set_event_idx
       (bool_decide (Z.land features (Z.shiftl 1 VIRTIO_RING_F_EVENT_IDX) ≠ 0)))))) in
    unwrap (on_device (vud_set_acked_features features)))).
  apply preserves_bind; [|intros _; apply preserves_bind; [|intros _]].
  - unfold set_enabled. eauto 8 with preserves.
  - apply ok_for_each_vring. eauto with preserves.
  - eauto with preserves.
Qed.

Lemma ok_set_mem_table ctx files : preserves Ok (set_mem_table ctx files).
Proof.
  unfold set_mem_table. apply preserves_bind; [eauto with preserves|intros [mappings regions]].
  eauto 10 with preserves.
Qed.

Lemma ok_set_vring_num index num : in_width 32 num → preserves Ok (set_vring_num index num).
Proof.
  intros Hnum h Hok. unfold set_vring_num, get_vring, bind, gets, lift, ok_or.
  destruct (h_vrings h !! Z.to_nat index) as [v|] eqn:Hv; [|done]. simpl.
  case_bool_decide as Hz; [done|].
  destruct (h_requested_queues h !! Z.to_nat index) as [args|] eqn:Hargs; [|done]. simpl.
  case_bool_decide as Hmax; [done|].
  assert (wrap 16 num = num) as Hw.
  { apply wrap_small. destruct Hok. rewrite Forall_lookup in ok_queues0.
    specialize (ok_queues0 _ _ Hargs). unfold in_width in *. lia. }
  rewrite Hw. unfold on_vring. rewrite Hv. simpl. destruct Hok as [Hvs ????].
  split; simpl; try done.
  rewrite <-(list_insert_id (h_requested_queues h) (Z.to_nat index) args) by done.
  apply Forall2_insert; [done|].
  apply (sized_set_size (E:=VhostUserError) args num) with (s := (v, h_env h)).
  - unfold in_width in Hnum. lia.
  - by eapply Forall2_lookup_lr.
Qed.

Lemma ok_set_vring_addr index flags d u a l :
  preserves Ok (set_vring_addr checks index flags d u a l).
Proof.
  unfold set_vring_addr, to_gpa. apply preserves_bind; [eauto with preserves|intros mappings].
  apply preserves_if; [|eauto with preserves].
  do 3 (apply preserves_bind; [eauto with preserves|intros ?]).
  apply preserves_bind; [eauto with preserves|intros i].
  apply preserves_bind; [eauto with preserves|intros _].
  apply preserves_bind; [eauto with preserves|intros h].
  apply preserves_bind; [apply ok_on_vring; by intros args s|intros idx].
  eauto with preserves.
Qed.

Lemma ok_get_vring_base index : preserves Ok (get_vring_base index).
Proof.
  unfold get_vring_base, set_call.
  apply preserves_bind; [eauto with preserves|intros i].
  apply preserves_bind; [eauto with preserves|intros _].
  apply preserves_bind; [eauto with preserves|intros n].
  apply preserves_bind; [eauto with preserves|intros _].
  eauto with preserves.
Qed.

Lemma ok_replace_bitmap rb : preserves Ok (replace_bitmap rb).
Proof. unfold replace_bitmap. eauto 8 with preserves. Qed.
#[local] Hint Resolve ok_replace_bitmap : preserves.

Lemma ok_discard {A} (m : M HD VhostUserError A) : preserves Ok m → preserves Ok (discard m).
Proof. unfold discard. eauto with preserves. Qed.

Lemma ok_handle r : request_widths r → preserves Ok (handle r).
Proof.
  destruct r; simpl; intros Hw; try apply ok_discard.
  - unfold set_owner. eauto 8 with preserves.
  - apply ok_reset_owner.
  - apply ok_reset_device.
  - unfold get_features. eauto with preserves.
  - apply ok_set_features.
  - apply ok_set_mem_table.
  - by apply ok_set_vring_num.
  - apply ok_set_vring_addr.
  - unfold set_vring_base. eauto with preserves.
  - apply ok_get_vring_base.
  - unfold set_vring_kick. eauto 8 with preserves.
  - unfold set_vring_call, set_call. eauto 8 with preserves.
  - unfold set_vring_err, set_err. eauto 8 with preserves.
  - unfold get_protocol_features. eauto with preserves.
  - unfold set_protocol_features. eauto 8 with preserves.
  - unfold get_queue_num. eauto with preserves.
  - unfold set_vring_enable, check_feature, set_enabled. eauto 8 with preserves.
  - unfold get_config. eauto with preserves.
  - unfold set_config. eauto with preserves.
  - unfold set_backend_req_fd. eauto with preserves.
  - unfold handler_set_gpu_socket. eauto with preserves.
  - apply preserves_fail.
  - apply preserves_fail.
  - apply preserves_ret.
  - unfold add_mem_region. eauto 15 with preserves.
  - unfold remove_mem_region. eauto 12 with preserves.
  - apply preserves_panic.
  - apply preserves_panic.
  - unfold set_log_base. eauto 12 with preserves.
Qed.

Lemma same_control_sized args v v' : vring_sized args v → same_control v v' → vring_sized args v'.
Proof. intros [? ?] (((_ & _ & Hm) & Hs) & _). split; [by rewrite Hm|by rewrite Hs]. Qed.

Lemma ok_worker h vrings' env' gm' :
  Forall2 same_control (h_vrings h) vrings' → Ok h →
  Ok (set_atomic_mem gm' (set_env env' (set_vrings vrings' h))).
Proof.
  intros Hsame [Hv ?????]. split; simpl; try done.
  eapply Forall2_compose; [apply same_control_sized|exact Hv|exact Hsame].
Qed.
End operations.

Lemma new_vrings_sized queues vs :
  new_vrings queues = Ret vs → Forall2 vring_sized queues vs.
Proof.
  revert vs. induction queues as [|a queues IH]; simpl; intros vs.
  { intros ?; simplify_eq. constructor. }
  destruct (vring_new a) as [v|e| |] eqn:Hv; simpl; [|done..].
  destruct (new_vrings queues) as [vs'|e| |]; simpl; [|done..].
  intros ?; simplify_eq. constructor; [|by apply IH].
  unfold vring_new, outcome_bind in Hv. destruct (q_new _) as [q|e| |] eqn:Hq; [|done..].
  simplify_eq. apply q_new_ok in Hq as (_ & Hmax & Hs). split; simpl; by rewrite ?Hmax.
Qed.

(** Claim C10. Whatever the front-end requests and in whatever order: the device
    is activated at most once in the life of the handler, and only after a
    memory table was set; the acknowledged features are always among those the
    device offers, and none before the front-end acknowledged them; and every
    ring's queue stays within the size the device asked for. *)
Theorem session_invariant (calls : D → nat) device mem env h0 h :
  device_calls calls → calls device = 0%nat →
  Forall (λ a, in_width 16 (qa_max_size a)) (vud_queues device) →
  handler_new device mem env = Ret h0 → rtc session_step h0 h →
  session_ok calls h.
Proof.
  intros Hcalls Hzero Hwidth Hnew Hreach.
  assert (session_ok calls h0) as Hok.
  { unfold handler_new, outcome_bind, outcome_map_err in Hnew.
    destruct (new_vrings _) as [vs|e| |] eqn:Hvs; [|done..]. simplify_eq.
    split; simpl; try done. by apply new_vrings_sized. }
  clear Hnew. induction Hreach as [h|h h1 h2 Hstep _ IH]; [done|]. apply IH.
  destruct Hstep as [r h Hw _|h vrings' env' gm' Hsame].
  - by apply ok_handle.
  - by apply ok_worker.
Qed.

(** ** Addresses *)

Definition mapping_contains (va : Z) (m : AddrMapping) : Prop :=
  am_vmm_addr m ≤ va < am_vmm_addr m + am_size m.

#[local] Instance mapping_contains_dec va m : Decision (mapping_contains va m).
Proof. unfold mapping_contains. apply _. Defined.

(** A mapping that ends inside both address spaces. *)
Definition mapping_valid (m : AddrMapping) : Prop :=
  0 ≤ am_vmm_addr m ∧ 0 ≤ am_gpa_base m ∧ 0 ≤ am_size m ∧
  am_vmm_addr m + am_size m < 2 ^ 64 ∧ am_gpa_base m + am_size m ≤ 2 ^ 64.

(** Translating a front-end address finds the first mapping that
    contains it, and gives the guest address at the same distance from the start
    of that mapping, inside the mapped range; an address in no mapping is the
    error [MissingMemoryMapping]. This holds in both builds, with and without
    overflow checks, as long as no mapping wraps around the address space. *)
Theorem vmm_va_to_gpa_spec mappings va :
  Forall mapping_valid mappings → 0 ≤ va →
  (∀ i m, list_find (mapping_contains va) mappings = Some (i, m) →
    vmm_va_to_gpa checks mappings va = Ret (am_gpa_base m + (va - am_vmm_addr m)) ∧
    am_gpa_base m ≤ am_gpa_base m + (va - am_vmm_addr m) < am_gpa_base m + am_size m) ∧
  (list_find (mapping_contains va) mappings = None →
    vmm_va_to_gpa checks mappings va = Fail MissingMemoryMapping).
Proof.
  intros Hvalid Hva. induction Hvalid as [|m ms (Hm1 & Hm2 & Hm3 & Hm4 & Hm5) Hvalid IH]; [done|].
  destruct IH as [IHSome IHNone]. simpl.
  destruct (decide (mapping_contains va m)) as [Hin|Hin]; unfold mapping_contains in Hin.
  - split; [|done]. intros i m' [= <- <-].
    rewrite bool_decide_eq_true_2 by lia. rewrite arith_fits by (unfold in_width; lia). simpl.
    rewrite bool_decide_eq_true_2 by lia. rewrite arith_fits by (unfold in_width; lia).
    split; [f_equal; lia|lia].
  - assert (vmm_va_to_gpa checks (m :: ms) va = vmm_va_to_gpa checks ms va) as Hskip.
    { simpl. case_bool_decide; [|done]. rewrite arith_fits by (unfold in_width; lia). simpl.
      by rewrite bool_decide_eq_false_2 by lia. }
    simpl in Hskip. rewrite Hskip. split.
    + intros i m' ([j m''] & Hj & Heq)%fmap_Some. simpl in Heq. simplify_eq.
      by apply (IHSome j).
    + intros Hnone%fmap_None. by apply IHNone.
Qed.

(** A mapping that wraps around the address space defeats the
    translation: an overflow-checked build panics on every address at or above
    its start, and an unchecked build does not find the addresses inside it. *)
Theorem vmm_va_to_gpa_overflow m mappings va :
  in_width 64 (am_vmm_addr m) → in_width 64 (am_size m) →
  2 ^ 64 ≤ am_vmm_addr m + am_size m → am_vmm_addr m ≤ va < 2 ^ 64 →
  vmm_va_to_gpa true (m :: mappings) va = Panic ∧
  vmm_va_to_gpa false (m :: mappings) va = vmm_va_to_gpa false mappings va.
Proof.
  unfold in_width. intros Hs Hz Hover Hva. simpl.
  rewrite bool_decide_eq_true_2 by lia. unfold arith.
  rewrite !(bool_decide_eq_false_2 (in_width 64 (am_vmm_addr m + am_size m)))
    by (unfold in_width; lia).
  split; [done|]. unfold outcome_bind. rewrite bool_decide_eq_false_2; [done|].
  unfold wrap. rewrite <-(Z_mod_plus_full _ (-1)), Z.mod_small by lia. lia.
Qed.

(** ** Negotiating features *)

(** An assignment to every ring, one after the other. *)
Lemma for_each_vring_modify {E} (f : VE W Q → VE W Q) (g : Vring Q → Vring Q) h :
  (∀ s, f s = (g s.1, s.2)) →
  for_each_vring (E:=E) (λ i, on_vring i (modify f)) h = (Ret tt, set_vrings (g <$> h_vrings h) h).
Proof.
  intros Hf. unfold for_each_vring, bind at 1, gets.
  assert (∀ (l pre : list (Vring Q)) (h : HD), h_vrings h = pre ++ l →
    for_each (seq (length pre) (length l)) (λ i, on_vring (E:=E) i (modify f)) h =
    (Ret tt, set_vrings (pre ++ (g <$> l)) h)) as Hgen.
  { clear h. intros l. induction l as [|v l IH]; intros pre h Hh; simpl.
    - rewrite app_nil_r in *. by destruct h; simpl in *; subst.
    - unfold bind. unfold on_vring at 1. rewrite Hh, list_lookup_middle by done.
      unfold modify at 1. rewrite Hf. simpl. rewrite insert_app_r_alt, Nat.sub_diag by lia. simpl.
      specialize (IH (pre ++ [g v])
        (set_env (h_env h) (set_vrings (pre ++ g v :: l) h))).
      rewrite length_app, Nat.add_comm in IH. simpl in IH. rewrite IH by (by rewrite <-app_assoc).
      rewrite <-app_assoc. by destruct h. }
  by apply (Hgen (h_vrings h) [] h).
Qed.

(** What [set_features] makes of a ring. *)
Definition feature_vring (features : Z) (v : Vring Q) : Vring Q :=
  MkVring
    (q_set_event_idx
      (bool_decide (Z.land features (Z.shiftl 1 VIRTIO_RING_F_EVENT_IDX) ≠ 0)) (vr_queue v))
    (let st := vr_state v in
     MkVringState (bool_decide (Z.land features PROTOCOL_FEATURES = 0) || vs_enabled st)
       (vs_kick st) (vs_call st) (vs_err st) (vs_epolls st)).

(** [set_features] on every branch. Features the device does not offer
    are refused and nothing changes. Otherwise the set is recorded, every ring's
    EVENT_IDX flag becomes the negotiated one, the rings are enabled at once if
    the protocol features are not negotiated and else stay as they are, and then
    the device is told; if the device panics the request panics after all that
    has happened. *)
Theorem set_features_spec features h :
  (¬ bits_subset features (vud_avail_features (h_device h)) →
    set_features features h = (Fail InvalidParam, h)) ∧
  (bits_subset features (vud_avail_features (h_device h)) →
    set_features features h =
      let '(o, device') := vud_set_acked_features features (h_device h) in
      (outcome_unwrap o,
       set_device device' (set_vrings (feature_vring features <$> h_vrings h)
         (set_features_acked true (set_acked_features features h))))).
Proof.
  rewrite <-land_ldiff_zero. unfold set_features, gets.
  split; intros Hsub; (erewrite bind_Ret; [|reflexivity]).
  { by rewrite bool_decide_eq_true_2. }
  rewrite (bool_decide_eq_false_2 (_ ≠ 0)) by (intros Hne; by apply Hne).
  unfold bind at 1 2, modify at 1 2. set (h1 := set_features_acked _ _).
  set (enable := λ v : Vring Q, let st := vr_state v in
    MkVring (vr_queue v) (MkVringState (bool_decide (Z.land features PROTOCOL_FEATURES = 0) ||
      vs_enabled st) (vs_kick st) (vs_call st) (vs_err st) (vs_epolls st))).
  erewrite bind_Ret with (a := tt) (s1 := set_vrings (enable <$> h_vrings h) h1).
  2: { case_bool_decide as Hpf.
    - unfold set_enabled. rewrite (for_each_vring_modify _ enable); [done|].
      done.
    - unfold ret. f_equal. transitivity (set_vrings (h_vrings h) h1); [by destruct h|].
      f_equal. rewrite <-(list_fmap_id (h_vrings h)) at 1. apply list_fmap_ext.
      by intros _ [q []] _. }
  erewrite bind_Ret.
  2: { apply (for_each_vring_modify _ (λ v, MkVring (q_set_event_idx
        (bool_decide (Z.land features (1 ≪ VIRTIO_RING_F_EVENT_IDX) ≠ 0)) (vr_queue v))
        (vr_state v))). done. }
  unfold unwrap, on_device, zoom. simpl. rewrite <-list_fmap_compose.
  destruct (vud_set_acked_features _ _) as [o d']. f_equal.
Qed.

(** ** Stopping and starting rings *)

Lemma vring_stop_cases (s : VE W Q) :
  ∃ o s', vring_stop s = (o, s') ∧
    ((o = Ret tt ∧ s'.1 = MkVring (q_set_ready false (vr_queue s.1)) (vr_state s.1)) ∨
     (∃ e, o = Fail e ∧ s'.1 = s.1)).
Proof.
  unfold vring_stop, bind, gets, modify, ret. destruct (kick_of s) as [k|].
  - destruct (update_epolls_result (Some k) None s) as (o & s1 & Hu & Ho & Hv). rewrite Hu.
    destruct Ho as [->|[e ->]]; eexists _, _; (split; [done|]).
    + left. split; [done|]. unfold on_queue. simpl. by rewrite Hv.
    + right. eauto.
  - eexists _, _. split; [done|]. by left.
Qed.

(** [get_vring_base] on every branch. A ring that does not exist is the
    error [InvalidParam] and changes nothing. Otherwise, if the ring's kick can be
    taken out of the workers' epoll instances, the reply is the index and the
    position in the available ring, and afterwards the ring is stopped, has
    neither a kick nor a call descriptor, and cannot be locked for processing;
    the other rings are untouched. If it cannot, the request panics. *)
Theorem get_vring_base_spec index h :
  match h_vrings h !! Z.to_nat index with
  | None => get_vring_base index h = (Fail InvalidParam, h)
  | Some v =>
      match (vring_stop (v, h_env h)).1 with
      | Ret _ => ∃ h' v',
          get_vring_base index h = (Ret (index, q_next_avail (vr_queue v)), h') ∧
          h_vrings h' = <[Z.to_nat index := v']> (h_vrings h) ∧
          is_started (v', h_env h') = false ∧ kick_of (v', h_env h') = None ∧
          vs_call (vr_state v') = None ∧ try_lock_queue (v', h_env h') = None
      | _ => (get_vring_base index h).1 = Panic
      end
  end.
Proof.
  unfold get_vring_base, get_vring, gets, lift.
  destruct (h_vrings h !! Z.to_nat index) as [v|] eqn:Hv; [|unfold bind; by rewrite Hv].
  destruct (vring_stop_cases (v, h_env h)) as (o & s1 & Hstop & Ho). rewrite Hstop. simpl.
  erewrite bind_Ret; [|unfold bind; rewrite Hv; reflexivity].
  destruct Ho as [[-> Hs1]|(e & -> & Hs1)]; simpl in Hs1.
  2: { unfold bind, unwrap, on_vring. by rewrite Hv, Hstop; destruct s1. }
  destruct s1 as [v1 env1]. simpl in Hs1. subst v1.
  set (v1 := MkVring (q_set_ready false (vr_queue v)) (vr_state v)) in *.
  set (h1 := set_env env1 (set_vrings (<[Z.to_nat index := v1]> (h_vrings h)) h)).
  assert (Z.to_nat index < length (h_vrings h))%nat as Hlen by (by eapply lookup_lt_Some).
  erewrite bind_Ret with (s1 := h1); [|unfold unwrap, on_vring; by rewrite Hv, Hstop].
  assert (h_vrings h1 !! Z.to_nat index = Some v1) as Hv1 by (by apply list_lookup_insert_eq).
  assert (is_started (v1, env1) = false) as Hst by apply q_set_ready_ready.
  unfold bind at 1. unfold on_vring at 1. rewrite Hv1. cbn [fst snd vr_queue v1].
  rewrite q_set_ready_next_avail.
  set (v2 := MkVring (vr_queue v1) (MkVringState (vs_enabled (vr_state v)) None
    (vs_call (vr_state v)) (vs_err (vr_state v)) (vs_epolls (vr_state v)))).
  assert (set_kick None (v1, env1) = (Ret tt, (v2, env1))) as Hkick.
  { unfold set_kick, bind, gets, modify, ret.
    change (is_started (set_state _ (v1, env1))) with (is_started (v1, env1)). by rewrite Hst. }
  unfold bind at 1, unwrap at 1. unfold on_vring at 1. simpl.
  rewrite list_lookup_insert_eq by (by rewrite length_insert).
  change (h_env (set_env env1 _)) with env1. rewrite Hkick.
  unfold bind at 1. unfold on_vring at 1. simpl.
  rewrite list_lookup_insert_eq by (by rewrite !length_insert).
  eexists _, _. split_and!; [reflexivity| | | | |]; simpl.
  - by rewrite !list_insert_insert_eq.
  - exact Hst.
  - done.
  - done.
  - unfold try_lock_queue. unfold is_started in Hst. simpl in *. rewrite Hst, andb_false_r.
    by destruct (is_enabled _).
Qed.

Lemma set_kick_vring file (s s' : VE W Q) :
  set_kick file s = (Ret tt, s') →
  vr_queue s'.1 = vr_queue s.1 ∧ kick_of s' = file.
Proof.
  unfold set_kick, bind, gets, modify. intros Hrun.
  destruct (is_started _); [|unfold ret in Hrun; by simplify_eq].
  match type of Hrun with update_epolls ?o ?n ?s1 = _ =>
    destruct (update_epolls_result o n s1) as (o1 & s2 & Hu & _ & Hv) end.
  rewrite Hu in Hrun. simplify_eq. split; unfold kick_of; by rewrite Hv.
Qed.

Lemma start_vring (s s' : VE W Q) :
  vring_start s = (Ret tt, s') →
  is_started s' = true ∧ kick_of s' = kick_of s.
Proof.
  unfold vring_start, bind, gets, modify. intros Hrun.
  match type of Hrun with update_epolls ?o ?n ?s1 = _ =>
    destruct (update_epolls_result o n s1) as (o1 & s2 & Hu & _ & Hv) end.
  rewrite Hu in Hrun. simplify_eq. unfold is_started, kick_of. rewrite Hv.
  split; [apply q_set_ready_ready|done].
Qed.

Lemma on_vring_Ret {E A} i (m : M (VE W Q) E A) h a h' :
  on_vring i m h = (Ret a, h') →
  ∃ v s', h_vrings h !! i = Some v ∧ m (v, h_env h) = (Ret a, s') ∧
    h' = set_env s'.2 (set_vrings (<[i := s'.1]> (h_vrings h)) h) ∧
    h_vrings h' !! i = Some s'.1.
Proof.
  unfold on_vring. destruct (h_vrings h !! i) as [v|] eqn:Hv; [|done].
  destruct (m (v, h_env h)) as [o [v' env']] eqn:Hm. intros ?; simplify_eq. simpl.
  eexists _, _. split_and!; [done..|]. apply list_lookup_insert_eq. by eapply lookup_lt_Some.
Qed.

Lemma unwrap_Ret {St E E' A} (m : M St E A) s a s' :
  unwrap (E':=E') m s = (Ret a, s') → m s = (Ret a, s').
Proof. unfold unwrap. destruct (m s) as [[]]; simpl; intros; by simplify_eq. Qed.

Lemma on_vring_gets {E A} i (f : VE W Q → A) h v :
  h_vrings h !! i = Some v → on_vring (E:=E) i (gets f) h = (Ret (f (v, h_env h)), h).
Proof.
  intros Hv. unfold on_vring. rewrite Hv. simpl. rewrite list_insert_id by done. by destruct h.
Qed.

(** After [initialize_vring] has succeeded on a ring with a kick descriptor, the
    ring is started, and the device is active if it was or if the ring had to be
    started with a memory table at hand. *)
Lemma initialize_vring_ok index h h' v k :
  h_vrings h !! Z.to_nat index = Some v → vs_kick (vr_state v) = Some k →
  initialize_vring index h = (Ret tt, h') →
  (∃ v', h_vrings h' !! Z.to_nat index = Some v' ∧ q_ready (vr_queue v') = true ∧
    vs_kick (vr_state v') = Some k) ∧
  (q_ready (vr_queue v) = false → h_memory_updated h = true → h_device_activated h' = true).
Proof.
  intros Hv Hk Hrun. unfold initialize_vring in Hrun.
  erewrite bind_Ret in Hrun by (by apply on_vring_gets).
  erewrite bind_Ret in Hrun by (by apply on_vring_gets).
  assert (has_kick_event (v, h_env h) = true) as Hhas.
  { unfold has_kick_event, kick_of. simpl. rewrite Hk. by rewrite bool_decide_eq_true_2. }
  rewrite Hhas, andb_true_r in Hrun. change (is_started (v, h_env h)) with (q_ready (vr_queue v)) in Hrun.
  destruct (q_ready (vr_queue v)) eqn:Hready; simpl in Hrun.
  { unfold ret in Hrun. simplify_eq. split; [|done]. exists v. by split_and!. }
  apply bind_inv_Ret in Hrun as ([] & h1 & Hr%unwrap_Ret & Hrun).
  apply on_vring_Ret in Hr as (v1 & s1 & Hv1 & Hstart & Hh1 & Hv1').
  assert (v1 = v) as -> by congruence.
  apply start_vring in Hstart as [Hst Hkick].
  change (kick_of (v, h_env h)) with (vs_kick (vr_state v)) in Hkick. rewrite Hk in Hkick.
  assert (h_vrings h' = h_vrings h1 ∧ (h_memory_updated h = true → h_device_activated h' = true))
    as [-> Hact].
  { unfold bind at 1, get in Hrun.
    assert (h_memory_updated h = h_memory_updated h1) as -> by (by rewrite Hh1).
    revert Hrun. clear. revert h1. intros h1.
    destruct (h_device_activated h1) eqn:Hact, (h_memory_updated h1) eqn:Hm; simpl;
      try (unfold ret; intros; by simplify_eq).
    unfold bind, modify, attempt, on_device, zoom. simpl.
    destruct (vud_activate _ _ (h_device h1)) as [[[]|e| |] d']; try done.
    unfold ret. intros; by simplify_eq. }
  split; [|done]. exists s1.1. by split_and!.
Qed.

(** Giving a stopped ring a kick descriptor starts it: when the request
    succeeds the ring is ready and has that descriptor, and the device is active
    if the front-end has set a memory table before. *)
Theorem set_vring_kick_starts index fd h h' v :
  h_vrings h !! Z.to_nat index = Some v → q_ready (vr_queue v) = false →
  set_vring_kick index (Some fd) h = (Ret tt, h') →
  (∃ v', h_vrings h' !! Z.to_nat index = Some v' ∧ q_ready (vr_queue v') = true ∧
    vs_kick (vr_state v') = Some fd) ∧
  (h_memory_updated h = true → h_device_activated h' = true).
Proof.
  intros Hv Hready Hrun. unfold set_vring_kick, get_vring, gets, lift in Hrun.
  apply bind_inv_Ret in Hrun as (i & h1 & Hget & Hrun). unfold bind in Hget. rewrite Hv in Hget.
  unfold ok_or, ret in Hget. simplify_eq.
  apply bind_inv_Ret in Hrun as ([] & h2 & Hset & Hrun). apply unwrap_Ret in Hset.
  apply on_vring_Ret in Hset as (v1 & s1 & Hv1 & Hset & -> & Hv1'). simplify_eq.
  apply set_kick_vring in Hset as [Hq Hk].
  destruct (initialize_vring_ok _ _ _ _ fd Hv1' Hk Hrun) as [Hstarted Hact].
  split; [done|]. simpl in Hact. apply Hact. by rewrite Hq.
Qed.
End session.

(** ** Switching to a new log *)

Section set_log_base.
Context {D Mem Q W Sock Region Mmap File : Type}.
Context `{!VhostUserBits} `{!GuestMemory Mem Region Mmap File}.

Local Notation HD := (VhostUserHandler D Mem Q W AtomicBitmapMmap).
Implicit Types h : HD.

Lemma new_bitmaps_ok (regions : list Region) log bitmaps :
  new_bitmaps (B:=AtomicBitmapMmap) regions log = Ret bitmaps →
  Forall2 (λ region rb, rb.1 = region ∧ bitmap_new (region_info region) log = Ret rb.2)
    regions bitmaps.
Proof.
  revert bitmaps. induction regions as [|r rs IH]; intros bitmaps; simpl.
  { intros ?; simplify_eq. constructor. }
  destruct (bitmap_new (region_info r) log) as [bm|e| |] eqn:Hbm; simpl; [|done..].
  destruct (new_bitmaps rs log) as [bms|e| |]; simpl; [|done..].
  intros ?; simplify_eq. constructor; [done|]. by apply IH.
Qed.

Lemma new_bitmaps_result (regions : list Region) log :
  (∃ bitmaps, new_bitmaps (B:=AtomicBitmapMmap) regions log = Ret bitmaps) ∨
  ∃ e, new_bitmaps (B:=AtomicBitmapMmap) regions log = Fail e.
Proof.
  induction regions as [|r rs IH]; simpl; [eauto|].
  destruct (bitmap_new_result (region_info r) log) as [[bm ->]|[e ->]]; simpl; [|eauto].
  destruct IH as [[bms ->]|[e ->]]; simpl; eauto.
Qed.

Lemma from_file_result fd off size :
  (∀ len fd off, (∃ bs, mmap_log len fd off = Ret bs) ∨ ∃ e, mmap_log len fd off = Fail e) →
  (∃ bs, from_file mmap_log fd off size = Ret bs) ∨ ∃ e, from_file mmap_log fd off size = Fail e.
Proof.
  intros Hmmap. unfold from_file, io_try_into, try_into.
  repeat (case_bool_decide; simpl); eauto.
Qed.

Lemma replace_bitmaps_run (bitmaps : list (Region * AtomicBitmapMmap)) h :
  for_each bitmaps replace_bitmap h =
    (Ret tt, set_atomic_mem (MkGuestMem (gm_mem (h_atomic_mem h))
      (foldl (λ m rb, <[mr_start_addr (region_info rb.1) := rb.2]> m)
        (gm_bitmaps (h_atomic_mem h)) bitmaps) (gm_log (h_atomic_mem h))) h).
Proof.
  revert h. induction bitmaps as [|rb bitmaps IH]; intros h; simpl.
  - unfold ret. f_equal. by destruct h as [????????? [???]].
  - unfold bind. unfold replace_bitmap at 1. unfold bind, gets, lift, modify. simpl.
    by rewrite IH.
Qed.

Lemma foldl_insert_notin (bitmaps : list (Region * AtomicBitmapMmap)) (m : gmap Z AtomicBitmapMmap) k :
  k ∉ (λ rb, mr_start_addr (region_info rb.1)) <$> bitmaps →
  foldl (λ m rb, <[mr_start_addr (region_info rb.1) := rb.2]> m) m bitmaps !! k = m !! k.
Proof.
  revert m. induction bitmaps as [|rb bitmaps IH]; intros m Hk; [done|].
  rewrite fmap_cons, not_elem_of_cons in Hk. destruct Hk as [Hne Hk]. simpl.
  rewrite IH by done. by apply lookup_insert_ne.
Qed.

Lemma foldl_insert_lookup (bitmaps : list (Region * AtomicBitmapMmap)) (m : gmap Z AtomicBitmapMmap) rb :
  NoDup ((λ rb, mr_start_addr (region_info rb.1)) <$> bitmaps) → rb ∈ bitmaps →
  foldl (λ m rb, <[mr_start_addr (region_info rb.1) := rb.2]> m) m bitmaps
    !! mr_start_addr (region_info rb.1) = Some rb.2.
Proof.
  revert m. induction bitmaps as [|rb0 bitmaps IH]; intros m Hd Hin.
  { by apply elem_of_nil in Hin. }
  rewrite fmap_cons, NoDup_cons in Hd. destruct Hd as [Hnot Hd]. simpl.
  apply elem_of_cons in Hin as [->|Hin]; [|by apply IH].
  rewrite foldl_insert_notin by done. apply lookup_insert_eq.
Qed.

(** Claim C31. Switching the dirty log is atomic: [set_log_base] either fails and
    leaves the memory, its bitmaps and the log in use as they were, or succeeds,
    and then every region of guest memory marks its pages in a bitmap made for
    that region and the new log, and a page of the region always lies inside the
    new log. *)
Theorem set_log_base_atomic log file h :
  NoDup ((λ r, mr_start_addr (region_info r)) <$> mem_regions (gm_mem (h_atomic_mem h))) →
  (∀ len fd off, (∃ bs, mmap_log len fd off = Ret bs) ∨ ∃ e, mmap_log len fd off = Fail e) →
  (∃ e, set_log_base log file h = (Fail e, h)) ∨
  ∃ h' newlog, set_log_base log file h = (Ret tt, h') ∧
    from_file mmap_log (file_fd file) (vl_mmap_offset log) (vl_mmap_size log) = Ret newlog ∧
    (mem_regions (gm_mem (h_atomic_mem h)) ≠ [] → gm_log (h_atomic_mem h') = newlog) ∧
    ∀ r, r ∈ mem_regions (gm_mem (h_atomic_mem h)) →
      ∃ bm, gm_bitmaps (h_atomic_mem h') !! mr_start_addr (region_info r) = Some bm ∧
        bitmap_new (region_info r) newlog = Ret bm ∧ bitmap_fits bm newlog.
Proof.
  intros Hd Hmmap. unfold set_log_base, bind, gets, lift.
  destruct (from_file_result (file_fd file) (vl_mmap_offset log) (vl_mmap_size log) Hmmap)
    as [[newlog Hfile]|[e Hfile]]; rewrite Hfile; simpl; [|eauto].
  destruct (new_bitmaps_result (mem_regions (gm_mem (h_atomic_mem h))) newlog)
    as [[bitmaps Hbms]|[e Hbms]]; rewrite Hbms; [|eauto].
  apply new_bitmaps_ok in Hbms. right. unfold modify. rewrite replace_bitmaps_run.
  eexists _, newlog. split_and!; [done..| |]; simpl.
  - intros Hne. rewrite bool_decide_eq_false_2; [done|]. intros ->. inversion Hbms. congruence.
  - intros r [i Hi]%list_elem_of_lookup_1.
    destruct (Forall2_lookup_l _ _ _ _ _ Hbms Hi) as (rb & Hrb & <- & Hnew).
    exists rb.2. split_and!; [|done|by apply (bitmap_new_fits _ _ _ Hnew)].
    apply foldl_insert_lookup; [|by eapply list_elem_of_lookup_2].
    replace ((λ rb, mr_start_addr (region_info rb.1)) <$> bitmaps)
      with ((λ r, mr_start_addr (region_info r)) <$> mem_regions (gm_mem (h_atomic_mem h))); [done|].
    clear -Hbms. induction Hbms as [|r rb rs rbs [<- _] _ IH]; [done|]. by rewrite !fmap_cons, IH.
Qed.
End set_log_base.

(** ** Postcopy *)

Section postcopy.
Context {D Mem Q W B U : Type} `{!UffdOps (W:=W) U}.
Local Notation PH := (PostcopyHandler (D:=D) (Mem:=Mem) (Q:=Q) (W:=W) (B:=B) (U:=U)).
Implicit Types p : PH.

(** What a descriptor has been told to watch, oldest first: registering adds one range, or
    fails and adds none. *)
Context (watched_ranges : W → list (U * Z * Z)).
Hypothesis register_watched : ∀ u addr len w,
  (∃ w', uffd_register u addr len w = (Ret tt, w') ∧
    watched_ranges w' = watched_ranges w ++ [(u, addr, len)]) ∨
  (∃ e w', uffd_register u addr len w = (Fail e, w') ∧ watched_ranges w' = watched_ranges w).

Definition ranges_of p : list (U * Z * Z) := watched_ranges (env_world (h_env (pc_handler p))).

Lemma register_mappings u mappings p :
  ∃ o p' n, for_each mappings (λ mapping,
      map_err (λ e, ReqHandlerError (ReqMemory e))
        (on_kernel (uffd_register u (am_local_addr mapping) (am_size mapping)))) p = (o, p') ∧
    ranges_of p' = ranges_of p ++ ((λ m, (u, am_local_addr m, am_size m)) <$> take n mappings) ∧
    pc_uffd p' = pc_uffd p ∧
    ((o = Ret tt ∧ take n mappings = mappings) ∨ (∃ e, o = Fail (ReqHandlerError (ReqMemory e)))).
Proof.
  revert p. induction mappings as [|m mappings IH]; intros p; simpl.
  { exists (Ret tt), p, 0%nat. rewrite app_nil_r. by split_and!; [..|left]. }
  unfold bind, map_err at 1, on_kernel at 1, zoom.
  destruct (register_watched u (am_local_addr m) (am_size m) (env_world (h_env (pc_handler p))))
    as [(w & -> & Hw)|(e & w & -> & Hw)]; simpl.
  - destruct (IH (MkPostcopyHandler (set_env (MkEnv (env_live (h_env (pc_handler p))) w) (pc_handler p)) (pc_uffd p)))
      as (o & p' & n & Hrun & Hr & Hu & Ho). exists o, p', (S n). split; [exact Hrun|].
    rewrite Hr. unfold ranges_of at 1. simpl. rewrite Hw. fold (ranges_of p).
    rewrite <-app_assoc. split; [done|]. split; [done|].
    destruct Ho as [[-> Ht]|Ho]; [left|by right]. by rewrite Ht.
  - eexists _, _, 0%nat. split; [done|]. unfold ranges_of. simpl. rewrite Hw, app_nil_r.
    split; [done|]. split; [done|]. right. by eexists.
Qed.

(** Listening for faults needs the descriptor of an advice before it, and then watches every
    mapped region, in the order in which they were mapped; when it fails it has watched the
    first ones only, and the next attempt starts over. *)
Theorem postcopy_listen_watches p :
  match pc_uffd p with
  | None => postcopy_listen p = (Fail (ReqHandlerError ReqNoUffd), p)
  | Some u => ∃ o p' n, postcopy_listen p = (o, p') ∧ pc_uffd p' = Some u ∧
      ranges_of p' = ranges_of p ++
        ((λ m, (u, am_local_addr m, am_size m)) <$> take n (h_mappings (pc_handler p))) ∧
      ((o = Ret tt ∧ take n (h_mappings (pc_handler p)) = h_mappings (pc_handler p)) ∨
       ∃ e, o = Fail (ReqHandlerError (ReqMemory e)))
  end.
Proof.
  unfold postcopy_listen. erewrite bind_Ret by done. destruct (pc_uffd p) as [u|] eqn:Hu; [|done].
  erewrite bind_Ret by done.
  destruct (register_mappings u (h_mappings (pc_handler p)) p) as (o & p' & n & Hrun & Hr & Hu' & Ho).
  exists o, p', n. split; [exact Hrun|]. rewrite Hu', Hu. by split_and!.
Qed.
End postcopy.

(** ** A session on the reference instances *)
Module HandlerExamples.
Import Sim VringExamples BackendExamples.

(** Guest memory is a list of regions; the used index of a queue reads as 0. *)
#[export] Instance queue_regions : QueueConfig SimQueue.queue (list MemRegion) := {|
  q_new := SimQueue.new;
  q_try_set_desc_table_address := SimQueue.try_set 16 (λ a '(_, y, z), (a, y, z));
  q_try_set_avail_ring_address := SimQueue.try_set 2 (λ a '(x, _, z), (x, a, z));
  q_try_set_used_ring_address := SimQueue.try_set 4 (λ a '(x, y, _), (x, y, a));
  q_set_ready := SimQueue.set_ready;
  q_ready := SimQueue.sq_ready;
  q_set_size := SimQueue.set_size;
  q_size := SimQueue.sq_size;
  q_max_size := SimQueue.sq_max_size;
  q_set_event_idx := SimQueue.set_event_idx;
  q_event_idx_enabled := SimQueue.sq_event_idx;
  q_set_next_avail := SimQueue.set_next_avail;
  q_next_avail := SimQueue.sq_next_avail;
  q_set_next_used := SimQueue.set_next_used;
  q_used_idx _ _ := Ret 0;
|}.

#[export] Instance queue_regions_laws : QueueConfigLaws SimQueue.queue (list MemRegion).
Proof. destruct SimQueue.config_laws. split; assumption. Qed.

#[export] Instance guest_regions :
    GuestMemory (list MemRegion) MemRegion VhostUserMemoryRegion Z := {|
  mmap_region r _ := Ret r;
  guest_region_new r gpa := Ret (MkMemRegion gpa (vm_memory_size r));
  region_as_ptr r := 2 ^ 40 + mr_start_addr r;
  region_info r := r;
  from_regions rs := if bool_decide (rs = []) then Fail 1 else Ret rs;
  insert_region rs r := Ret (rs ++ [r]);
  remove_region rs gpa size := Ret (filter (λ r, mr_start_addr r ≠ gpa) rs);
  mem_regions rs := rs;
  file_fd f := f;
  mmap_log len fd off :=
    if bool_decide (0 < len ≤ 16) then Ret (replicate (Z.to_nat len) 0) else Fail (OsError 22);
|}.

#[export] Instance dev_vhost :
    VhostUserDevice dev (list MemRegion) (Vring SimQueue.queue) () :=
  implementer_device id (λ d _, d) (λ _, 0) default_set_gpu_socket.

Lemma dev_calls : device_calls d_activations.
Proof.
  split; intros; simpl; try done.
  unfold impl_set_acked_features, bind, assert, ret, panic, zoom, modify.
  by destruct (bool_decide _).
Qed.

#[export] Instance vring_inhabited : Inhabited (Vring SimQueue.queue) :=
  populate (MkVring (SimQueue.Queue false false 1 1 0 0 (0, 0, 0) [] [] true)
    (MkVringState false None None None [])).

Definition Hd : Type := VhostUserHandler dev (list MemRegion) SimQueue.queue world AtomicBitmapMmap.
Definition env0 : Env world := MkEnv ∅ empty_world.
Definition queue0 (max : Z) : Vring SimQueue.queue :=
  MkVring (SimQueue.Queue false false max max 0 0 (0, 0, 0) [] [] true)
    (MkVringState false None None None []).
Definition h0 : Hd :=
  MkVhostUserHandler (Dev 0 0) false false [MkQueueArgs 256; MkQueueArgs 64] false false 0 0 []
    (MkGuestMem [] ∅ []) [queue0 256; queue0 64] env0.

Definition region : VhostUserMemoryRegion := MkVhostUserMemoryRegion 0 65536 0x7f0000000000 0.
Definition requests : list (request () Z) :=
  [SET_OWNER; SET_FEATURES (2 ^ 32 + 2 ^ 30 + 2 ^ 29); SET_MEM_TABLE [region] [3];
   SET_VRING_NUM 0 128; SET_VRING_KICK 0 (Some 40)].
Definition run (rs : list (request () Z)) (h : Hd) : Hd :=
  foldl (λ h r, (handle true r h).2) h rs.
Definition h1 : Hd := run requests h0.

Fixpoint answered (rs : list (request () Z)) (h : Hd) : Prop :=
  match rs with
  | [] => True
  | r :: rs => request_widths r ∧ (handle true r h).1 ≠ Panic ∧ answered rs (handle true r h).2
  end.

Lemma run_reached rs h : answered rs h → rtc (session_step true) h (run rs h).
Proof.
  revert h. induction rs as [|r rs IH]; intros h; simpl; [intros; apply rtc_refl|].
  intros (Hw & Hp & Hrs). eapply rtc_l; [by apply session_request|]. by apply IH.
Qed.

Lemma h1_reached : rtc (session_step true) h0 h1.
Proof. apply run_reached. vm_compute. by split_and!. Qed.

Lemma session_invariant_witness :
  session_ok d_activations h1 ∧ d_activations (h_device h1) = 1%nat.
Proof.
  split; [|reflexivity].
  apply (session_invariant true d_activations (Dev 0 0) (MkGuestMem [] ∅ []) env0 h0 h1);
    [exact dev_calls|reflexivity|repeat constructor; done|reflexivity|exact h1_reached].
Defined.

Lemma vmm_va_to_gpa_spec_witness :
  let ms := [MkAddrMapping 0 1000 100 0; MkAddrMapping 0 2000 100 500] in
  vmm_va_to_gpa true ms 2010 = Ret 510 ∧
  (list_find (mapping_contains 99) ms = None →
    vmm_va_to_gpa true ms 99 = Fail MissingMemoryMapping).
Proof.
  split; [reflexivity|]. apply (vmm_va_to_gpa_spec true); [|done].
  repeat constructor; done.
Defined.

Lemma vmm_va_to_gpa_overflow_witness :
  vmm_va_to_gpa true [MkAddrMapping 0 (2 ^ 64 - 4096) 4096 0] (2 ^ 64 - 1) = Panic ∧
  vmm_va_to_gpa false [MkAddrMapping 0 (2 ^ 64 - 4096) 4096 0] (2 ^ 64 - 1) =
    Fail MissingMemoryMapping.
Proof.
  apply (vmm_va_to_gpa_overflow (MkAddrMapping 0 (2 ^ 64 - 4096) 4096 0) [] (2 ^ 64 - 1));
    vm_compute; done.
Defined.

Lemma set_features_spec_witness :
  set_features (2 ^ 60) h0 = (Fail InvalidParam, h0) ∧
  (set_features (2 ^ 30 + 1) h0).1 = Ret tt.
Proof.
  split; [|reflexivity]. apply (set_features_spec (2 ^ 60) h0). by vm_compute.
Defined.

Definition h2 : Hd := run (take 4 requests) h0.
Definition v2 : Vring SimQueue.queue := h_vrings h2 !!! 0%nat.

Lemma get_vring_base_spec_witness :
  (get_vring_base 9 h2).1 = Fail InvalidParam ∧
  match h_vrings h1 !! Z.to_nat 0 with
  | None => get_vring_base 0 h1 = (Fail InvalidParam, h1)
  | Some v =>
      match (vring_stop (v, h_env h1)).1 with
      | Ret _ => ∃ h' v',
          get_vring_base 0 h1 = (Ret (0, q_next_avail (vr_queue v)), h') ∧
          h_vrings h' = <[Z.to_nat 0 := v']> (h_vrings h1) ∧
          is_started (v', h_env h') = false ∧ kick_of (v', h_env h') = None ∧
          vs_call (vr_state v') = None ∧ try_lock_queue (v', h_env h') = None
      | _ => (get_vring_base 0 h1).1 = Panic
      end
  end.
Proof.
  split; [vm_compute; reflexivity|exact (get_vring_base_spec 0 h1)].
Defined.

Lemma set_vring_kick_starts_witness :
  h_device_activated h2 = false ∧
  (∃ v', h_vrings h1 !! Z.to_nat 0 = Some v' ∧ q_ready (vr_queue v') = true ∧
    vs_kick (vr_state v') = Some 40) ∧
  (h_memory_updated h2 = true → h_device_activated h1 = true).
Proof.
  split; [reflexivity|].
  apply (set_vring_kick_starts 0 40 h2 h1 v2); vm_compute; reflexivity.
Defined.

Lemma set_log_base_atomic_witness :
  (∃ e, set_log_base (MkVhostUserLog 16 0) 5 h1 = (Fail e, h1)) ∨
  ∃ h' newlog, set_log_base (MkVhostUserLog 16 0) 5 h1 = (Ret tt, h') ∧
    from_file mmap_log (file_fd 5) 0 16 = Ret newlog ∧
    (mem_regions (gm_mem (h_atomic_mem h1)) ≠ [] → gm_log (h_atomic_mem h') = newlog) ∧
    ∀ r, r ∈ mem_regions (gm_mem (h_atomic_mem h1)) →
      ∃ bm, gm_bitmaps (h_atomic_mem h') !! mr_start_addr (region_info r) = Some bm ∧
        bitmap_new (region_info r) newlog = Ret bm ∧ bitmap_fits bm newlog.
Proof.
  apply (set_log_base_atomic (Region:=MemRegion) (Mmap:=VhostUserMemoryRegion)
    (MkVhostUserLog 16 0) 5 h1).
  - vm_compute. constructor; [by intros ?%elem_of_nil|constructor].
  - intros len fd off. simpl. case_bool_decide; eauto.
Defined.

(** A kernel that only keeps the ranges *)
#[export] Instance range_list : UffdOps (W:=list (Z * Z * Z)) Z := {|
  uffd_create _ _ _ := ret 90;
  uffd_dup _ := ret 91;
  uffd_register u addr len := modify (λ l, l ++ [(u, addr, len)]);
|}.

Definition pc0 : PostcopyHandler (D:=dev) (Mem:=list MemRegion) (Q:=SimQueue.queue)
    (W:=list (Z * Z * Z)) (B:=AtomicBitmapMmap) (U:=Z) :=
  MkPostcopyHandler
    (MkVhostUserHandler (Dev 0 0) false false [] false false 0 0 [MkAddrMapping 4096 1000 100 0]
      (MkGuestMem [] ∅ []) [] (MkEnv ∅ [])) None.

Lemma postcopy_listen_watches_witness :
  (postcopy_listen pc0).1 = Fail (ReqHandlerError ReqNoUffd) ∧
  let p := (postcopy_advice pc0).2 in
  ∃ o p' n, postcopy_listen p = (o, p') ∧ pc_uffd p' = Some 90 ∧
    ranges_of (λ w, w) p' = ranges_of (λ w, w) p ++
      ((λ m, (90, am_local_addr m, am_size m)) <$> take n (h_mappings (pc_handler p))) ∧
    ((o = Ret tt ∧ take n (h_mappings (pc_handler p)) = h_mappings (pc_handler p)) ∨
     ∃ e, o = Fail (ReqHandlerError (ReqMemory e))).
Proof.
  split; [reflexivity|].
  refine (postcopy_listen_watches (λ w, w) _ (postcopy_advice pc0).2).
  intros u addr len w. left. by eexists.
Defined.
End HandlerExamples.
