(* ===== verification/SessionSpec.v ===== *)
(** * What a front-end may rely on: a specification of the handler

    The handler of [handler.rs] keeps device, memory, queues and descriptors. What a
    front-end observes of it is smaller: a [session], with the features that were
    negotiated, the memory table, and for each ring whether it is started and enabled,
    its descriptors and its position. A request is refused, for a reason that shows in
    the session, or has one effect. [handle_refines] shows that every request of the
    handler is such a step; the properties of sessions that follow from the
    specification alone hold of the handler, then. *)

From S2P Require Import Prelude Epoll EventManager VirtQueue Bitmap Vring VhostBackend VhostHandler.

Record ring : Type := MkRing {
  rg_started : bool;
  rg_enabled : bool;
  rg_kick : option Z;
  rg_call : option Z;
  rg_err : option Z;
  rg_next_avail : Z;
}.

(** A range of the front-end's addresses, and where the guest sees it *)
Record table_entry : Type := MkTableEntry { te_user_addr : Z; te_size : Z; te_guest_addr : Z }.

Record session : Type := MkSession {
  ss_offered : Z;              (* the features of the device *)
  ss_sizes : list Z;           (* the sizes that the device asks for its queues *)
  ss_owned : bool;
  ss_features_acked : bool;
  ss_acked : Z;
  ss_protocol : Z;
  ss_table : list table_entry;
  ss_memory : bool;
  ss_active : bool;
  ss_rings : list ring;
}.

(** A ring that the device processes *)
Definition rg_running (r : ring) : bool := rg_started r && rg_enabled r.

(** ** Assignments *)

Definition rg_set_started b r := MkRing b (rg_enabled r) (rg_kick r) (rg_call r) (rg_err r) (rg_next_avail r).
Definition rg_set_enabled b r := MkRing (rg_started r) b (rg_kick r) (rg_call r) (rg_err r) (rg_next_avail r).
Definition rg_set_kick k r := MkRing (rg_started r) (rg_enabled r) k (rg_call r) (rg_err r) (rg_next_avail r).
Definition rg_set_call c r := MkRing (rg_started r) (rg_enabled r) (rg_kick r) c (rg_err r) (rg_next_avail r).
Definition rg_set_err e r := MkRing (rg_started r) (rg_enabled r) (rg_kick r) (rg_call r) e (rg_next_avail r).
Definition rg_set_next_avail n r := MkRing (rg_started r) (rg_enabled r) (rg_kick r) (rg_call r) (rg_err r) n.

Definition ss_set_owned b a := MkSession (ss_offered a) (ss_sizes a) b (ss_features_acked a) (ss_acked a)
  (ss_protocol a) (ss_table a) (ss_memory a) (ss_active a) (ss_rings a).
Definition ss_set_features acked f a := MkSession (ss_offered a) (ss_sizes a) (ss_owned a) acked f
  (ss_protocol a) (ss_table a) (ss_memory a) (ss_active a) (ss_rings a).
Definition ss_set_protocol f a := MkSession (ss_offered a) (ss_sizes a) (ss_owned a) (ss_features_acked a)
  (ss_acked a) f (ss_table a) (ss_memory a) (ss_active a) (ss_rings a).
Definition ss_set_table t a := MkSession (ss_offered a) (ss_sizes a) (ss_owned a) (ss_features_acked a)
  (ss_acked a) (ss_protocol a) t (ss_memory a) (ss_active a) (ss_rings a).
Definition ss_set_memory b a := MkSession (ss_offered a) (ss_sizes a) (ss_owned a) (ss_features_acked a)
  (ss_acked a) (ss_protocol a) (ss_table a) b (ss_active a) (ss_rings a).
Definition ss_set_active b a := MkSession (ss_offered a) (ss_sizes a) (ss_owned a) (ss_features_acked a)
  (ss_acked a) (ss_protocol a) (ss_table a) (ss_memory a) b (ss_rings a).
Definition ss_set_rings rs a := MkSession (ss_offered a) (ss_sizes a) (ss_owned a) (ss_features_acked a)
  (ss_acked a) (ss_protocol a) (ss_table a) (ss_memory a) (ss_active a) rs.

(** ** The specification *)

(** On ring [index], on all rings *)
Definition on_ring (f : ring → ring) (index : Z) (a : session) : session :=
  ss_set_rings (alter f (Z.to_nat index) (ss_rings a)) a.
Definition on_rings (f : ring → ring) (a : session) : session :=
  ss_set_rings (f <$> ss_rings a) a.

(** A ring that is given a descriptor for kicks starts, and the first ring to start when
    there is memory activates the device. *)
Definition initialize (index : Z) (a : session) : session :=
  match ss_rings a !! Z.to_nat index with
  | Some r =>
      if negb (rg_started r) && bool_decide (is_Some (rg_kick r)) then
        let a := on_ring (rg_set_started true) index a in
        if negb (ss_active a) && ss_memory a then ss_set_active true a else a
      else a
  | None => a
  end.

Definition mapping_of (r : VhostUserMemoryRegion) : table_entry :=
  MkTableEntry (vm_user_addr r) (vm_memory_size r) (vm_guest_phys_addr r).

Section spec.
Context `{VhostUserBits} {Sock File : Type}.
Implicit Types (r rq : request Sock File) (a : session) (g : ring).

Definition no_ring (index : Z) (a : session) : option VhostUserError :=
  match ss_rings a !! Z.to_nat index with Some _ => None | None => Some InvalidParam end.

(** Why a request is refused *)
Definition refused r a : option VhostUserError :=
  match r with
  | SET_OWNER => if ss_owned a then Some (InvalidOperation "already claimed") else None
  | SET_FEATURES features =>
      if bool_decide (Z.ldiff features (ss_offered a) ≠ 0) then Some InvalidParam else None
  | SET_VRING_NUM index num =>
      match no_ring index a with
      | Some e => Some e
      | None =>
          if bool_decide (num = 0) then Some InvalidParam
          else match ss_sizes a !! Z.to_nat index with
               | Some max => if bool_decide (max < num) then Some InvalidParam else None
               | None => None
               end
      end
  | SET_VRING_ADDR _ _ _ _ _ _ => if bool_decide (ss_table a = []) then Some InvalidParam else None
  | SET_VRING_BASE index _ | GET_VRING_BASE index | SET_VRING_KICK index _
  | SET_VRING_CALL index _ | SET_VRING_ERR index _ => no_ring index a
  | SET_VRING_ENABLE index _ =>
      if bool_decide (Z.land (ss_acked a) PROTOCOL_FEATURES = 0)
      then Some (InactiveFeature PROTOCOL_FEATURES) else no_ring index a
  | GET_INFLIGHT_FD | SET_INFLIGHT_FD => Some (InvalidOperation "not supported")
  | _ => None
  end.

(** What a request does that is not refused *)
Definition effect r a : session :=
  match r with
  | SET_OWNER => ss_set_owned true a
  | RESET_OWNER => ss_set_owned false (ss_set_features false 0 (ss_set_protocol 0 a))
  | RESET_DEVICE =>
      on_rings (λ g, rg_set_started false (rg_set_enabled false g)) (ss_set_features false 0 a)
  | SET_FEATURES features =>
      let a := ss_set_features true features a in
      if bool_decide (Z.land features PROTOCOL_FEATURES = 0)
      then on_rings (rg_set_enabled true) a else a
  | SET_PROTOCOL_FEATURES features => ss_set_protocol features a
  | SET_MEM_TABLE ctx files =>
      ss_set_memory true (ss_set_table (mapping_of <$> (zip ctx files).*1) a)
  | ADD_MEM_REG region _ => ss_set_table (ss_table a ++ [mapping_of region]) a
  | REM_MEM_REG region =>
      ss_set_table (filter (λ m, te_guest_addr m ≠ vm_guest_phys_addr region) (ss_table a)) a
  | SET_VRING_BASE index base => on_ring (rg_set_next_avail (wrap 16 base)) index a
  | GET_VRING_BASE index =>
      on_ring (λ g, rg_set_call None (rg_set_kick None (rg_set_started false g))) index a
  | SET_VRING_KICK index file => initialize index (on_ring (rg_set_kick file) index a)
  | SET_VRING_CALL index file => initialize index (on_ring (rg_set_call file) index a)
  | SET_VRING_ERR index file => on_ring (rg_set_err file) index a
  | SET_VRING_ENABLE index enable => on_ring (rg_set_enabled enable) index a
  | _ => a
  end.

(** The requests that can fail for reasons outside the session: the files of the front-end,
    its addresses, and the device. *)
Definition fallible r : bool :=
  match r with
  | SET_MEM_TABLE _ _ | SET_VRING_ADDR _ _ _ _ _ _ | GET_CONFIG _ _ _ | SET_CONFIG _ _ _
  | ADD_MEM_REG _ _ | REM_MEM_REG _ | SET_LOG_BASE _ _ => true
  | _ => false
  end.

(** What the answer to a request that succeeds reports. The protocol features and the
    configuration are the device's. *)
Definition replies r a (v : reply) : Prop :=
  match r with
  | GET_FEATURES => v = Number (ss_offered a)
  | GET_PROTOCOL_FEATURES => ∃ n, v = Number n
  | GET_QUEUE_NUM => v = Number (Z.of_nat (length (ss_sizes a)))
  | GET_VRING_BASE index =>
      ∃ g, ss_rings a !! Z.to_nat index = Some g ∧ v = RingState index (rg_next_avail g)
  | GET_CONFIG _ _ _ => ∃ buf, v = ConfigData buf
  | GET_MAX_MEM_SLOTS => v = Number MAX_MEM_SLOTS
  | _ => v = Done
  end.

(** Whether a request succeeds, and the session after it. A device that cannot be activated
    is reported, but counts as active from then on. *)
Inductive spec_answer r a : outcome VhostUserError unit → session → Prop :=
| answer_refused e : refused r a = Some e → spec_answer r a (Fail e) a
| answer_done : refused r a = None → spec_answer r a (Ret tt) (effect r a)
| answer_failed e : refused r a = None → fallible r = true → spec_answer r a (Fail e) a
| answer_inactive :
    refused r a = None → ss_active a = false → ss_active (effect r a) = true →
    spec_answer r a (Fail BackendInternalError) (effect r a).

Lemma answer_effect rq a a' : a' = effect rq a → refused rq a = None → spec_answer rq a (Ret tt) a'.
Proof. intros -> Hrq. by apply answer_done. Qed.

Lemma spec_answer_Ret rq a a' : spec_answer rq a (Ret tt) a' → refused rq a = None ∧ a' = effect rq a.
Proof. by inversion 1. Qed.

(** What the device does to a ring: it moves its position, if the ring is running. *)
Definition device_ring (g g' : ring) : Prop :=
  ∃ n, g' = rg_set_next_avail n g ∧ (rg_running g = false → n = rg_next_avail g).

(** A request with its answer *)
Definition exchange : Type := request Sock File * outcome VhostUserError reply.

(** A step is a request of the front-end with the answer that it gets or, without a label,
    one of the device. *)
Inductive spec_step : option exchange → session → session → Prop :=
| spec_request rq a o a' :
    spec_answer rq a (outcome_map (λ _, tt) o) a' → (∀ v, o = Ret v → replies rq a v) →
    spec_step (Some (rq, o)) a a'
| spec_device a rings' : Forall2 device_ring (ss_rings a) rings' → spec_step None a (ss_set_rings rings' a).

(** The session before the first request *)
Definition spec_init (offered : Z) (sizes : list Z) : session :=
  MkSession offered sizes false false 0 0 [] false false
    ((λ _, MkRing false false None None None 0) <$> sizes).

(** ** A stopped ring stays stopped, where it is *)

(** A ring that was stopped and whose descriptor for kicks is gone *)
Definition quiet (g : ring) : Prop := rg_started g = false ∧ rg_kick g = None.

(** The requests that start ring [i] or move it *)
Definition touches (i : nat) (rq : request Sock File) : bool :=
  match rq with
  | SET_VRING_KICK index _ | SET_VRING_BASE index _ => bool_decide (Z.to_nat index = i)
  | _ => false
  end.

(** Ring [i] of [a'] is as quiet as [g], and at the same position. *)
Definition still_quiet (i : nat) (g : ring) (a' : session) : Prop :=
  ∃ g', ss_rings a' !! i = Some g' ∧ quiet g' ∧ rg_next_avail g' = rg_next_avail g.

Lemma on_ring_quiet f index i g a :
  ss_rings a !! i = Some g → quiet g →
  (Z.to_nat index = i → quiet (f g) ∧ rg_next_avail (f g) = rg_next_avail g) →
  still_quiet i g (on_ring f index a).
Proof.
  intros Hi Hg Hf. unfold still_quiet, on_ring. simpl. rewrite list_lookup_alter, Hi.
  case_decide as Hidx; [|by exists g]. rewrite Hidx, Hi. exists (f g). split; [done|]. by apply Hf.
Qed.

Lemma on_rings_quiet f i g a :
  ss_rings a !! i = Some g → quiet (f g) → rg_next_avail (f g) = rg_next_avail g →
  still_quiet i g (on_rings f a).
Proof.
  intros Hi Hq Hn. unfold still_quiet, on_rings. simpl. rewrite list_lookup_fmap, Hi. by exists (f g).
Qed.

Lemma initialize_quiet index i g a :
  still_quiet i g a → still_quiet i g (initialize index a).
Proof.
  intros (g' & Hi & Hq & Hn). unfold initialize.
  destruct (ss_rings a !! Z.to_nat index) as [g1|] eqn:Hg1; [|by exists g'].
  destruct (negb (rg_started g1) && bool_decide (is_Some (rg_kick g1))) eqn:Hstart; [|by exists g'].
  apply andb_true_iff in Hstart as [_ Hkick%bool_decide_eq_true].
  assert (still_quiet i g (on_ring (rg_set_started true) index a)) as Hring.
  { apply on_ring_quiet with (index := index) (f := rg_set_started true) in Hi as (g2 & ? & ? & ?); [|done|].
    - exists g2. split; [done|]. split; [done|]. by rewrite <-Hn.
    - intros Hidx. rewrite Hidx, Hi in Hg1. injection Hg1 as <-. destruct Hq as [_ Hk].
      rewrite Hk in Hkick. by destruct Hkick. }
  by destruct (negb (ss_active _) && ss_memory _).
Qed.

Lemma effect_quiet rq i g a :
  touches i rq = false → ss_rings a !! i = Some g → quiet g → still_quiet i g (effect rq a).
Proof.
  intros Ht Hi Hg. pose proof Hg as [Hs Hk].
  destruct rq; try (by exists g); simpl in *; try apply bool_decide_eq_false in Ht;
    try apply initialize_quiet; try (apply on_ring_quiet; done).
  - by apply on_rings_quiet.
  - case_bool_decide; [|by exists g]. by apply on_rings_quiet.
Qed.

Lemma step_quiet l i g a a' :
  spec_step l a a' → (∀ rq o, l = Some (rq, o) → touches i rq = false) →
  ss_rings a !! i = Some g → quiet g → still_quiet i g a'.
Proof.
  intros Hstep Hl Hi Hg. destruct Hstep as [rq a o a' Hans _|a rings' Hall].
  - specialize (Hl rq o eq_refl). destruct Hans; try (by exists g); by apply effect_quiet.
  - destruct (Forall2_lookup_l _ _ _ _ _ Hall Hi) as (g' & Hi' & n & -> & Hn).
    exists (rg_set_next_avail n g). split; [done|]. split; [by destruct Hg|]. simpl. apply Hn.
    unfold rg_running. by destruct Hg as [-> _].
Qed.
End spec.

Lemma runs_quiet `{VhostUserBits} {Sock File} ls i g (a a' : session) :
  runs (spec_step (Sock:=Sock) (File:=File)) ls a a' →
  Forall (λ l, ∀ rq o, l = Some (rq, o) → touches i rq = false) ls →
  ss_rings a !! i = Some g → quiet g → still_quiet i g a'.
Proof.
  intros Hruns. revert g. induction Hruns as [a|l ls a a1 a' Hstep _ IH]; intros g Hls Hi Hg; [by exists g|].
  apply Forall_cons in Hls as [Hl Hls].
  destruct (step_quiet _ _ _ _ _ Hstep Hl Hi Hg) as (g1 & Hi1 & Hg1 & Hn1).
  destruct (IH g1 Hls Hi1 Hg1) as (g' & Hi' & Hg' & Hn'). exists g'. by rewrite <-Hn1.
Qed.
