(* ===== verification/SessionRefinement.v ===== *)
(** * The handler implements the specification of a session

    Every request of [handler.rs] is a step of [SessionSpec], seen through the abstraction
    [abs]; so is what the device's threads do to the rings in between. The simulation of
    runs, [session_refines], carries properties of sessions over to the handler. *)

From S2P Require Import Prelude Epoll EventManager VirtQueue Bitmap Vring VhostBackend VhostHandler.
From S2P Require Import SessionSpec.

(** ** The handler as a session *)

Section refinement.
Context {D Mem Q W B Sock Region Mmap File : Type}.
Context `{EpollLaws W} `{EventSetBits} `{!EventFdOps W, !EventFdLaws W}
  `{!QueueConfig Q Mem, !QueueConfigLaws Q Mem}
  `{VhostUserBits} `{!VhostUserDevice D Mem (Vring Q) Sock} `{!BitmapReplace B}
  `{!GuestMemory Mem Region Mmap File}.
Context (checks : bool) (calls : D → nat) (Hcalls : device_calls (Mem:=Mem) (Q:=Q) (Sock:=Sock) calls).

Local Notation HD := (VhostUserHandler D Mem Q W B).
Implicit Types (h : HD) (v : Vring Q) (s : VE W Q).

Definition abs_ring v : ring :=
  MkRing (q_ready (vr_queue v)) (vs_enabled (vr_state v)) (vs_kick (vr_state v))
    (vs_call (vr_state v)) (vs_err (vr_state v)) (q_next_avail (vr_queue v)).

Definition abs_mapping (m : AddrMapping) : table_entry :=
  MkTableEntry (am_vmm_addr m) (am_size m) (am_gpa_base m).

Definition abs h : session :=
  MkSession (vud_avail_features (h_device h)) (qa_max_size <$> h_requested_queues h) (h_owned h)
    (h_features_acked h) (h_acked_features h) (h_acked_protocol_features h) (abs_mapping <$> h_mappings h)
    (h_memory_updated h) (h_device_activated h) (abs_ring <$> h_vrings h).

(** *** Operations on a ring *)

(** A method of a ring that returns has the effect [f] on it. *)
Definition ring_does {E A} (m : M (VE W Q) E A) (f : ring → ring) : Prop :=
  ∀ s a s', m s = (Ret a, s') → abs_ring s'.1 = f (abs_ring s.1).

(** A method that, whatever its result, leaves alone what can be seen of a ring *)
Definition ring_keeps {E A} (m : M (VE W Q) E A) : Prop :=
  ∀ s, abs_ring (m s).2.1 = abs_ring s.1.

Lemma ring_keeps_does {E A} (m : M (VE W Q) E A) : ring_keeps m → ring_does m id.
Proof. intros Hm s a s' Hrun. specialize (Hm s). by rewrite Hrun in Hm. Qed.

Lemma set_enabled_does {E} b : ring_does (set_enabled (E:=E) b) (rg_set_enabled b).
Proof. intros s a s' [= <- <-]. done. Qed.

Lemma set_call_does {E} file : ring_does (set_call (E:=E) file) (rg_set_call file).
Proof. intros s a s' [= <- <-]. done. Qed.

Lemma set_err_does {E} file : ring_does (set_err (E:=E) file) (rg_set_err file).
Proof. intros s a s' [= <- <-]. done. Qed.

Lemma update_epolls_same old new s a s' :
  update_epolls old new s = (Ret a, s') → s'.1 = s.1.
Proof.
  destruct (update_epolls_result old new s) as (o & s1 & Hrun & _ & Hs).
  rewrite Hrun. intros [= _ <-]. done.
Qed.

Lemma set_kick_does file : ring_does (set_kick file) (rg_set_kick file).
Proof.
  intros s a s' Hrun. unfold set_kick, gets in Hrun. unfold bind at 1 2, modify in Hrun. simpl in Hrun.
  unfold bind in Hrun. destruct (is_started _).
  - apply update_epolls_same in Hrun. by rewrite Hrun.
  - unfold ret in Hrun. by simplify_eq.
Qed.

Lemma stop_does : ring_does vring_stop (rg_set_started false).
Proof.
  intros s a s' Hrun. unfold vring_stop, bind at 1, gets in Hrun.
  apply bind_inv_Ret in Hrun as ([] & s1 & Hupd & [= _ <-]).
  assert (s1.1 = s.1) as Hs.
  { destruct (kick_of s); [by eapply update_epolls_same|]. by injection Hupd as <-. }
  unfold abs_ring, on_queue. simpl. rewrite Hs. unfold rg_set_started. simpl.
  by rewrite q_set_ready_ready, q_set_ready_next_avail.
Qed.

Lemma start_does : ring_does vring_start (rg_set_started true).
Proof.
  intros s a s' Hrun. unfold vring_start, bind at 1 2, modify, gets in Hrun.
  apply update_epolls_same in Hrun. rewrite Hrun. unfold abs_ring, rg_set_started. simpl.
  by rewrite q_set_ready_ready, q_set_ready_next_avail.
Qed.

(** A setter of the queue that leaves the ready flag and the position alone *)
Lemma queue_setter_keeps {E} (f : Q → Q) :
  (∀ q, q_ready (f q) = q_ready q) → (∀ q, q_next_avail (f q) = q_next_avail q) →
  ring_keeps (modify (E:=E) (on_queue f)).
Proof. intros Hf Hn s. unfold abs_ring. simpl. by rewrite Hf, Hn. Qed.

Lemma set_queue_info_keeps d a u :
  ring_keeps (zoom fst (λ v (s : VE W Q), (v, s.2)) (set_queue_info d a u)).
Proof.
  intros s. assert (∀ v, abs_ring (set_queue_info d a u v).2 = abs_ring v) as Hk.
  2: { unfold zoom. specialize (Hk s.1). by destruct (set_queue_info d a u s.1). }
  intros v. set (J := λ q, q_ready q = q_ready (vr_queue v) ∧ q_next_avail q = q_next_avail (vr_queue v)).
  unfold set_queue_info, zoom.
  match goal with |- context [bind ?x ?y (vr_queue v)] => assert (J (bind x y (vr_queue v)).2) as HJ end.
  { apply (preserves_bind J); [|intros _; apply preserves_bind; [|intros _]|by split]; intros q [Hr Hn].
    - destruct (q_try_set_desc_table_flags d q) as [(Hf & _) _].
      split; [by rewrite Hf|by rewrite q_try_set_desc_table_next_avail].
    - destruct (q_try_set_avail_ring_flags a q) as [(Hf & _) _].
      split; [by rewrite Hf|by rewrite q_try_set_avail_ring_next_avail].
    - destruct (q_try_set_used_ring_flags u q) as [(Hf & _) _].
      split; [by rewrite Hf|by rewrite q_try_set_used_ring_next_avail]. }
  destruct (bind _ _ (vr_queue v)) as [o q]. unfold abs_ring. simpl in *. destruct HJ as [-> ->]. done.
Qed.

(** *** Operations of the handler *)

Lemma on_vring_infallible {E A} i (m : M (VE W Q) E A) :
  infallible m → infallible (on_vring (D:=D) (B:=B) (Mem:=Mem) i m).
Proof.
  intros Hm h e. unfold on_vring. destruct (h_vrings h !! i) as [v|]; [|done].
  specialize (Hm (v, h_env h) e). by destruct (m (v, h_env h)) as [o [v' env']].
Qed.

Lemma for_each_vring_infallible {E} (m : nat → M HD E unit) :
  (∀ i, infallible (m i)) → infallible (for_each_vring m).
Proof. unfold for_each_vring. auto with infallible. Qed.
#[local] Hint Resolve on_vring_infallible for_each_vring_infallible : infallible.

Definition is_answer {A} (o : outcome VhostUserError A) : Prop := o ≠ Panic ∧ o ≠ NoFuel.

Lemma on_vring_inv {E A} i (m : M (VE W Q) E A) h a h' :
  on_vring i m h = (Ret a, h') →
  ∃ v v' env', h_vrings h !! i = Some v ∧ m (v, h_env h) = (Ret a, (v', env')) ∧
    h' = set_env env' (set_vrings (<[i := v']> (h_vrings h)) h).
Proof.
  unfold on_vring. destruct (h_vrings h !! i) as [v|]; [|done].
  destruct (m (v, h_env h)) as [o [v' env']] eqn:Hm. intros [= -> <-]. eauto 10.
Qed.

Lemma abs_set_vring i v v' env' h f :
  h_vrings h !! i = Some v → abs_ring v' = f (abs_ring v) →
  abs (set_env env' (set_vrings (<[i := v']> (h_vrings h)) h)) =
    ss_set_rings (alter f i (ss_rings (abs h))) (abs h).
Proof.
  intros Hv Hf. unfold abs, ss_set_rings. simpl. f_equal.
  rewrite list_fmap_insert, Hf. apply list_eq. intros j. destruct (decide (i = j)) as [<-|Hne].
  - rewrite list_lookup_alter_eq, list_lookup_fmap, Hv, list_lookup_insert_eq; [done|].
    rewrite length_fmap. by eapply lookup_lt_Some.
  - by rewrite list_lookup_alter_ne, list_lookup_insert_ne.
Qed.

Lemma on_vring_does {E A} index (m : M (VE W Q) E A) f h a h' :
  ring_does m f → on_vring (Z.to_nat index) m h = (Ret a, h') → abs h' = on_ring f index (abs h).
Proof.
  intros Hm (v & v' & env' & Hv & Hrun & ->)%on_vring_inv.
  apply (abs_set_vring _ v); [done|]. by apply Hm in Hrun.
Qed.

Lemma on_ring_id index a : on_ring id index a = a.
Proof.
  unfold on_ring, ss_set_rings. destruct a. simpl. f_equal. apply list_eq. intros j.
  destruct (decide (Z.to_nat index = j)) as [<-|Hne]; [|by rewrite list_lookup_alter_ne].
  rewrite list_lookup_alter_eq. by destruct (_ !! _).
Qed.

Lemma on_rings_id a : on_rings id a = a.
Proof. unfold on_rings. rewrite list_fmap_id. by destruct a. Qed.

Lemma on_vring_keeps {E A} i (m : M (VE W Q) E A) h : ring_keeps m → abs (on_vring i m h).2 = abs h.
Proof.
  intros Hm. unfold on_vring. destruct (h_vrings h !! i) as [v|] eqn:Hv; [|done].
  specialize (Hm (v, h_env h)). destruct (m (v, h_env h)) as [o [v' env']]. simpl in *.
  rewrite (abs_set_vring _ v _ _ _ id) by done.
  rewrite <-(Nat2Z.id i). apply (on_ring_id (Z.of_nat i)).
Qed.

Lemma on_device_keeps {E A} (m : M D E A) h :
  (∀ d, vud_avail_features (m d).2 = vud_avail_features d) → abs (on_device m h).2 = abs h.
Proof.
  intros Hm. unfold on_device, zoom. specialize (Hm (h_device h)). destruct (m (h_device h)).
  unfold abs. simpl in *. by rewrite Hm.
Qed.

Lemma get_vring_cases index h :
  (∃ v, h_vrings h !! Z.to_nat index = Some v ∧ no_ring index (abs h) = None ∧
    get_vring index h = (Ret (Z.to_nat index), h)) ∨
  (no_ring index (abs h) = Some InvalidParam ∧ get_vring index h = (Fail InvalidParam, h)).
Proof.
  unfold get_vring, no_ring, bind, gets, lift, ok_or. simpl. rewrite list_lookup_fmap.
  destruct (h_vrings h !! Z.to_nat index) as [v|]; simpl; eauto.
Qed.

Lemma unwrap_answer {E A} (m : M HD E A) h o h' :
  unwrap m h = (o, h') → is_answer o → ∃ a, o = Ret a ∧ m h = (Ret a, h').
Proof.
  unfold unwrap. destruct (m h) as [[a|e| |] h1]; intros [= <- <-] [? ?]; try done. eauto.
Qed.

Lemma bind_answer {A A'} (m : M HD VhostUserError A) (k : A → M HD VhostUserError A') h o h' :
  bind m k h = (o, h') → is_answer o →
  (∃ a h1, m h = (Ret a, h1) ∧ k a h1 = (o, h')) ∨ (∃ e, m h = (Fail e, h') ∧ o = Fail e).
Proof.
  unfold bind. destruct (m h) as [[a|e| |] h1]; [eauto|intros [= <- <-] _; eauto|intros [= <- <-] []..]; done.
Qed.

Lemma bind_infallible {A A'} (m : M HD VhostUserError A) (k : A → M HD VhostUserError A') h o h' :
  bind m k h = (o, h') → infallible m → is_answer o → ∃ a h1, m h = (Ret a, h1) ∧ k a h1 = (o, h').
Proof.
  intros Hrun Hm Ho. apply bind_answer in Hrun as [?|(e & Hrun & ->)]; [done| |done].
  destruct (Hm h e). by rewrite Hrun.
Qed.

(** All rings, one after the other *)
Lemma for_each_vring_does {E} (m : nat → M HD E unit) f h h' :
  (∀ i h h', m i h = (Ret tt, h') → ∃ v v' env', h_vrings h !! i = Some v ∧
    abs_ring v' = f (abs_ring v) ∧
    h' = set_env env' (set_vrings (<[i := v']> (h_vrings h)) h)) →
  for_each_vring m h = (Ret tt, h') → abs h' = on_rings f (abs h).
Proof.
  intros Hm. unfold for_each_vring, bind at 1, gets. set (n := length (h_vrings h)).
  assert (∀ js h h', NoDup js → for_each js m h = (Ret tt, h') →
    ∃ vs' env', h' = set_env env' (set_vrings vs' h) ∧ length vs' = length (h_vrings h) ∧
      ∀ j, abs_ring <$> vs' !! j =
        (if decide (j ∈ js) then f <$> (abs_ring <$> h_vrings h !! j) else abs_ring <$> h_vrings h !! j))
    as Hall.
  { clear h h' n. induction js as [|i js IH]; intros h h' Hd Hrun; simpl in Hrun.
    { injection Hrun as <-. exists (h_vrings h), (h_env h). split; [by destruct h|]. split; [done|].
      intros j. by rewrite decide_False by apply not_elem_of_nil. }
    apply NoDup_cons in Hd as [Hi Hd]. apply bind_inv_Ret in Hrun as ([] & h1 & Hone & Hrun).
    destruct (Hm _ _ _ Hone) as (v & v' & env1 & Hv & Hf & ->).
    destruct (IH _ _ Hd Hrun) as (vs' & env' & -> & Hlen & Hj). exists vs', env'.
    split; [done|]. simpl in *. split; [by rewrite Hlen, length_insert|]. intros j. rewrite Hj.
    destruct (decide (j = i)) as [->|Hne].
    - rewrite decide_False, decide_True by (done || constructor).
      rewrite list_lookup_insert_eq by (by eapply lookup_lt_Some). by rewrite Hv; simpl; rewrite Hf.
    - rewrite list_lookup_insert_ne by done. apply decide_ext. rewrite elem_of_cons. naive_solver. }
  intros Hrun. apply Hall in Hrun as (vs' & env' & -> & Hlen & Hj); [|apply NoDup_seq].
  unfold abs, on_rings, ss_set_rings. simpl. f_equal. apply list_eq. intros j.
  rewrite !list_lookup_fmap, Hj. destruct (decide (j ∈ seq 0 n)) as [_|Hj']; [done|].
  rewrite (lookup_ge_None_2 (h_vrings h) j); [done|].
  rewrite elem_of_seq in Hj'. unfold n in Hj'. lia.
Qed.

(** *** Requests *)

Lemma vring_gets_run {E A} i (f : VE W Q → A) h v :
  h_vrings h !! i = Some v → on_vring (E:=E) i (gets f) h = (Ret (f (v, h_env h)), h).
Proof.
  intros Hv. unfold on_vring, gets. rewrite Hv, list_insert_id by done. by destruct h.
Qed.

Lemma initialize_refines index v h o h' :
  h_vrings h !! Z.to_nat index = Some v → initialize_vring index h = (o, h') → is_answer o →
  abs h' = initialize index (abs h) ∧
  (o = Ret tt ∨ o = Fail BackendInternalError ∧ ss_active (abs h) = false ∧ ss_active (abs h') = true).
Proof.
  intros Hv Hrun Ho. unfold initialize_vring in Hrun.
  erewrite bind_Ret in Hrun by (by apply vring_gets_run).
  erewrite bind_Ret in Hrun by (by apply vring_gets_run).
  change (is_started (v, h_env h)) with (rg_started (abs_ring v)) in Hrun.
  change (has_kick_event (v, h_env h)) with (bool_decide (is_Some (rg_kick (abs_ring v)))) in Hrun.
  assert (ss_rings (abs h) !! Z.to_nat index = Some (abs_ring v)) as Hring
    by (simpl; by rewrite list_lookup_fmap, Hv).
  unfold initialize. rewrite Hring.
  destruct (negb (rg_started (abs_ring v)) && bool_decide (is_Some (rg_kick (abs_ring v)))).
  2: { injection Hrun as <- <-. auto. }
  apply bind_answer in Hrun as [([] & h1 & Hstart & Hrun)|(e & Hstart & ->)]; [| |done].
  2: { apply unwrap_answer in Hstart as (a & ? & _); [done|done]. }
  apply unwrap_answer in Hstart as ([] & _ & Hstart); [|done].
  apply (on_vring_does _ _ _ _ _ _ start_does) in Hstart as Habs. rewrite <-Habs.
  unfold bind at 1, get in Hrun. simpl. unfold abs in Habs. simpl in Habs.
  destruct (negb (h_device_activated h1) && h_memory_updated h1) eqn:Hact.
  2: { injection Hrun as <- <-. simpl. auto. }
  apply andb_true_iff in Hact as [Hact%negb_true_iff Hmem].
  assert (h_device_activated h = false) as Hact0.
  { apply on_vring_inv in Hstart as (? & ? & ? & _ & _ & ->). done. }
  unfold bind at 1, modify in Hrun.
  unfold bind, attempt, on_device, zoom in Hrun. simpl in Hrun.
  destruct (dc_activate _ Hcalls (gm_mem (h_atomic_mem h1)) (map_seq 0 (h_vrings h1)) (h_device h1))
    as [_ Hf].
  destruct (vud_activate _ _ (h_device h1)) as [[[]|e| |] d']; simpl in *; unfold ret, fail in Hrun;
    simplify_eq; try (by destruct Ho); (split; [unfold abs, ss_set_active; simpl; by rewrite Hf|auto]).
Qed.

Local Notation refines r h := (∀ o h', handle (B:=B) checks r h = (o, h') → is_answer o →
  spec_answer (r : request Sock File) (abs h) o (abs h')).

(** A request that is refused unless its ring exists *)
Lemma refines_ring r index (k : nat → M HD VhostUserError unit) h :
  (∀ a, refused r a = no_ring index a) →
  (∀ h, handle checks r h = bind (get_vring index) k h) →
  (∀ v, h_vrings h !! Z.to_nat index = Some v → refused r (abs h) = None →
    ∀ o h', k (Z.to_nat index) h = (o, h') → is_answer o → spec_answer r (abs h) o (abs h')) →
  refines r h.
Proof.
  intros Href Hrun Hk o h'. rewrite Hrun.
  destruct (get_vring_cases index h) as [(v & Hv & Hno & Hget)|[Hno Hget]].
  - erewrite bind_Ret by done. apply (Hk v); [done|by rewrite Href].
  - erewrite bind_Fail by done. intros [= <- <-] _. apply answer_refused. by rewrite Href.
Qed.

(** A request that only reads, or changes nothing that is seen of the session *)
Lemma refines_keeps r h :
  effect r (abs h) = abs h → refused r (abs h) = None → abs (handle checks r h).2 = abs h →
  (fallible r = true ∨ ∀ e, (handle checks r h).1 ≠ Fail e) → refines r h.
Proof.
  intros Heff Href Habs Hfail o h' Hrun Ho. rewrite Hrun in Habs, Hfail. simpl in *. rewrite Habs.
  destruct o as [[]|e| |]; [|destruct Hfail as [Hfail|Hfail]|by destruct Ho..].
  - rewrite <-Heff at 2. by apply answer_done.
  - by apply answer_failed.
  - by destruct (Hfail e).
Qed.

Lemma unit_eta (a : unit) : Ret (E:=VhostUserError) a = Ret tt.
Proof. by destruct a. Qed.

(** A ring's request that ends with starting the ring, if it can be *)
Lemma refines_initialize r index (m : M (VE W Q) VhostUserError unit) f h v o h' :
  h_vrings h !! Z.to_nat index = Some v → refused r (abs h) = None →
  effect r (abs h) = initialize index (on_ring f index (abs h)) →
  (∀ s, ∃ s', m s = (Ret tt, s') ∨ ∃ o, m s = (o, s') ∧ ¬ is_answer o) → ring_does m f →
  bind (on_vring (Z.to_nat index) m) (λ _, initialize_vring index) h = (o, h') → is_answer o →
  spec_answer (r : request Sock File) (abs h) o (abs h').
Proof.
  intros Hv Href Heff Hres Hm Hrun Ho. unfold bind in Hrun.
  destruct (Hres (v, h_env h)) as [[v' env'] [Hs|(om & Hs & Hno)]].
  2: { unfold on_vring in Hrun. rewrite Hv, Hs in Hrun. exfalso.
    destruct om as [a|e| |]; [destruct Hno; by split|destruct Hno; by split| |];
      injection Hrun as <- <-; by destruct Ho. }
  assert (on_vring (Z.to_nat index) m h =
    (Ret tt, set_env env' (set_vrings (<[Z.to_nat index := v']> (h_vrings h)) h))) as Hon
    by (unfold on_vring; by rewrite Hv, Hs).
  rewrite Hon in Hrun. apply (on_vring_does _ _ _ _ _ _ Hm) in Hon as Habs.
  apply initialize_refines with (v := v') in Hrun as [Hinit Hout]; [|simpl|done].
  2: { apply list_lookup_insert_eq. by eapply lookup_lt_Some. }
  rewrite Habs in Hinit, Hout. rewrite Hinit, <-Heff.
  destruct Hout as [->|(-> & Hact & Hact')]; [by apply answer_done|].
  apply answer_inactive; [done|done|]. by rewrite Heff, <-Hinit.
Qed.

Lemma map_regions_mappings (ctx : list (VhostUserMemoryRegion * File)) mappings (regions : list Region) :
  map_regions ctx = Ret (mappings, regions) → abs_mapping <$> mappings = mapping_of <$> ctx.*1.
Proof.
  revert mappings regions. induction ctx as [|[region file] ctx IH]; simpl; intros mappings regions.
  { by intros [= <- _]. }
  unfold outcome_bind, outcome_map_err. destruct (mmap_region region file); [|done..].
  destruct (guest_region_new _ _); [|done..]. destruct (map_regions ctx) as [[ms rs]| | |]; [|done..].
  intros [= <- _]. by rewrite !fmap_cons, (IH ms rs).
Qed.

Lemma for_each_vring_modifies {E} (m : M (VE W Q) E unit) f h h' :
  ring_does m f → for_each_vring (λ i, on_vring i m) h = (Ret tt, h') → abs h' = on_rings f (abs h).
Proof.
  intros Hm. apply for_each_vring_does. intros i g g' (v & v' & env' & Hv & Hr & ->)%on_vring_inv.
  exists v, v', env'. split; [done|]. split; [|done]. by apply Hm in Hr.
Qed.

Lemma refines_set_features features h : refines (SET_FEATURES features) h.
Proof.
  intros o h'. simpl. unfold set_features, bind at 1, gets. simpl. case_bool_decide as Hsub.
  { intros [= <- <-] _. apply answer_refused. simpl. by rewrite bool_decide_eq_true_2. }
  unfold bind at 1 2, modify at 1 2. set (h1 := set_features_acked true _). intros Hrun Ho.
  assert (abs h1 = ss_set_features true features (abs h)) as Habs1 by done.
  apply bind_infallible in Hrun as ([] & h2 & Hfirst & Hrun); [|unfold set_enabled; auto with infallible|done].
  assert (abs h2 = effect (Sock:=Sock) (File:=File) (SET_FEATURES features) (abs h)) as Habs2.
  { simpl. rewrite <-Habs1.
    destruct (bool_decide (Z.land features PROTOCOL_FEATURES = 0)); [|by injection Hfirst as <-].
    by apply (for_each_vring_modifies _ _ _ _ (set_enabled_does true)) in Hfirst. }
  apply bind_infallible in Hrun as ([] & h3 & Hsecond & Hrun); [|auto with infallible|done].
  apply (for_each_vring_modifies _ id) in Hsecond.
  2: { apply ring_keeps_does, queue_setter_keeps; [|apply q_set_event_idx_next_avail].
    apply q_set_event_idx_ready. }
  apply unwrap_answer in Hrun as ([] & -> & Hrun); [|done].
  assert (abs h' = abs h3) as ->.
  { pose proof (on_device_keeps (vud_set_acked_features features) h3) as Hk. rewrite Hrun in Hk.
    apply Hk. intros d. apply (dc_set_acked calls Hcalls features d). }
  rewrite Hsecond, on_rings_id, Habs2. apply answer_done. simpl. by rewrite bool_decide_eq_false_2 by auto.
Qed.

Lemma refines_reset_device h : refines RESET_DEVICE h.
Proof.
  intros o h' Hrun Ho. simpl in Hrun. unfold reset_device in Hrun.
  apply bind_infallible in Hrun as ([] & h1 & Hrings & Hrun); [|unfold set_enabled; auto 8 with infallible|done].
  apply for_each_vring_does with (f := λ g, rg_set_started false (rg_set_enabled false g)) in Hrings.
  2: { clear Hrings h h' o h1 Hrun Ho. intros i h h' Hrun. apply bind_inv_Ret in Hrun as ([] & h1 & Hen & Hstop).
    apply unwrap_Ret in Hstop.
    apply on_vring_inv in Hen as (v & v1 & env1 & Hv & Hen & ->).
    apply on_vring_inv in Hstop as (v1' & v2 & env2 & Hv1 & Hstop & ->). simpl in *.
    rewrite list_lookup_insert_eq in Hv1 by (by eapply lookup_lt_Some). injection Hv1 as <-.
    exists v, v2, env2. split; [done|]. split; [|by rewrite list_insert_insert_eq].
    apply stop_does in Hstop. apply set_enabled_does in Hen. simpl in *. by rewrite Hstop, Hen. }
  unfold bind at 1 2, modify in Hrun. apply bind_infallible in Hrun as (b & h2 & Hreset & Hrun);
    [|auto with infallible|done]. apply unwrap_Ret in Hreset. injection Hrun as <- <-.
  assert (abs h2 = ss_set_features false 0 (abs h1)) as ->.
  { pose proof (on_device_keeps vud_reset (set_acked_features 0 (set_features_acked false h1))) as Hk.
    rewrite Hreset in Hk. apply Hk. intros d. apply (dc_reset calls Hcalls d). }
  rewrite Hrings. by apply answer_done.
Qed.

Lemma refines_set_mem_table ctx files h : refines (SET_MEM_TABLE ctx files) h.
Proof.
  intros o h' Hrun Ho. simpl in Hrun. unfold set_mem_table, bind at 1, lift in Hrun.
  destruct (map_regions (zip ctx files)) as [[mappings regions]|e| |] eqn:Hmap;
    [|injection Hrun as <- <-; by apply answer_failed|injection Hrun as <- <-; by destruct Ho..].
  unfold bind at 1, lift, outcome_map_err in Hrun.
  destruct (from_regions regions) as [mem|e| |];
    [|injection Hrun as <- <-; by apply answer_failed|injection Hrun as <- <-; by destruct Ho..].
  injection Hrun as <- <-. apply map_regions_mappings in Hmap.
  apply answer_effect; [|done].
  unfold abs. simpl. by rewrite Hmap.
Qed.

Lemma refines_set_vring_num index num h : refines (SET_VRING_NUM index num) h.
Proof.
  intros o h'. simpl. unfold set_vring_num.
  destruct (get_vring_cases index h) as [(v & Hv & Hno & Hget)|[Hno Hget]].
  2: { erewrite bind_Fail by done. intros [= <- <-] _. apply answer_refused. simpl. by rewrite Hno. }
  erewrite bind_Ret by done. erewrite bind_Ret by done.
  assert (∀ o' : option VhostUserError, (if bool_decide (num = 0) then Some InvalidParam else
    match (qa_max_size <$> h_requested_queues h) !! Z.to_nat index with
    | Some max => if bool_decide (max < num) then Some InvalidParam else None
    | None => None end) = o' → refused (Sock:=Sock) (File:=File) (SET_VRING_NUM index num) (abs h) = o') as Href.
  { intros o' <-. simpl. by rewrite Hno. }
  rewrite list_lookup_fmap in Href. case_bool_decide as Hz.
  { intros [= <- <-] _. apply answer_refused. by apply Href. }
  destruct (h_requested_queues h !! Z.to_nat index) as [args|]; [|by intros [= <- <-] []].
  simpl. erewrite bind_Ret by done. case_bool_decide as Hmax.
  { intros [= <- <-] _. apply answer_refused. apply Href. simpl. by rewrite bool_decide_eq_true_2. }
  intros Hrun Ho. pose proof (on_vring_keeps (Z.to_nat index)
    (modify (E:=VhostUserError) (on_queue (q_set_size (wrap 16 num)))) h) as Hk.
  rewrite Hrun in Hk. simpl in Hk. rewrite Hk.
  2: { apply queue_setter_keeps; [|apply q_set_size_next_avail]. intros q. apply q_set_size_flags. }
  unfold on_vring in Hrun. rewrite Hv in Hrun. injection Hrun as <- _.
  apply answer_done. apply Href. simpl. by rewrite bool_decide_eq_false_2.
Qed.

Lemma preserves_abs {A} (m : M HD VhostUserError A) h :
  preserves (λ h', abs h' = abs h) m → abs (m h).2 = abs h.
Proof. intros Hm. by apply Hm. Qed.

Lemma on_vring_preserves {E A} i (m : M (VE W Q) E A) a :
  ring_keeps m → preserves (λ h, abs h = a) (on_vring i m).
Proof. intros Hm h <-. by apply on_vring_keeps. Qed.

Lemma on_device_preserves {E A} (m : M D E A) a :
  (∀ d, vud_avail_features (m d).2 = vud_avail_features d) → preserves (λ h, abs h = a) (on_device m).
Proof. intros Hm h <-. by apply on_device_keeps. Qed.

Lemma refines_set_vring_addr index flags d u av l h : refines (SET_VRING_ADDR index flags d u av l) h.
Proof.
  destruct (decide (h_mappings h = [])) as [Hnil|Hne].
  { intros o h'. simpl. unfold set_vring_addr, bind, gets. rewrite bool_decide_eq_false_2 by auto.
    intros [= <- <-] _. apply answer_refused. simpl. by rewrite Hnil. }
  apply refines_keeps; [done|simpl; rewrite bool_decide_eq_false_2; [done|by intros ?%fmap_nil_inv]| |by left].
  apply preserves_abs. simpl. unfold set_vring_addr, to_gpa, get_vring.
  assert (∀ E (f : Q → Q), (∀ q, q_ready (f q) = q_ready q) → (∀ q, q_next_avail (f q) = q_next_avail q) →
    ∀ i, preserves (E:=E) (λ h', abs h' = abs h) (on_vring i (modify (on_queue f)))) as Hset.
  { intros E f Hf Hn i. by apply on_vring_preserves, queue_setter_keeps. }
  assert (∀ d a u i, preserves (λ h', abs h' = abs h)
    (on_vring i (zoom fst (λ v (s : VE W Q), (v, s.2)) (set_queue_info d a u)))) as Hinfo.
  { intros. apply on_vring_preserves, set_queue_info_keeps. }
  assert (∀ E A i (f : VE W Q → outcome E A), preserves (λ h', abs h' = abs h)
    (on_vring i (λ s, (f s, s)))) as Hread.
  { intros. by apply on_vring_preserves. }
  assert (preserves (E:=VhostUserError) (λ h', abs h' = abs h) get) as Hget by by intros ?.
  assert (∀ i idx, preserves (E:=VhostUserError) (λ h', abs h' = abs h)
    (on_vring i (modify (on_queue (q_set_next_used idx))))) as Hused.
  { intros. apply Hset; [|apply q_set_next_used_next_avail]. intros q. apply q_set_next_used_flags. }
  eauto 15 with preserves.
Qed.

Lemma on_ring_compose f g index a : on_ring f index (on_ring g index a) = on_ring (f ∘ g) index a.
Proof.
  unfold on_ring, ss_set_rings. simpl. f_equal. apply list_eq. intros j.
  destruct (decide (Z.to_nat index = j)) as [<-|Hne]; [|by rewrite !list_lookup_alter_ne].
  rewrite !list_lookup_alter_eq. by destruct (_ !! _).
Qed.

Lemma refines_get_vring_base index h : refines (GET_VRING_BASE index) h.
Proof.
  apply (refines_ring _ index (λ i, do! (
    do! unwrap (on_vring i vring_stop) in
    let! next_avail := on_vring i (gets (λ s, q_next_avail (vr_queue s.1))) in
    do! unwrap (on_vring i (set_kick None)) in
    do! on_vring i (set_call None) in
    ret (index, next_avail)) in ret tt)); [done| |].
  { intros h'. simpl. unfold discard, get_vring_base. by rewrite bind_assoc. }
  intros v Hv Href o h' Hrun Ho. rewrite !bind_assoc in Hrun.
  apply bind_infallible in Hrun as ([] & h1 & Hstop & Hrun); [|auto with infallible|done].
  apply unwrap_Ret in Hstop. apply (on_vring_does _ _ _ _ _ _ stop_does) in Hstop as Habs.
  rewrite !bind_assoc in Hrun. unfold bind at 1 in Hrun.
  apply on_vring_inv in Hstop as (v0 & v1 & env1 & _ & _ & ->).
  assert ((<[Z.to_nat index:=v1]> (h_vrings h)) !! Z.to_nat index = Some v1) as Hv1
    by (apply list_lookup_insert_eq; by eapply lookup_lt_Some).
  rewrite (vring_gets_run _ _ _ v1) in Hrun by done.
  rewrite bind_assoc in Hrun.
  apply bind_infallible in Hrun as ([] & h2 & Hkick & Hrun); [|auto with infallible|done].
  apply unwrap_Ret in Hkick. apply (on_vring_does _ _ _ _ _ _ (set_kick_does None)) in Hkick.
  rewrite bind_assoc in Hrun.
  apply bind_infallible in Hrun as ([] & h3 & Hcall & Hrun); [|unfold set_call; auto with infallible|done].
  apply (on_vring_does _ _ _ _ _ _ (set_call_does None)) in Hcall. injection Hrun as <- <-.
  rewrite Hcall, Hkick, Habs, !on_ring_compose. by apply answer_done.
Qed.

(** A request on a ring that only sets something of it *)
Lemma refines_ring_does r index (m : M (VE W Q) VhostUserError unit) f h :
  (∀ a, refused r a = no_ring index a) → infallible m → ring_does m f →
  (∀ h, handle checks r h = bind (get_vring index) (λ i, on_vring i m) h) →
  effect r (abs h) = on_ring f index (abs h) → refines r h.
Proof.
  intros Href Hinf Hm Hrun Heff. apply (refines_ring r index _ h Href Hrun).
  intros v Hv Hno o h' Hk Ho. destruct o as [[]|e| |]; [| |by destruct Ho..].
  - apply (on_vring_does _ _ _ _ _ _ Hm) in Hk as ->. rewrite <-Heff. by apply answer_done.
  - destruct (on_vring_infallible (Z.to_nat index) m Hinf h e). by rewrite Hk.
Qed.

Lemma next_avail_does {E} n : ring_does (modify (E:=E) (on_queue (q_set_next_avail n))) (rg_set_next_avail n).
Proof.
  intros s a s' [= _ <-]. unfold abs_ring, rg_set_next_avail. simpl.
  rewrite q_set_next_avail_next_avail. by destruct (q_set_next_avail_flags n (vr_queue s.1)) as (-> & _).
Qed.

Lemma refines_set_vring_enable index enable h : refines (SET_VRING_ENABLE index enable) h.
Proof.
  intros o h'. simpl. unfold set_vring_enable, check_feature.
  destruct (decide (Z.land (h_acked_features h) PROTOCOL_FEATURES = 0)) as [Hz|Hnz].
  { unfold bind, gets. rewrite bool_decide_eq_false_2 by auto. intros [= <- <-] _.
    apply answer_refused. simpl. by rewrite bool_decide_eq_true_2. }
  rewrite (bind_Ret _ _ h tt h) by (unfold bind, gets; by rewrite bool_decide_eq_true_2).
  assert (refused (Sock:=Sock) (File:=File) (SET_VRING_ENABLE index enable) (abs h) = no_ring index (abs h))
    as Href by (simpl; by rewrite bool_decide_eq_false_2).
  destruct (get_vring_cases index h) as [(v & Hv & Hno & Hget)|[Hno Hget]].
  - rewrite (bind_Ret _ _ _ _ _ Hget). intros Hrun Ho. destruct o as [[]|e| |]; [| |by destruct Ho..].
    + apply (on_vring_does _ _ _ _ _ _ (set_enabled_does enable)) in Hrun as ->.
      apply (answer_done (SET_VRING_ENABLE index enable)). by rewrite Href.
    + destruct (on_vring_infallible (Z.to_nat index) (set_enabled (E:=VhostUserError) enable)
        ltac:(unfold set_enabled; auto with infallible) h e). by rewrite Hrun.
  - rewrite (bind_Fail _ _ _ _ _ Hget). intros [= <- <-] _. apply answer_refused. by rewrite Href.
Qed.

Lemma refines_set_vring_kick index file h : refines (SET_VRING_KICK index file) h.
Proof.
  eapply (refines_ring _ index); [done|intros ?; reflexivity|].
  intros v Hv Hno o h' Hrun Ho.
  assert (∀ h, unwrap (E':=VhostUserError) (on_vring (D:=D) (B:=B) (Mem:=Mem) (Z.to_nat index) (set_kick file)) h
    = on_vring (Z.to_nat index) (unwrap (set_kick file)) h) as Hunwrap.
  { intros g. unfold unwrap, on_vring. destruct (h_vrings g !! _) as [w|]; [|done].
    by destruct (set_kick file (w, h_env g)) as [o1 [v1 env1]]. }
  assert (bind (on_vring (Z.to_nat index) (unwrap (set_kick file))) (λ _, initialize_vring index) h
    = (o, h')) as Hrun' by (unfold bind in *; by rewrite <-Hunwrap).
  refine (refines_initialize _ index _ (rg_set_kick file) h v o h' Hv Hno eq_refl _ _ Hrun' Ho).
  - intros s. unfold unwrap. destruct (set_kick file s) as [[[]|e| |] s1]; exists s1; simpl;
      [by left|right; eexists; split; [done|]; intros []; done..].
  - intros s a s' Hs. apply unwrap_Ret in Hs. by apply (set_kick_does file) in Hs.
Qed.

Lemma refines_set_vring_call index file h : refines (SET_VRING_CALL index file) h.
Proof.
  eapply (refines_ring _ index); [done|intros ?; reflexivity|].
  intros v Hv Hno o h' Hrun Ho.
  refine (refines_initialize _ index _ (rg_set_call file) h v o h' Hv Hno eq_refl _ _ Hrun Ho).
  - intros s. eexists. by left.
  - apply set_call_does.
Qed.

Lemma refines_add_mem_region region file h : refines (ADD_MEM_REG region file) h.
Proof.
  intros o h' Hrun Ho. simpl in Hrun. unfold add_mem_region, bind at 1, lift in Hrun.
  destruct (mmap_region region file) as [mm|e| |];
    [|injection Hrun as <- <-; by apply answer_failed|injection Hrun as <- <-; by destruct Ho..].
  unfold bind at 1, lift, outcome_map_err in Hrun. destruct (guest_region_new _ _) as [gr|e| |];
    [|injection Hrun as <- <-; by apply answer_failed|injection Hrun as <- <-; by destruct Ho..].
  unfold bind at 1, gets in Hrun. unfold bind at 1, lift in Hrun.
  destruct (insert_region _ _) as [mem|e| |];
    [|injection Hrun as <- <-; by apply answer_failed|injection Hrun as <- <-; by destruct Ho..].
  injection Hrun as <- <-.
  apply answer_effect; [|done].
  unfold abs. simpl. by rewrite fmap_app.
Qed.

Lemma filter_mappings base (ms : list AddrMapping) :
  abs_mapping <$> filter (λ m, am_gpa_base m ≠ base) ms =
  filter (λ m, te_guest_addr m ≠ base) (abs_mapping <$> ms).
Proof.
  induction ms as [|m ms IH]; [done|]. rewrite fmap_cons, !filter_cons. simpl.
  destruct (decide (am_gpa_base m ≠ base)); [by rewrite fmap_cons, IH|done].
Qed.

Lemma refines_remove_mem_region region h : refines (REM_MEM_REG region) h.
Proof.
  intros o h' Hrun Ho. simpl in Hrun. unfold remove_mem_region in Hrun.
  unfold bind at 1, gets in Hrun. unfold bind at 1, lift, outcome_map_err in Hrun.
  destruct (remove_region _ _ _) as [mem|e| |];
    [|injection Hrun as <- <-; by apply answer_failed|injection Hrun as <- <-; by destruct Ho..].
  injection Hrun as <- <-.
  apply answer_effect; [|done].
  unfold abs. simpl. by rewrite filter_mappings.
Qed.

Lemma modify_preserves {E} (f : HD → HD) a :
  (∀ h, abs (f h) = abs h) → preserves (E:=E) (λ h, abs h = a) (modify f).
Proof. intros Hf h <-. apply Hf. Qed.

Lemma refines_set_log_base log file h : refines (SET_LOG_BASE log file) h.
Proof.
  apply refines_keeps; [done|done| |by left]. apply preserves_abs. simpl.
  unfold set_log_base, replace_bitmap.
  assert (∀ E (gm : HD → GuestMem Mem B), preserves (E:=E) (λ h', abs h' = abs h)
    (modify (λ h, set_atomic_mem (gm h) h))) as Hset by (intros; by apply modify_preserves).
  assert (∀ E (gm : GuestMem Mem B), preserves (E:=E) (λ h', abs h' = abs h)
    (modify (set_atomic_mem gm))) as Hset' by (intros; by apply modify_preserves).
  eauto 15 with preserves.
Qed.

Lemma handle_step r h : refines r h.
Proof.
  destruct r.
  - intros o h'. simpl. unfold set_owner, bind, gets. destruct (h_owned h) eqn:Hown.
    + intros [= <- <-] _. apply answer_refused. simpl. by rewrite Hown.
    + intros [= <- <-] _. apply (answer_done SET_OWNER (abs h)). simpl. by rewrite Hown.
  - intros o h' [= <- <-] _. exact (answer_done RESET_OWNER (abs h) eq_refl).
  - apply refines_reset_device.
  - by apply refines_keeps; [..|right].
  - apply refines_set_features.
  - apply refines_set_mem_table.
  - apply refines_set_vring_num.
  - apply refines_set_vring_addr.
  - eapply (refines_ring_does _ index); [done| |apply next_avail_does|done|done]. auto with infallible.
  - apply refines_get_vring_base.
  - apply refines_set_vring_kick.
  - apply refines_set_vring_call.
  - eapply (refines_ring_does _ index); [done| |apply set_err_does|done|done].
    unfold set_err. auto with infallible.
  - by apply refines_keeps; [..|right].
  - intros o h' [= <- <-] _. exact (answer_done (SET_PROTOCOL_FEATURES features) (abs h) eq_refl).
  - by apply refines_keeps; [..|right].
  - apply refines_set_vring_enable.
  - apply refines_keeps; [done..| |by left]. simpl. unfold discard, get_config, bind, get, lift.
    by destruct (outcome_map_err _ _).
  - apply refines_keeps; [done..| |by left]. simpl. unfold set_config.
    pose proof (on_device_keeps (vud_write_config offset buf) h) as Hk. unfold map_err.
    destruct (on_device _ h). apply Hk. intros d. apply (dc_write_config calls Hcalls offset buf d).
  - by apply refines_keeps; [..|right].
  - apply refines_keeps; [done..| |right; intros e; apply infallible_unwrap]. simpl.
    unfold handler_set_gpu_socket.
    pose proof (on_device_keeps (vud_set_gpu_socket gpu_backend) h) as Hk. unfold unwrap.
    destruct (on_device _ h). apply Hk. intros d. apply (dc_set_gpu_socket calls Hcalls gpu_backend d).
  - intros o h' [= <- <-] _. by apply answer_refused.
  - intros o h' [= <- <-] _. by apply answer_refused.
  - by apply refines_keeps; [..|right].
  - apply refines_add_mem_region.
  - apply refines_remove_mem_region.
  - intros o h' [= <- _] []. done.
  - intros o h' [= <- _] []. done.
  - apply refines_set_log_base.
Qed.

(** *** What the answers report *)

Lemma is_answer_map {A A'} (f : A → A') (o : outcome VhostUserError A) :
  is_answer o → is_answer (outcome_map f o).
Proof. intros [? ?]. by destruct o. Qed.

Lemma get_vring_base_reports index h i n h' :
  get_vring_base index h = (Ret (i, n), h') →
  i = index ∧ ∃ v, h_vrings h !! Z.to_nat index = Some v ∧ q_next_avail (vr_queue v) = n.
Proof.
  intros Hget. unfold get_vring_base in Hget. destruct (get_vring_cases index h) as [(v & Hv & _ & Hg)|[_ Hg]].
  2: { by rewrite (bind_Fail _ _ _ _ _ Hg) in Hget. }
  rewrite (bind_Ret _ _ _ _ _ Hg) in Hget.
  apply bind_inv_Ret in Hget as ([] & g1 & Hstop%unwrap_Ret & Hget).
  apply on_vring_inv in Hstop as (v0 & v1 & env1 & Hv0 & Hstop & ->). rewrite Hv in Hv0.
  injection Hv0 as <-. apply stop_does in Hstop. injection Hstop as _ _ _ _ _ Hpos. simpl in Hpos.
  erewrite bind_Ret in Hget.
  2: { apply vring_gets_run. apply list_lookup_insert_eq. by eapply lookup_lt_Some. }
  do 2 (apply bind_inv_Ret in Hget as ([] & ? & _ & Hget)). injection Hget as <- Hn _.
  split; [done|]. exists v. split; [done|]. by rewrite <-Hpos.
Qed.

Lemma replying_Ret {A} (f : A → reply) (m : M HD VhostUserError A) h w :
  (replying f m h).1 = Ret w → ∃ a h', m h = (Ret a, h') ∧ w = f a.
Proof. unfold replying, bind. destruct (m h) as [[a| | |] h']; [|done..]. intros [= <-]. eauto. Qed.

Lemma replies_ok r h w : (reply_to checks r h).1 = Ret w → replies (Sock:=Sock) (File:=File) r (abs h) w.
Proof.
  destruct r; intros (a & h' & Hm & ->)%replying_Ret; simpl; eauto.
  - by injection Hm as <- _.
  - destruct a as [i n]. destruct (get_vring_base_reports _ _ _ _ _ Hm) as (-> & v & Hv & <-).
    exists (abs_ring v). split; [by rewrite list_lookup_fmap, Hv|done].
  - injection Hm as <- _. by rewrite length_fmap.
  - by injection Hm as <- _.
Qed.

(** *** Runs *)

Definition vring_running v : bool := q_ready (vr_queue v) && vs_enabled (vr_state v).

(** What the threads of the device do to a ring: they process its queue, if it is running,
    and register with it. *)
Definition device_vring v v' : Prop :=
  q_same_setup (vr_queue v) (vr_queue v') ∧
  vs_enabled (vr_state v') = vs_enabled (vr_state v) ∧
  vs_kick (vr_state v') = vs_kick (vr_state v) ∧ vs_call (vr_state v') = vs_call (vr_state v) ∧
  vs_err (vr_state v') = vs_err (vr_state v) ∧
  (vring_running v = false → vr_queue v' = vr_queue v).

(** They also write guest memory and its log, and use the kernel. *)
Definition device_step h h' : Prop :=
  ∃ vrings' env' gm', Forall2 device_vring (h_vrings h) vrings' ∧
    h' = set_atomic_mem gm' (set_env env' (set_vrings vrings' h)).

(** A request that is answered, by success or with an error, or a step of the device *)
Inductive handler_step : option (exchange (Sock:=Sock) (File:=File)) → HD → HD → Prop :=
| handler_request r h :
    is_answer (reply_to checks r h).1 →
    handler_step (Some (r, (reply_to checks r h).1)) h (reply_to checks r h).2
| handler_device h h' : device_step h h' → handler_step None h h'.

Lemma device_vring_ring v v' : device_vring v v' → device_ring (abs_ring v) (abs_ring v').
Proof.
  intros (((Hr & _) & _) & He & Hk & Hc & Hx & Hrun). exists (q_next_avail (vr_queue v')).
  split; [|intros Hn; simpl; by rewrite Hrun].
  unfold abs_ring, rg_set_next_avail. simpl. by rewrite Hr, He, Hk, Hc, Hx.
Qed.

Lemma handler_simulation l h h' : handler_step l h h' → spec_step l (abs h) (abs h').
Proof.
  intros [r g Ho|g g' (vrings' & env' & gm' & Hall & ->)].
  - apply spec_request; [|intros w Hw; by apply replies_ok].
    apply handle_step; [apply handle_reply|by apply is_answer_map].
  - apply (spec_device (Sock:=Sock) (File:=File) (abs g) (abs_ring <$> vrings')). simpl.
    apply Forall2_fmap. eapply Forall2_impl; [done|]. apply device_vring_ring.
Qed.

Lemma handler_new_init device mem env h :
  handler_new (B:=B) (W:=W) device mem env = Ret h →
  abs h = spec_init (vud_avail_features device) (qa_max_size <$> vud_queues device).
Proof.
  unfold handler_new, outcome_bind, outcome_map_err.
  destruct (new_vrings (vud_queues device)) as [vs|e| |] eqn:Hvs; [|done..]. intros [= <-].
  unfold abs, spec_init. simpl. f_equal. revert vs Hvs.
  induction (vud_queues device) as [|args queues IH]; intros vs; simpl; [by intros [= <-]|].
  unfold vring_new at 1, outcome_bind. destruct (q_new (qa_max_size args)) as [q|e| |] eqn:Hq; [|done..].
  destruct (new_vrings queues) as [vs'|e| |]; [|done..]. intros [= <-].
  rewrite !fmap_cons. f_equal; [|by apply IH]. unfold abs_ring. simpl.
  by rewrite (proj1 (q_new_ok _ _ Hq)), (q_new_next_avail _ _ Hq).
Qed.

(** Claim C1. The handler implements the specification of a session: from its creation on,
    whatever the front-end requests and the device's threads do in between, each answer
    of the handler, the values that it reports or the error, is one that the specification
    allows for that request in the session that the handler stands for, with the effect
    that the specification gives it. *)
Theorem session_refines device mem env h0 ls h :
  handler_new (B:=B) (W:=W) device mem env = Ret h0 → runs handler_step ls h0 h →
  runs spec_step ls (spec_init (vud_avail_features device) (qa_max_size <$> vud_queues device)) (abs h).
Proof.
  intros Hnew Hruns. rewrite <-(handler_new_init _ _ _ _ Hnew).
  eapply runs_simulation; [|exact Hruns]. apply handler_simulation.
Qed.

(** Claim C26. Once a ring was stopped with GET_VRING_BASE, its position is the one that was
    reported, and it neither runs nor can be locked by the device, for as long as the
    front-end does not give it another descriptor for kicks, or another position,
    whatever else it requests and however the device's threads are scheduled. *)
Theorem vring_base_stays h0 index n h1 ls h :
  get_vring_base index h0 = (Ret (index, n), h1) → runs handler_step ls h1 h →
  Forall (λ l, ∀ r o, l = Some (r, o) → touches (Z.to_nat index) r = false) ls →
  ∃ v, h_vrings h !! Z.to_nat index = Some v ∧ q_next_avail (vr_queue v) = n ∧
    vring_running v = false ∧ try_lock_queue (v, h_env h) = None.
Proof.
  intros Hget Hruns Hls.
  assert (abs h1 = effect (Sock:=Sock) (File:=File) (GET_VRING_BASE index) (abs h0) ∧
    no_ring index (abs h0) = None) as [Habs Hno].
  { assert (handle checks (GET_VRING_BASE index) h0 = (Ret tt, h1)) as Hrun
      by (simpl; unfold discard; by rewrite (bind_Ret _ _ _ _ _ Hget)).
    by apply handle_step, spec_answer_Ret in Hrun as [Hno ->]. }
  destruct (get_vring_base_reports _ _ _ _ _ Hget) as (_ & v0 & Hv0 & Hn).
  apply (runs_simulation _ _ _ _ _ _ handler_simulation) in Hruns.
  destruct (runs_quiet ls (Z.to_nat index) (MkRing false (vs_enabled (vr_state v0)) None None
    (vs_err (vr_state v0)) n) _ _ Hruns Hls) as (g & Hg & [Hst _] & Hpos); [|done|].
  { rewrite Habs. simpl. rewrite list_lookup_alter_eq, list_lookup_fmap, Hv0. simpl.
    unfold abs_ring, rg_set_call, rg_set_kick, rg_set_started. simpl. by rewrite Hn. }
  simpl in Hg. rewrite list_lookup_fmap in Hg. apply fmap_Some in Hg as (v & Hv & ->).
  exists v. split; [done|]. split; [done|]. unfold vring_running, try_lock_queue, is_enabled. simpl in *.
  rewrite Hst. by destruct (vs_enabled (vr_state v)).
Qed.
End refinement.

(** ** A session on the reference instances *)
Module RefinementExamples.
Import Sim VringExamples BackendExamples HandlerExamples.

(** The answers to requests, one after the other *)
Fixpoint exchanges (rs : list (request () Z)) (h : Hd) : list (option exchange) :=
  match rs with
  | [] => []
  | r :: rs => Some (r, (reply_to true r h).1) :: exchanges rs (reply_to true r h).2
  end.

Lemma exchanges_requests (P : request () Z → Prop) rs h :
  Forall P rs → Forall (λ l, ∀ r o, l = Some (r, o) → P r) (exchanges rs h).
Proof.
  intros Hrs. revert h. induction Hrs as [|r rs Hr _ IH]; intros h; constructor; [|apply IH].
  intros r' o [= <- _]. exact Hr.
Qed.

Fixpoint answers (rs : list (request () Z)) (h : Hd) : Prop :=
  match rs with
  | [] => True
  | r :: rs => is_answer (reply_to true r h).1 ∧ answers rs (reply_to true r h).2
  end.

Lemma run_reply r rs h : run (r :: rs) h = run rs (reply_to true r h).2.
Proof. simpl. by rewrite handle_reply. Qed.

Lemma requests_runs rs h : answers rs h → runs (handler_step true) (exchanges rs h) h (run rs h).
Proof.
  revert h. induction rs as [|r rs IH]; intros h; [intros; apply runs_nil|].
  intros [Hr Hrs]. rewrite run_reply. eapply runs_cons; [by apply handler_request|]. by apply IH.
Qed.

(** The session is set up, and then asked for its features, claimed again, and stopped at
    the position it was given. *)
Definition dialogue : list (request () Z) :=
  requests ++ [SET_VRING_BASE 0 7; GET_FEATURES; SET_OWNER; SET_VRING_NUM 0 512; GET_VRING_BASE 0].

Lemma dialogue_runs : runs (handler_step true) (exchanges dialogue h0) h0 (run dialogue h0).
Proof. apply requests_runs. vm_compute. by split_and!. Qed.

Lemma session_refines_witness :
  (ss_active (abs (run dialogue h0)) = true ∧
   drop 6 (exchanges dialogue h0) =
     [Some (GET_FEATURES, Ret (Number (vud_avail_features (Dev 0 0))));
      Some (SET_OWNER, Fail (InvalidOperation "already claimed"));
      Some (SET_VRING_NUM 0 512, Fail InvalidParam); Some (GET_VRING_BASE 0, Ret (RingState 0 7))]) ∧
  runs spec_step (exchanges dialogue h0)
    (spec_init (vud_avail_features (Dev 0 0)) (qa_max_size <$> vud_queues (Dev 0 0))) (abs (run dialogue h0)).
Proof.
  split; [split; vm_compute; reflexivity|].
  exact (session_refines true d_activations dev_calls (Dev 0 0) (MkGuestMem [] ∅ []) env0 h0 (exchanges dialogue h0)
    (run dialogue h0) eq_refl dialogue_runs).
Defined.

(** Ring 0 is stopped at position 7, enabled, given a call descriptor, and sized anew. *)
Definition h7 : Hd := (handle true (SET_VRING_BASE 0 7) h1).2.
Definition h8 : Hd := (get_vring_base 0 h7).2.
Definition rest : list (request () Z) := [SET_VRING_ENABLE 0 true; SET_VRING_CALL 0 (Some 9); SET_VRING_NUM 0 64].

Lemma vring_base_stays_witness :
  let h := run rest h8 in
  get_vring_base 0 h7 = (Ret (0, 7), h8) ∧
  ∃ v, h_vrings h !! 0%nat = Some v ∧ q_next_avail (vr_queue v) = 7 ∧
    vring_running v = false ∧ try_lock_queue (v, h_env h) = None.
Proof.
  split; [vm_compute; reflexivity|].
  apply (vring_base_stays true d_activations dev_calls h7 0 7 h8 (exchanges rest h8)).
  - vm_compute. reflexivity.
  - apply requests_runs. vm_compute. by split_and!.
  - apply (exchanges_requests (λ r, touches 0 r = false)). by repeat constructor.
Defined.
End RefinementExamples.
