(* ===== verification/DeviceRings.v ===== *)
(** * The rings and the world of the handler, as its device holds them

    The threads of a device share the rings, the notifications and the descriptors of the
    process with the handler of the front-end's requests. [handler_queue] is a ring of the
    handler as a [DeviceQueue]: what [activate] hands to a device. Calls of the device
    into the world, and sections that hold the lock of a ring, are steps of the device in
    the sense of the session's specification ([device_step]). The systems of the GPU and of
    the console are built on this file. *)

From S2P Require Import Prelude EventToken Epoll EventManager VirtQueue Bitmap Vring VhostBackend VhostHandler.
From S2P Require Import SessionSpec SessionRefinement.

(** ** A ring of the handler, as its device holds it *)

Section rings.
Context {D Mem Q W B : Type} `{EpollOps W} `{EventSetBits} `{!EventFdOps W} `{!QueueConfig Q Mem}.
Local Notation HD := (VhostUserHandler D Mem Q W B).

(** The clones of the rings that [activate] gets share queue and state with the handler's. *)
Definition handler_queue (i : nat) : DeviceQueue HD Q := {|
  dq_try_lock_queue h := h_vrings h !! i ≫= λ v, try_lock_queue (v, h_env h);
  dq_store q h := (on_vring (E:=errno) i (modify (on_queue (λ _, q))) h).2;
  dq_signal_used_queue := on_vring i signal_used_queue;
  dq_kick_register epoll token := on_vring i (kick_register_self epoll token);
  dq_read_kick := on_vring i read_kick;
|}.

(** New contents of guest memory *)
Definition set_guest_mem (mem : Mem) (h : HD) : HD :=
  set_atomic_mem (MkGuestMem mem (gm_bitmaps (h_atomic_mem h)) (gm_log (h_atomic_mem h))) h.
End rings.

(** ** The world of the process, as the threads of the device use it *)

Section world.
Context {D Mem Q W B : Type} `{EpollOps W} `{!EventFdOps W}.
Local Notation HD := (VhostUserHandler D Mem Q W B).

Definition on_handler_world {E A} : M W E A → M HD E A :=
  zoom (λ h, env_world (h_env h)) (λ w h, set_env (MkEnv (env_live (h_env h)) w) h).

#[export] Instance handler_epoll : EpollOps HD := {|
  epoll_create := on_handler_world epoll_create;
  epoll_ctl ep op fd ev := on_handler_world (epoll_ctl ep op fd ev);
  epoll_wait ep timeout slots := on_handler_world (epoll_wait ep timeout slots);
  watched h := watched (env_world (h_env h));
|}.

#[export] Instance handler_efd : EventFdOps HD := {|
  efd_read fd := on_handler_world (efd_read fd);
  efd_write fd n := on_handler_world (efd_write fd n);
|}.

#[export] Instance handler_efd_make `{!EventFdMake W} : EventFdMake HD := {|
  efd_new := on_handler_world efd_new;
  efd_try_clone fd := on_handler_world (efd_try_clone fd);
|}.

#[export] Instance handler_efd_laws `{!EventFdLaws W} : EventFdLaws HD.
Proof.
  split; simpl.
  - intros fd h. pose proof (efd_read_watched fd (env_world (h_env h))) as Hw.
    unfold on_handler_world, zoom. by destruct (efd_read fd _).
  - intros fd n h. pose proof (efd_write_watched fd n (env_world (h_env h))) as Hw.
    unfold on_handler_world, zoom. by destruct (efd_write fd n _).
  - intros fd h. unfold on_handler_world, zoom.
    destruct (efd_read_result fd (env_world (h_env h))) as [(n & w & ->)|(e & w & ->)]; eauto.
  - intros fd n h. unfold on_handler_world, zoom.
    destruct (efd_write_result fd n (env_world (h_env h))) as [(w & ->)|(e & w & ->)]; eauto.
Qed.
End world.

(** ** Steps of the device *)

Section device_steps.
Context {D Mem Q W B : Type}.
Context `{EpollLaws W} `{EventSetBits} `{!EventFdOps W, !EventFdLaws W}
  `{!QueueConfig Q Mem, !QueueConfigLaws Q Mem}.

Local Notation HD := (VhostUserHandler D Mem Q W B).
Implicit Types (h : HD) (v : Vring Q).
Local Notation device_step := (device_step (D:=D) (Mem:=Mem) (Q:=Q) (W:=W) (B:=B)).

Lemma same_setup_refl (q : Q) : q_same_setup q q.
Proof. by repeat split. Qed.

Lemma same_setup_trans (q1 q2 q3 : Q) : q_same_setup q1 q2 → q_same_setup q2 q3 → q_same_setup q1 q3.
Proof.
  intros ((R1 & E1 & M1) & S1) ((R2 & E2 & M2) & S2). repeat split; by etrans.
Qed.

Lemma same_setup_sym (q1 q2 : Q) : q_same_setup q1 q2 → q_same_setup q2 q1.
Proof. intros ((R1 & E1 & M1) & S1). by repeat split. Qed.

Lemma device_vring_refl v : device_vring v v.
Proof. by repeat split. Qed.

Lemma device_vring_running v v' : device_vring v v' → vring_running v' = vring_running v.
Proof. intros (((Hr & _) & _) & He & _). unfold vring_running. by rewrite Hr, He. Qed.

Lemma device_vring_trans v1 v2 v3 : device_vring v1 v2 → device_vring v2 v3 → device_vring v1 v3.
Proof.
  intros H12 H23. pose proof (device_vring_running _ _ H12) as Hr.
  destruct H12 as (S12 & E12 & K12 & C12 & X12 & R12), H23 as (S23 & E23 & K23 & C23 & X23 & R23).
  split; [by eapply same_setup_trans|]. split_and!; [congruence..|].
  intros Hn. rewrite R23, R12; congruence.
Qed.

Lemma device_vrings_refl (vs : list (Vring Q)) : Forall2 device_vring vs vs.
Proof. induction vs; constructor; [apply device_vring_refl|done]. Qed.

Lemma device_vrings_insert i v v' (vs : list (Vring Q)) :
  vs !! i = Some v → device_vring v v' → Forall2 device_vring vs (<[i:=v']> vs).
Proof.
  intros Hv Hdev. rewrite <-(list_insert_id vs i v) at 1 by done.
  apply Forall2_insert; [apply device_vrings_refl|done].
Qed.

Lemma device_step_refl h : device_step h h.
Proof.
  exists (h_vrings h), (h_env h), (h_atomic_mem h). split; [apply device_vrings_refl|by destruct h].
Qed.

Lemma device_step_trans h1 h2 h3 : device_step h1 h2 → device_step h2 h3 → device_step h1 h3.
Proof.
  intros (vs2 & e2 & m2 & Hall2 & ->) (vs3 & e3 & m3 & Hall3 & ->).
  exists vs3, e3, m3. split; [|done]. simpl in Hall3.
  eapply Forall2_compose; [apply device_vring_trans|exact Hall2|exact Hall3].
Qed.

Lemma device_step_mem mem h : device_step h (set_guest_mem mem h).
Proof.
  exists (h_vrings h), (h_env h), (MkGuestMem mem (gm_bitmaps (h_atomic_mem h)) (gm_log (h_atomic_mem h))).
  split; [apply device_vrings_refl|by destruct h].
Qed.

(** A method of a ring *)
Lemma device_step_vring {E A} i (m : M (VE W Q) E A) h :
  (∀ s : VE W Q, device_vring s.1 (m s).2.1) → device_step h (on_vring i m h).2.
Proof.
  intros Hm. unfold on_vring. destruct (h_vrings h !! i) as [v|] eqn:Hv; [|apply device_step_refl].
  specialize (Hm (v, h_env h)). destruct (m (v, h_env h)) as [o [v' env']]. simpl in *.
  exists (<[i:=v']> (h_vrings h)), env', (h_atomic_mem h). split; [by eapply device_vrings_insert|by destruct h].
Qed.

Lemma register_device_vring epoll token (s : VE W Q) :
  device_vring s.1 (kick_register_self epoll token s).2.1.
Proof.
  unfold kick_register_self, bind at 1, gets, add_epoll, bind.
  assert (∀ m : M W errno unit, (on_world (Q:=Q) m s).2.1 = s.1) as Hw
    by (intros m; unfold on_world, zoom; by destruct (m _)).
  destruct (kick_of s) as [k|]; simpl; [|by repeat split].
  specialize (Hw (register_kick epoll k token)).
  destruct (on_world _ s) as [[[]|e| |] s1]; simpl in *; rewrite Hw; by repeat split.
Qed.

Lemma read_kick_device_vring (s : VE W Q) : device_vring s.1 (read_kick s).2.1.
Proof. destruct (read_kick_same s) as (-> & _). apply device_vring_refl. Qed.

Lemma signal_device_vring (s : VE W Q) : device_vring s.1 (signal_used_queue s).2.1.
Proof. destruct (signal_same s) as (-> & _). apply device_vring_refl. Qed.

(** A call into the world *)
Lemma device_step_world {E A} (m : M W E A) h : device_step h (on_handler_world m h).2.
Proof.
  unfold on_handler_world, zoom. destruct (m _) as [o w]. simpl.
  exists (h_vrings h), (MkEnv (env_live (h_env h)) w), (h_atomic_mem h).
  split; [apply device_vrings_refl|by destruct h].
Qed.

(** It leaves the locks alone. *)
Lemma world_lock {E A} (m : M W E A) i h :
  dq_try_lock_queue (DeviceQueue:=handler_queue i) (on_handler_world m h).2 =
  dq_try_lock_queue (DeviceQueue:=handler_queue i) h.
Proof. unfold on_handler_world, zoom. by destruct (m _). Qed.

(** What the holder of the lock of ring [i] knows of its copy [q] of the queue, in a
    system that was at [h] when the lock was taken. *)
Definition holds (i : nat) h (q : Q) : Prop :=
  ∃ v, h_vrings h !! i = Some v ∧ vring_running v = true ∧ q_same_setup (vr_queue v) q.

Lemma lock_holds i h q : dq_try_lock_queue (DeviceQueue:=handler_queue i) h = Some q → holds i h q.
Proof.
  simpl. destruct (h_vrings h !! i) as [v|] eqn:Hv; [|done]. simpl.
  unfold try_lock_queue, is_enabled. simpl.
  destruct (vs_enabled (vr_state v)) eqn:He; simpl; [|done].
  destruct (q_ready (vr_queue v)) eqn:Hr; intros [= <-]. exists v. split; [done|].
  unfold vring_running. rewrite He, Hr. split; [done|]. apply same_setup_refl.
Qed.

Lemma store_device_step i h h' q :
  holds i h q → device_step h h' → device_step h (dq_store (DeviceQueue:=handler_queue i) q h').
Proof.
  intros (v & Hv & Hrun & Hq) Hstep. eapply device_step_trans; [exact Hstep|].
  destruct Hstep as (vs & e & m & Hall & ->). simpl.
  destruct (Forall2_lookup_l _ _ _ _ _ Hall Hv) as (v1 & Hv1 & Hdev).
  unfold on_vring. simpl. rewrite Hv1. simpl.
  eexists (<[i:=_]> vs), _, m. split; [|reflexivity]. simpl.
  eapply device_vrings_insert; [done|]. unfold device_vring. simpl. split.
  - eapply same_setup_trans; [|exact Hq]. apply same_setup_sym, Hdev.
  - split_and!; [done..|]. rewrite (device_vring_running _ _ Hdev). congruence.
Qed.

(** The ring that was locked still is running when its queue is stored. *)
Lemma store_lock i h h' (q : Q) :
  holds i h q → device_step h h' →
  dq_try_lock_queue (DeviceQueue:=handler_queue i) (dq_store (DeviceQueue:=handler_queue i) q h') = Some q.
Proof.
  intros (v & Hv & Hrun & Hq) (vs & e & m & Hall & ->). simpl.
  destruct (Forall2_lookup_l _ _ _ _ _ Hall Hv) as (v1 & Hv1 & Hdev).
  unfold on_vring. simpl. rewrite Hv1. simpl. rewrite list_lookup_insert_eq by (by eapply lookup_lt_Some).
  simpl. unfold try_lock_queue, is_enabled. simpl. destruct Hdev as (_ & He & _).
  unfold vring_running in Hrun. apply andb_true_iff in Hrun as [Hr1 Hr2].
  destruct Hq as ((Hready & _) & _). rewrite Hready, He. by rewrite Hr1, Hr2.
Qed.

(** The DeviceQueue that the callback and the worker are given *)
Lemma handler_queue_laws {Chain} `{!QueueProc Q Mem Chain, !QueueProcSetup Q Mem Chain} i :
  DeviceQueueLaws HD Q Mem Chain (H:=handler_queue i).
Proof.
  split.
  - intros h q head len m o q' m' Hlock Hadd. eapply store_lock; [|apply device_step_refl].
    destruct (lock_holds _ _ _ Hlock) as (v & Hv & Hrun & Hq). exists v. split; [done|]. split; [done|].
    eapply same_setup_trans; [exact Hq|]. pose proof (q_add_used_setup head len (q, m)) as Hs.
    by rewrite Hadd in Hs.
  - intros h. simpl. unfold on_vring. destruct (h_vrings h !! i) as [v|] eqn:Hv; simpl; [|by rewrite Hv].
    destruct (signal_same (v, h_env h)) as (Hs & _). destruct (signal_used_queue _) as [o [v' e']].
    simpl in *. subst v'. rewrite list_lookup_insert_eq by (by eapply lookup_lt_Some). done.
Qed.

Lemma handler_signal_result i h :
  is_Some (dq_try_lock_queue (DeviceQueue:=handler_queue i) h) →
  (∃ h', dq_signal_used_queue (DeviceQueue:=handler_queue i) h = (Ret tt, h')) ∨
  (∃ e h', dq_signal_used_queue (DeviceQueue:=handler_queue i) h = (Fail e, h')).
Proof.
  intros [q Hq]. simpl in *. unfold on_vring. destruct (h_vrings h !! i) as [v|]; [|done].
  unfold signal_used_queue, bind, gets, on_world, zoom. simpl.
  destruct (vs_call _) as [fd|]; simpl; [|left; by eexists].
  destruct (efd_write_result fd 1 (env_world (h_env h))) as [[w' Hw]|(e & w' & Hw)]; rewrite Hw;
    [left|right]; by repeat eexists.
Qed.
End device_steps.
