(* ===== verification/RingFrame.v ===== *)
(** * What leaves a running ring alone

    The threads of a device share the handler with the front-end and with each other. This
    file says which requests of the front-end do not touch ring [i] while it is running
    ([spares], [request_spares]), and that the methods of the rings by which threads
    register, read kicks and notify do not touch any queue ([frame_register],
    [frame_read_kick], [frame_signal]). Working on the queue of another ring leaves this one
    as it was when the two lie apart in guest memory ([QueuesApart]). *)

From S2P Require Import Prelude EventToken Epoll EventManager VirtQueue Bitmap Vring VhostBackend VhostHandler.
From S2P Require Import SessionSpec SessionRefinement DeviceRings.

(** ** Rings that lie apart

    The driver puts its rings in places of their own. Working on one queue writes guest
    memory in that queue's rings only, so that another queue finds its own as they were. *)
Class QueuesApart (Q Mem Chain : Type) `{QueueProc Q Mem Chain} : Type := {
  apart : Q → Q → Prop;
  apart_pop m q q' : apart q q' → apart q (q_pop_descriptor_chain m q').2;
  apart_back q q' : apart q q' → apart q (q_go_to_previous_position q');
  apart_add_used head len q q' m o q1 m1 :
    apart q q' → q_add_used head len (q', m) = (o, (q1, m1)) →
    apart q q1 ∧ q_avail q m1 = q_avail q m ∧ q_used q m1 = q_used q m;
  apart_disable q q' m o q1 m1 :
    apart q q' → q_disable_notification (q', m) = (o, (q1, m1)) →
    apart q q1 ∧ q_avail q m1 = q_avail q m ∧ q_used q m1 = q_used q m;
  apart_enable q q' m o q1 m1 :
    apart q q' → q_enable_notification (q', m) = (o, (q1, m1)) →
    apart q q1 ∧ q_avail q m1 = q_avail q m ∧ q_used q m1 = q_used q m;
}.

(** ** The requests that leave ring [i] and guest memory alone *)

Definition spares {Sock File} (i : nat) (r : request Sock File) : bool :=
  match r with
  | RESET_DEVICE | SET_FEATURES _ | SET_MEM_TABLE _ _ | ADD_MEM_REG _ _ | REM_MEM_REG _ => false
  | SET_VRING_NUM j _ | SET_VRING_ADDR j _ _ _ _ _ | SET_VRING_BASE j _ | GET_VRING_BASE j =>
      bool_decide (Z.to_nat j ≠ i)
  | SET_VRING_ENABLE j enable => enable || bool_decide (Z.to_nat j ≠ i)
  | _ => true
  end.

Section frame.
Context {D Mem Q W B Sock Region Mmap File : Type}.
Context `{EpollLaws W} `{EventSetBits} `{!EventFdOps W, !EventFdLaws W}
  `{!QueueConfig Q Mem, !QueueConfigLaws Q Mem}
  `{VhostUserBits} `{!VhostUserDevice D Mem (Vring Q) Sock} `{!BitmapReplace B}
  `{!GuestMemory Mem Region Mmap File}.
Context (checks : bool).

Local Notation HD := (VhostUserHandler D Mem Q W B).
Implicit Types (h : HD) (v : Vring Q) (s : VE W Q).

Lemma lock_iff i h q :
  dq_try_lock_queue (DeviceQueue:=handler_queue i) h = Some q ↔
  ∃ v, h_vrings h !! i = Some v ∧ vr_queue v = q ∧ vs_enabled (vr_state v) = true ∧ q_ready q = true.
Proof.
  simpl. destruct (h_vrings h !! i) as [v|]; simpl; [|by split; [|intros (? & ? & _)]].
  unfold try_lock_queue, is_enabled. simpl.
  destruct (vs_enabled (vr_state v)) eqn:He; simpl; [destruct (q_ready (vr_queue v)) eqn:Hr|]; (split;
    [intros Hlock; by simplify_eq; eauto|intros (v' & [= <-] & <- & ? & ?); congruence]).
Qed.

(** *** Methods of a ring

    [Keep] is something about the world that calls of epoll do not change. *)

Section keep.
Context (i : nat) (q : Q) (mem : Mem) (Keep : W → Prop).
Context (Hready : q_ready q = true)
  (Keep_ctl : ∀ ep op fd ev, preserves Keep (epoll_ctl ep op fd ev)).

Definition keeps_world s : Prop := Keep (env_world s.2).
Definition keeps_ring s : Prop :=
  vr_queue s.1 = q ∧ vs_enabled (vr_state s.1) = true ∧ Keep (env_world s.2).

Lemma world_keeps {E A} (m : M W E A) : preserves Keep m → preserves keeps_world (Vring.on_world m).
Proof. intros Hm. by apply (preserves_zoom _ Keep). Qed.

Lemma ring_keeps_world {E A} (m : M W E A) : preserves Keep m → preserves keeps_ring (Vring.on_world m).
Proof.
  intros Hm. apply (preserves_zoom _ Keep); [by intros s (_ & _ & ?)|by intros s w (? & ? & _)|done].
Qed.

Lemma keep_update_one old new et : preserves Keep (update_one old new et).
Proof.
  unfold update_one, register_kick, unregister_kick. destruct old, new; eauto with preserves.
Qed.

Lemma keep_updates old new (ets : list (EpollArc * Z)) : preserves Keep (for_each ets (update_one old new)).
Proof. apply preserves_for_each, keep_update_one. Qed.

Lemma world_update_epolls old new : preserves keeps_world (update_epolls old new).
Proof. unfold update_epolls. eauto using world_keeps, keep_updates with preserves. Qed.

Lemma ring_update_epolls old new : preserves keeps_ring (update_epolls old new).
Proof. unfold update_epolls. eauto using ring_keeps_world, keep_updates with preserves. Qed.

Lemma world_modify {E} (f : VE W Q → VE W Q) :
  (∀ s, env_world (f s).2 = env_world s.2) → preserves (E:=E) keeps_world (modify f).
Proof. intros Hf s Hs. unfold keeps_world. simpl. by rewrite Hf. Qed.

Lemma world_stop : preserves keeps_world vring_stop.
Proof.
  unfold vring_stop. apply preserves_bind; [eauto with preserves|intros kick].
  apply preserves_bind; [destruct kick; eauto using world_update_epolls with preserves|intros _].
  by apply world_modify.
Qed.

Lemma world_start : preserves keeps_world vring_start.
Proof.
  unfold vring_start. apply preserves_bind; [by apply world_modify|intros _].
  eauto using world_update_epolls with preserves.
Qed.

Lemma world_set_kick file : preserves keeps_world (set_kick file).
Proof.
  unfold set_kick. apply preserves_bind; [eauto with preserves|intros old].
  apply preserves_bind; [by apply world_modify|intros _].
  apply preserves_bind; [eauto with preserves|intros []]; eauto using world_update_epolls with preserves.
Qed.

Lemma ring_set_kick file : preserves keeps_ring (set_kick file).
Proof.
  unfold set_kick. apply preserves_bind; [eauto with preserves|intros old].
  apply preserves_bind; [by intros s|intros _].
  apply preserves_bind; [eauto with preserves|intros []]; eauto using ring_update_epolls with preserves.
Qed.

(** *** The handler *)

Definition undisturbed h : Prop :=
  (∃ v, h_vrings h !! i = Some v ∧ vr_queue v = q ∧ vs_enabled (vr_state v) = true) ∧
  gm_mem (h_atomic_mem h) = mem ∧ Keep (env_world (h_env h)).

Lemma undisturbed_lock h :
  undisturbed h → dq_try_lock_queue (DeviceQueue:=handler_queue i) h = Some q ∧
    gm_mem (h_atomic_mem h) = mem ∧ Keep (env_world (h_env h)).
Proof using Hready. intros [(v & Hv & Hvq & He) Hrest]. split; [|done]. apply lock_iff. eauto. Qed.

Lemma frame_modify {E} (f : HD → HD) :
  (∀ h, h_vrings (f h) = h_vrings h ∧ gm_mem (h_atomic_mem (f h)) = gm_mem (h_atomic_mem h) ∧
    h_env (f h) = h_env h) → preserves (E:=E) undisturbed (modify f).
Proof.
  intros Hf h Hh. unfold undisturbed. simpl. destruct (Hf h) as (-> & -> & ->). exact Hh.
Qed.

Lemma frame_on_device {E A} (m : M D E A) : preserves undisturbed (on_device m).
Proof. intros h Hh. unfold on_device, zoom. by destruct (m _). Qed.

Lemma frame_on_vring {E A} j (m : M (VE W Q) E A) :
  (j ≠ i → preserves keeps_world m) → (j = i → preserves keeps_ring m) → preserves undisturbed (on_vring j m).
Proof.
  intros Hother Hsame h Hh. unfold on_vring. destruct (h_vrings h !! j) as [v|] eqn:Hv; [|done].
  destruct Hh as [(vi & Hvi & Hq & He) [Hm Hk]]. destruct (decide (j = i)) as [->|Hne].
  - rewrite Hv in Hvi. injection Hvi as ->. specialize (Hsame eq_refl (vi, h_env h)).
    destruct (m (vi, h_env h)) as [o [v' env']]. simpl in *. destruct Hsame as (? & ? & ?); [done|].
    split; [|done]. exists v'. simpl. split; [|done]. apply list_lookup_insert_eq. by eapply lookup_lt_Some.
  - specialize (Hother Hne (v, h_env h)). destruct (m (v, h_env h)) as [o [v' env']].
    split; [|split; [done|by apply Hother]]. exists vi. simpl. by rewrite list_lookup_insert_ne.
Qed.

Lemma frame_vring_modify {E} j (f : VE W Q → VE W Q) :
  (∀ s, env_world (f s).2 = env_world s.2) →
  (j = i → ∀ s, vs_enabled (vr_state s.1) = true →
    vr_queue (f s).1 = vr_queue s.1 ∧ vs_enabled (vr_state (f s).1) = true) →
  preserves (E:=E) undisturbed (on_vring j (modify f)).
Proof.
  intros Hw Hr. apply frame_on_vring; [by intros _; apply world_modify|].
  intros Hj s (Hq & He & Hk). destruct (Hr Hj s He) as [Hq' He']. unfold keeps_ring. simpl.
  by rewrite Hq', He', Hw.
Qed.

Lemma frame_read {E A} j (f : VE W Q → outcome E A) : preserves undisturbed (on_vring j (λ s, (f s, s))).
Proof. by apply frame_on_vring; intros _ s. Qed.

Lemma frame_get_vring index : preserves undisturbed (get_vring index).
Proof. unfold get_vring. eauto with preserves. Qed.

(** What follows is about the ring with that index. *)
Lemma frame_ring {A} index (k : nat → M HD VhostUserError A) :
  preserves undisturbed (k (Z.to_nat index)) → preserves undisturbed (bind (get_vring index) k).
Proof.
  intros Hk h Hh. unfold get_vring, bind at 1 2, gets, bind, lift, ok_or.
  destruct (h_vrings h !! Z.to_nat index); [by apply Hk|done].
Qed.

Lemma frame_get {E} : preserves (E:=E) undisturbed get.
Proof. by intros h. Qed.

#[local] Hint Resolve frame_on_device frame_get_vring frame_get frame_read : preserves.

Lemma frame_initialize index : preserves undisturbed (initialize_vring index).
Proof using Hready Keep_ctl.
  destruct (decide (Z.to_nat index = i)) as [Hi|Hne].
  - intros h Hh. pose proof Hh as [(v & Hv & Hq & He) _]. unfold initialize_vring. rewrite Hi.
    erewrite bind_Ret by (by apply vring_gets_run). erewrite bind_Ret by (by apply vring_gets_run).
    change (is_started (v, h_env h)) with (q_ready (vr_queue v)). by rewrite Hq, Hready.
  - unfold initialize_vring. unfold gets at 1 2. apply preserves_bind; [apply frame_read|intros ready].
    apply preserves_bind; [apply frame_read|intros kick]. apply preserves_if; [|apply preserves_ret].
    apply preserves_bind; [|intros _; apply preserves_bind; [apply frame_get|intros h]].
    { apply preserves_unwrap, frame_on_vring; [intros _; apply world_start|done]. }
    apply preserves_if; [|apply preserves_ret].
    apply preserves_bind; [by apply frame_modify|intros _].
    apply preserves_bind; [eauto with preserves|intros [e|a]; eauto with preserves].
Qed.

(** Only the bitmaps of guest memory are replaced. *)
Lemma frame_bitmaps {A} (f : GuestMem Mem B → outcome VhostUserError A) (g : GuestMem Mem B → A → GuestMem Mem B) :
  (∀ gm a, gm_mem (g gm a) = gm_mem gm) →
  preserves undisturbed
    (let! gm := gets (E:=VhostUserError) h_atomic_mem in let! a := lift (f gm) in modify (set_atomic_mem (g gm a))).
Proof.
  intros Hg h Hh. unfold bind, gets, lift. destruct (f (h_atomic_mem h)) as [a|e| |]; [|done..].
  unfold undisturbed. simpl. rewrite Hg. exact Hh.
Qed.

Lemma frame_set_log_base log file : preserves undisturbed (set_log_base log file).
Proof.
  intros h Hh. unfold set_log_base. unfold bind at 1, gets, bind at 1, lift.
  destruct (outcome_map_err _ _) as [logmem|e| |]; [|done..]. unfold bind at 1, lift.
  destruct (new_bitmaps _ _) as [bitmaps|e| |]; [|done..]. unfold bind, modify.
  apply preserves_for_each; [|exact Hh]. intros rb.
  exact (frame_bitmaps (λ gm, inner_replace (mr_start_addr (region_info rb.1)) rb.2 (gm_bitmaps gm))
    (λ gm bitmaps, MkGuestMem (gm_mem gm) bitmaps (gm_log gm)) (λ _ _, eq_refl)).
Qed.

Lemma frame_set_vring_addr index flags d u a l :
  Z.to_nat index ≠ i → preserves undisturbed (set_vring_addr checks index flags d u a l).
Proof.
  intros Hne. assert (∀ E A (m : M (VE W Q) E A), preserves keeps_world m →
    preserves undisturbed (on_vring (Z.to_nat index) m)) as Hon by (intros; by apply frame_on_vring).
  assert (∀ va, preserves undisturbed (to_gpa checks va)) as Hgpa
    by (intros; unfold to_gpa; eauto with preserves).
  unfold set_vring_addr. apply preserves_bind; [eauto with preserves|intros mappings].
  apply preserves_if; [|apply preserves_fail].
  do 3 (apply preserves_bind; [done|intros ?]). apply frame_ring.
  apply preserves_bind.
  { apply preserves_map_err, Hon. by apply (preserves_zoom _ (λ _, True)). }
  intros _. apply preserves_bind; [apply frame_get|intros h].
  apply preserves_bind; [apply frame_read|intros n]. apply Hon. by apply world_modify.
Qed.

Lemma frame_unwrap_vring {E A} j (m : M (VE W Q) E A) :
  (j ≠ i → preserves keeps_world m) → (j = i → preserves keeps_ring m) →
  preserves (E:=VhostUserError) undisturbed (unwrap (on_vring j m)).
Proof. intros. by apply preserves_unwrap, frame_on_vring. Qed.

Lemma frame_get_vring_base index : Z.to_nat index ≠ i → preserves undisturbed (get_vring_base index).
Proof using Keep_ctl.
  intros Hne. unfold get_vring_base. apply frame_ring.
  apply preserves_bind; [apply frame_unwrap_vring; [intros _; apply world_stop|done]|intros _].
  apply preserves_bind; [apply frame_read|intros n].
  apply preserves_bind; [apply frame_unwrap_vring; [intros _; apply world_set_kick|done]|intros _].
  apply preserves_bind; [by apply frame_vring_modify|intros _; apply preserves_ret].
Qed.

Lemma frame_set_vring_num index num : Z.to_nat index ≠ i → preserves undisturbed (set_vring_num index num).
Proof.
  intros Hne. unfold set_vring_num. apply frame_ring. apply preserves_bind; [apply preserves_gets|intros queues].
  apply preserves_if; [apply preserves_fail|]. apply preserves_bind; [apply preserves_unwrap_opt|intros args].
  apply preserves_if; [apply preserves_fail|]. by apply frame_vring_modify.
Qed.

Lemma frame_set_vring_enable index enable :
  enable || bool_decide (Z.to_nat index ≠ i) = true → preserves undisturbed (set_vring_enable index enable).
Proof.
  intros Hok. unfold set_vring_enable. apply preserves_bind; [unfold check_feature; eauto with preserves|intros _].
  apply frame_ring, frame_vring_modify; [done|]. intros Hi s _. split; [done|].
  rewrite bool_decide_eq_false_2, orb_false_r in Hok by auto. by rewrite Hok.
Qed.

Lemma frame_handle r : spares i r = true → preserves undisturbed (handle checks r).
Proof using Hready Keep_ctl.
  destruct r; simpl; try done; intros Hi; try apply bool_decide_eq_true in Hi; unfold discard;
    eauto using frame_set_log_base, frame_set_vring_addr, frame_set_vring_num with preserves.
  - unfold set_owner. apply preserves_bind; [apply preserves_gets|intros []; [apply preserves_fail|]].
    by apply frame_modify.
  - unfold reset_owner. repeat (apply preserves_bind; [by apply frame_modify|intros _]). by apply frame_modify.
  - apply frame_ring. by apply frame_vring_modify.
  - eauto using frame_get_vring_base with preserves.
  - apply frame_ring, preserves_bind; [|intros _; apply frame_initialize].
    apply frame_unwrap_vring; intros _; [apply world_set_kick|apply ring_set_kick].
  - apply frame_ring, preserves_bind; [by apply frame_vring_modify|intros _; apply frame_initialize].
  - apply frame_ring. by apply frame_vring_modify.
  - by apply frame_modify.
  - by apply frame_set_vring_enable.
Qed.

(** A request that spares ring [i], while it is running *)
Lemma request_spares r h :
  spares i r = true → undisturbed h → undisturbed (reply_to checks r h).2.
Proof using Hready Keep_ctl.
  intros Hr Hh. pose proof (frame_handle r Hr h Hh) as Hok. by rewrite (handle_reply checks) in Hok.
Qed.
End keep.

(** *** Methods that leave every queue alone *)

(** A method of a ring that does not touch its queue and whether it is enabled *)
Definition keeps_queue {E A} (m : M (VE W Q) E A) : Prop :=
  ∀ s, vr_queue (m s).2.1 = vr_queue s.1 ∧ vs_enabled (vr_state (m s).2.1) = vs_enabled (vr_state s.1).

Lemma frame_lock {E A} i j (m : M (VE W Q) E A) h :
  keeps_queue m → dq_try_lock_queue (DeviceQueue:=handler_queue i) (on_vring j m h).2 =
    dq_try_lock_queue (DeviceQueue:=handler_queue i) h.
Proof.
  intros Hm. simpl. unfold on_vring. destruct (h_vrings h !! j) as [v|] eqn:Hv; [|done].
  specialize (Hm (v, h_env h)). destruct (m (v, h_env h)) as [o [v' env']]. simpl in *.
  destruct (decide (i = j)) as [->|Hne]; [|by rewrite list_lookup_insert_ne].
  rewrite list_lookup_insert_eq by (by eapply lookup_lt_Some). rewrite Hv. simpl.
  unfold try_lock_queue, is_enabled. simpl. by destruct Hm as [-> ->].
Qed.

Lemma keeps_register epoll token : keeps_queue (kick_register_self epoll token).
Proof.
  intros s. unfold kick_register_self, bind at 1, gets, bind, add_epoll, modify.
  assert (∀ m : M W errno unit, (Vring.on_world (Q:=Q) m s).2.1 = s.1) as Hw
    by (intros m; unfold Vring.on_world, zoom; by destruct (m _)).
  destruct (kick_of s) as [k|]; simpl; [|done].
  specialize (Hw (register_kick epoll k token)). destruct (Vring.on_world _ s) as [[[]|e| |] s1]; simpl in *; by rewrite Hw.
Qed.

Lemma keeps_read_kick : keeps_queue read_kick.
Proof. intros s. by destruct (read_kick_same s) as (-> & _). Qed.

Lemma keeps_signal : keeps_queue signal_used_queue.
Proof. intros s. by destruct (signal_same s) as (-> & _). Qed.

(** Storing the queue of another ring *)
Lemma frame_store i j q h :
  i ≠ j → dq_try_lock_queue (DeviceQueue:=handler_queue i) (dq_store (DeviceQueue:=handler_queue j) q h) =
    dq_try_lock_queue (DeviceQueue:=handler_queue i) h.
Proof.
  intros Hne. simpl. unfold on_vring. destruct (h_vrings h !! j) as [v|]; [|done]. simpl.
  by rewrite list_lookup_insert_ne.
Qed.
End frame.
