(* ===== verification/VringRace.v ===== *)
(** * Registering with a ring while the front-end starts it

    A worker registers with a ring in [VhostKickEvent::register_self] of [vring.rs]: it
    loads the kick, adds it to its epoll instance, and then appends the instance to the
    list of those that [update_epolls] keeps up to date. No lock is held over the three.
    Meanwhile the thread of the handler may be serving the SET_VRING_KICK request for the
    same ring: the device is activated, and its workers spawned, when the first ring is
    started, and the kicks of the other rings follow. In [Vring] both are single steps.
    Here they are sequences of accesses to what the threads share, and run in every
    interleaving; [registration_race] says how each of them ends. *)

From S2P Require Import Prelude EventToken Epoll EventManager VirtQueue Bitmap Vring VhostBackend VhostHandler.

(** ** Interleavings of two threads *)

Inductive interleaving {A} : list A → list A → list A → Prop :=
| interleaving_nil : interleaving [] [] []
| interleaving_l x l1 l2 l : interleaving l1 l2 l → interleaving (x :: l1) l2 (x :: l)
| interleaving_r x l1 l2 l : interleaving l1 l2 l → interleaving l1 (x :: l2) (x :: l).

(** All of them, in a list *)
Fixpoint interleavings {A} (l1 l2 : list A) : list (list A) :=
  match l1 with
  | [] => [l2]
  | x :: l1' =>
      (fix go l2 :=
        match l2 with
        | [] => [x :: l1']
        | y :: l2' => (cons x <$> interleavings l1' (y :: l2')) ++ (cons y <$> go l2')
        end) l2
  end.

Lemma interleavings_nil_r {A} (l : list A) : interleavings l [] = [l].
Proof. by destruct l. Qed.

Lemma interleavings_cons {A} x y (l1 l2 : list A) :
  interleavings (x :: l1) (y :: l2) =
    (cons x <$> interleavings l1 (y :: l2)) ++ (cons y <$> interleavings (x :: l1) l2).
Proof. done. Qed.

Lemma interleaving_elem {A} (l1 l2 l : list A) : interleaving l1 l2 l → l ∈ interleavings l1 l2.
Proof.
  induction 1 as [|x l1 l2 l Hi IH|x l1 l2 l Hi IH]; [by constructor|..].
  - destruct l2 as [|y l2]; [|rewrite interleavings_cons; set_solver].
    rewrite interleavings_nil_r in *. set_solver.
  - destruct l1 as [|y l1]; [|rewrite interleavings_cons; set_solver]. simpl in *. set_solver.
Qed.

(** Which of two elements comes first in a list *)
Fixpoint before {A} `{EqDecision A} (x y : A) (l : list A) : bool :=
  match l with
  | [] => false
  | z :: l => if decide (z = x) then true else if decide (z = y) then false else before x y l
  end.

(** ** The accesses of the two threads *)

Inductive race_op : Type :=
| LoadKick     (* register_self: self.vring.state.kick.load() *)
| CtlKick      (* register_self: register_kick(epoll, kick_efd, token)? *)
| PushEpoll    (* register_self: self.vring.add_epoll(epoll, token) *)
| SwapKick     (* set_kick: self.state.kick.swap(new_kick_efd) *)
| CheckStarted (* set_kick: if self.is_started() { self.update_epolls(..)? } *)
| SetReady     (* start: self.queue_mut().set_ready(true) *)
| UpdateEpolls (* start: self.update_epolls(None, self.state.kick.load()) *).

#[export] Instance race_op_eq_dec : EqDecision race_op.
Proof. solve_decision. Defined.

Definition register_program : list race_op := [LoadKick; CtlKick; PushEpoll].
Definition kick_program : list race_op := [SwapKick; CheckStarted; SetReady; UpdateEpolls].

Section race.
Context {W Q Mem : Type} `{EpollLaws W} `{EventSetBits} `{EventFdOps W} `{QueueConfigLaws Q Mem}.
Context (epoll : EpollArc) (token kick : Z).

(** The ring, and what the two threads have read: the worker's [kick_efd], and the
    handler's [old_kick_efd] *)
Record racing : Type := MkRacing {
  rc_ring : VE W Q;
  rc_loaded : option Z;
  rc_old : option Z;
}.

Definition on_ring {E A} : M (VE W Q) E A → M racing E A :=
  zoom rc_ring (λ v s, MkRacing v (rc_loaded s) (rc_old s)).

Definition exec (op : race_op) : M racing errno unit :=
  match op with
  | LoadKick =>
      let! k := on_ring (gets kick_of) in
      modify (λ s, MkRacing (rc_ring s) k (rc_old s))
  | CtlKick =>
      let! k := gets rc_loaded in
      match k with
      | Some kick_efd => on_ring (on_world (register_kick epoll kick_efd token))
      | None => ret tt
      end
  | PushEpoll => on_ring (add_epoll epoll token)
  | SwapKick =>
      let! old := on_ring (gets kick_of) in
      do! modify (λ s, MkRacing (rc_ring s) (rc_loaded s) old) in
      on_ring (modify (set_state (λ st,
        MkVringState (vs_enabled st) (Some kick) (vs_call st) (vs_err st) (vs_epolls st))))
  | CheckStarted =>
      let! old := gets rc_old in
      let! started := on_ring (gets is_started) in
      if started : bool then on_ring (update_epolls old (Some kick)) else ret tt
  | SetReady => on_ring (modify (on_queue (q_set_ready true)))
  | UpdateEpolls =>
      let! k := on_ring (gets kick_of) in
      on_ring (update_epolls None k)
  end.

Definition race (sched : list race_op) (s : VE W Q) : outcome errno unit * VE W Q :=
  let '(o, s') := for_each sched exec (MkRacing s None None) in (o, rc_ring s').

(** One after the other, the accesses are the methods of [Vring]. *)
Lemma race_register s : race register_program s = kick_register_self epoll token s.
Proof.
  unfold race, kick_register_self. simpl. unfold bind, on_ring, zoom, gets, modify. simpl.
  destruct (kick_of s) as [k|]; [|done]. simpl.
  by destruct (on_world (register_kick epoll k token) s) as [[[]|e| |] s1].
Qed.

Lemma race_kick s :
  race kick_program s = (do! set_kick (Some kick) in vring_start) s.
Proof.
  unfold race, set_kick, vring_start. simpl. unfold bind, on_ring, zoom, gets, modify. simpl.
  set (s1 := set_state _ s). destruct (is_started s1); simpl.
  - destruct (update_epolls (kick_of s) (Some kick) s1) as [[[]|e| |] s2]; [|done..].
    simpl. by destruct (update_epolls None _ _) as [[[]|e| |] s3].
  - by destruct (update_epolls None _ _) as [[[]|e| |] s3].
Qed.

(** ** What matters of the shared state *)

Record view : Type := MkView {
  v_kick : bool;    (* the ring has the new kick, rather than none *)
  v_started : bool;
  v_listed : nat;   (* how often the worker is in the list of epoll instances *)
  v_watched : bool; (* the worker's epoll instance watches the kick *)
  v_loaded : bool;  (* the worker has read the kick, rather than none *)
}.

Definition view_of (v : view) (s : racing) : Prop :=
  kick_of (rc_ring s) = (if v_kick v then Some kick else None) ∧
  is_started (rc_ring s) = v_started v ∧
  vs_epolls (vr_state (rc_ring s).1) = replicate (v_listed v) (epoll, token) ∧
  watched (env_world (rc_ring s).2) (arc_raw epoll) kick =
    (if v_watched v then Some (EpollEvent ES_IN token) else None) ∧
  rc_loaded s = (if v_loaded v then Some kick else None) ∧
  rc_old s = None ∧ arc_id epoll ∈ env_live (rc_ring s).2.

(** Adding the kick to the worker's instance [n] times, of which the second cannot succeed *)
Definition view_watch (n : nat) (v : view) : option view :=
  match n with
  | O => Some v
  | 1%nat => if v_watched v then None
             else Some (MkView (v_kick v) (v_started v) (v_listed v) true (v_loaded v))
  | _ => None
  end.

(** How often an access adds the kick to the worker's instance *)
Definition view_adds (op : race_op) (v : view) : nat :=
  match op with
  | CtlKick => if v_loaded v then 1 else 0
  | CheckStarted => if v_started v then v_listed v else 0
  | UpdateEpolls => if v_kick v then v_listed v else 0
  | _ => 0
  end%nat.

Definition view_exec (op : race_op) (v : view) : option view :=
  match op with
  | LoadKick => Some (MkView (v_kick v) (v_started v) (v_listed v) (v_watched v) (v_kick v))
  | PushEpoll => Some (MkView (v_kick v) (v_started v) (S (v_listed v)) (v_watched v) (v_loaded v))
  | SwapKick => Some (MkView true (v_started v) (v_listed v) (v_watched v) (v_loaded v))
  | SetReady => Some (MkView (v_kick v) true (v_listed v) (v_watched v) (v_loaded v))
  | CtlKick | CheckStarted | UpdateEpolls => view_watch (view_adds op v) v
  end.

(** What is left when all accesses succeed, and whether one could have failed *)
Fixpoint view_run (sched : list race_op) (v : view) : option view :=
  match sched with
  | [] => Some v
  | op :: sched => v' ← view_exec op v; view_run sched v'
  end.
Fixpoint view_safe (sched : list race_op) (v : view) : bool :=
  match sched with
  | [] => true
  | op :: sched =>
      bool_decide (view_adds op v = 0%nat) &&
      match view_exec op v with Some v' => view_safe sched v' | None => false end
  end.

Definition watched_is (w : W) (b : bool) : Prop :=
  watched w (arc_raw epoll) kick = if b then Some (EpollEvent ES_IN token) else None.

Lemma register_view w b o w' :
  watched_is w b → register_kick epoll kick token w = (o, w') →
  match o with
  | Ret _ => b = false ∧ watched_is w' true
  | Fail _ => True
  | _ => False
  end.
Proof.
  unfold watched_is. intros Hb Hreg.
  destruct (ctl_result (arc_raw epoll) CtlAdd kick (EpollEvent ES_IN token) w) as [[w1 Hw]|(e & w1 & Hw)];
    unfold register_kick in Hreg; rewrite Hw in Hreg; simplify_eq; [|done].
  apply ctl_add_ok in Hw as [Hnone Hset]. rewrite Hb in Hnone. destruct b; [done|].
  split; [done|]. by apply watched_set_eq in Hset.
Qed.

Lemma adds_view n w b o w' :
  watched_is w b → for_each (replicate n (epoll, token)) (update_one None (Some kick)) w = (o, w') →
  match o with
  | Ret _ => (n = 0%nat ∧ w' = w) ∨ (n = 1%nat ∧ b = false ∧ watched_is w' true)
  | Fail _ => n ≠ 0%nat
  | _ => False
  end.
Proof.
  revert w b. induction n as [|n IH]; intros w b Hb Hrun; simpl in Hrun.
  { unfold ret in Hrun. simplify_eq. auto. }
  unfold bind, update_one at 1, bind in Hrun. simpl in Hrun.
  destruct (register_kick epoll kick token w) as [o1 w1] eqn:Hreg.
  pose proof (register_view _ _ _ _ Hb Hreg) as Hone.
  destruct o1 as [[]|e| |]; [|by simplify_eq|done..]. destruct Hone as [-> Hw1].
  specialize (IH _ _ Hw1 Hrun). destruct o as [[]|e| |]; [|done..].
  destruct IH as [[-> ->]|(_ & ? & _)]; [|done]. auto.
Qed.

Lemma live_replicate (s : VE W Q) n :
  vs_epolls (vr_state s.1) = replicate n (epoll, token) → arc_id epoll ∈ env_live s.2 →
  live_epolls s = replicate n (epoll, token).
Proof.
  intros Hl Hlive. unfold live_epolls. rewrite Hl. clear Hl.
  induction n as [|n IH]; [done|]. simpl. by rewrite filter_cons_True, IH.
Qed.

(** Adding the kick to the instances of the ring *)
Lemma update_view v s o s' :
  view_of v s → on_ring (update_epolls None (Some kick)) s = (o, s') →
  match o with
  | Ret _ => ∃ v', view_watch (v_listed v) v = Some v' ∧ view_of v' s'
  | Fail _ => v_listed v ≠ 0%nat
  | _ => False
  end.
Proof.
  intros (Hk & Hst & Hl & Hw & Hld & Hold & Hlive).
  unfold on_ring, zoom, update_epolls, bind, gets, on_world, zoom.
  rewrite (live_replicate _ _ Hl Hlive).
  destruct (for_each _ _ _) as [o1 w1] eqn:Hrun. intros ?; simplify_eq.
  pose proof (adds_view _ _ _ _ _ Hw Hrun) as Hadd. destruct o as [[]|e| |]; [|done..].
  destruct Hadd as [[Hn ->]|(Hn & Hb & Hw1)]; rewrite Hn; simpl.
  - exists v. split; [done|]. by destruct s as [[vr [live w]] ld old].
  - rewrite Hb. eexists. split; [done|]. done.
Qed.

Lemma update_none_view (s : racing) :
  on_ring (update_epolls None None) s = (Ret tt, s).
Proof.
  unfold on_ring, zoom, update_epolls, bind, gets, on_world, zoom.
  assert (∀ l w, for_each l (update_one None None) w = (Ret tt, w)) as ->.
  { intros l w. by induction l. }
  by destruct s as [[vr [live w]] ld old].
Qed.

Lemma racing_eta (s : racing) : MkRacing (rc_ring s) (rc_loaded s) (rc_old s) = s.
Proof. by destruct s. Qed.

Lemma exec_view op v s o s' :
  (op = SwapKick → v_kick v = false) → view_of v s → exec op s = (o, s') →
  match o with
  | Ret _ => ∃ v', view_exec op v = Some v' ∧ view_of v' s'
  | Fail _ => view_adds op v ≠ 0%nat
  | _ => False
  end.
Proof.
  intros Hswap Hv. pose proof Hv as (Hk & Hst & Hl & Hw & Hld & Hold & Hlive).
  destruct op; simpl; unfold bind, gets, modify, ret.
  - unfold on_ring, zoom. intros ?; simplify_eq. eexists. split; [done|]. by destruct s.
  - rewrite Hld. destruct (v_loaded v) eqn:Hloaded; intros Hrun; [|simplify_eq; eexists; split; done].
    unfold on_ring, on_world, zoom in Hrun.
    destruct (register_kick epoll kick token _) as [o1 w1] eqn:Hreg. simplify_eq.
    pose proof (register_view _ _ _ _ Hw Hreg) as Hone. destruct o as [[]|e| |]; [|done..].
    destruct Hone as [Hb Hw1]. simpl. rewrite Hb.
    eexists. split; [done|]. repeat split; try done. simpl. by rewrite Hloaded.
  - unfold on_ring, zoom, add_epoll, modify. intros ?; simplify_eq. eexists. split; [done|].
    repeat split; try done. simpl.
    etrans; [|symmetry; apply replicate_S_end]. by rewrite <-(live_replicate _ _ Hl Hlive).
  - unfold on_ring, zoom. intros ?; simplify_eq. eexists. split; [done|].
    repeat split; try done. simpl. by rewrite Hk, Hswap.
  - unfold on_ring at 1, zoom. rewrite Hst, racing_eta, Hold.
    destruct (v_started v); intros Hrun; [by apply (update_view v s)|]. simplify_eq. eexists; split; done.
  - unfold on_ring, zoom. intros ?; simplify_eq. eexists. split; [done|].
    repeat split; try done. unfold is_started. simpl. by apply q_set_ready_ready.
  - unfold on_ring at 1, zoom. rewrite Hk, racing_eta.
    destruct (v_kick v); intros Hrun; [by apply (update_view v s)|].
    rewrite update_none_view in Hrun. simplify_eq. eexists; split; done.
Qed.

(** Whether the new kick is swapped in at most once *)
Fixpoint swaps_once (sched : list race_op) (v : view) : bool :=
  match sched with
  | [] => true
  | op :: sched =>
      negb (bool_decide (op = SwapKick) && v_kick v) &&
      match view_exec op v with Some v' => swaps_once sched v' | None => true end
  end.

Lemma exec_views sched v s o s' :
  swaps_once sched v = true → view_of v s → for_each sched exec s = (o, s') →
  match o with
  | Ret _ => ∃ v', view_run sched v = Some v' ∧ view_of v' s'
  | Fail _ => view_safe sched v = false
  | _ => False
  end.
Proof.
  revert v s. induction sched as [|op sched IH]; intros v s Hswap Hv Hrun; simpl in Hrun.
  { unfold ret in Hrun. simplify_eq. by exists v. }
  simpl in Hswap. apply andb_true_iff in Hswap as [Hop Hrest].
  unfold bind in Hrun. destruct (exec op s) as [o1 s1] eqn:Hexec.
  apply exec_view with (v := v) in Hexec; [|intros ->; by destruct (v_kick v)|done].
  simpl. destruct o1 as [[]|e| |]; [|simplify_eq; by rewrite bool_decide_eq_false_2|done..].
  destruct Hexec as (v1 & Hv1 & Hs1). rewrite Hv1 in Hrest |- *. simpl.
  specialize (IH _ _ Hrest Hs1 Hrun). destruct o as [[]|e| |]; [done| |done..].
  by rewrite IH, andb_false_r.
Qed.

(** ** How the race ends *)

(** The worker reads the ring before it has a kick, and is not in the list when the ring
    is started. *)
Definition missed (sched : list race_op) : bool :=
  before LoadKick SwapKick sched && before UpdateEpolls PushEpoll sched.

(** The worker reads the kick, and is in the list when the ring is started. *)
Definition twice (sched : list race_op) : bool :=
  before SwapKick LoadKick sched && before PushEpoll UpdateEpolls sched.

Definition view_init : view := MkView false false 0 false false.

Definition race_ok (sched : list race_op) : bool :=
  swaps_once sched view_init &&
  match view_run sched view_init with
  | Some v =>
      negb (twice sched) && v_kick v && v_started v && bool_decide (v_listed v = 1%nat) &&
      Bool.eqb (v_watched v) (negb (missed sched))
  | None => true
  end && implb (missed sched) (view_safe sched view_init).

Lemma interleavings_ok : forallb race_ok (interleavings register_program kick_program) = true.
Proof. by vm_compute. Qed.

Lemma interleaving_ok sched :
  interleaving register_program kick_program sched → race_ok sched = true.
Proof.
  intros Hi%interleaving_elem. pose proof interleavings_ok as Hok.
  rewrite forallb_forall in Hok. apply Hok. by apply list_elem_of_In.
Qed.

(** Claim C18. A worker registers with a ring while the handler's thread, serving the
    request that sets its kick, starts it; the three accesses of the one and the four of
    the other to what they share can come in any order. If the worker loads the kick
    before it is there and adds itself after the ring was started, both succeed, and the
    worker's epoll instance does not watch the kick of the started ring, although the ring
    lists it. If it loads the kick after it is there and adds itself before the ring is
    started, they do not both succeed: the kick cannot be added twice, and the error is
    unwrapped. In all other orders, if both succeed, the kick is watched. *)
Theorem registration_race s sched o s' :
  kick_of s = None → is_started s = false → vs_epolls (vr_state s.1) = [] →
  arc_id epoll ∈ env_live s.2 → watched (env_world s.2) (arc_raw epoll) kick = None →
  interleaving register_program kick_program sched → race sched s = (o, s') →
  match o with
  | Ret _ =>
      twice sched = false ∧ is_started s' = true ∧ kick_of s' = Some kick ∧
      (epoll, token) ∈ live_epolls s' ∧
      watched (env_world s'.2) (arc_raw epoll) kick =
        if missed sched then None else Some (EpollEvent ES_IN token)
  | Fail _ => missed sched = false
  | _ => False
  end.
Proof.
  intros Hkick Hst Hl Hlive Hw Hi%interleaving_ok. unfold race.
  destruct (for_each sched exec _) as [o1 s1] eqn:Hrun. intros [= <- <-].
  unfold race_ok in Hi. rewrite !andb_true_iff in Hi. destruct Hi as [[Hswap Hend] Hsafe].
  apply exec_views with (v := view_init) in Hrun; [|done|by split_and!].
  destruct o1 as [[]|e| |]; [| |done..].
  - destruct Hrun as (v & Hv & Hk & Hs & Hls & Hws & _ & _ & Hlv). rewrite Hv in Hend.
    rewrite !andb_true_iff, negb_true_iff, bool_decide_eq_true, Bool.eqb_true_iff in Hend.
    destruct Hend as [[[[Htwice Hvk] Hvs] Hvl] Hvw]. rewrite Hvk in Hk. rewrite Hvl in Hls.
    split_and!; [done|congruence|done| |].
    + rewrite (live_replicate _ _ Hls Hlv). by constructor.
    + rewrite Hws, Hvw. by destruct (missed sched).
  - rewrite Hrun in Hsafe. by destruct (missed sched).
Qed.
End race.

(** ** The handler's side *)

Section handler_side.
Context {D Mem Q W B Sock Region Mmap File : Type}.
Context `{EpollLaws W} `{EventSetBits} `{!EventFdOps W} `{!QueueConfig Q Mem, !QueueConfigLaws Q Mem}
  `{VhostUserBits} `{!VhostUserDevice D Mem (Vring Q) Sock} `{!BitmapReplace B}
  `{!GuestMemory Mem Region Mmap File}.
Implicit Types h : VhostUserHandler D Mem Q W B.

(** A call on a ring after one that has succeeded is one call. *)
Lemma on_vring_bind {E A1 A2} i (m : M (VE W Q) E A1) (k : A1 → M (VE W Q) E A2) h v a s :
  h_vrings h !! i = Some v → m (v, h_env h) = (Ret a, s) →
  on_vring i (k a) (set_env s.2 (set_vrings (<[i := s.1]> (h_vrings h)) h)) =
    on_vring i (bind m k) h.
Proof.
  intros Hv Hm. unfold on_vring. simpl. rewrite list_lookup_insert_eq by (by eapply lookup_lt_Some).
  rewrite Hv. unfold bind. rewrite Hm. destruct s as [v1 env1]. simpl.
  destruct (k a (v1, env1)) as [o [v2 env2]]. by rewrite list_insert_insert_eq.
Qed.

(** Starting a ring that has a kick, once the device is activated *)
Lemma initialize_vring_starts index h v :
  h_vrings h !! Z.to_nat index = Some v → q_ready (vr_queue v) = false →
  is_Some (vs_kick (vr_state v)) → h_device_activated h = true →
  initialize_vring index h = unwrap (on_vring (Z.to_nat index) vring_start) h.
Proof.
  intros Hv Hready Hkick Hact. unfold initialize_vring.
  rewrite (bind_Ret _ _ _ _ _ (on_vring_gets _ _ _ _ Hv)).
  rewrite (bind_Ret _ _ _ _ _ (on_vring_gets _ _ _ _ Hv)).
  unfold is_started, has_kick_event, kick_of. simpl. rewrite Hready, bool_decide_eq_true_2 by done. simpl.
  unfold bind, unwrap, get. unfold on_vring. rewrite Hv.
  destruct (vring_start (v, h_env h)) as [[[]|e| |] [v' env']]; simpl; [|done..]. by rewrite Hact.
Qed.

(** The accesses of [kick_program] are what SET_VRING_KICK does to a ring that is not
    started, once the device is activated. *)
Lemma set_vring_kick_race epoll token index kick v h :
  h_vrings h !! Z.to_nat index = Some v → q_ready (vr_queue v) = false →
  h_device_activated h = true →
  set_vring_kick index (Some kick) h =
    unwrap (on_vring (Z.to_nat index) (race epoll token kick kick_program)) h.
Proof.
  intros Hv Hready Hact. unfold set_vring_kick, get_vring. unfold bind at 1 2 3, gets, lift, ok_or.
  rewrite Hv. simpl.
  set (v1 := MkVring (vr_queue v) (MkVringState (vs_enabled (vr_state v)) (Some kick)
    (vs_call (vr_state v)) (vs_err (vr_state v)) (vs_epolls (vr_state v)))).
  assert (set_kick (Some kick) (v, h_env h) = (Ret tt, (v1, h_env h))) as Hset.
  { unfold set_kick, bind, gets, modify, is_started. simpl. by rewrite Hready. }
  assert (on_vring (Z.to_nat index) (race epoll token kick kick_program) h =
    on_vring (Z.to_nat index) (do! set_kick (Some kick) in vring_start) h) as Hrace.
  { unfold on_vring. rewrite Hv. by rewrite race_kick. }
  unfold bind at 1, unwrap at 1, on_vring at 1. rewrite Hv, Hset. simpl.
  rewrite initialize_vring_starts with (v := v1); [|simpl; apply list_lookup_insert_eq;
    by eapply lookup_lt_Some|done|by eexists|done].
  unfold unwrap. rewrite Hrace. by rewrite <-(on_vring_bind _ _ (λ _, vring_start) _ _ _ _ Hv Hset).
Qed.
End handler_side.

(** ** Both bad ends, on the reference epoll *)

Module VringRaceExamples.
Import Sim SimQueue VringExamples.

Definition ring0 : VE world SimQueue.queue := (v0, env0).
Definition missed_sched : list race_op :=
  [LoadKick; SwapKick; CheckStarted; SetReady; UpdateEpolls; CtlKick; PushEpoll].
Definition twice_sched : list race_op :=
  [SwapKick; LoadKick; CtlKick; PushEpoll; CheckStarted; SetReady; UpdateEpolls].
Definition missed_end : VE world SimQueue.queue := (race worker 9 40 missed_sched ring0).2.

Lemma missed_interleaving : interleaving register_program kick_program missed_sched.
Proof. repeat constructor. Qed.

Lemma twice_interleaving : interleaving register_program kick_program twice_sched.
Proof. repeat constructor. Qed.

Example twice_fails : (race worker 9 40 twice_sched ring0).1 = Fail EEXIST.
Proof. reflexivity. Qed.

Lemma registration_race_witness :
  (race worker 9 40 missed_sched ring0).1 = Ret tt ∧ is_started missed_end = true ∧
  (worker, 9) ∈ live_epolls missed_end ∧
  watched (env_world missed_end.2) (arc_raw worker) 40 = None.
Proof.
  assert (arc_id worker ∈ env_live ring0.2) as Hlive by (vm_compute; done).
  destruct (registration_race worker 9 40 ring0 missed_sched (Ret tt) missed_end
    ltac:(reflexivity) ltac:(reflexivity) ltac:(reflexivity) Hlive ltac:(reflexivity)
    missed_interleaving ltac:(reflexivity))
    as (_ & Hst & _ & Hin & Hw).
  split; [reflexivity|]. split; [exact Hst|]. split; [exact Hin|]. exact Hw.
Defined.
End VringRaceExamples.
