(* ===== verification/VhostDaemon.v ===== *)
(** * The daemon around the handler: [vhost-user/src/lib.rs]

    A daemon owns the handler of a device and serves one connection of a
    front-end. Sockets, the reading of a message from a connection (which calls the
    method of the handler that the message asks for) and the creation of a thread
    are an interface; the loops of the daemon, its states and the translation of
    errors are the code's. The thread that serves the connection runs when it is
    waited for; a panic of the thread is what joining it reports. *)

From S2P Require Import Prelude Bitmap VhostHandler.

Inductive Error : Type :=
| NewVhostUserHandler (e : VhostUserHandlerError)
| CreateBackendListener (e : VhostUserError)
| CreateBackendReqHandler (e : VhostUserError)
| CreateVhostUserListener (e : VhostUserError)
| StartDaemon (e : io_error)
| WaitDaemon
| HandleRequest (e : VhostUserError).

(** Sockets and threads, over the state [HS] of the handler and the world. *)
Class VhostSockets (HS Conn Listener : Type) : Type := {
  backend_connect : string → M HS VhostUserError Conn;
  listener_new : string → M HS VhostUserError Listener;
  backend_listener_new : Listener → M HS VhostUserError Listener;
  backend_accept : Listener → M HS VhostUserError (option Conn);
  handle_request : Conn → M HS VhostUserError unit;
  thread_spawn : string → M HS io_error unit;
}.

Section daemon.
Context {HS Conn Listener : Type} `{VhostSockets HS Conn Listener}.

Record VhostUserDaemon : Type := MkVhostUserDaemon {
  d_name : string;
  d_handler : HS;
  d_main_thread : option Conn;
}.

Local Notation R A := (M VhostUserDaemon Error A).

Definition on_handler {E A} : M HS E A → M VhostUserDaemon E A :=
  zoom d_handler (λ h d, MkVhostUserDaemon (d_name d) h (d_main_thread d)).

Definition set_main_thread {E} (t : option Conn) : M VhostUserDaemon E unit :=
  modify (λ d, MkVhostUserDaemon (d_name d) (d_handler d) t).

Definition daemon_new (name : string) (handler : outcome VhostUserHandlerError HS) :
    outcome Error VhostUserDaemon :=
  outcome_bind (outcome_map_err NewVhostUserHandler handler) (λ handler,
    Ret (MkVhostUserDaemon name handler None)).

(** The body of the thread: [loop { handler.handle_request()?; }] *)
Definition request_loop (fuel : nat) (conn : Conn) : M HS Error unit :=
  loop fuel (do! map_err HandleRequest (handle_request conn) in ret None).

Definition start_daemon (handler : Conn) : R unit :=
  let! name := gets d_name in
  do! map_err StartDaemon (on_handler (thread_spawn name)) in
  set_main_thread (Some handler).

Definition start_client (socket_path : string) : R unit :=
  let! backend_handler := map_err CreateBackendReqHandler
                            (on_handler (backend_connect socket_path)) in
  start_daemon backend_handler.

(** Nothing to accept yet is tried again. *)
Definition accept_turn (l : Listener) : R (option Conn) :=
  map_err CreateBackendListener (on_handler (backend_accept l)).

Definition accept (fuel : nat) (backend_listener : Listener) : R Conn :=
  loop fuel (accept_turn backend_listener).

Definition start (fuel : nat) (listener : Listener) : R unit :=
  let! backend_listener := map_err CreateBackendListener
                             (on_handler (backend_listener_new listener)) in
  let! backend_handler := accept fuel backend_listener in
  start_daemon backend_handler.

(** [handle.join()]: the thread's result, or the panic it ended with. *)
Definition join (fuel : nat) (conn : Conn) : R (Error + unit) :=
  λ d,
    match on_handler (request_loop fuel conn) d with
    | (Panic, d') => (Fail WaitDaemon, d')
    | (Ret a, d') => (Ret (inr a), d')
    | (Fail e, d') => (Ret (inl e), d')
    | (NoFuel, d') => (NoFuel, d')
    end.

Definition wait (fuel : nat) : R unit :=
  let! main_thread := gets d_main_thread in
  do! set_main_thread None in
  match main_thread with
  | Some handle =>
      let! r := join fuel handle in
      match r with
      | inr _ => ret tt
      | inl (HandleRequest (SocketBroken _)) => ret tt
      | inl e => fail e
      end
  | None => ret tt
  end.

Definition serve (fuel : nat) (socket : string) : R unit :=
  let! listener := map_err CreateVhostUserListener (on_handler (listener_new socket)) in
  do! start fuel listener in
  let! result := attempt (wait fuel) in
  match result with
  | inl (HandleRequest Disconnected) => ret tt
  | inl (HandleRequest PartialMessage) => ret tt
  | inl e => fail e
  | inr _ => ret tt
  end.

(** ** Serving a connection *)

(** [n] requests that are answered, and then one that ends with [o]. *)
Inductive conversation (conn : Conn) : nat → outcome VhostUserError unit → HS → HS → Prop :=
| conversation_end o h h' :
    handle_request conn h = (o, h') → (∀ a, o ≠ Ret a) → conversation conn 0 o h h'
| conversation_request n o h h1 h' :
    handle_request conn h = (Ret tt, h1) → conversation conn n o h1 h' →
    conversation conn (S n) o h h'.

(** The listener reports [n] times that there is nothing to accept yet. *)
Inductive accepts (l : Listener) : nat → Conn → HS → HS → Prop :=
| accepts_now c h h' : backend_accept l h = (Ret (Some c), h') → accepts l 0 c h h'
| accepts_later n c h h1 h' :
    backend_accept l h = (Ret None, h1) → accepts l n c h1 h' → accepts l (S n) c h h'.

Lemma request_loop_run conn n o h h' fuel :
  conversation conn n o h h' → (n < fuel)%nat →
  request_loop fuel conn h =
    (outcome_bind (outcome_map_err HandleRequest o) (λ _, NoFuel), h').
Proof.
  intros Hc. revert fuel. unfold request_loop.
  induction Hc as [o h h' Hr Ho|n o h h1 h' Hr Hc IH]; intros fuel Hfuel;
    (destruct fuel as [|fuel]; [lia|]); simpl; unfold bind, map_err; rewrite Hr; simpl.
  - destruct o as [a|e| |]; [by destruct (Ho a)|done..].
  - apply IH. lia.
Qed.

Lemma accept_run l n c d h' fuel :
  accepts l n c (d_handler d) h' → (n < fuel)%nat →
  accept fuel l d = (Ret c, MkVhostUserDaemon (d_name d) h' (d_main_thread d)).
Proof.
  intros Ha. revert fuel. unfold accept. remember (d_handler d) as h eqn:Hh. revert d Hh.
  induction Ha as [c h h' Hr|n c h h1 h' Hr Ha IH]; intros d -> fuel Hfuel;
    (destruct fuel as [|fuel]; [lia|]); simpl;
    unfold bind, accept_turn at 1, map_err, on_handler, zoom; rewrite Hr; simpl; [done|].
  by rewrite IH by (done || lia).
Qed.

(** What [serve] makes of the way the conversation ended. *)
Definition serve_result (o : outcome VhostUserError unit) : outcome Error unit :=
  match o with
  | Ret _ => Ret tt
  | Fail (SocketBroken _) | Fail Disconnected | Fail PartialMessage => Ret tt
  | Fail e => Fail (HandleRequest e)
  | Panic => Fail WaitDaemon
  | NoFuel => NoFuel
  end.

(** Serving a socket, step by step. *)
Lemma serve_run path d l0 l h1 h2 k c h3 h4 n o h5 fuel :
  listener_new path (d_handler d) = (Ret l0, h1) →
  backend_listener_new l0 h1 = (Ret l, h2) →
  accepts l k c h2 h3 →
  thread_spawn (d_name d) h3 = (Ret tt, h4) →
  conversation c n o h4 h5 → (k < fuel)%nat → (n < fuel)%nat →
  serve fuel path d = (serve_result o, MkVhostUserDaemon (d_name d) h5 None).
Proof.
  intros Hl Hbl Hacc Hspawn Hconv Hk Hn. unfold serve, start.
  erewrite bind_Ret; [|unfold map_err, on_handler, zoom; by rewrite Hl].
  erewrite bind_Ret.
  2: { erewrite bind_Ret; [|unfold map_err, on_handler, zoom; simpl; by rewrite Hbl].
    erewrite bind_Ret by (by eapply accept_run). simpl. unfold start_daemon.
    erewrite bind_Ret by reflexivity.
    erewrite bind_Ret by (unfold map_err, on_handler, zoom; simpl; by rewrite Hspawn).
    reflexivity. }
  unfold wait, bind, gets, set_main_thread, modify, attempt, join, on_handler, zoom. simpl.
  rewrite (request_loop_run _ _ _ _ _ _ Hconv Hn). simpl.
  assert (∀ a, o ≠ Ret a) as Ho by (clear -Hconv; induction Hconv; auto).
  destruct o as [a|e| |]; simpl; [by destruct (Ho a)|by destruct e|done..].
Qed.

(** ** How serving a socket ends, from whatever stage *)

(** A stage that does not let the next one begin: it failed or panicked. *)
Definition stops {E A} (o : outcome E A) : Prop :=
  match o with Fail _ | Panic => True | _ => False end.

Definition stopped {E E' A B} (f : E → E') (o : outcome E A) : outcome E' B :=
  match o with Fail e => Fail (f e) | Panic => Panic | _ => NoFuel end.

(** The listener reports [n] times that there is nothing to accept yet, and then fails. *)
Inductive refuses (l : Listener) : nat → outcome VhostUserError (option Conn) → HS → Prop :=
| refuses_now h : stops (backend_accept l h).1 → refuses l 0 (backend_accept l h).1 h
| refuses_later n o h h1 : backend_accept l h = (Ret None, h1) → refuses l n o h1 → refuses l (S n) o h.

(** Each stage before the connection went well. *)
Inductive listens (path : string) (h0 : HS) (l : Listener) (h2 : HS) : Prop :=
| listens_at l0 h1 :
    listener_new path h0 = (Ret l0, h1) → backend_listener_new l0 h1 = (Ret l, h2) → listens path h0 l h2.

Inductive connected (fuel : nat) (path name : string) (h0 : HS) (c : Conn) (h4 : HS) : Prop :=
| connected_by l h2 k h3 :
    listens path h0 l h2 → accepts l k c h2 h3 → (k < fuel)%nat → thread_spawn name h3 = (Ret tt, h4) →
    connected fuel path name h0 c h4.

(** What serving [path] returns: the stage that stopped it, or what its conversation came to. *)
Inductive served (fuel : nat) (path name : string) (h0 : HS) : outcome Error unit → Prop :=
| served_unbound :
    stops (listener_new path h0).1 →
    served fuel path name h0 (stopped CreateVhostUserListener (listener_new path h0).1)
| served_unlistened l0 h1 :
    listener_new path h0 = (Ret l0, h1) → stops (backend_listener_new l0 h1).1 →
    served fuel path name h0 (stopped CreateBackendListener (backend_listener_new l0 h1).1)
| served_refused l h2 k o :
    listens path h0 l h2 → refuses l k o h2 → (k < fuel)%nat →
    served fuel path name h0 (stopped CreateBackendListener o)
| served_unspawned l h2 k c h3 :
    listens path h0 l h2 → accepts l k c h2 h3 → (k < fuel)%nat → stops (thread_spawn name h3).1 →
    served fuel path name h0 (stopped StartDaemon (thread_spawn name h3).1)
| served_conversation c h4 n o h5 :
    connected fuel path name h0 c h4 → conversation c n o h4 h5 → (n < fuel)%nat →
    served fuel path name h0 (serve_result o).

Lemma bind_stopped {A B} (f : VhostUserError → Error) (m : M HS VhostUserError A) (k : A → R B) d o h :
  m (d_handler d) = (o, h) → stops o → (bind (map_err f (on_handler m)) k d).1 = stopped f o.
Proof. intros Hm Ho. unfold bind, map_err, on_handler, zoom. rewrite Hm. by destruct o. Qed.

Lemma accept_refused l n o d fuel :
  refuses l n o (d_handler d) → (n < fuel)%nat → (accept fuel l d).1 = stopped CreateBackendListener o.
Proof.
  intros Ha. revert fuel. unfold accept. remember (d_handler d) as h eqn:Hh. revert d Hh.
  induction Ha as [h Ho|n o h h1 Hr Ha IH]; intros d -> fuel Hfuel; (destruct fuel as [|fuel]; [lia|]); simpl.
  - destruct (backend_accept l (d_handler d)) as [o h1] eqn:Hr. by apply bind_stopped with (h := h1).
  - unfold bind, accept_turn at 1, map_err, on_handler, zoom. rewrite Hr. simpl.
    by rewrite (IH (MkVhostUserDaemon (d_name d) h1 (d_main_thread d)) eq_refl) by lia.
Qed.

Lemma listens_run path d l h2 fuel :
  listens path (d_handler d) l h2 →
  serve fuel path d =
    (do! (let! c := accept fuel l in start_daemon c) in
     let! result := attempt (wait fuel) in
     match result with
     | inl (HandleRequest Disconnected) => ret tt
     | inl (HandleRequest PartialMessage) => ret tt
     | inl e => fail e
     | inr _ => ret tt
     end) (MkVhostUserDaemon (d_name d) h2 (d_main_thread d)).
Proof.
  intros [l0 h1 Hl Hbl]. unfold serve.
  erewrite bind_Ret; [|unfold map_err, on_handler, zoom; by rewrite Hl]. unfold start.
  unfold bind at 1 2, map_err at 1, on_handler at 1, zoom at 1. simpl. by rewrite Hbl.
Qed.

Lemma bind_outcome {A B} (m : R A) (k : A → R B) d o :
  (m d).1 = o → stops o → (bind m k d).1 = stopped id o.
Proof. unfold bind. intros <-. by destruct (m d) as [[]]. Qed.

Lemma bind_stopped_twice {A B C} (f : VhostUserError → Error) (m : M HS VhostUserError A) (k : A → R B)
    (k' : B → R C) d :
  stops (m (d_handler d)).1 →
  (bind (bind (map_err f (on_handler m)) k) k' d).1 = stopped f (m (d_handler d)).1.
Proof.
  destruct (m (d_handler d)) as [o h] eqn:Hm. simpl. intros Ho.
  rewrite (bind_outcome _ _ _ _ (bind_stopped _ _ _ _ _ _ Hm Ho)); by destruct o.
Qed.

(** What [served] says is what serving returns. *)
Lemma serve_served fuel path d r :
  served fuel path (d_name d) (d_handler d) r → (serve fuel path d).1 = r.
Proof.
  intros [Ho|l0 h1 Hl Ho|l h2 k o Hl Hk Hfuel|l h2 k c h3 Hl Hk Hfuel Ho|c h4 n o h5 Hc Hconv Hn].
  - destruct (listener_new path (d_handler d)) as [o h1] eqn:Hl. by apply bind_stopped with (h := h1).
  - unfold serve. erewrite bind_Ret; [|unfold map_err, on_handler, zoom; by rewrite Hl].
    by apply (bind_stopped_twice _ _ _ _ (MkVhostUserDaemon (d_name d) h1 (d_main_thread d))).
  - rewrite (listens_run _ _ _ _ _ Hl).
    pose proof (accept_refused l k o (MkVhostUserDaemon (d_name d) h2 (d_main_thread d)) fuel Hk Hfuel) as Hacc.
    assert (stops o) as Ho by (clear -Hk; by induction Hk).
    pose proof (bind_outcome _ start_daemon _ _ Hacc ltac:(by destruct o)) as Hstart.
    rewrite (bind_outcome _ _ _ _ Hstart); [|by destruct o]. by destruct o.
  - rewrite (listens_run _ _ _ _ _ Hl). unfold bind at 1.
    erewrite bind_Ret by (by eapply accept_run). unfold start_daemon. erewrite bind_Ret by reflexivity. simpl.
    destruct (thread_spawn (d_name d) h3) as [o h4] eqn:Hs. simpl in Ho.
    unfold bind, map_err, on_handler, zoom. simpl. rewrite Hs. by destruct o.
  - destruct Hc as [l h2 k h3 [l0 h1 Hl Hbl] Hacc Hk Hs].
    by rewrite (serve_run _ _ _ _ _ _ _ _ _ _ _ _ _ _ Hl Hbl Hacc Hs Hconv Hk Hn).
Qed.

Lemma request_loop_covered conn fuel h :
  (∃ n o h', (n < fuel)%nat ∧ conversation conn n o h h') ∨ (request_loop fuel conn h).1 = NoFuel.
Proof.
  revert h. unfold request_loop. induction fuel as [|fuel IH]; intros h; [by right|]. simpl.
  destruct (handle_request conn h) as [o h1] eqn:Hr.
  destruct o as [[]|e| |] eqn:Ho;
    [|left; exists 0%nat, o, h1; subst o; split; [lia|by apply conversation_end]..].
  destruct (IH h1) as [(n & o' & h' & Hn & Hc)|Hloop].
  - left. exists (S n), o', h'. split; [lia|by eapply conversation_request].
  - right. unfold bind at 1 2, map_err at 1. by rewrite Hr.
Qed.

Lemma accept_covered l fuel d :
  (∃ k c h', (k < fuel)%nat ∧ accepts l k c (d_handler d) h') ∨
  (∃ k o, (k < fuel)%nat ∧ refuses l k o (d_handler d)) ∨ (accept fuel l d).1 = NoFuel.
Proof.
  unfold accept. revert d. induction fuel as [|fuel IH]; intros d; [by right; right|]. simpl.
  destruct (backend_accept l (d_handler d)) as [o h1] eqn:Hr.
  destruct o as [[c|]|e| |] eqn:Ho.
  - left. exists 0%nat, c, h1. split; [lia|by apply accepts_now].
  - destruct (IH (MkVhostUserDaemon (d_name d) h1 (d_main_thread d))) as
      [(k & c & h' & Hk & Hacc)|[(k & o' & Hk & Href)|Hloop]].
    + left. exists (S k), c, h'. split; [lia|by eapply accepts_later].
    + right; left. exists (S k), o'. split; [lia|by eapply refuses_later].
    + right; right. unfold bind, accept_turn at 1, map_err, on_handler, zoom. by rewrite Hr.
  - right; left. exists 0%nat, (backend_accept l (d_handler d)).1. split; [lia|].
    apply refuses_now. by rewrite Hr.
  - right; left. exists 0%nat, (backend_accept l (d_handler d)).1. split; [lia|].
    apply refuses_now. by rewrite Hr.
  - right; right. unfold bind, accept_turn at 1, map_err, on_handler, zoom. by rewrite Hr.
Qed.

(** Serving that comes back is one of these. *)
Lemma serve_covered fuel path d :
  (∃ r, served fuel path (d_name d) (d_handler d) r) ∨ (serve fuel path d).1 = NoFuel.
Proof.
  destruct (listener_new path (d_handler d)) as [[l0|e| |] h1] eqn:Hl.
  2,3: left; eexists; apply served_unbound; by rewrite Hl.
  2: right; unfold serve, bind, map_err, on_handler, zoom; by rewrite Hl.
  destruct (backend_listener_new l0 h1) as [[l|e| |] h2] eqn:Hbl.
  2,3: left; eexists; apply (served_unlistened _ _ _ _ _ _ Hl); by rewrite Hbl.
  2: right; unfold serve, start, bind, map_err, on_handler, zoom; rewrite Hl; simpl; by rewrite Hbl.
  assert (listens path (d_handler d) l h2) as Hlisten by by econstructor.
  pose proof (listens_run _ _ _ _ fuel Hlisten) as Hrun.
  destruct (accept_covered l fuel (MkVhostUserDaemon (d_name d) h2 (d_main_thread d))) as
    [(k & c & h3 & Hk & Hacc)|[(k & o & Hk & Href)|Hloop]].
  2: left; eexists; by eapply served_refused.
  2: { right. rewrite Hrun. unfold bind at 1 2. by destruct (accept _ _ _) as [[]]. }
  destruct (thread_spawn (d_name d) h3) as [[[]|e| |] h4] eqn:Hs.
  2,3: left; eexists; eapply (served_unspawned _ _ _ _ _ _ _ _ _ Hlisten Hacc Hk); by rewrite Hs.
  - assert (connected fuel path (d_name d) (d_handler d) c h4) as Hconn by by econstructor.
    destruct (request_loop_covered c fuel h4) as [(n & o & h5 & Hn & Hconv)|Hloop].
    { left. eexists. by eapply served_conversation. }
    right. rewrite Hrun. unfold bind at 1. erewrite bind_Ret by (by eapply accept_run). unfold start_daemon.
    erewrite bind_Ret by reflexivity. unfold bind, map_err, on_handler, zoom. simpl. rewrite Hs. simpl.
    unfold wait, bind, gets, set_main_thread, modify, attempt, join, on_handler, zoom. simpl.
    by destruct (request_loop fuel c h4) as [[]].
  - right. rewrite Hrun. unfold bind at 1. erewrite bind_Ret by (by eapply accept_run). unfold start_daemon.
    erewrite bind_Ret by reflexivity. unfold bind, map_err, on_handler, zoom. simpl. by rewrite Hs.
Qed.

(** Claim C32. Serving a socket handles every request of the connection up to the
    first that fails, and then comes back: with success when the front-end hung
    up (a broken socket, a disconnection or a partial message), with the error of
    that request otherwise, and with [WaitDaemon] when handling it panicked. The
    daemon keeps no thread. Fuel above the number of requests, and above the
    number of attempts to accept, is enough. *)
Theorem serve_serves path d l0 l h1 h2 k c h3 h4 n o h5 fuel :
  listener_new path (d_handler d) = (Ret l0, h1) →
  backend_listener_new l0 h1 = (Ret l, h2) →
  accepts l k c h2 h3 →
  thread_spawn (d_name d) h3 = (Ret tt, h4) →
  conversation c n o h4 h5 → (k < fuel)%nat → (n < fuel)%nat →
  serve fuel path d = (serve_result o, MkVhostUserDaemon (d_name d) h5 None).
Proof. apply serve_run. Qed.
End daemon.
Arguments VhostUserDaemon : clear implicits.
Arguments MkVhostUserDaemon {HS Conn}.

(** ** A scripted connection *)
Module DaemonExamples.

(** The state is what the connection will deliver, and the count of requests. *)
#[export] Instance scripted : VhostSockets (list (outcome VhostUserError unit) * nat) unit unit := {|
  backend_connect _ := ret tt;
  listener_new _ := ret tt;
  backend_listener_new _ := ret tt;
  backend_accept _ := ret (Some tt);
  handle_request _ := λ '(script, n),
    match script with
    | [] => (Fail Disconnected, ([], n))
    | o :: script => (o, (script, S n))
    end;
  thread_spawn _ := ret tt;
|}.

Definition d0 : VhostUserDaemon (list (outcome VhostUserError unit) * nat) unit :=
  MkVhostUserDaemon "gpu" ([Ret tt; Ret tt; Fail (SocketBroken 32)], 0%nat) None.

Lemma serve_serves_witness :
  serve 3 "/run/gpu.sock" d0 = (Ret tt, MkVhostUserDaemon "gpu" ([], 3%nat) None).
Proof.
  apply (serve_serves "/run/gpu.sock" d0 tt tt (d_handler d0) (d_handler d0) 0 tt (d_handler d0)
    (d_handler d0) 2 (Fail (SocketBroken 32)) ([], 3%nat) 3); try reflexivity; try lia.
  - by apply accepts_now.
  - eapply conversation_request; [reflexivity|]. eapply conversation_request; [reflexivity|].
    by apply conversation_end.
Defined.
End DaemonExamples.
