(* ===== verification/Codec.v ===== *)
(** * Objects that are their bytes: [ByteValued]

    The structures exchanged with a driver have a fixed layout ([repr(C)], with
    little-endian fields and no implicit padding) and are read and written as
    their bytes. A [codec] is such a layout with its two directions and their
    laws; layouts are built from integers, byte arrays, pairs and arrays, so that
    the laws of every structure come from the laws of its fields. *)

From S2P Require Import Prelude VirtQueue.

Record codec (A : Type) : Type := Codec {
  c_size : nat;
  c_valid : A → Prop;
  c_to : A → bytes;
  c_of : bytes → A;
  c_to_length a : c_valid a → length (c_to a) = c_size;
  c_to_bytes a : c_valid a → Forall is_byte (c_to a);
  c_of_to a : c_valid a → c_of (c_to a) = a;
  c_to_of bs : length bs = c_size → Forall is_byte bs → c_to (c_of bs) = bs;
  c_of_valid bs : length bs = c_size → Forall is_byte bs → c_valid (c_of bs);
}.
Arguments Codec {A}.
Arguments c_size {A}.
Arguments c_valid {A}.
Arguments c_to {A}.
Arguments c_of {A}.
Arguments c_to_length {A}.
Arguments c_to_bytes {A}.
Arguments c_of_to {A}.
Arguments c_to_of {A}.
Arguments c_of_valid {A}.

(** A type with a layout. *)
Class ByteValued (A : Type) : Type := byte_codec : codec A.

(** ** Layouts *)

(** A little-endian integer of [n] bytes: [Le32], [Le64], [u8]. *)
Program Definition le_codec (n : Z) (Hn : 0 ≤ n) : codec Z := {|
  c_size := Z.to_nat n;
  c_valid := in_width (n * 8);
  c_to := le_bytes n;
  c_of := le_val;
|}.
Next Obligation. intros n Hn a _. by apply length_le_bytes. Qed.
Next Obligation. intros n Hn a _. by apply le_bytes_bytes. Qed.
Next Obligation. intros n Hn a Ha. by apply le_val_le_bytes. Qed.
Next Obligation.
  intros n Hn bs Hlen Hbs. rewrite <-(le_bytes_le_val bs) at 2 by done.
  by rewrite Hlen, Z2Nat.id.
Qed.
Next Obligation.
  intros n Hn bs Hlen Hbs. apply le_val_width in Hbs. by rewrite Hlen, Z2Nat.id in Hbs.
Qed.

Definition le32 : codec Z := le_codec 4 ltac:(done).
Definition le64 : codec Z := le_codec 8 ltac:(done).
Definition u8 : codec Z := le_codec 1 ltac:(done).

(** The empty structure. *)
Program Definition empty_codec : codec unit := {|
  c_size := 0; c_valid _ := True; c_to _ := []; c_of _ := tt;
|}.
Next Obligation. done. Qed.
Next Obligation. done. Qed.
Next Obligation. by intros []. Qed.
Next Obligation. by intros [|]. Qed.
Next Obligation. done. Qed.

(** [[u8; n]] *)
Program Definition bytes_codec (n : nat) : codec bytes := {|
  c_size := n;
  c_valid bs := length bs = n ∧ Forall is_byte bs;
  c_to bs := bs;
  c_of bs := bs;
|}.
Next Obligation. by intros n a [??]. Qed.
Next Obligation. by intros n a [??]. Qed.
Next Obligation. done. Qed.
Next Obligation. done. Qed.
Next Obligation. done. Qed.

(** One field after the other. *)
Program Definition pair_codec {A B} (ca : codec A) (cb : codec B) : codec (A * B) := {|
  c_size := c_size ca + c_size cb;
  c_valid p := c_valid ca p.1 ∧ c_valid cb p.2;
  c_to p := c_to ca p.1 ++ c_to cb p.2;
  c_of bs := (c_of ca (take (c_size ca) bs), c_of cb (drop (c_size ca) bs));
|}.
Next Obligation.
  intros A B ca cb [a b] [Ha Hb]. simpl in *.
  by rewrite length_app, (c_to_length ca), (c_to_length cb).
Qed.
Next Obligation.
  intros A B ca cb [a b] [Ha Hb]. simpl in *. apply Forall_app. split; by apply c_to_bytes.
Qed.
Next Obligation.
  intros A B ca cb [a b] [Ha Hb]. simpl in *.
  destruct (take_drop_app (c_size ca) (c_to ca a) (c_to cb b)) as [-> ->];
    [by apply c_to_length|]. by rewrite (c_of_to ca), (c_of_to cb).
Qed.
Next Obligation.
  intros A B ca cb bs Hlen Hbs. simpl. rewrite (c_to_of ca), (c_to_of cb).
  - apply take_drop.
  - rewrite length_drop. lia.
  - by apply Forall_drop.
  - rewrite length_take. lia.
  - by apply Forall_take.
Qed.
Next Obligation.
  intros A B ca cb bs Hlen Hbs. simpl. split; apply c_of_valid.
  - rewrite length_take. lia.
  - by apply Forall_take.
  - rewrite length_drop. lia.
  - by apply Forall_drop.
Qed.

(** [[A; n]] *)
Fixpoint array_of {A} (c : codec A) (n : nat) (bs : bytes) : list A :=
  match n with
  | O => []
  | S n => c_of c (take (c_size c) bs) :: array_of c n (drop (c_size c) bs)
  end.

Fixpoint array_to {A} (c : codec A) (l : list A) : bytes :=
  match l with
  | [] => []
  | a :: l => c_to c a ++ array_to c l
  end.

Lemma length_array_to {A} (c : codec A) l :
  Forall (c_valid c) l → length (array_to c l) = (length l * c_size c)%nat.
Proof.
  induction 1 as [|a l Ha Hl IH]; [done|]. simpl. rewrite length_app, IH, c_to_length by done. done.
Qed.

Program Definition array_codec {A} (n : nat) (c : codec A) : codec (list A) := {|
  c_size := n * c_size c;
  c_valid l := length l = n ∧ Forall (c_valid c) l;
  c_to := array_to c;
  c_of := array_of c n;
|}.
Next Obligation. intros A n c l [<- Hl]. by apply length_array_to. Qed.
Next Obligation.
  intros A n c l [_ Hl]. induction Hl as [|a l Ha Hl IH]; simpl; [constructor|].
  apply Forall_app. split; [by apply c_to_bytes|done].
Qed.
Next Obligation.
  intros A n c l [<- Hl]. induction Hl as [|a l Ha Hl IH]; simpl; [done|].
  destruct (take_drop_app (c_size c) (c_to c a) (array_to c l)) as [-> ->];
    [by apply c_to_length|]. by rewrite c_of_to, IH.
Qed.
Next Obligation.
  intros A n c bs. revert bs. induction n as [|n IH]; intros bs Hlen Hbs; simpl in *.
  - by destruct bs.
  - rewrite c_to_of, IH.
    + apply take_drop.
    + rewrite length_drop. lia.
    + by apply Forall_drop.
    + rewrite length_take. lia.
    + by apply Forall_take.
Qed.
Next Obligation.
  intros A n c bs. revert bs. induction n as [|n IH]; intros bs Hlen Hbs; simpl in *; [done|].
  destruct (IH (drop (c_size c) bs)) as [Hl Hv].
  - rewrite length_drop. lia.
  - by apply Forall_drop.
  - split; [lia|]. constructor; [|done]. apply c_of_valid; [rewrite length_take; lia|].
    by apply Forall_take.
Qed.

(** A structure is laid out as the tuple of its fields. *)
Program Definition struct_codec {A B} (c : codec B) (fields : A → B) (build : B → A)
    (Hbuild : ∀ a, build (fields a) = a) (Hfields : ∀ b, fields (build b) = b) : codec A := {|
  c_size := c_size c;
  c_valid a := c_valid c (fields a);
  c_to a := c_to c (fields a);
  c_of bs := build (c_of c bs);
|}.
Next Obligation. intros A B c fields build ?? a Ha. by apply c_to_length. Qed.
Next Obligation. intros A B c fields build ?? a Ha. by apply c_to_bytes. Qed.
Next Obligation. intros A B c fields build ?? a Ha. simpl in *. by rewrite c_of_to. Qed.
Next Obligation.
  intros A B c fields build ? Hfields bs Hl Hbs. simpl in *. by rewrite Hfields, c_to_of.
Qed.
Next Obligation.
  intros A B c fields build ? Hfields bs Hl Hbs. simpl in *. rewrite Hfields. by apply c_of_valid.
Qed.

(** Both proofs are by cases on the structure and on the tuple. *)
Ltac tuple_eq :=
  intros; repeat match goal with p : (_ * _)%type |- _ => destruct p end; reflexivity.

Abbreviation layout c fields build :=
  (struct_codec c fields build ltac:(by intros []) ltac:(tuple_eq)) (only parsing).

Notation "c1 ** c2" := (pair_codec c1 c2) (at level 38, left associativity).

(** ** Reading and writing objects *)

Definition size_of (A : Type) `{ByteValued A} : nat := c_size (byte_codec (A:=A)).
Definition as_slice {A} `{ByteValued A} (a : A) : bytes := c_to byte_codec a.
Definition from_slice {A} `{ByteValued A} (bs : bytes) : A := c_of byte_codec bs.
Definition valid {A} `{ByteValued A} (a : A) : Prop := c_valid byte_codec a.

#[global] Arguments size_of : simpl never.
#[global] Arguments as_slice : simpl never.
#[global] Arguments from_slice : simpl never.
#[global] Arguments valid : simpl never.

Definition read_obj {R A} `{ReaderOps R} `{ByteValued A} : M R unit A :=
  let! bs := r_read_exact (size_of A) in ret (from_slice bs).

Section objects.
Context {R : Type} `{ReaderLaws R} {A : Type} `{ByteValued A}.

Lemma length_as_slice (a : A) : valid a → length (as_slice a) = size_of A.
Proof. apply c_to_length. Qed.

Lemma from_as_slice (a : A) : valid a → from_slice (as_slice a) = a.
Proof. apply c_of_to. Qed.

(** Reading what was laid out at the front of the stream. *)
Lemma read_obj_front (a : A) (r : R) rest :
  valid a → r_remaining r = as_slice a ++ rest →
  ∃ r', read_obj r = (Ret a, r') ∧ r_remaining r' = rest.
Proof.
  intros Ha Hr. destruct (r_read_enough (size_of A) r) as (r' & Hread & Hrem).
  { rewrite Hr, length_app, length_as_slice by done. lia. }
  exists r'. unfold read_obj, bind. rewrite Hread. unfold ret.
  rewrite Hr in Hrem |- *.
  destruct (take_drop_app (size_of A) (as_slice a) rest) as [Ht Hd];
    [by apply length_as_slice|].
  rewrite Ht, from_as_slice by done. by rewrite Hrem, Hd.
Qed.

(** Reading succeeds exactly when enough bytes are left, and then consumes the
    bytes of the object. *)
Lemma read_obj_cases (r : R) :
  (∃ (a : A) r', read_obj r = (Ret a, r') ∧ valid a ∧ r_remaining r = as_slice a ++ r_remaining r') ∨
  (∃ r', read_obj (A:=A) r = (Fail tt, r') ∧ (length (r_remaining r) < size_of A)%nat).
Proof.
  destruct (decide (size_of A ≤ length (r_remaining r))%nat) as [Hle|Hlt].
  - left. destruct (r_read_enough (size_of A) r Hle) as (r' & Hread & Hrem).
    exists (from_slice (take (size_of A) (r_remaining r))), r'.
    pose proof (r_remaining_bytes r) as Hb.
    assert (length (take (size_of A) (r_remaining r)) = size_of A) by (rewrite length_take; lia).
    split_and!.
    + unfold read_obj, bind. by rewrite Hread.
    + apply c_of_valid; [done|]. by apply Forall_take.
    + rewrite Hrem. unfold as_slice, from_slice. rewrite c_to_of; [|done|by apply Forall_take].
      symmetry. apply take_drop.
  - right. destruct (r_read_short (size_of A) r) as (r' & Hread); [lia|].
    exists r'. split; [|lia]. unfold read_obj, bind. by rewrite Hread.
Qed.
End objects.
