(* ===== verification/GpuProtocol.v ===== *)
(** * The commands of a virtio GPU: [device/virtio-gpu/src/protocol.rs]

    The structures of the protocol with their layouts, the commands, and [decode],
    which reads a command from the readable buffers of a descriptor chain. The
    numbers of the commands come from the header bindings and are a parameter; all
    that is used of them is that different names have different numbers. *)

From S2P Require Import Prelude VirtQueue Codec.

Definition QUEUE_SIZE : Z := 1024.
Definition CONTROL_QUEUE : nat := 0.
Definition CURSOR_QUEUE : nat := 1.
Definition VIRTIO_GPU_MAX_SCANOUTS : Z := 16.
Definition VIRTIO_GPU_RESP_OK_RESOURCE_PLANE_INFO : Z := 0x11FF.
Definition VIRTIO_GPU_BLOB_FLAG_CREATE_GUEST_HANDLE : Z := 0x0008.
Definition VIRTIO_GPU_FLAG_FENCE : Z := Z.shiftl 1 0.
Definition VIRTIO_GPU_FLAG_INFO_RING_IDX : Z := Z.shiftl 1 1.
Definition EDID_BLOB_MAX_SIZE : Z := 1024.
Definition VIRTIO_GPU_RESOURCE_FLAG_Y_0_TOP : Z := Z.shiftl 1 0.
Definition VIRTIO_GPU_CONTEXT_INIT_CAPSET_ID_MASK : Z := Z.shiftl 1 0.
Definition PLANE_INFO_MAX_COUNT : Z := 4.
Definition VIRTIO_GPU_EVENT_DISPLAY : Z := Z.shiftl 1 0.
Definition VIRTIO_GPU_FORMAT_B8G8R8A8_UNORM : Z := 1.
Definition VIRTIO_GPU_FORMAT_B8G8R8X8_UNORM : Z := 2.
Definition VIRTIO_GPU_FORMAT_A8R8G8B8_UNORM : Z := 3.
Definition VIRTIO_GPU_FORMAT_X8R8G8B8_UNORM : Z := 4.
Definition VIRTIO_GPU_FORMAT_R8G8B8A8_UNORM : Z := 67.
Definition VIRTIO_GPU_FORMAT_X8B8G8R8_UNORM : Z := 68.
Definition VIRTIO_GPU_FORMAT_A8B8G8R8_UNORM : Z := 121.
Definition VIRTIO_GPU_FORMAT_R8G8B8X8_UNORM : Z := 134.

(** ** Structures *)

Record VirtioGpuConfig : Type := Mk_VirtioGpuConfig {
  config_events_read : Z;
  config_events_clear : Z;
  config_num_scanouts : Z;
  config_num_capsets : Z;
}.
#[export] Instance VirtioGpuConfig_bytes : ByteValued VirtioGpuConfig :=
  layout (le32 ** le32 ** le32 ** le32)
    (λ s, (config_events_read s, config_events_clear s, config_num_scanouts s,
        config_num_capsets s))
    (λ '(x0, x1, x2, x3), Mk_VirtioGpuConfig x0 x1 x2 x3).

Record virtio_gpu_ctrl_hdr : Type := Mk_virtio_gpu_ctrl_hdr {
  ctrl_hdr_type_ : Z;
  ctrl_hdr_flags : Z;
  ctrl_hdr_fence_id : Z;
  ctrl_hdr_ctx_id : Z;
  ctrl_hdr_ring_idx : Z;
  ctrl_hdr_padding : bytes;
}.
#[export] Instance virtio_gpu_ctrl_hdr_bytes : ByteValued virtio_gpu_ctrl_hdr :=
  layout (le32 ** le32 ** le64 ** le32 ** u8 ** (bytes_codec 3))
    (λ s, (ctrl_hdr_type_ s, ctrl_hdr_flags s, ctrl_hdr_fence_id s, ctrl_hdr_ctx_id s,
        ctrl_hdr_ring_idx s, ctrl_hdr_padding s))
    (λ '(x0, x1, x2, x3, x4, x5), Mk_virtio_gpu_ctrl_hdr x0 x1 x2 x3 x4 x5).

Record virtio_gpu_cursor_pos : Type := Mk_virtio_gpu_cursor_pos {
  cursor_pos_scanout_id : Z;
  cursor_pos_x : Z;
  cursor_pos_y : Z;
  cursor_pos_padding : Z;
}.
#[export] Instance virtio_gpu_cursor_pos_bytes : ByteValued virtio_gpu_cursor_pos :=
  layout (le32 ** le32 ** le32 ** le32)
    (λ s, (cursor_pos_scanout_id s, cursor_pos_x s, cursor_pos_y s, cursor_pos_padding s))
    (λ '(x0, x1, x2, x3), Mk_virtio_gpu_cursor_pos x0 x1 x2 x3).

Record virtio_gpu_update_cursor : Type := Mk_virtio_gpu_update_cursor {
  update_cursor_pos : virtio_gpu_cursor_pos;
  update_cursor_resource_id : Z;
  update_cursor_hot_x : Z;
  update_cursor_hot_y : Z;
  update_cursor_padding : Z;
}.
#[export] Instance virtio_gpu_update_cursor_bytes : ByteValued virtio_gpu_update_cursor :=
  layout (virtio_gpu_cursor_pos_bytes ** le32 ** le32 ** le32 ** le32)
    (λ s, (update_cursor_pos s, update_cursor_resource_id s, update_cursor_hot_x s,
        update_cursor_hot_y s, update_cursor_padding s))
    (λ '(x0, x1, x2, x3, x4), Mk_virtio_gpu_update_cursor x0 x1 x2 x3 x4).

Record virtio_gpu_rect : Type := Mk_virtio_gpu_rect {
  rect_x : Z;
  rect_y : Z;
  rect_width : Z;
  rect_height : Z;
}.
#[export] Instance virtio_gpu_rect_bytes : ByteValued virtio_gpu_rect :=
  layout (le32 ** le32 ** le32 ** le32)
    (λ s, (rect_x s, rect_y s, rect_width s, rect_height s))
    (λ '(x0, x1, x2, x3), Mk_virtio_gpu_rect x0 x1 x2 x3).

Record virtio_gpu_get_edid : Type := Mk_virtio_gpu_get_edid {
  get_edid_scanout : Z;
  get_edid_padding : Z;
}.
#[export] Instance virtio_gpu_get_edid_bytes : ByteValued virtio_gpu_get_edid :=
  layout (le32 ** le32)
    (λ s, (get_edid_scanout s, get_edid_padding s))
    (λ '(x0, x1), Mk_virtio_gpu_get_edid x0 x1).

Record virtio_gpu_resource_unref : Type := Mk_virtio_gpu_resource_unref {
  resource_unref_resource_id : Z;
  resource_unref_padding : Z;
}.
#[export] Instance virtio_gpu_resource_unref_bytes : ByteValued virtio_gpu_resource_unref :=
  layout (le32 ** le32)
    (λ s, (resource_unref_resource_id s, resource_unref_padding s))
    (λ '(x0, x1), Mk_virtio_gpu_resource_unref x0 x1).

Record virtio_gpu_resource_create_2d : Type := Mk_virtio_gpu_resource_create_2d {
  resource_create_2d_resource_id : Z;
  resource_create_2d_format : Z;
  resource_create_2d_width : Z;
  resource_create_2d_height : Z;
}.
#[export] Instance virtio_gpu_resource_create_2d_bytes : ByteValued
    virtio_gpu_resource_create_2d :=
  layout (le32 ** le32 ** le32 ** le32)
    (λ s, (resource_create_2d_resource_id s, resource_create_2d_format s,
        resource_create_2d_width s, resource_create_2d_height s))
    (λ '(x0, x1, x2, x3), Mk_virtio_gpu_resource_create_2d x0 x1 x2 x3).

Record virtio_gpu_set_scanout : Type := Mk_virtio_gpu_set_scanout {
  set_scanout_r : virtio_gpu_rect;
  set_scanout_scanout_id : Z;
  set_scanout_resource_id : Z;
}.
#[export] Instance virtio_gpu_set_scanout_bytes : ByteValued virtio_gpu_set_scanout :=
  layout (virtio_gpu_rect_bytes ** le32 ** le32)
    (λ s, (set_scanout_r s, set_scanout_scanout_id s, set_scanout_resource_id s))
    (λ '(x0, x1, x2), Mk_virtio_gpu_set_scanout x0 x1 x2).

Record virtio_gpu_resource_flush : Type := Mk_virtio_gpu_resource_flush {
  resource_flush_r : virtio_gpu_rect;
  resource_flush_resource_id : Z;
  resource_flush_padding : Z;
}.
#[export] Instance virtio_gpu_resource_flush_bytes : ByteValued virtio_gpu_resource_flush :=
  layout (virtio_gpu_rect_bytes ** le32 ** le32)
    (λ s, (resource_flush_r s, resource_flush_resource_id s, resource_flush_padding s))
    (λ '(x0, x1, x2), Mk_virtio_gpu_resource_flush x0 x1 x2).

Record virtio_gpu_transfer_to_host_2d : Type := Mk_virtio_gpu_transfer_to_host_2d {
  transfer_to_host_2d_r : virtio_gpu_rect;
  transfer_to_host_2d_offset : Z;
  transfer_to_host_2d_resource_id : Z;
  transfer_to_host_2d_padding : Z;
}.
#[export] Instance virtio_gpu_transfer_to_host_2d_bytes : ByteValued
    virtio_gpu_transfer_to_host_2d :=
  layout (virtio_gpu_rect_bytes ** le64 ** le32 ** le32)
    (λ s, (transfer_to_host_2d_r s, transfer_to_host_2d_offset s,
        transfer_to_host_2d_resource_id s, transfer_to_host_2d_padding s))
    (λ '(x0, x1, x2, x3), Mk_virtio_gpu_transfer_to_host_2d x0 x1 x2 x3).

Record virtio_gpu_mem_entry : Type := Mk_virtio_gpu_mem_entry {
  mem_entry_addr : Z;
  mem_entry_length : Z;
  mem_entry_padding : Z;
}.
#[export] Instance virtio_gpu_mem_entry_bytes : ByteValued virtio_gpu_mem_entry :=
  layout (le64 ** le32 ** le32)
    (λ s, (mem_entry_addr s, mem_entry_length s, mem_entry_padding s))
    (λ '(x0, x1, x2), Mk_virtio_gpu_mem_entry x0 x1 x2).

Record virtio_gpu_resource_attach_backing : Type := Mk_virtio_gpu_resource_attach_backing {
  resource_attach_backing_resource_id : Z;
  resource_attach_backing_nr_entries : Z;
}.
#[export] Instance virtio_gpu_resource_attach_backing_bytes : ByteValued
    virtio_gpu_resource_attach_backing :=
  layout (le32 ** le32)
    (λ s, (resource_attach_backing_resource_id s, resource_attach_backing_nr_entries s))
    (λ '(x0, x1), Mk_virtio_gpu_resource_attach_backing x0 x1).

Record virtio_gpu_resource_detach_backing : Type := Mk_virtio_gpu_resource_detach_backing {
  resource_detach_backing_resource_id : Z;
  resource_detach_backing_padding : Z;
}.
#[export] Instance virtio_gpu_resource_detach_backing_bytes : ByteValued
    virtio_gpu_resource_detach_backing :=
  layout (le32 ** le32)
    (λ s, (resource_detach_backing_resource_id s, resource_detach_backing_padding s))
    (λ '(x0, x1), Mk_virtio_gpu_resource_detach_backing x0 x1).

Record virtio_gpu_display_one : Type := Mk_virtio_gpu_display_one {
  display_one_r : virtio_gpu_rect;
  display_one_enabled : Z;
  display_one_flags : Z;
}.
#[export] Instance virtio_gpu_display_one_bytes : ByteValued virtio_gpu_display_one :=
  layout (virtio_gpu_rect_bytes ** le32 ** le32)
    (λ s, (display_one_r s, display_one_enabled s, display_one_flags s))
    (λ '(x0, x1, x2), Mk_virtio_gpu_display_one x0 x1 x2).

Record virtio_gpu_resp_display_info : Type := Mk_virtio_gpu_resp_display_info {
  resp_display_info_hdr : virtio_gpu_ctrl_hdr;
  resp_display_info_pmodes : list virtio_gpu_display_one;
}.
#[export] Instance virtio_gpu_resp_display_info_bytes : ByteValued virtio_gpu_resp_display_info :=
  layout (virtio_gpu_ctrl_hdr_bytes ** (array_codec (Z.to_nat VIRTIO_GPU_MAX_SCANOUTS)
      virtio_gpu_display_one_bytes))
    (λ s, (resp_display_info_hdr s, resp_display_info_pmodes s))
    (λ '(x0, x1), Mk_virtio_gpu_resp_display_info x0 x1).

Record virtio_gpu_resp_edid : Type := Mk_virtio_gpu_resp_edid {
  resp_edid_hdr : virtio_gpu_ctrl_hdr;
  resp_edid_size : Z;
  resp_edid_padding : Z;
  resp_edid_edid : bytes;
}.
#[export] Instance virtio_gpu_resp_edid_bytes : ByteValued virtio_gpu_resp_edid :=
  layout (virtio_gpu_ctrl_hdr_bytes ** le32 ** le32 ** (bytes_codec (Z.to_nat
      EDID_BLOB_MAX_SIZE)))
    (λ s, (resp_edid_hdr s, resp_edid_size s, resp_edid_padding s, resp_edid_edid s))
    (λ '(x0, x1, x2, x3), Mk_virtio_gpu_resp_edid x0 x1 x2 x3).

Record virtio_gpu_box : Type := Mk_virtio_gpu_box {
  box_x : Z;
  box_y : Z;
  box_z : Z;
  box_w : Z;
  box_h : Z;
  box_d : Z;
}.
#[export] Instance virtio_gpu_box_bytes : ByteValued virtio_gpu_box :=
  layout (le32 ** le32 ** le32 ** le32 ** le32 ** le32)
    (λ s, (box_x s, box_y s, box_z s, box_w s, box_h s, box_d s))
    (λ '(x0, x1, x2, x3, x4, x5), Mk_virtio_gpu_box x0 x1 x2 x3 x4 x5).

Record virtio_gpu_transfer_host_3d : Type := Mk_virtio_gpu_transfer_host_3d {
  transfer_host_3d_box_ : virtio_gpu_box;
  transfer_host_3d_offset : Z;
  transfer_host_3d_resource_id : Z;
  transfer_host_3d_level : Z;
  transfer_host_3d_stride : Z;
  transfer_host_3d_layer_stride : Z;
}.
#[export] Instance virtio_gpu_transfer_host_3d_bytes : ByteValued virtio_gpu_transfer_host_3d :=
  layout (virtio_gpu_box_bytes ** le64 ** le32 ** le32 ** le32 ** le32)
    (λ s, (transfer_host_3d_box_ s, transfer_host_3d_offset s, transfer_host_3d_resource_id s,
        transfer_host_3d_level s, transfer_host_3d_stride s, transfer_host_3d_layer_stride s))
    (λ '(x0, x1, x2, x3, x4, x5), Mk_virtio_gpu_transfer_host_3d x0 x1 x2 x3 x4 x5).

Record virtio_gpu_resource_create_3d : Type := Mk_virtio_gpu_resource_create_3d {
  resource_create_3d_resource_id : Z;
  resource_create_3d_target : Z;
  resource_create_3d_format : Z;
  resource_create_3d_bind : Z;
  resource_create_3d_width : Z;
  resource_create_3d_height : Z;
  resource_create_3d_depth : Z;
  resource_create_3d_array_size : Z;
  resource_create_3d_last_level : Z;
  resource_create_3d_nr_samples : Z;
  resource_create_3d_flags : Z;
  resource_create_3d_padding : Z;
}.
#[export] Instance virtio_gpu_resource_create_3d_bytes : ByteValued
    virtio_gpu_resource_create_3d :=
  layout (le32 ** le32 ** le32 ** le32 ** le32 ** le32 ** le32 ** le32 ** le32 ** le32 ** le32
      ** le32)
    (λ s, (resource_create_3d_resource_id s, resource_create_3d_target s,
        resource_create_3d_format s, resource_create_3d_bind s, resource_create_3d_width s,
        resource_create_3d_height s, resource_create_3d_depth s, resource_create_3d_array_size
        s, resource_create_3d_last_level s, resource_create_3d_nr_samples s,
        resource_create_3d_flags s, resource_create_3d_padding s))
    (λ '(x0, x1, x2, x3, x4, x5, x6, x7, x8, x9, x10, x11), Mk_virtio_gpu_resource_create_3d x0
        x1 x2 x3 x4 x5 x6 x7 x8 x9 x10 x11).

Record virtio_gpu_ctx_create : Type := Mk_virtio_gpu_ctx_create {
  ctx_create_nlen : Z;
  ctx_create_context_init : Z;
  ctx_create_debug_name : bytes;
}.
#[export] Instance virtio_gpu_ctx_create_bytes : ByteValued virtio_gpu_ctx_create :=
  layout (le32 ** le32 ** (bytes_codec 64))
    (λ s, (ctx_create_nlen s, ctx_create_context_init s, ctx_create_debug_name s))
    (λ '(x0, x1, x2), Mk_virtio_gpu_ctx_create x0 x1 x2).

Record virtio_gpu_ctx_destroy : Type := Mk_virtio_gpu_ctx_destroy {}.
#[export] Instance virtio_gpu_ctx_destroy_bytes : ByteValued virtio_gpu_ctx_destroy :=
  struct_codec empty_codec (λ _, tt) (λ _, Mk_virtio_gpu_ctx_destroy) ltac:(by intros [])
      ltac:(by intros []).

Record virtio_gpu_ctx_resource : Type := Mk_virtio_gpu_ctx_resource {
  ctx_resource_resource_id : Z;
  ctx_resource_padding : Z;
}.
#[export] Instance virtio_gpu_ctx_resource_bytes : ByteValued virtio_gpu_ctx_resource :=
  layout (le32 ** le32)
    (λ s, (ctx_resource_resource_id s, ctx_resource_padding s))
    (λ '(x0, x1), Mk_virtio_gpu_ctx_resource x0 x1).

Record virtio_gpu_cmd_submit : Type := Mk_virtio_gpu_cmd_submit {
  cmd_submit_size : Z;
  cmd_submit_num_in_fences : Z;
}.
#[export] Instance virtio_gpu_cmd_submit_bytes : ByteValued virtio_gpu_cmd_submit :=
  layout (le32 ** le32)
    (λ s, (cmd_submit_size s, cmd_submit_num_in_fences s))
    (λ '(x0, x1), Mk_virtio_gpu_cmd_submit x0 x1).

Record virtio_gpu_get_capset_info : Type := Mk_virtio_gpu_get_capset_info {
  get_capset_info_capset_index : Z;
  get_capset_info_padding : Z;
}.
#[export] Instance virtio_gpu_get_capset_info_bytes : ByteValued virtio_gpu_get_capset_info :=
  layout (le32 ** le32)
    (λ s, (get_capset_info_capset_index s, get_capset_info_padding s))
    (λ '(x0, x1), Mk_virtio_gpu_get_capset_info x0 x1).

Record virtio_gpu_resp_capset_info : Type := Mk_virtio_gpu_resp_capset_info {
  resp_capset_info_hdr : virtio_gpu_ctrl_hdr;
  resp_capset_info_capset_id : Z;
  resp_capset_info_capset_max_version : Z;
  resp_capset_info_capset_max_size : Z;
  resp_capset_info_padding : Z;
}.
#[export] Instance virtio_gpu_resp_capset_info_bytes : ByteValued virtio_gpu_resp_capset_info :=
  layout (virtio_gpu_ctrl_hdr_bytes ** le32 ** le32 ** le32 ** le32)
    (λ s, (resp_capset_info_hdr s, resp_capset_info_capset_id s,
        resp_capset_info_capset_max_version s, resp_capset_info_capset_max_size s,
        resp_capset_info_padding s))
    (λ '(x0, x1, x2, x3, x4), Mk_virtio_gpu_resp_capset_info x0 x1 x2 x3 x4).

Record virtio_gpu_get_capset : Type := Mk_virtio_gpu_get_capset {
  get_capset_capset_id : Z;
  get_capset_capset_version : Z;
}.
#[export] Instance virtio_gpu_get_capset_bytes : ByteValued virtio_gpu_get_capset :=
  layout (le32 ** le32)
    (λ s, (get_capset_capset_id s, get_capset_capset_version s))
    (λ '(x0, x1), Mk_virtio_gpu_get_capset x0 x1).

Record virtio_gpu_resp_capset : Type := Mk_virtio_gpu_resp_capset {
  resp_capset_hdr : virtio_gpu_ctrl_hdr;
}.
#[export] Instance virtio_gpu_resp_capset_bytes : ByteValued virtio_gpu_resp_capset :=
  layout (virtio_gpu_ctrl_hdr_bytes)
    (λ s, resp_capset_hdr s)
    (λ x0, Mk_virtio_gpu_resp_capset x0).

Record virtio_gpu_resp_resource_plane_info : Type := Mk_virtio_gpu_resp_resource_plane_info {
  resp_resource_plane_info_hdr : virtio_gpu_ctrl_hdr;
  resp_resource_plane_info_count : Z;
  resp_resource_plane_info_padding : Z;
  resp_resource_plane_info_format_modifier : Z;
  resp_resource_plane_info_strides : list Z;
  resp_resource_plane_info_offsets : list Z;
}.
#[export] Instance virtio_gpu_resp_resource_plane_info_bytes : ByteValued
    virtio_gpu_resp_resource_plane_info :=
  layout (virtio_gpu_ctrl_hdr_bytes ** le32 ** le32 ** le64 ** (array_codec 4 le32) **
      (array_codec 4 le32))
    (λ s, (resp_resource_plane_info_hdr s, resp_resource_plane_info_count s,
        resp_resource_plane_info_padding s, resp_resource_plane_info_format_modifier s,
        resp_resource_plane_info_strides s, resp_resource_plane_info_offsets s))
    (λ '(x0, x1, x2, x3, x4, x5), Mk_virtio_gpu_resp_resource_plane_info x0 x1 x2 x3 x4 x5).

Record virtio_gpu_resource_create_blob : Type := Mk_virtio_gpu_resource_create_blob {
  resource_create_blob_resource_id : Z;
  resource_create_blob_blob_mem : Z;
  resource_create_blob_blob_flags : Z;
  resource_create_blob_nr_entries : Z;
  resource_create_blob_blob_id : Z;
  resource_create_blob_size : Z;
}.
#[export] Instance virtio_gpu_resource_create_blob_bytes : ByteValued
    virtio_gpu_resource_create_blob :=
  layout (le32 ** le32 ** le32 ** le32 ** le64 ** le64)
    (λ s, (resource_create_blob_resource_id s, resource_create_blob_blob_mem s,
        resource_create_blob_blob_flags s, resource_create_blob_nr_entries s,
        resource_create_blob_blob_id s, resource_create_blob_size s))
    (λ '(x0, x1, x2, x3, x4, x5), Mk_virtio_gpu_resource_create_blob x0 x1 x2 x3 x4 x5).

Record virtio_gpu_resource_map_blob : Type := Mk_virtio_gpu_resource_map_blob {
  resource_map_blob_resource_id : Z;
  resource_map_blob_padding : Z;
  resource_map_blob_offset : Z;
}.
#[export] Instance virtio_gpu_resource_map_blob_bytes : ByteValued virtio_gpu_resource_map_blob :=
  layout (le32 ** le32 ** le64)
    (λ s, (resource_map_blob_resource_id s, resource_map_blob_padding s,
        resource_map_blob_offset s))
    (λ '(x0, x1, x2), Mk_virtio_gpu_resource_map_blob x0 x1 x2).

Record virtio_gpu_resource_unmap_blob : Type := Mk_virtio_gpu_resource_unmap_blob {
  resource_unmap_blob_resource_id : Z;
  resource_unmap_blob_padding : Z;
}.
#[export] Instance virtio_gpu_resource_unmap_blob_bytes : ByteValued
    virtio_gpu_resource_unmap_blob :=
  layout (le32 ** le32)
    (λ s, (resource_unmap_blob_resource_id s, resource_unmap_blob_padding s))
    (λ '(x0, x1), Mk_virtio_gpu_resource_unmap_blob x0 x1).

Record virtio_gpu_resp_map_info : Type := Mk_virtio_gpu_resp_map_info {
  resp_map_info_hdr : virtio_gpu_ctrl_hdr;
  resp_map_info_map_info : Z;
  resp_map_info_padding : Z;
}.
#[export] Instance virtio_gpu_resp_map_info_bytes : ByteValued virtio_gpu_resp_map_info :=
  layout (virtio_gpu_ctrl_hdr_bytes ** le32 ** le32)
    (λ s, (resp_map_info_hdr s, resp_map_info_map_info s, resp_map_info_padding s))
    (λ '(x0, x1, x2), Mk_virtio_gpu_resp_map_info x0 x1 x2).

Record virtio_gpu_resource_assign_uuid : Type := Mk_virtio_gpu_resource_assign_uuid {
  resource_assign_uuid_resource_id : Z;
  resource_assign_uuid_padding : Z;
}.
#[export] Instance virtio_gpu_resource_assign_uuid_bytes : ByteValued
    virtio_gpu_resource_assign_uuid :=
  layout (le32 ** le32)
    (λ s, (resource_assign_uuid_resource_id s, resource_assign_uuid_padding s))
    (λ '(x0, x1), Mk_virtio_gpu_resource_assign_uuid x0 x1).

Record virtio_gpu_resp_resource_uuid : Type := Mk_virtio_gpu_resp_resource_uuid {
  resp_resource_uuid_hdr : virtio_gpu_ctrl_hdr;
  resp_resource_uuid_uuid : bytes;
}.
#[export] Instance virtio_gpu_resp_resource_uuid_bytes : ByteValued
    virtio_gpu_resp_resource_uuid :=
  layout (virtio_gpu_ctrl_hdr_bytes ** (bytes_codec 16))
    (λ s, (resp_resource_uuid_hdr s, resp_resource_uuid_uuid s))
    (λ '(x0, x1), Mk_virtio_gpu_resp_resource_uuid x0 x1).

Record virtio_gpu_set_scanout_blob : Type := Mk_virtio_gpu_set_scanout_blob {
  set_scanout_blob_r : virtio_gpu_rect;
  set_scanout_blob_scanout_id : Z;
  set_scanout_blob_resource_id : Z;
  set_scanout_blob_width : Z;
  set_scanout_blob_height : Z;
  set_scanout_blob_format : Z;
  set_scanout_blob_padding : Z;
  set_scanout_blob_strides : list Z;
  set_scanout_blob_offsets : list Z;
}.
#[export] Instance virtio_gpu_set_scanout_blob_bytes : ByteValued virtio_gpu_set_scanout_blob :=
  layout (virtio_gpu_rect_bytes ** le32 ** le32 ** le32 ** le32 ** le32 ** le32 ** (array_codec
      4 le32) ** (array_codec 4 le32))
    (λ s, (set_scanout_blob_r s, set_scanout_blob_scanout_id s, set_scanout_blob_resource_id s,
        set_scanout_blob_width s, set_scanout_blob_height s, set_scanout_blob_format s,
        set_scanout_blob_padding s, set_scanout_blob_strides s, set_scanout_blob_offsets s))
    (λ '(x0, x1, x2, x3, x4, x5, x6, x7, x8), Mk_virtio_gpu_set_scanout_blob x0 x1 x2 x3 x4 x5
        x6 x7 x8).

(** ** Commands *)

(** The name of a context, as a [String]: the bytes of a C string, which are
    converted to UTF-8 with replacement characters where they are none, or the text
    of the error that there is no C string, with the place of the first nul byte if
    there is one. *)
Inductive debug_name : Type :=
| NameOf (c_str : bytes)
| NameErr (interior_nul : option nat).

(** [CStr::from_bytes_with_nul]: one nul byte, at the end *)
Definition from_bytes_with_nul (bs : bytes) : option nat + bytes :=
  match list_find (.= 0) bs with
  | Some (i, _) => if bool_decide (S i = length bs) then inr (take i bs) else inl (Some i)
  | None => inl None
  end.

Definition get_debug_name (c : virtio_gpu_ctx_create) : debug_name :=
  match from_bytes_with_nul (take (Z.to_nat (Z.min 64 (ctx_create_nlen c)))
          (ctx_create_debug_name c)) with
  | inr c_str => NameOf c_str
  | inl err => NameErr err
  end.

(** The names of the commands; [VIRTIO_GPU_CMD] gives their numbers. *)
Inductive cmd_name : Type :=
| GET_DISPLAY_INFO
| GET_EDID
| RESOURCE_CREATE_2D
| RESOURCE_UNREF
| SET_SCANOUT
| SET_SCANOUT_BLOB
| RESOURCE_FLUSH
| TRANSFER_TO_HOST_2D
| RESOURCE_ATTACH_BACKING
| RESOURCE_DETACH_BACKING
| GET_CAPSET_INFO
| GET_CAPSET
| CTX_CREATE
| CTX_DESTROY
| CTX_ATTACH_RESOURCE
| CTX_DETACH_RESOURCE
| RESOURCE_CREATE_3D
| TRANSFER_TO_HOST_3D
| TRANSFER_FROM_HOST_3D
| SUBMIT_3D
| RESOURCE_CREATE_BLOB
| RESOURCE_MAP_BLOB
| RESOURCE_UNMAP_BLOB
| UPDATE_CURSOR
| MOVE_CURSOR
| RESOURCE_ASSIGN_UUID
.

Class GpuCmdNumbers : Type := {
  VIRTIO_GPU_CMD : cmd_name → Z;
  #[global] VIRTIO_GPU_CMD_inj :: Inj (=) (=) VIRTIO_GPU_CMD;
  VIRTIO_GPU_CMD_u32 n : in_width 32 (VIRTIO_GPU_CMD n);
}.

(** A command and what comes with it. *)
Inductive GpuCommand : Type :=
| GetDisplayInfo
| GetEdid (info : virtio_gpu_get_edid)
| ResourceCreate2d (info : virtio_gpu_resource_create_2d)
| ResourceUnref (info : virtio_gpu_resource_unref)
| SetScanout (info : virtio_gpu_set_scanout)
| SetScanoutBlob (info : virtio_gpu_set_scanout_blob)
| ResourceFlush (info : virtio_gpu_resource_flush)
| TransferToHost2d (info : virtio_gpu_transfer_to_host_2d)
| ResourceAttachBacking (info : virtio_gpu_resource_attach_backing) (vecs : list (Z * Z))
| ResourceDetachBacking (info : virtio_gpu_resource_detach_backing)
| GetCapsetInfo (info : virtio_gpu_get_capset_info)
| GetCapset (info : virtio_gpu_get_capset)
| CtxCreate (info : virtio_gpu_ctx_create)
| CtxDestroy (info : virtio_gpu_ctx_destroy)
| CtxAttachResource (info : virtio_gpu_ctx_resource)
| CtxDetachResource (info : virtio_gpu_ctx_resource)
| ResourceCreate3d (info : virtio_gpu_resource_create_3d)
| TransferToHost3d (info : virtio_gpu_transfer_host_3d)
| TransferFromHost3d (info : virtio_gpu_transfer_host_3d)
| CmdSubmit3d (cmd_data : bytes) (fence_ids : list Z)
| ResourceCreateBlob (info : virtio_gpu_resource_create_blob)
| ResourceMapBlob (info : virtio_gpu_resource_map_blob)
| ResourceUnmapBlob (info : virtio_gpu_resource_unmap_blob)
| UpdateCursor (info : virtio_gpu_update_cursor)
| MoveCursor (info : virtio_gpu_update_cursor)
| ResourceAssignUuid (info : virtio_gpu_resource_assign_uuid)
.

Inductive GpuCommandDecodeError : Type :=
| InvalidType (type : Z)
| DecodeIO (code : Z)
| DecodeDescriptorReadFailed.

Definition command_name (cmd : GpuCommand) : string :=
  match cmd with
  | GetDisplayInfo => "GetDisplayInfo"
  | GetEdid _ => "GetEdid"
  | ResourceCreate2d _ => "ResourceCreate2d"
  | ResourceUnref _ => "ResourceUnref"
  | SetScanout _ => "SetScanout"
  | SetScanoutBlob _ => "SetScanoutBlob"
  | ResourceFlush _ => "ResourceFlush"
  | TransferToHost2d _ => "TransferToHost2d"
  | ResourceAttachBacking _ _ => "ResourceAttachBacking"
  | ResourceDetachBacking _ => "ResourceDetachBacking"
  | GetCapsetInfo _ => "GetCapsetInfo"
  | GetCapset _ => "GetCapset"
  | CtxCreate _ => "CtxCreate"
  | CtxDestroy _ => "CtxDestroy"
  | CtxAttachResource _ => "CtxAttachResource"
  | CtxDetachResource _ => "CtxDetachResource"
  | ResourceCreate3d _ => "ResourceCreate3d"
  | TransferToHost3d _ => "TransferToHost3d"
  | TransferFromHost3d _ => "TransferFromHost3d"
  | CmdSubmit3d _ _ => "CmdSubmit3d"
  | ResourceCreateBlob _ => "ResourceCreateBlob"
  | ResourceMapBlob _ => "ResourceMapBlob"
  | ResourceUnmapBlob _ => "ResourceUnmapBlob"
  | UpdateCursor _ => "UpdateCursor"
  | MoveCursor _ => "MoveCursor"
  | ResourceAssignUuid _ => "ResourceAssignUuid"
  end.

Section decode.
Context {R : Type} `{ReaderOps R} `{GpuCmdNumbers}.

Local Notation D A := (M R GpuCommandDecodeError A).

(** [reader.read_obj().map_err(|_| Error::DescriptorReadFailed)?] *)
Definition read {A} `{BV : ByteValued A} : D A := map_err (λ _, DecodeDescriptorReadFailed) read_obj.

(** [for _ in 0..n { .. push(..) }] *)
Fixpoint read_times {A} (n : nat) (item : D A) : D (list A) :=
  match n with
  | O => ret []
  | S n =>
      let! x := item in
      let! xs := read_times n item in
      ret (x :: xs)
  end.

Definition read_mem_entry : D (Z * Z) :=
  let! entry := read (A:=virtio_gpu_mem_entry) in
  ret (mem_entry_addr entry, mem_entry_length entry).

Definition read_fence_id : D Z := read (A:=Z) (BV:=le64).

(** What follows the header of a command of type [type]. *)
Definition decode_body (type : Z) : D GpuCommand :=
  if bool_decide (type = VIRTIO_GPU_CMD GET_DISPLAY_INFO) then
    ret GetDisplayInfo
  else if bool_decide (type = VIRTIO_GPU_CMD GET_EDID) then
    (let! info := read in ret (GetEdid info))
  else if bool_decide (type = VIRTIO_GPU_CMD RESOURCE_CREATE_2D) then
    (let! info := read in ret (ResourceCreate2d info))
  else if bool_decide (type = VIRTIO_GPU_CMD RESOURCE_UNREF) then
    (let! info := read in ret (ResourceUnref info))
  else if bool_decide (type = VIRTIO_GPU_CMD SET_SCANOUT) then
    (let! info := read in ret (SetScanout info))
  else if bool_decide (type = VIRTIO_GPU_CMD SET_SCANOUT_BLOB) then
    (let! info := read in ret (SetScanoutBlob info))
  else if bool_decide (type = VIRTIO_GPU_CMD RESOURCE_FLUSH) then
    (let! info := read in ret (ResourceFlush info))
  else if bool_decide (type = VIRTIO_GPU_CMD TRANSFER_TO_HOST_2D) then
    (let! info := read in ret (TransferToHost2d info))
  else if bool_decide (type = VIRTIO_GPU_CMD RESOURCE_ATTACH_BACKING) then
    (let! info := read (A:=virtio_gpu_resource_attach_backing) in
     let! entries := read_times (Z.to_nat (resource_attach_backing_nr_entries info)) read_mem_entry in
     ret (ResourceAttachBacking info entries))
  else if bool_decide (type = VIRTIO_GPU_CMD RESOURCE_DETACH_BACKING) then
    (let! info := read in ret (ResourceDetachBacking info))
  else if bool_decide (type = VIRTIO_GPU_CMD GET_CAPSET_INFO) then
    (let! info := read in ret (GetCapsetInfo info))
  else if bool_decide (type = VIRTIO_GPU_CMD GET_CAPSET) then
    (let! info := read in ret (GetCapset info))
  else if bool_decide (type = VIRTIO_GPU_CMD CTX_CREATE) then
    (let! info := read in ret (CtxCreate info))
  else if bool_decide (type = VIRTIO_GPU_CMD CTX_DESTROY) then
    (let! info := read in ret (CtxDestroy info))
  else if bool_decide (type = VIRTIO_GPU_CMD CTX_ATTACH_RESOURCE) then
    (let! info := read in ret (CtxAttachResource info))
  else if bool_decide (type = VIRTIO_GPU_CMD CTX_DETACH_RESOURCE) then
    (let! info := read in ret (CtxDetachResource info))
  else if bool_decide (type = VIRTIO_GPU_CMD RESOURCE_CREATE_3D) then
    (let! info := read in ret (ResourceCreate3d info))
  else if bool_decide (type = VIRTIO_GPU_CMD TRANSFER_TO_HOST_3D) then
    (let! info := read in ret (TransferToHost3d info))
  else if bool_decide (type = VIRTIO_GPU_CMD TRANSFER_FROM_HOST_3D) then
    (let! info := read in ret (TransferFromHost3d info))
  else if bool_decide (type = VIRTIO_GPU_CMD SUBMIT_3D) then
    (let! info := read (A:=virtio_gpu_cmd_submit) in
     let! fence_ids := read_times (Z.to_nat (cmd_submit_num_in_fences info)) read_fence_id in
     let! cmd_data := map_err (λ _, DecodeDescriptorReadFailed)
                        (r_read_exact (Z.to_nat (cmd_submit_size info))) in
     ret (CmdSubmit3d cmd_data fence_ids))
  else if bool_decide (type = VIRTIO_GPU_CMD RESOURCE_CREATE_BLOB) then
    (let! info := read in ret (ResourceCreateBlob info))
  else if bool_decide (type = VIRTIO_GPU_CMD RESOURCE_MAP_BLOB) then
    (let! info := read in ret (ResourceMapBlob info))
  else if bool_decide (type = VIRTIO_GPU_CMD RESOURCE_UNMAP_BLOB) then
    (let! info := read in ret (ResourceUnmapBlob info))
  else if bool_decide (type = VIRTIO_GPU_CMD UPDATE_CURSOR) then
    (let! info := read in ret (UpdateCursor info))
  else if bool_decide (type = VIRTIO_GPU_CMD MOVE_CURSOR) then
    (let! info := read in ret (MoveCursor info))
  else if bool_decide (type = VIRTIO_GPU_CMD RESOURCE_ASSIGN_UUID) then
    (let! info := read in ret (ResourceAssignUuid info))
  else fail (InvalidType type).

Definition decode : D (virtio_gpu_ctrl_hdr * GpuCommand) :=
  let! hdr := read (A:=virtio_gpu_ctrl_hdr) in
  let! cmd := decode_body (ctrl_hdr_type_ hdr) in
  ret (hdr, cmd).
End decode.

(** ** The layout of a command, as a driver writes it *)

Definition command_type (cmd : GpuCommand) : cmd_name :=
  match cmd with
  | GetDisplayInfo => GET_DISPLAY_INFO
  | GetEdid _ => GET_EDID
  | ResourceCreate2d _ => RESOURCE_CREATE_2D
  | ResourceUnref _ => RESOURCE_UNREF
  | SetScanout _ => SET_SCANOUT
  | SetScanoutBlob _ => SET_SCANOUT_BLOB
  | ResourceFlush _ => RESOURCE_FLUSH
  | TransferToHost2d _ => TRANSFER_TO_HOST_2D
  | ResourceAttachBacking _ _ => RESOURCE_ATTACH_BACKING
  | ResourceDetachBacking _ => RESOURCE_DETACH_BACKING
  | GetCapsetInfo _ => GET_CAPSET_INFO
  | GetCapset _ => GET_CAPSET
  | CtxCreate _ => CTX_CREATE
  | CtxDestroy _ => CTX_DESTROY
  | CtxAttachResource _ => CTX_ATTACH_RESOURCE
  | CtxDetachResource _ => CTX_DETACH_RESOURCE
  | ResourceCreate3d _ => RESOURCE_CREATE_3D
  | TransferToHost3d _ => TRANSFER_TO_HOST_3D
  | TransferFromHost3d _ => TRANSFER_FROM_HOST_3D
  | CmdSubmit3d _ _ => SUBMIT_3D
  | ResourceCreateBlob _ => RESOURCE_CREATE_BLOB
  | ResourceMapBlob _ => RESOURCE_MAP_BLOB
  | ResourceUnmapBlob _ => RESOURCE_UNMAP_BLOB
  | UpdateCursor _ => UPDATE_CURSOR
  | MoveCursor _ => MOVE_CURSOR
  | ResourceAssignUuid _ => RESOURCE_ASSIGN_UUID
  end.

Definition encode_entry (e : Z * Z) : bytes := as_slice (Mk_virtio_gpu_mem_entry e.1 e.2 0).
Definition encode_fence_id (id : Z) : bytes := c_to le64 id.

Definition encode_body (cmd : GpuCommand) : bytes :=
  match cmd with
  | GetDisplayInfo => []
  | ResourceAttachBacking info vecs => as_slice info ++ concat (encode_entry <$> vecs)
  | CmdSubmit3d cmd_data fence_ids =>
      as_slice (Mk_virtio_gpu_cmd_submit (Z.of_nat (length cmd_data)) (Z.of_nat (length fence_ids)))
      ++ concat (encode_fence_id <$> fence_ids) ++ cmd_data
  | GetEdid info => as_slice info
  | ResourceCreate2d info => as_slice info
  | ResourceUnref info => as_slice info
  | SetScanout info => as_slice info
  | SetScanoutBlob info => as_slice info
  | ResourceFlush info => as_slice info
  | TransferToHost2d info => as_slice info
  | ResourceDetachBacking info => as_slice info
  | GetCapsetInfo info => as_slice info
  | GetCapset info => as_slice info
  | CtxCreate info => as_slice info
  | CtxDestroy info => as_slice info
  | CtxAttachResource info => as_slice info
  | CtxDetachResource info => as_slice info
  | ResourceCreate3d info => as_slice info
  | TransferToHost3d info => as_slice info
  | TransferFromHost3d info => as_slice info
  | ResourceCreateBlob info => as_slice info
  | ResourceMapBlob info => as_slice info
  | ResourceUnmapBlob info => as_slice info
  | UpdateCursor info => as_slice info
  | MoveCursor info => as_slice info
  | ResourceAssignUuid info => as_slice info
  end.

(** The fields fit their widths, and the counts say how much follows. *)
Definition valid_command (cmd : GpuCommand) : Prop :=
  match cmd with
  | GetDisplayInfo => True
  | ResourceAttachBacking info vecs =>
      valid info ∧ resource_attach_backing_nr_entries info = Z.of_nat (length vecs) ∧
      Forall (λ e, in_width 64 e.1 ∧ in_width 32 e.2) vecs
  | CmdSubmit3d cmd_data fence_ids =>
      in_width 32 (Z.of_nat (length cmd_data)) ∧ Forall is_byte cmd_data ∧
      in_width 32 (Z.of_nat (length fence_ids)) ∧ Forall (in_width 64) fence_ids
  | GetEdid info => valid info
  | ResourceCreate2d info => valid info
  | ResourceUnref info => valid info
  | SetScanout info => valid info
  | SetScanoutBlob info => valid info
  | ResourceFlush info => valid info
  | TransferToHost2d info => valid info
  | ResourceDetachBacking info => valid info
  | GetCapsetInfo info => valid info
  | GetCapset info => valid info
  | CtxCreate info => valid info
  | CtxDestroy info => valid info
  | CtxAttachResource info => valid info
  | CtxDetachResource info => valid info
  | ResourceCreate3d info => valid info
  | TransferToHost3d info => valid info
  | TransferFromHost3d info => valid info
  | ResourceCreateBlob info => valid info
  | ResourceMapBlob info => valid info
  | ResourceUnmapBlob info => valid info
  | UpdateCursor info => valid info
  | MoveCursor info => valid info
  | ResourceAssignUuid info => valid info
  end.

(** ** Decoding *)

Section decode_properties.
Context {R : Type} `{ReaderLaws R} `{GpuCmdNumbers}.
Implicit Types r : R.

Lemma read_front {A} `{BV : ByteValued A} (a : A) r rest :
  valid a → r_remaining r = as_slice a ++ rest →
  ∃ r', read r = (Ret a, r') ∧ r_remaining r' = rest.
Proof.
  intros Ha Hr. destruct (read_obj_front a r rest Ha Hr) as (r' & Hrun & Hrem).
  exists r'. unfold read, map_err. by rewrite Hrun.
Qed.

Lemma read_cases {A} `{BV : ByteValued A} r :
  (∃ (a : A) r', read r = (Ret a, r') ∧ valid a ∧ r_remaining r = as_slice a ++ r_remaining r') ∨
  (∃ r', read (A:=A) r = (Fail DecodeDescriptorReadFailed, r')).
Proof.
  unfold read, map_err. destruct (read_obj_cases (A:=A) r) as [(a & r' & Hrun & ? & ?)|(r' & Hrun & ?)];
    rewrite Hrun; simpl; eauto 10.
Qed.

Lemma read_times_front {A} (item : M R GpuCommandDecodeError A) (enc : A → bytes) xs r rest :
  (∀ x r rest, x ∈ xs → r_remaining r = enc x ++ rest →
    ∃ r', item r = (Ret x, r') ∧ r_remaining r' = rest) →
  r_remaining r = concat (enc <$> xs) ++ rest →
  ∃ r', read_times (length xs) item r = (Ret xs, r') ∧ r_remaining r' = rest.
Proof.
  revert r. induction xs as [|x xs IH]; intros r Hitem Hr; simpl in *; [by exists r|].
  rewrite <-app_assoc in Hr.
  destruct (Hitem x r (concat (enc <$> xs) ++ rest)) as (r1 & Hrun & Hrem); [by left|done|].
  destruct (IH r1) as (r2 & Hrun2 & Hrem2); [intros; eapply Hitem; [by right|done]|done|].
  exists r2. unfold bind. by rewrite Hrun, Hrun2.
Qed.

Lemma read_times_cases {A} (item : M R GpuCommandDecodeError A) (enc : A → bytes) (P : A → Prop) n r :
  (∀ r, (∃ x r', item r = (Ret x, r') ∧ P x ∧
          length (r_remaining r) = (length (enc x) + length (r_remaining r'))%nat) ∨
        (∃ r', item r = (Fail DecodeDescriptorReadFailed, r'))) →
  (∃ xs r', read_times n item r = (Ret xs, r') ∧ length xs = n ∧ Forall P xs ∧
    length (r_remaining r) = (length (concat (enc <$> xs)) + length (r_remaining r'))%nat) ∨
  (∃ r', read_times n item r = (Fail DecodeDescriptorReadFailed, r')).
Proof.
  intros Hitem. revert r. induction n as [|n IH]; intros r; simpl.
  { left. exists [], r. by split_and!. }
  unfold bind, ret.
  destruct (Hitem r) as [(x & r1 & -> & Hx & Hl1)|(r1 & ->)]; [|by eauto].
  destruct (IH r1) as [(xs & r2 & -> & Hlen & Hxs & Hl2)|(r2 & ->)]; [|by eauto].
  left. exists (x :: xs), r2. split_and!; [done|simpl; lia|by constructor|].
  rewrite fmap_cons. cbn [concat]. rewrite length_app, Hl1, Hl2. lia.
Qed.

Lemma read_mem_entry_front e r rest :
  in_width 64 e.1 ∧ in_width 32 e.2 → r_remaining r = encode_entry e ++ rest →
  ∃ r', read_mem_entry r = (Ret e, r') ∧ r_remaining r' = rest.
Proof.
  intros [He1 He2] Hr.
  destruct (read_front (Mk_virtio_gpu_mem_entry e.1 e.2 0) r rest) as (r' & Hrun & Hrem); [|done|].
  { split; [split|]; done. }
  exists r'. unfold read_mem_entry, bind. rewrite Hrun. by destruct e.
Qed.

Lemma read_mem_entry_cases r :
  (∃ e r', read_mem_entry r = (Ret e, r') ∧ (in_width 64 e.1 ∧ in_width 32 e.2) ∧
    length (r_remaining r) = (length (encode_entry e) + length (r_remaining r'))%nat) ∨
  (∃ r', read_mem_entry r = (Fail DecodeDescriptorReadFailed, r')).
Proof.
  unfold read_mem_entry, bind, ret.
  destruct (read_cases (A:=virtio_gpu_mem_entry) r) as [(e & r' & -> & Hv & Hr)|(r' & ->)]; [|by eauto].
  destruct Hv as [[Ha Hl] Hp]. left. eexists _, _. split_and!; [done|done|done|].
  rewrite Hr, length_app. unfold encode_entry. by rewrite !length_as_slice.
Qed.

Lemma read_fence_id_cases r :
  (∃ id r', read_fence_id r = (Ret id, r') ∧ in_width 64 id ∧
    length (r_remaining r) = (length (encode_fence_id id) + length (r_remaining r'))%nat) ∨
  (∃ r', read_fence_id r = (Fail DecodeDescriptorReadFailed, r')).
Proof.
  unfold read_fence_id.
  destruct (read_cases (A:=Z) (BV:=le64) r) as [(e & r' & -> & Hv & Hr)|(r' & ->)]; [|by eauto].
  left. eexists _, _. split_and!; [done|done|]. by rewrite Hr, length_app.
Qed.

Lemma read_exact_front bs r rest :
  r_remaining r = bs ++ rest →
  ∃ r', r_read_exact (length bs) r = (Ret bs, r') ∧ r_remaining r' = rest.
Proof.
  intros Hr. destruct (r_read_enough (length bs) r) as (r' & Hrun & Hrem).
  { rewrite Hr, length_app. lia. }
  exists r'. destruct (take_drop_app (length bs) bs rest eq_refl) as [Ht Hd].
  by rewrite Hrun, Hrem, Hr, Ht, Hd.
Qed.

(** The branch of a command in the chain of comparisons. *)
Ltac pick_branch :=
  repeat rewrite (bool_decide_eq_false_2 (VIRTIO_GPU_CMD _ = VIRTIO_GPU_CMD _))
    by (intros ?%VIRTIO_GPU_CMD_inj; discriminate);
  rewrite (bool_decide_eq_true_2 (VIRTIO_GPU_CMD _ = VIRTIO_GPU_CMD _)) by done.

Lemma decode_body_front cmd r rest :
  valid_command cmd → r_remaining r = encode_body cmd ++ rest →
  ∃ r', decode_body (VIRTIO_GPU_CMD (command_type cmd)) r = (Ret cmd, r') ∧ r_remaining r' = rest.
Proof.
  intros Hv Hr. unfold decode_body.
  destruct cmd as [|info|info|info|info|info|info|info|info vecs|info|info|info|info|info|info|info
    |info|info|info|data ids|info|info|info|info|info|info];
    cbn [command_type encode_body valid_command] in *; pick_branch;
    try (destruct (read_front info r rest Hv Hr) as (r' & Hrun & Hrem);
         exists r'; unfold bind; by rewrite Hrun).
  - by exists r.
  - destruct Hv as (Hi & Hn & Hvecs). rewrite <-app_assoc in Hr.
    destruct (read_front info r _ Hi Hr) as (r1 & Hrun1 & Hr1).
    destruct (read_times_front read_mem_entry encode_entry vecs r1 rest) as (r2 & Hrun2 & Hr2); [|done|].
    { intros e r0 rest0 He. apply read_mem_entry_front. rewrite Forall_forall in Hvecs. auto. }
    exists r2. unfold bind. by rewrite Hrun1, Hn, Nat2Z.id, Hrun2.
  - destruct Hv as (Hd & Hbytes & Hi & Hids). rewrite <-!app_assoc in Hr.
    assert (valid (Mk_virtio_gpu_cmd_submit (Z.of_nat (length data)) (Z.of_nat (length ids))))
      as Hv by (by split).
    destruct (read_front _ r _ Hv Hr) as (r1 & Hrun1 & Hr1).
    destruct (read_times_front read_fence_id encode_fence_id ids r1 (data ++ rest))
      as (r2 & Hrun2 & Hr2); [|done|].
    { intros id r0 rest0 Hid. apply (read_front (BV:=le64)). rewrite Forall_forall in Hids.
      by apply Hids. }
    destruct (read_exact_front _ _ _ Hr2) as (r3 & Hrun3 & Hr3).
    exists r3. unfold bind, map_err. rewrite Hrun1. simpl. by rewrite !Nat2Z.id, Hrun2, Hrun3.
Qed.

(** How decoding the body of a command of type [type] may end. *)
Definition body_outcome (type : Z) r (run : outcome GpuCommandDecodeError GpuCommand * R) : Prop :=
  (∃ cmd r', run = (Ret cmd, r') ∧ valid_command cmd ∧ type = VIRTIO_GPU_CMD (command_type cmd) ∧
    length (r_remaining r) = (length (encode_body cmd) + length (r_remaining r'))%nat) ∨
  ((∃ n, type = VIRTIO_GPU_CMD n) ∧ ∃ r', run = (Fail DecodeDescriptorReadFailed, r')) ∨
  ((∀ n, type ≠ VIRTIO_GPU_CMD n) ∧ run = (Fail (InvalidType type), r)).

Lemma body_outcome_read {A} `{BV : ByteValued A} (f : A → GpuCommand) r n :
  (∀ a, encode_body (f a) = as_slice a) → (∀ a, valid a → valid_command (f a)) →
  (∀ a, command_type (f a) = n) →
  body_outcome (VIRTIO_GPU_CMD n) r ((let! info := read in ret (f info)) r).
Proof.
  intros He Hv Hn. unfold bind, ret.
  destruct (read_cases (A:=A) r) as [(a & r' & -> & Ha & Hr)|(r' & ->)].
  - left. eexists _, _. split_and!; [done|by apply Hv|by rewrite Hn|].
    by rewrite He, Hr, length_app.
  - right. left. eauto.
Qed.

Lemma body_outcome_attach r :
  body_outcome (VIRTIO_GPU_CMD RESOURCE_ATTACH_BACKING) r
    ((let! info := read (A:=virtio_gpu_resource_attach_backing) in
      let! entries := read_times (Z.to_nat (resource_attach_backing_nr_entries info)) read_mem_entry in
      ret (ResourceAttachBacking info entries)) r).
Proof.
  unfold bind, ret.
  destruct (read_cases (A:=virtio_gpu_resource_attach_backing) r)
    as [(info & r1 & -> & Hi & Hr)|(r1 & ->)]; [|right; left; by eauto].
  destruct (read_times_cases read_mem_entry encode_entry _
    (Z.to_nat (resource_attach_backing_nr_entries info)) r1 read_mem_entry_cases)
    as [(es & r2 & -> & Hlen & Hes & Hl)|(r2 & ->)]; [|right; left; by eauto].
  left. eexists _, _. split_and!; [done| |done|].
  - split; [done|]. split; [|done].
    rewrite Hlen, Z2Nat.id; [done|]. destruct Hi as [_ Hi]. by apply in_width_nonneg in Hi.
  - cbn [encode_body]. rewrite Hr, !length_app, Hl. lia.
Qed.

Lemma body_outcome_submit r :
  body_outcome (VIRTIO_GPU_CMD SUBMIT_3D) r
    ((let! info := read (A:=virtio_gpu_cmd_submit) in
      let! fence_ids := read_times (Z.to_nat (cmd_submit_num_in_fences info)) read_fence_id in
      let! cmd_data := map_err (λ _, DecodeDescriptorReadFailed)
                         (r_read_exact (Z.to_nat (cmd_submit_size info))) in
      ret (CmdSubmit3d cmd_data fence_ids)) r).
Proof.
  unfold bind, ret.
  destruct (read_cases (A:=virtio_gpu_cmd_submit) r) as [(info & r1 & -> & Hi & Hr)|(r1 & ->)];
    [|right; left; by eauto].
  destruct (read_times_cases read_fence_id encode_fence_id _
    (Z.to_nat (cmd_submit_num_in_fences info)) r1 read_fence_id_cases)
    as [(ids & r2 & -> & Hlen & Hids & Hl)|(r2 & ->)]; [|right; left; by eauto].
  unfold map_err. destruct Hi as [Hs Hn]. cbn [c_valid le32 le_codec fst snd] in Hs, Hn.
  destruct (decide (Z.to_nat (cmd_submit_size info) ≤ length (r_remaining r2))%nat) as [Hle|Hgt].
  2: { apply Nat.nle_gt in Hgt. destruct (r_read_short _ r2 Hgt) as (r3 & ->).
    right. left. simpl. eauto. }
  destruct (r_read_enough _ r2 Hle) as (r3 & -> & Hr3). simpl.
  pose proof (in_width_nonneg _ _ Hs). pose proof (in_width_nonneg _ _ Hn).
  set (data := take (Z.to_nat (cmd_submit_size info)) (r_remaining r2)).
  assert (Z.of_nat (length data) = cmd_submit_size info) as Hdata.
  { unfold data. rewrite length_take, Nat.min_l, Z2Nat.id by lia. done. }
  assert (Z.of_nat (length ids) = cmd_submit_num_in_fences info) as Hnum
    by (by rewrite Hlen, Z2Nat.id).
  left. eexists _, _. split_and!; [done| |done|].
  - cbn [valid_command]. rewrite Hdata, Hnum.
    split; [done|]. split; [|by split]. apply Forall_take, r_remaining_bytes.
  - cbn [encode_body]. rewrite Hdata, Hnum.
    replace (Mk_virtio_gpu_cmd_submit _ _) with info by (by destruct info).
    rewrite Hr, !length_app, Hl, Hr3, length_drop. lia.
Qed.

Lemma decode_body_cases type r : body_outcome type r (decode_body type r).
Proof.
  unfold decode_body.
  repeat (case_bool_decide;
    [subst type; first [apply body_outcome_read; by intros|apply body_outcome_attach
      |apply body_outcome_submit|left; eexists _, _; by split_and!]|]).
  right. right. split; [|done]. by intros [].
Qed.

Lemma decode_cases r :
  (∃ hdr cmd, (decode r).1 = Ret (hdr, cmd) ∧ valid_command cmd) ∨ (∃ e, (decode r).1 = Fail e).
Proof.
  unfold decode, bind, ret.
  destruct (read_cases (A:=virtio_gpu_ctrl_hdr) r) as [(hdr & r1 & -> & _)|(r1 & ->)]; [|by eauto].
  destruct (decode_body_cases (ctrl_hdr_type_ hdr) r1) as [(cmd & r2 & -> & Hv & _)|[(_ & r2 & ->)|(_ & ->)]];
    eauto.
Qed.

Lemma decode_result r :
  (∃ hdr cmd, (decode r).1 = Ret (hdr, cmd)) ∨ (∃ e, (decode r).1 = Fail e).
Proof. destruct (decode_cases r) as [(hdr & cmd & Hd & _)|He]; eauto. Qed.

(** Decoding the bytes of a header and a command. *)
Lemma decode_front hdr cmd r rest :
  valid hdr → valid_command cmd → ctrl_hdr_type_ hdr = VIRTIO_GPU_CMD (command_type cmd) →
  r_remaining r = as_slice hdr ++ encode_body cmd ++ rest →
  ∃ r', decode r = (Ret (hdr, cmd), r') ∧ r_remaining r' = rest.
Proof.
  intros Hhdr Hcmd Htype Hr. destruct (read_front hdr r _ Hhdr Hr) as (r1 & Hrun & Hr1).
  destruct (decode_body_front cmd r1 rest Hcmd Hr1) as (r2 & Hrun2 & Hr2).
  exists r2. unfold decode, bind. by rewrite Hrun, Htype, Hrun2.
Qed.

(** Claim C13. Decoding is the inverse of the wire format: for every command whose
    fields fit their widths, reading the bytes a driver lays out for a header and
    the command gives back that header and that command, and leaves the stream
    exactly behind them. *)
Theorem decode_roundtrip hdr cmd r rest :
  valid hdr → valid_command cmd → ctrl_hdr_type_ hdr = VIRTIO_GPU_CMD (command_type cmd) →
  r_remaining r = as_slice hdr ++ encode_body cmd ++ rest →
  ∃ r', decode r = (Ret (hdr, cmd), r') ∧ r_remaining r' = rest.
Proof. apply decode_front. Qed.

(** Claim C21. Decoding a chain that a guest filled with anything never panics. It
    returns a command only with a valid header that names it, whose fields fit
    their widths and whose counts are those of the lists that came with it, and
    consumes exactly the bytes of both; a header with an unknown type is reported
    with that type; and every other outcome is a failed read. *)
Theorem decode_total r :
  (∃ hdr cmd r', decode r = (Ret (hdr, cmd), r') ∧ valid hdr ∧ valid_command cmd ∧
    ctrl_hdr_type_ hdr = VIRTIO_GPU_CMD (command_type cmd) ∧
    length (r_remaining r) =
      (size_of virtio_gpu_ctrl_hdr + length (encode_body cmd) + length (r_remaining r'))%nat) ∨
  (∃ hdr rest r', r_remaining r = as_slice hdr ++ rest ∧
    (∀ n, ctrl_hdr_type_ hdr ≠ VIRTIO_GPU_CMD n) ∧
    decode r = (Fail (InvalidType (ctrl_hdr_type_ hdr)), r')) ∨
  (∃ r', decode r = (Fail DecodeDescriptorReadFailed, r')).
Proof.
  unfold decode, bind, ret.
  destruct (read_cases (A:=virtio_gpu_ctrl_hdr) r) as [(hdr & r1 & -> & Hv & Hr)|(r1 & ->)];
    [|by eauto].
  destruct (decode_body_cases (ctrl_hdr_type_ hdr) r1)
    as [(cmd & r2 & -> & Hc & Ht & Hl)|[(_ & r2 & ->)|(Hn & ->)]]; [|by eauto|].
  - left. eexists _, _, _. split_and!; [done..|].
    rewrite Hr, length_app, length_as_slice by done. lia.
  - right. left. eauto 10.
Qed.
End decode_properties.

(** ** A command on the wire *)
Module ProtocolExamples.
Import SimQueue.

(** Numbers of the virtio specification: 2d commands from 0x0100, 3d commands
    from 0x0200, cursor commands from 0x0300. *)
#[export] Instance numbers : GpuCmdNumbers.
Proof.
  refine {| VIRTIO_GPU_CMD n :=
    match n with
    | GET_DISPLAY_INFO => 0x100 | RESOURCE_CREATE_2D => 0x101 | RESOURCE_UNREF => 0x102
    | SET_SCANOUT => 0x103 | RESOURCE_FLUSH => 0x104 | TRANSFER_TO_HOST_2D => 0x105
    | RESOURCE_ATTACH_BACKING => 0x106 | RESOURCE_DETACH_BACKING => 0x107
    | GET_CAPSET_INFO => 0x108 | GET_CAPSET => 0x109 | GET_EDID => 0x10a
    | RESOURCE_ASSIGN_UUID => 0x10b | RESOURCE_CREATE_BLOB => 0x10c
    | SET_SCANOUT_BLOB => 0x10d
    | CTX_CREATE => 0x200 | CTX_DESTROY => 0x201 | CTX_ATTACH_RESOURCE => 0x202
    | CTX_DETACH_RESOURCE => 0x203 | RESOURCE_CREATE_3D => 0x204
    | TRANSFER_TO_HOST_3D => 0x205 | TRANSFER_FROM_HOST_3D => 0x206 | SUBMIT_3D => 0x207
    | RESOURCE_MAP_BLOB => 0x208 | RESOURCE_UNMAP_BLOB => 0x209
    | UPDATE_CURSOR => 0x300 | MOVE_CURSOR => 0x301
    end |}.
  - intros [] []; done.
  - intros []; done.
Defined.

Definition hdr : virtio_gpu_ctrl_hdr := Mk_virtio_gpu_ctrl_hdr 0x106 1 7 0 0 [0; 0; 0].
Definition cmd : GpuCommand :=
  ResourceAttachBacking (Mk_virtio_gpu_resource_attach_backing 5 2) [(4096, 100); (8192, 50)].
Definition wire : reader := mk_reader (as_slice hdr ++ encode_body cmd ++ [1; 2]).

Lemma decode_roundtrip_witness :
  ∃ r', decode wire = (Ret (hdr, cmd), r') ∧ r_remaining r' = [1; 2].
Proof.
  assert (r_remaining wire = as_slice hdr ++ encode_body cmd ++ [1; 2]) as Hwire
    by (vm_compute; reflexivity).
  assert (valid_command cmd) as Hcmd.
  { split; [by split|]. split; [done|]. repeat constructor; done. }
  assert (valid hdr) as Hhdr by (repeat split; try done; repeat constructor; done).
  exact (decode_roundtrip hdr cmd wire [1; 2] Hhdr Hcmd eq_refl Hwire).
Defined.

(** A chain that holds half a header, and one that holds the command. *)
Lemma decode_total_witness :
  (decode (mk_reader [1; 2; 3])).1 = Fail DecodeDescriptorReadFailed ∧
  ((∃ hdr cmd r', decode wire = (Ret (hdr, cmd), r') ∧ valid hdr ∧ valid_command cmd ∧
      ctrl_hdr_type_ hdr = VIRTIO_GPU_CMD (command_type cmd) ∧
      length (r_remaining wire) =
        (size_of virtio_gpu_ctrl_hdr + length (encode_body cmd) + length (r_remaining r'))%nat) ∨
    (∃ hdr rest r', r_remaining wire = as_slice hdr ++ rest ∧
      (∀ n, ctrl_hdr_type_ hdr ≠ VIRTIO_GPU_CMD n) ∧
      decode wire = (Fail (InvalidType (ctrl_hdr_type_ hdr)), r')) ∨
    (∃ r', decode wire = (Fail DecodeDescriptorReadFailed, r'))).
Proof.
  split; [vm_compute; reflexivity|exact (decode_total wire)].
Defined.
End ProtocolExamples.
