(* ===== verification/GpuResponse.v ===== *)
(** * The responses of a virtio GPU: [device/virtio-gpu/src/protocol.rs]

    [GpuResponse] and [encode], which writes the header of a response and what
    comes with it into the writable buffers of a chain and returns the length that
    is reported to the driver. *)

From S2P Require Import Prelude VirtQueue Codec GpuProtocol.

Inductive resp_name : Type :=
| OK_NODATA | OK_DISPLAY_INFO | OK_CAPSET_INFO | OK_CAPSET | OK_EDID | OK_RESOURCE_UUID
| OK_MAP_INFO | ERR_UNSPEC | ERR_OUT_OF_MEMORY | ERR_INVALID_SCANOUT_ID
| ERR_INVALID_RESOURCE_ID | ERR_INVALID_CONTEXT_ID | ERR_INVALID_PARAMETER.

(** The numbers of the responses come from the header bindings. *)
Class GpuRespNumbers : Type := {
  VIRTIO_GPU_RESP : resp_name → Z;
  VIRTIO_GPU_RESP_u32 n : in_width 32 (VIRTIO_GPU_RESP n);
}.

Record GpuResponsePlaneInfo : Type := MkGpuResponsePlaneInfo {
  plane_stride : Z;
  plane_offset : Z;
}.

(** An error of rutabaga is a number here. *)
Inductive RutabagaError : Type := MkRutabagaError (code : Z).

Inductive GpuResponse : Type :=
| OkNoData
| OkDisplayInfo (info : list (Z * Z * bool))
| OkEdid (blob : bytes)
| OkCapsetInfo (capset_id version size : Z)
| OkCapset (data : bytes)
| OkResourcePlaneInfo (format_modifier : Z) (plane_info : list GpuResponsePlaneInfo)
| OkResourceUuid (uuid : bytes)
| OkMapInfo (map_info : Z)
| ErrUnspec
| ErrRutabaga (e : RutabagaError)
| ErrScanout (num_scanouts : Z)
| ErrOutOfMemory
| ErrInvalidScanoutId
| ErrInvalidResourceId
| ErrInvalidContextId
| ErrInvalidParameter.

Inductive GpuResponseEncodeError : Type :=
| EncodeIO (code : Z)
| SizeOverflow
| TooManyDisplays (n : Z)
| TooManyPlanes (n : Z)
| DescriptorWriteFailed.

(** Zeroed structures, as [Default] derives them. *)
Definition default_rect : virtio_gpu_rect := Mk_virtio_gpu_rect 0 0 0 0.
Definition default_display_one : virtio_gpu_display_one := Mk_virtio_gpu_display_one default_rect 0 0.

Section encode.
Context {Wr : Type} `{WriterOps Wr} `{GpuRespNumbers}.

Definition get_type (resp : GpuResponse) : Z :=
  match resp with
  | OkNoData => VIRTIO_GPU_RESP OK_NODATA
  | OkDisplayInfo _ => VIRTIO_GPU_RESP OK_DISPLAY_INFO
  | OkEdid _ => VIRTIO_GPU_RESP OK_EDID
  | OkCapsetInfo _ _ _ => VIRTIO_GPU_RESP OK_CAPSET_INFO
  | OkCapset _ => VIRTIO_GPU_RESP OK_CAPSET
  | OkResourcePlaneInfo _ _ => VIRTIO_GPU_RESP_OK_RESOURCE_PLANE_INFO
  | OkResourceUuid _ => VIRTIO_GPU_RESP OK_RESOURCE_UUID
  | OkMapInfo _ => VIRTIO_GPU_RESP OK_MAP_INFO
  | ErrUnspec | ErrRutabaga _ | ErrScanout _ => VIRTIO_GPU_RESP ERR_UNSPEC
  | ErrOutOfMemory => VIRTIO_GPU_RESP ERR_OUT_OF_MEMORY
  | ErrInvalidScanoutId => VIRTIO_GPU_RESP ERR_INVALID_SCANOUT_ID
  | ErrInvalidResourceId => VIRTIO_GPU_RESP ERR_INVALID_RESOURCE_ID
  | ErrInvalidContextId => VIRTIO_GPU_RESP ERR_INVALID_CONTEXT_ID
  | ErrInvalidParameter => VIRTIO_GPU_RESP ERR_INVALID_PARAMETER
  end.

Definition response_header (resp : GpuResponse) (flags fence_id ctx_id ring_idx : Z) :
    virtio_gpu_ctrl_hdr :=
  Mk_virtio_gpu_ctrl_hdr (get_type resp) flags fence_id ctx_id ring_idx [0; 0; 0].

(** One element of [info] in its slot of the array of modes. *)
Definition display_mode (m : Z * Z * bool) : virtio_gpu_display_one :=
  let '(width, height, enabled) := m in
  Mk_virtio_gpu_display_one (Mk_virtio_gpu_rect 0 0 width height)
    (if enabled : bool then 1 else 0) 0.

(** The first elements of an array of [n] defaults, assigned from a list. *)
Definition fill {A} (n : nat) (default : A) (l : list A) : list A :=
  take n l ++ replicate (n - length l) default.

Definition write_object {A} `{ByteValued A} (a : A) : M Wr GpuResponseEncodeError unit :=
  map_err (λ _, DescriptorWriteFailed) (w_write_obj (as_slice a)).

Definition encode (resp : GpuResponse) (flags fence_id ctx_id ring_idx : Z) :
    M Wr GpuResponseEncodeError Z :=
  let hdr := response_header resp flags fence_id ctx_id ring_idx in
  let! len :=
    match resp with
    | OkDisplayInfo info =>
        if bool_decide (VIRTIO_GPU_MAX_SCANOUTS < Z.of_nat (length info))
        then fail (TooManyDisplays (Z.of_nat (length info)))
        else
          do! write_object (Mk_virtio_gpu_resp_display_info hdr
                (fill (Z.to_nat VIRTIO_GPU_MAX_SCANOUTS) default_display_one
                   (display_mode <$> info))) in
          ret (Z.of_nat (size_of virtio_gpu_resp_display_info))
    | OkEdid blob =>
        let size := Z.of_nat (length blob) in
        if bool_decide (in_width 32 size) then
          (* copy_from_slice asserts that the lengths agree *)
          do! assert (bool_decide (Z.of_nat (length blob) = EDID_BLOB_MAX_SIZE)) in
          do! write_object (Mk_virtio_gpu_resp_edid hdr size 0 blob) in
          ret (Z.of_nat (size_of virtio_gpu_resp_edid))
        else fail SizeOverflow
    | OkCapsetInfo capset_id version size =>
        do! write_object (Mk_virtio_gpu_resp_capset_info hdr capset_id version size 0) in
        ret (Z.of_nat (size_of virtio_gpu_resp_capset_info))
    | OkCapset data =>
        do! write_object hdr in
        do! map_err (λ _, DescriptorWriteFailed) (w_write data) in
        ret (Z.of_nat (size_of virtio_gpu_ctrl_hdr) + Z.of_nat (length data))
    | OkResourcePlaneInfo format_modifier plane_info =>
        if bool_decide (PLANE_INFO_MAX_COUNT < Z.of_nat (length plane_info))
        then fail (TooManyPlanes (Z.of_nat (length plane_info)))
        else
          let strides := fill (Z.to_nat PLANE_INFO_MAX_COUNT) 0 (plane_stride <$> plane_info) in
          let offsets := fill (Z.to_nat PLANE_INFO_MAX_COUNT) 0 (plane_offset <$> plane_info) in
          let size := Z.of_nat (size_of virtio_gpu_resp_resource_plane_info) in
          let! available := gets w_available_bytes in
          if bool_decide (size ≤ available) then ret size
          else
            do! write_object (Mk_virtio_gpu_ctrl_hdr (VIRTIO_GPU_RESP OK_NODATA)
                  flags fence_id ctx_id ring_idx [0; 0; 0]) in
            ret (Z.of_nat (size_of virtio_gpu_ctrl_hdr))
    | OkResourceUuid uuid =>
        do! write_object (Mk_virtio_gpu_resp_resource_uuid hdr uuid) in
        ret (Z.of_nat (size_of virtio_gpu_resp_resource_uuid))
    | OkMapInfo map_info =>
        do! write_object (Mk_virtio_gpu_resp_map_info hdr map_info 0) in
        ret (Z.of_nat (size_of virtio_gpu_resp_map_info))
    | _ =>
        do! write_object hdr in
        ret (Z.of_nat (size_of virtio_gpu_ctrl_hdr))
    end in
  lift (try_into 32 len SizeOverflow).

(** The bytes of a response that is one object on the wire, where [encode] can
    make that object. *)
Definition response_object (resp : GpuResponse) (hdr : virtio_gpu_ctrl_hdr) : option bytes :=
  match resp with
  | OkDisplayInfo info =>
      if bool_decide (Z.of_nat (length info) ≤ VIRTIO_GPU_MAX_SCANOUTS)
      then Some (as_slice (Mk_virtio_gpu_resp_display_info hdr
             (fill (Z.to_nat VIRTIO_GPU_MAX_SCANOUTS) default_display_one (display_mode <$> info))))
      else None
  | OkEdid blob =>
      if bool_decide (Z.of_nat (length blob) = EDID_BLOB_MAX_SIZE)
      then Some (as_slice (Mk_virtio_gpu_resp_edid hdr (Z.of_nat (length blob)) 0 blob))
      else None
  | OkCapsetInfo capset_id version size =>
      Some (as_slice (Mk_virtio_gpu_resp_capset_info hdr capset_id version size 0))
  | OkCapset _ | OkResourcePlaneInfo _ _ => None
  | OkResourceUuid uuid => Some (as_slice (Mk_virtio_gpu_resp_resource_uuid hdr uuid))
  | OkMapInfo map_info => Some (as_slice (Mk_virtio_gpu_resp_map_info hdr map_info 0))
  | _ => Some (as_slice hdr)
  end.

(** The fields of a response fit their widths. *)
Definition valid_response (resp : GpuResponse) : Prop :=
  match resp with
  | OkDisplayInfo info => Forall (λ m, in_width 32 m.1.1 ∧ in_width 32 m.1.2) info
  | OkEdid blob => Forall is_byte blob
  | OkCapsetInfo capset_id version size =>
      in_width 32 capset_id ∧ in_width 32 version ∧ in_width 32 size
  | OkCapset data => Forall is_byte data
  | OkResourcePlaneInfo fm planes => in_width 64 fm
  | OkResourceUuid uuid => length uuid = 16%nat ∧ Forall is_byte uuid
  | OkMapInfo map_info => in_width 32 map_info
  | _ => True
  end.
End encode.

Section encode_properties.
Context {Wr : Type} `{WriterLaws Wr} `{GpuRespNumbers}.
Implicit Types w : Wr.

Lemma write_object_room {A} `{BV : ByteValued A} (a : A) w :
  Z.of_nat (length (as_slice a)) ≤ w_available_bytes w →
  ∃ w', write_object a w = (Ret tt, w') ∧ w_written w' = w_written w ++ as_slice a ∧
    w_available_bytes w' = w_available_bytes w - Z.of_nat (length (as_slice a)).
Proof.
  intros Hr. destruct (w_write_obj_room _ _ Hr) as (w' & Hrun & ? & ?).
  exists w'. unfold write_object, map_err. by rewrite Hrun.
Qed.

Lemma write_object_short {A} `{BV : ByteValued A} (a : A) w :
  w_available_bytes w < Z.of_nat (length (as_slice a)) →
  ∃ w', write_object a w = (Fail DescriptorWriteFailed, w').
Proof.
  intros Hr. destruct (w_write_obj_short _ _ Hr) as (w' & Hrun).
  exists w'. unfold write_object, map_err. by rewrite Hrun.
Qed.

(** Writing is never cut off, and neither is encoding. *)
Lemma write_object_keeps {A} `{BV : ByteValued A} (a : A) : keeps (λ _ : Wr, tt) (write_object a).
Proof.
  intros w. split; [done|].
  destruct (decide (Z.of_nat (length (as_slice a)) ≤ w_available_bytes w)) as [Hr|Hs].
  - by destruct (write_object_room a w Hr) as (w' & -> & _).
  - destruct (write_object_short a w) as (w' & ->); [lia|done].
Qed.

Lemma encode_keeps resp flags fence_id ctx_id ring_idx :
  keeps (λ _ : Wr, tt) (encode resp flags fence_id ctx_id ring_idx).
Proof.
  assert (∀ len, keeps (λ _ : Wr, tt) (lift (try_into 32 len SizeOverflow))) as Hlen.
  { intros len. apply keeps_lift. unfold try_into. by case_bool_decide. }
  assert (∀ data, keeps (λ _ : Wr, tt) (map_err (λ _, DescriptorWriteFailed) (w_write data))) as Hw.
  { intros data. apply keeps_map_err. intros w. split; [done|].
    by destruct (w_write_result data w) as [(n & w' & ->)|(w' & ->)]. }
  unfold encode. apply keeps_bind; [|done].
  destruct resp; auto 10 using write_object_keeps with keeps.
Qed.

(** Writing one object, reported with its size. *)
Definition encodes (run : outcome GpuResponseEncodeError Z * Wr) (bs : bytes) w : Prop :=
  (Z.of_nat (length bs) ≤ w_available_bytes w →
    ∃ w', run = (Ret (Z.of_nat (length bs)), w') ∧ w_written w' = w_written w ++ bs) ∧
  (w_available_bytes w < Z.of_nat (length bs) →
    ∃ w', run = (Fail DescriptorWriteFailed, w')).

Lemma encodes_object {A} `{BV : ByteValued A} (a : A) w :
  valid a → Z.of_nat (size_of A) < 2 ^ 32 →
  encodes ((let! len := do! write_object a in ret (Z.of_nat (size_of A)) in
            lift (try_into 32 len SizeOverflow)) w) (as_slice a) w.
Proof.
  intros Ha Hs. unfold encodes, bind, ret, lift. rewrite length_as_slice by done. split; intros Hw.
  - destruct (write_object_room a w) as (w' & -> & Hw' & _); [by rewrite length_as_slice|].
    exists w'. unfold try_into. rewrite bool_decide_eq_true_2; [done|]. unfold in_width. lia.
  - destruct (write_object_short a w) as (w' & ->); [by rewrite length_as_slice|]. eauto.
Qed.

Lemma length_fill {A} n (d : A) l : length (fill n d l) = n.
Proof. unfold fill. rewrite length_app, length_take, length_replicate. lia. Qed.

Lemma Forall_fill {A} (P : A → Prop) n d l : P d → Forall P l → Forall P (fill n d l).
Proof. intros Hd Hl. apply Forall_app. split; [by apply Forall_take|by apply Forall_replicate]. Qed.

Lemma display_mode_valid m :
  in_width 32 m.1.1 ∧ in_width 32 m.1.2 → valid (display_mode m).
Proof.
  destruct m as [[width height] enabled]. simpl. intros [Hw Hh].
  do 2 (split; [|by try destruct enabled]). by do 3 (split; [|done]).
Qed.

(** The header of a response fits when what it echoes does. *)
Lemma response_header_fits resp flags fence_id ctx_id ring_idx :
  in_width 32 flags → in_width 64 fence_id → in_width 32 ctx_id → in_width 8 ring_idx →
  valid (response_header resp flags fence_id ctx_id ring_idx).
Proof.
  intros ????. split; [|split; [done|repeat constructor; done]]. do 4 (split; [|done]).
  destruct resp; by try apply VIRTIO_GPU_RESP_u32.
Qed.

(** Encoding a response that is one object. *)
Lemma encode_object_run resp flags fence_id ctx_id ring_idx bs w :
  let hdr := response_header resp flags fence_id ctx_id ring_idx in
  valid hdr → valid_response resp → response_object resp hdr = Some bs →
  encodes (encode resp flags fence_id ctx_id ring_idx w) bs w ∧
  from_slice (take (size_of virtio_gpu_ctrl_hdr) bs) = hdr.
Proof.
  intros hdr Hhdr Hresp Hobj. unfold encode. fold hdr.
  assert (∀ (rest : bytes), from_slice (take (size_of virtio_gpu_ctrl_hdr) (as_slice hdr ++ rest)) = hdr)
    as Hhead.
  { intros rest. destruct (take_drop_app _ (as_slice hdr) rest (length_as_slice hdr Hhdr)) as [-> _].
    by apply from_as_slice. }
  assert (∀ r1 r2, from_slice (take (size_of virtio_gpu_ctrl_hdr) ((as_slice hdr ++ r1) ++ r2)) = hdr)
    as Hhead2 by (intros; rewrite <-app_assoc; apply Hhead).
  assert (∀ r1 r2 r3, from_slice (take (size_of virtio_gpu_ctrl_hdr)
    (((as_slice hdr ++ r1) ++ r2) ++ r3)) = hdr) as Hhead3
    by (intros; rewrite <-!app_assoc; apply Hhead).
  assert (∀ r1 r2 r3 r4, from_slice (take (size_of virtio_gpu_ctrl_hdr)
    ((((as_slice hdr ++ r1) ++ r2) ++ r3) ++ r4)) = hdr) as Hhead4
    by (intros; rewrite <-!app_assoc; apply Hhead).
  assert (from_slice (take (size_of virtio_gpu_ctrl_hdr) (as_slice hdr)) = hdr) as Hhead'.
  { rewrite <-(app_nil_r (as_slice hdr)). apply Hhead. }
  destruct resp; cbn [response_object valid_response] in *; try discriminate;
    try (injection Hobj as <-; split; [by apply encodes_object|done]).
  - case_bool_decide as Hn; [|done]. injection Hobj as <-.
    rewrite (bool_decide_eq_false_2 (VIRTIO_GPU_MAX_SCANOUTS < _)) by lia.
    split; [|apply Hhead]. apply encodes_object; [|done]. split; [done|].
    split; [apply length_fill|]. apply Forall_fill.
    + repeat split; done.
    + apply Forall_fmap. eapply Forall_impl; [done|]. intros m. apply display_mode_valid.
  - case_bool_decide as Hn; [|done]. injection Hobj as <-.
    assert (in_width 32 (Z.of_nat (length blob))) as Hw.
    { rewrite Hn. done. }
    rewrite (bool_decide_eq_true_2 _ Hw). unfold assert, bind at 2, ret at 1.
    split; [|apply Hhead3].
    apply encodes_object; [|done]. split; [split; [split|]|]; try done. split; [|done].
    change (length blob = Z.to_nat EDID_BLOB_MAX_SIZE). by rewrite <-Hn, Nat2Z.id.
  - destruct Hresp as (? & ? & ?). injection Hobj as <-. split; [|apply Hhead4].
    apply encodes_object; [|done]. do 4 (split; [|done]). done.
Qed.

(** Claim C29. A response that is one object is written exactly as the protocol
    lays it out, header first, and the reported length is the number of bytes
    written; when the buffers of the chain are too small for it the encoding
    fails. *)
Theorem encode_object resp flags fence_id ctx_id ring_idx bs w :
  let hdr := response_header resp flags fence_id ctx_id ring_idx in
  valid hdr → valid_response resp → response_object resp hdr = Some bs →
  encodes (encode resp flags fence_id ctx_id ring_idx w) bs w ∧
  from_slice (take (size_of virtio_gpu_ctrl_hdr) bs) = hdr.
Proof. apply encode_object_run. Qed.

(** A capability set is cut off when the buffers are too small, but the
    reported length is always that of the whole answer: the header and all of the
    data, of which only what fitted was written. *)
Theorem encode_capset_length data flags fence_id ctx_id ring_idx w len w' :
  let hdr := response_header (OkCapset data) flags fence_id ctx_id ring_idx in
  valid hdr → encode (OkCapset data) flags fence_id ctx_id ring_idx w = (Ret len, w') →
  len = 24 + Z.of_nat (length data) ∧
  ∃ n, n = Z.min (Z.of_nat (length data)) (w_available_bytes w - 24) ∧ 0 ≤ n ∧
    w_written w' = w_written w ++ as_slice hdr ++ take (Z.to_nat n) data.
Proof.
  intros hdr Hhdr Hrun. unfold encode in Hrun. fold hdr in Hrun.
  apply bind_inv_Ret in Hrun as (l & w1 & Hrun & Hlen).
  apply bind_inv_Ret in Hrun as ([] & w2 & Hobj & Hrun).
  apply bind_inv_Ret in Hrun as (n & w3 & Hdata & Hrun).
  injection Hrun as <- <-. injection Hlen as Htry <-. apply try_into_Ret in Htry as [-> _].
  split; [done|].
  assert (length (as_slice hdr) = 24%nat) as Hl by (by rewrite length_as_slice).
  destruct (decide (Z.of_nat (length (as_slice hdr)) ≤ w_available_bytes w)) as [Hroom|Hshort].
  - destruct (write_object_room hdr w Hroom) as (w2' & Hobj' & Hw2 & Ha2).
    rewrite Hobj in Hobj'. simplify_eq. unfold map_err in Hdata.
    destruct (w_write data w2') as [o w4] eqn:Hwrite.
    destruct o as [n'|e| |]; simpl in Hdata; simplify_eq.
    apply w_write_ok in Hwrite as (Hn & Hw4 & _).
    exists n. rewrite Ha2, Hl in Hn. rewrite Hl in Hroom.
    split_and!; [done|lia|]. by rewrite Hw4, Hw2, app_assoc.
  - destruct (write_object_short hdr w) as (w2' & Hobj'); [lia|]. by rewrite Hobj in Hobj'.
Qed.

(** The two answers that [encode] does not make as its callers need
    them. The layout of planes is not written at all when there is room for it,
    although its full length is reported. A display's EDID that is not exactly
    1024 bytes long is a panic. *)
Theorem encode_gaps flags fence_id ctx_id ring_idx w :
  (∀ fm planes, Z.of_nat (length planes) ≤ PLANE_INFO_MAX_COUNT → 72 ≤ w_available_bytes w →
    encode (OkResourcePlaneInfo fm planes) flags fence_id ctx_id ring_idx w = (Ret 72, w)) ∧
  (∀ blob, length blob ≠ 1024%nat → Z.of_nat (length blob) < 2 ^ 32 →
    encode (OkEdid blob) flags fence_id ctx_id ring_idx w = (Panic, w)).
Proof.
  split.
  - intros fm planes Hn Hroom. unfold encode.
    rewrite (bool_decide_eq_false_2 (PLANE_INFO_MAX_COUNT < _)) by lia.
    unfold bind, gets, lift, ret.
    by rewrite (bool_decide_eq_true_2 (Z.of_nat (size_of _) ≤ w_available_bytes w)).
  - intros blob Hne Hlen. unfold encode, bind.
    rewrite (bool_decide_eq_true_2 (in_width 32 (Z.of_nat (length blob)))) by (unfold in_width; lia).
    rewrite (bool_decide_eq_false_2 (_ = EDID_BLOB_MAX_SIZE)); [done|].
    unfold EDID_BLOB_MAX_SIZE. lia.
Qed.
End encode_properties.

(** ** A response on the wire *)
Module ResponseExamples.
Import SimQueue.

#[export] Instance resp_numbers : GpuRespNumbers.
Proof.
  refine {| VIRTIO_GPU_RESP n :=
    match n with
    | OK_NODATA => 0x1100 | OK_DISPLAY_INFO => 0x1101 | OK_CAPSET_INFO => 0x1102
    | OK_CAPSET => 0x1103 | OK_EDID => 0x1104 | OK_RESOURCE_UUID => 0x1105
    | OK_MAP_INFO => 0x1106 | ERR_UNSPEC => 0x1200 | ERR_OUT_OF_MEMORY => 0x1201
    | ERR_INVALID_SCANOUT_ID => 0x1202 | ERR_INVALID_RESOURCE_ID => 0x1203
    | ERR_INVALID_CONTEXT_ID => 0x1204 | ERR_INVALID_PARAMETER => 0x1205
    end |}.
  intros []; done.
Defined.

Definition w0 : writer := Writer 100 [].
Definition map_info_bytes : bytes :=
  as_slice (Mk_virtio_gpu_resp_map_info (response_header (OkMapInfo 3) 1 9 0 0) 3 0).

Lemma header_valid (resp : GpuResponse) : valid (response_header resp 1 9 0 0).
Proof. by apply response_header_fits. Qed.

Lemma encode_object_witness :
  encodes (encode (OkMapInfo 3) 1 9 0 0 w0) map_info_bytes w0 ∧
  from_slice (take (size_of virtio_gpu_ctrl_hdr) map_info_bytes) =
    response_header (OkMapInfo 3) 1 9 0 0.
Proof.
  apply (encode_object (OkMapInfo 3) 1 9 0 0 map_info_bytes w0 (header_valid _)); done.
Defined.

Definition w1 : writer := (encode (OkCapset [7; 8; 9]) 1 9 0 0 (Writer 26 [])).2.

Lemma encode_capset_length_witness :
  27 = 24 + Z.of_nat (length [7; 8; 9]) ∧
  ∃ n, n = Z.min (Z.of_nat (length [7; 8; 9])) (w_available_bytes (Writer 26 []) - 24) ∧ 0 ≤ n ∧
    w_written w1 = w_written (Writer 26 []) ++ as_slice (response_header (OkCapset [7; 8; 9]) 1 9 0 0) ++
      take (Z.to_nat n) [7; 8; 9].
Proof.
  apply (encode_capset_length [7; 8; 9] 1 9 0 0 (Writer 26 []) 27 w1 (header_valid _)).
  vm_compute. reflexivity.
Defined.

Lemma encode_gaps_witness :
  encode (OkResourcePlaneInfo 0 [MkGpuResponsePlaneInfo 4 0]) 0 0 0 0 w0 = (Ret 72, w0) ∧
  encode (OkEdid [1; 2; 3]) 0 0 0 0 w0 = (Panic, w0).
Proof.
  split.
  - apply (proj1 (encode_gaps 0 0 0 0 w0)); vm_compute; discriminate.
  - apply (proj2 (encode_gaps 0 0 0 0 w0)); [discriminate|done].
Defined.
End ResponseExamples.
