(* ===== verification/GpuFence.v ===== *)
(** * Fences: the [FenceState] of [device/virtio-gpu/src/virtio_gpu.rs]

    A command that asks for a fence is answered when rutabaga reports that fence as
    completed. The worker and rutabaga's callback share a list of descriptors that
    wait and, per ring, the last completed fence, behind a lock; each of the two
    operations on it is one step. *)

From S2P Require Import Prelude Epoll VirtQueue GpuProtocol.

Inductive VirtioGpuRing : Type :=
| Global
| ContextSpecific (ctx_id ring_idx : Z).

#[export] Instance ring_eq_dec : EqDecision VirtioGpuRing.
Proof. solve_decision. Defined.

#[export] Instance ring_countable : Countable VirtioGpuRing.
Proof.
  refine (inj_countable'
    (λ r, match r with Global => None | ContextSpecific c i => Some (c, i) end)
    (λ o, match o with None => Global | Some (c, i) => ContextSpecific c i end) _).
  by intros [].
Defined.

Record FenceDescriptor : Type := MkFenceDescriptor {
  fd_ring : VirtioGpuRing;
  fd_fence_id : Z;
  fd_desc_index : Z;
  fd_len : Z;
}.

Record FenceState : Type := MkFenceState {
  fs_descs : list FenceDescriptor;
  fs_completed_fences : gmap VirtioGpuRing Z;
}.

(** [RutabagaFence] *)
Record RutabagaFence : Type := MkRutabagaFence {
  rf_flags : Z;
  rf_fence_id : Z;
  rf_ctx_id : Z;
  rf_ring_idx : Z;
}.

(** The last completed fence of a ring, 0 when there is none. *)
Definition last_completed (fs : FenceState) (ring : VirtioGpuRing) : Z :=
  default 0 (fs_completed_fences fs !! ring).

Definition process_fence {E} (ring : VirtioGpuRing) (fence_id desc_index len : Z) :
    M FenceState E bool :=
  let! fence_state := get in
  if bool_decide (last_completed fence_state ring < fence_id) then
    do! modify (λ fs, MkFenceState
          (fs_descs fs ++ [MkFenceDescriptor ring fence_id desc_index len])
          (fs_completed_fences fs)) in
    ret false
  else ret true.

Definition fence_ring (fence : RutabagaFence) : VirtioGpuRing :=
  if bool_decide (Z.land (rf_flags fence) VIRTIO_GPU_FLAG_INFO_RING_IDX = 0) then Global
  else ContextSpecific (rf_ctx_id fence) (rf_ring_idx fence).

Section fence_handler.
Context {D Q Mem Chain : Type} `{DeviceQueue D Q} `{QueueProc Q Mem Chain}.

(** What the callback runs on: the shared fence state, the device's queue and
    guest memory. *)
Record FenceEnv : Type := MkFenceEnv { fe_fences : FenceState; fe_device : D; fe_mem : Mem }.

Definition on_fences {E A} : M FenceState E A → M FenceEnv E A :=
  zoom fe_fences (λ fs s, MkFenceEnv fs (fe_device s) (fe_mem s)).

Definition on_fence_device {E A} : M D E A → M FenceEnv E A :=
  zoom fe_device (λ d s, MkFenceEnv (fe_fences s) d (fe_mem s)).

(** [queue.add_used(..)] on a locked queue *)
Definition fence_add_used (queue : Q) (head len : Z) : M FenceEnv vq_error unit :=
  λ s,
    let '(o, (q, m)) := q_add_used head len (queue, fe_mem s) in
    (o, MkFenceEnv (fe_fences s) (dq_store q (fe_device s)) m).

Definition fence_matches (ring : VirtioGpuRing) (fence_id : Z) (d : FenceDescriptor) : Prop :=
  fd_ring d = ring ∧ fd_fence_id d ≤ fence_id.

#[export] Instance fence_matches_dec ring fence_id d : Decision (fence_matches ring fence_id d).
Proof. unfold fence_matches. apply _. Defined.

(** What is done with a descriptor that was taken out of the list. *)
Definition answer_desc (d : FenceDescriptor) : M FenceEnv string unit :=
  let! device := gets fe_device in
  match dq_try_lock_queue device with
  | None => ret tt
  | Some queue =>
      do! unwrap (fence_add_used queue (fd_desc_index d) (fd_len d)) in
      unwrap (on_fence_device dq_signal_used_queue)
  end.

(** The [while] loop over the waiting descriptors. *)
Fixpoint fence_loop (fuel : nat) (ring : VirtioGpuRing) (fence_id : Z) (i : nat) :
    M FenceEnv string unit :=
  match fuel with
  | O => no_fuel
  | S fuel =>
      let! descs := gets (λ s, fs_descs (fe_fences s)) in
      match descs !! i with
      | None => ret tt
      | Some d =>
          if decide (fence_matches ring fence_id d) then
            do! on_fences (modify (λ fs, MkFenceState (delete i (fs_descs fs))
                  (fs_completed_fences fs))) in
            do! answer_desc d in
            fence_loop fuel ring fence_id i
          else fence_loop fuel ring fence_id (S i)
      end
  end.

Definition fence_handler (fuel : nat) (completed_fence : RutabagaFence) : M FenceEnv string unit :=
  let ring := fence_ring completed_fence in
  do! fence_loop fuel ring (rf_fence_id completed_fence) 0 in
  on_fences (modify (λ fs, MkFenceState (fs_descs fs)
    (<[ring := rf_fence_id completed_fence]> (fs_completed_fences fs)))).
End fence_handler.
Arguments FenceEnv : clear implicits.

(** ** Every descriptor is answered exactly once *)

Section fence_properties.
Context {D Q Mem Chain : Type} `{DeviceQueueLaws D Q Mem Chain} `{!QueueProcLaws Q Mem Chain}.
Implicit Types s : FenceEnv D Mem.

(** The used ring as the driver sees it, and whether the queue can be locked. *)
Definition used_entries s : list (Z * Z) :=
  match dq_try_lock_queue (fe_device s) with
  | Some q => q_used q (fe_mem s)
  | None => []
  end.
Definition queue_available s : Prop := is_Some (dq_try_lock_queue (fe_device s)).

Definition desc_entry (d : FenceDescriptor) : Z * Z := (fd_desc_index d, fd_len d).

(** Answering a descriptor either works or panics. *)
Definition answered_with (entries : list (Z * Z)) s (run : outcome string unit * FenceEnv D Mem) : Prop :=
  (∃ s', run = (Ret tt, s') ∧ fe_fences s' = fe_fences s ∧ queue_available s' ∧
    used_entries s' = used_entries s ++ entries) ∨
  (∃ s', run = (Panic, s')).

Hypothesis signal_result : ∀ d : D, is_Some (dq_try_lock_queue d) →
  (∃ d', dq_signal_used_queue d = (Ret tt, d')) ∨ (∃ e d', dq_signal_used_queue d = (Fail e, d')).

Lemma answer_desc_available d s :
  queue_available s → answered_with [desc_entry d] s (answer_desc d s).
Proof.
  intros [q Hq]. unfold answer_desc, bind, gets. rewrite Hq.
  unfold unwrap, fence_add_used, on_fence_device, zoom.
  destruct (q_add_used_result (fd_desc_index d) (fd_len d) (q, fe_mem s))
    as [[[q' m'] Hadd]|(e & [q' m'] & Hadd)]; rewrite Hadd; simpl; [|right; by eexists].
  pose proof (dq_signal_lock (dq_store q' (fe_device s))) as Hsig.
  pose proof (dq_store_lock _ _ _ _ _ _ _ _ Hq Hadd) as Hlock. rewrite Hlock in Hsig.
  destruct (signal_result (dq_store q' (fe_device s)) (mk_is_Some _ _ Hlock)) as [(d' & Hrun)|(e & d' & Hrun)];
    rewrite Hrun in Hsig |- *; simpl in *; [|right; by eexists].
  left. eexists. split_and!; [done|done|unfold queue_available; simpl; rewrite Hsig; by eexists|].
  unfold used_entries. simpl. rewrite Hq, Hsig.
  by apply q_add_used_ok in Hadd as [-> _].
Qed.

Lemma answer_desc_unavailable d s :
  dq_try_lock_queue (fe_device s) = None → answer_desc d s = (Ret tt, s).
Proof. intros Hq. unfold answer_desc, bind, gets. by rewrite Hq. Qed.

(** The descriptors from position [i] on, with those that match taken out. *)
Definition remaining (ring : VirtioGpuRing) (fence_id : Z) (i : nat) (descs : list FenceDescriptor) :
    list FenceDescriptor :=
  take i descs ++ filter (λ d, ¬ fence_matches ring fence_id d) (drop i descs).
Definition matching (ring : VirtioGpuRing) (fence_id : Z) (i : nat) (descs : list FenceDescriptor) :
    list FenceDescriptor :=
  filter (fence_matches ring fence_id) (drop i descs).

Lemma remaining_skip ring fence_id i descs d :
  descs !! i = Some d → ¬ fence_matches ring fence_id d →
  remaining ring fence_id i descs = remaining ring fence_id (S i) descs ∧
  matching ring fence_id i descs = matching ring fence_id (S i) descs.
Proof.
  intros Hd Hno. unfold remaining, matching.
  rewrite (drop_S descs d i Hd), (take_S_r descs i d Hd).
  rewrite filter_cons_True by done. rewrite filter_cons_False by done.
  by rewrite <-app_assoc.
Qed.

Lemma remaining_delete ring fence_id i descs d :
  descs !! i = Some d → fence_matches ring fence_id d →
  remaining ring fence_id i (delete i descs) = remaining ring fence_id i descs ∧
  matching ring fence_id i descs = d :: matching ring fence_id i (delete i descs).
Proof.
  intros Hd Hyes. unfold remaining, matching.
  assert (take i (delete i descs) = take i descs ∧ drop i (delete i descs) = drop (S i) descs)
    as [-> ->].
  { rewrite delete_take_drop. apply take_drop_app. rewrite length_take.
    apply lookup_lt_Some in Hd. lia. }
  rewrite (drop_S descs d i Hd), filter_cons_False by (by intros ?).
  by rewrite filter_cons_True by done.
Qed.

(** The loop ends with the matching descriptors answered, or panics. *)
Definition loop_answers ring fence_id i s (run : outcome string unit * FenceEnv D Mem) : Prop :=
  let descs := fs_descs (fe_fences s) in
  (∃ s', run = (Ret tt, s') ∧
    fe_fences s' = MkFenceState (remaining ring fence_id i descs)
                     (fs_completed_fences (fe_fences s)) ∧
    queue_available s' ∧
    used_entries s' = used_entries s ++ (desc_entry <$> matching ring fence_id i descs)) ∨
  (∃ s', run = (Panic, s')).

Lemma fence_loop_available fuel ring fence_id i s :
  queue_available s → (length (fs_descs (fe_fences s)) - i < fuel)%nat →
  loop_answers ring fence_id i s (fence_loop fuel ring fence_id i s).
Proof.
  revert i s. induction fuel as [|fuel IH]; intros i s Havail Hfuel; [lia|]. simpl.
  unfold bind at 1, gets. destruct (fs_descs (fe_fences s) !! i) as [d|] eqn:Hd.
  - apply lookup_lt_Some in Hd as Hlt. destruct (decide _) as [Hyes|Hno].
    + set (s1 := MkFenceEnv (MkFenceState (delete i (fs_descs (fe_fences s)))
        (fs_completed_fences (fe_fences s))) (fe_device s) (fe_mem s)).
      erewrite bind_Ret with (s1 := s1) by done.
      destruct (remaining_delete ring fence_id i _ d Hd Hyes) as [Hrem Hmatch].
      unfold bind.
      destruct (answer_desc_available d s1 Havail) as [(s2 & -> & Hf & Hq & Hu)|(s2 & ->)];
        [|right; by eexists].
      assert (length (fs_descs (fe_fences s2)) - i < fuel)%nat as Hfuel2.
      { rewrite Hf. simpl. rewrite length_delete by eauto. lia. }
      destruct (IH i s2 Hq Hfuel2) as [(s3 & -> & Hf3 & Hq3 & Hu3)|(s3 & ->)];
        [|right; by eexists].
      left. exists s3. split_and!; [done| |done|].
      * rewrite Hf3, Hf. simpl. by rewrite Hrem.
      * rewrite Hu3, Hu, Hf. simpl. rewrite Hmatch. by rewrite <-app_assoc.
    + destruct (remaining_skip ring fence_id i _ d Hd Hno) as [Hr Hm].
      unfold loop_answers. rewrite Hr, Hm. apply IH; [done|lia].
  - apply lookup_ge_None in Hd. left. exists s. unfold remaining, matching.
    rewrite drop_ge, take_ge by done. split_and!; [done| |done|].
    + rewrite app_nil_r. by destruct (fe_fences s).
    + by rewrite app_nil_r.
Qed.

Lemma fence_loop_unavailable fuel ring fence_id i s :
  ¬ queue_available s → (length (fs_descs (fe_fences s)) - i < fuel)%nat →
  fence_loop fuel ring fence_id i s =
    (Ret tt, MkFenceEnv (MkFenceState (remaining ring fence_id i (fs_descs (fe_fences s)))
      (fs_completed_fences (fe_fences s))) (fe_device s) (fe_mem s)).
Proof.
  intros Hno. revert i s Hno. induction fuel as [|fuel IH]; intros i s Hno Hfuel; [lia|]. simpl.
  unfold bind at 1, gets. destruct (fs_descs (fe_fences s) !! i) as [d|] eqn:Hd.
  - apply lookup_lt_Some in Hd as Hlt. destruct (decide _) as [Hyes|Hnm].
    + unfold bind at 1, on_fences, zoom, modify. unfold bind.
      destruct (remaining_delete ring fence_id i _ d Hd Hyes) as [Hrem _].
      rewrite answer_desc_unavailable.
      2: { simpl. destruct (dq_try_lock_queue (fe_device s)) eqn:E; [|done].
        destruct Hno. unfold queue_available. rewrite E. by eexists. }
      rewrite IH; simpl; [by rewrite Hrem|done|]. rewrite length_delete by eauto. lia.
    + destruct (remaining_skip ring fence_id i _ d Hd Hnm) as [-> _]. apply IH; [done|lia].
  - apply lookup_ge_None in Hd. unfold remaining. rewrite drop_ge, take_ge, app_nil_r by done.
    by destruct s as [[] ? ?].
Qed.

(** The callback with the queue at hand *)
Lemma fence_handler_available fuel f s :
  queue_available s → (length (fs_descs (fe_fences s)) < fuel)%nat →
  let matches := fence_matches (fence_ring f) (rf_fence_id f) in
  (∃ s', fence_handler fuel f s = (Ret tt, s') ∧ queue_available s' ∧
    fs_descs (fe_fences s') = filter (λ d, ¬ matches d) (fs_descs (fe_fences s)) ∧
    used_entries s' = used_entries s ++ (desc_entry <$> filter matches (fs_descs (fe_fences s))) ∧
    fs_completed_fences (fe_fences s') =
      <[fence_ring f := rf_fence_id f]> (fs_completed_fences (fe_fences s))) ∨
  (∃ s', fence_handler fuel f s = (Panic, s')).
Proof.
  intros Havail Hfuel matches. unfold fence_handler.
  destruct (fence_loop_available fuel (fence_ring f) (rf_fence_id f) 0 s Havail)
    as [(s1 & Hrun & Hf & Hq & Hu)|(s1 & Hrun)]; [lia| |].
  - left. eexists. erewrite bind_Ret by done. split; [reflexivity|].
    simpl. rewrite Hf. split_and!; [done|done|done|done].
  - right. exists s1. by erewrite bind_Panic.
Qed.

(** Claim C27. When rutabaga reports a fence and the queue can be locked, exactly
    the descriptors of that ring with a fence up to it are put on the used ring,
    each with its own length and in the order in which they were submitted, the
    others keep waiting in their order, and the fence is recorded as the ring's
    last; or the callback panics because an entry could not be added or the driver
    not be notified. One step of fuel per waiting descriptor and one more are
    enough. *)
Theorem fence_handler_answers fuel f s :
  queue_available s → (length (fs_descs (fe_fences s)) < fuel)%nat →
  let matches := fence_matches (fence_ring f) (rf_fence_id f) in
  (∃ s', fence_handler fuel f s = (Ret tt, s') ∧ queue_available s' ∧
    fs_descs (fe_fences s') = filter (λ d, ¬ matches d) (fs_descs (fe_fences s)) ∧
    used_entries s' = used_entries s ++ (desc_entry <$> filter matches (fs_descs (fe_fences s))) ∧
    fs_completed_fences (fe_fences s') =
      <[fence_ring f := rf_fence_id f]> (fs_completed_fences (fe_fences s))) ∨
  (∃ s', fence_handler fuel f s = (Panic, s')).
Proof. apply fence_handler_available. Qed.

Lemma fence_handler_unavailable fuel f s :
  ¬ queue_available s → (length (fs_descs (fe_fences s)) < fuel)%nat →
  fence_handler fuel f s =
    (Ret tt, MkFenceEnv
      (MkFenceState
        (filter (λ d, ¬ fence_matches (fence_ring f) (rf_fence_id f) d) (fs_descs (fe_fences s)))
        (<[fence_ring f := rf_fence_id f]> (fs_completed_fences (fe_fences s))))
      (fe_device s) (fe_mem s)).
Proof.
  intros Hno Hfuel. unfold fence_handler.
  erewrite bind_Ret by (apply fence_loop_unavailable; [done|lia]). done.
Qed.

(** Claim C37. When the queue cannot be locked at that moment, the descriptors of
    the completed fence are taken out of the list without being answered, and
    since the list is their only record, the driver never gets them back. *)
Theorem fence_handler_drops fuel f s :
  ¬ queue_available s → (length (fs_descs (fe_fences s)) < fuel)%nat →
  fence_handler fuel f s =
    (Ret tt, MkFenceEnv
      (MkFenceState
        (filter (λ d, ¬ fence_matches (fence_ring f) (rf_fence_id f) d) (fs_descs (fe_fences s)))
        (<[fence_ring f := rf_fence_id f]> (fs_completed_fences (fe_fences s))))
      (fe_device s) (fe_mem s)).
Proof. apply fence_handler_unavailable. Qed.

(** ** The worker and the callback together *)

(** What the worker does, with the lock of the queue, when it has executed a fenced
    command: the descriptor waits, or is answered at once when its fence has completed. *)
Definition submit (ring : VirtioGpuRing) (fence_id desc_index len : Z) (queue : Q) :
    M (FenceEnv D Mem) vq_error unit :=
  let! completed := on_fences (process_fence ring fence_id desc_index len) in
  if completed : bool then fence_add_used queue desc_index len else ret tt.

(** The entries that are new in the used ring *)
Definition new_entries s s' : list (Z * Z) := drop (length (used_entries s)) (used_entries s').

(** What the fence would answer *)
Definition completed_by (f : RutabagaFence) s : list (Z * Z) :=
  desc_entry <$> filter (fence_matches (fence_ring f) (rf_fence_id f)) (fs_descs (fe_fences s)).

(** A step in which no thread panics, labelled with the descriptors that are submitted in it,
    those that are added to the used ring, and those that are lost in it: the one whose
    entry the worker could not add, and those of a fence that completes while the queue
    cannot be locked. In between, the front-end and the guest change queue and memory as
    they like. *)
Inductive fence_step : list (Z * Z) * list (Z * Z) * list (Z * Z) → FenceEnv D Mem → FenceEnv D Mem → Prop :=
| step_submit ring id idx len q s s' :
    dq_try_lock_queue (fe_device s) = Some q → submit ring id idx len q s = (Ret tt, s') →
    fence_step ([(idx, len)], new_entries s s', []) s s'
| step_submit_failed ring id idx len q e s s' :
    dq_try_lock_queue (fe_device s) = Some q → submit ring id idx len q s = (Fail e, s') →
    fence_step ([(idx, len)], new_entries s s', [(idx, len)]) s s'
| step_fence f s s' :
    queue_available s →
    fence_handler (S (length (fs_descs (fe_fences s)))) f s = (Ret tt, s') →
    fence_step ([], new_entries s s', []) s s'
| step_fence_unavailable f s s' :
    ¬ queue_available s →
    fence_handler (S (length (fs_descs (fe_fences s)))) f s = (Ret tt, s') →
    fence_step ([], new_entries s s', completed_by f s) s s'
| step_other d m s : fence_step ([], [], []) s (MkFenceEnv (fe_fences s) d m).

(** The descriptors that wait, and that each of them waits for a fence to come *)
Definition waiting s : list (Z * Z) := desc_entry <$> fs_descs (fe_fences s).
Definition all_wait s : Prop :=
  ∀ d, d ∈ fs_descs (fe_fences s) → last_completed (fe_fences s) (fd_ring d) < fd_fence_id d.

Lemma filter_split (P : FenceDescriptor → Prop) `{!∀ x, Decision (P x)} l :
  filter P l ++ filter (λ d, ¬ P d) l ≡ₚ l.
Proof.
  induction l as [|d l IH]; [done|]. rewrite !filter_cons. destruct (decide (P d)).
  - rewrite decide_False by (by intros ?). simpl. by rewrite IH.
  - rewrite decide_True by done. by rewrite <-Permutation_middle, IH.
Qed.

Lemma new_entries_app s s' l : used_entries s' = used_entries s ++ l → new_entries s s' = l.
Proof. intros Hu. unfold new_entries. by rewrite Hu, drop_app_length. Qed.

Lemma new_entries_same s s' : used_entries s' = used_entries s → new_entries s s' = [].
Proof. intros Hu. apply new_entries_app. by rewrite app_nil_r. Qed.

(** The worker's step: the descriptor waits, is in the used ring, or the entry failed. *)
Lemma submit_cases ring id idx len q s o s' :
  dq_try_lock_queue (fe_device s) = Some q → submit ring id idx len q s = (o, s') → all_wait s →
  all_wait s' ∧
  (o = Ret tt ∧ new_entries s s' = [] ∧ waiting s' = waiting s ++ [(idx, len)] ∨
   o = Ret tt ∧ new_entries s s' = [(idx, len)] ∧ waiting s' = waiting s ∨
   (∃ e, o = Fail e) ∧ new_entries s s' = [] ∧ waiting s' = waiting s).
Proof.
  intros Hq Hrun Hord. unfold submit, bind, on_fences, zoom, process_fence, bind, get, modify, ret in Hrun.
  case_bool_decide as Hlt; simplify_eq/=.
  - split; [|left; split; [done|]; split; [by apply new_entries_same|]; unfold waiting; simpl; by rewrite fmap_app].
    intros d [Hd|Hd%list_elem_of_singleton]%elem_of_app; [by apply Hord|by subst d].
  - unfold fence_add_used in Hrun. simpl in Hrun. destruct s as [fs d m]. simpl in *.
    destruct (q_add_used_result idx len (q, m)) as [[[q' m'] Hadd]|(e & [q' m'] & Hadd)];
      rewrite Hadd in Hrun; simplify_eq.
    + split; [done|]. right; left. split; [done|]. split; [|done]. apply new_entries_app.
      unfold used_entries. simpl. rewrite Hq, (dq_store_lock _ _ _ _ _ _ _ _ Hq Hadd).
      by destruct (q_add_used_ok _ _ _ _ _ _ Hadd) as [-> _].
    + split; [done|]. right; right. split; [by eexists|]. split; [|done]. apply new_entries_same.
      unfold used_entries. simpl. rewrite Hq, (dq_store_lock _ _ _ _ _ _ _ _ Hq Hadd).
      by destruct (q_add_used_fail _ _ _ _ _ _ _ Hadd) as [-> _].
Qed.

(** What is left waits for a fence above the one that has completed. *)
Lemma all_wait_fence f s s' :
  all_wait s →
  fs_descs (fe_fences s') = filter (λ d, ¬ fence_matches (fence_ring f) (rf_fence_id f) d) (fs_descs (fe_fences s)) →
  fs_completed_fences (fe_fences s') = <[fence_ring f := rf_fence_id f]> (fs_completed_fences (fe_fences s)) →
  all_wait s'.
Proof.
  intros Hord Hdescs Hcomp. unfold all_wait. rewrite Hdescs. intros d [Hno Hd]%list_elem_of_filter.
  unfold last_completed. rewrite Hcomp. destruct (decide (fence_ring f = fd_ring d)) as [Heq|Hne].
  - rewrite Heq, lookup_insert_eq. simpl. unfold fence_matches in Hno. rewrite Heq in Hno.
    apply Z.nle_gt. intros ?. by apply Hno.
  - rewrite lookup_insert_ne by done. by apply Hord.
Qed.

Lemma waiting_completed f s s' :
  fs_descs (fe_fences s') = filter (λ d, ¬ fence_matches (fence_ring f) (rf_fence_id f) d) (fs_descs (fe_fences s)) →
  completed_by f s ++ waiting s' ≡ₚ waiting s.
Proof. intros Hdescs. unfold completed_by, waiting. by rewrite Hdescs, <-fmap_app, filter_split. Qed.

Lemma fence_step_conserves l s s' :
  fence_step l s s' → all_wait s → all_wait s' ∧ l.1.2 ++ l.2 ++ waiting s' ≡ₚ waiting s ++ l.1.1.
Proof.
  intros Hstep Hord. destruct Hstep as [ring id idx len q s s' Hq Hrun|ring id idx len q e s s' Hq Hrun
    |f s s' Hq Hrun|f s s' Hq Hrun|d m s]; simpl.
  - destruct (submit_cases _ _ _ _ _ _ _ _ Hq Hrun Hord) as [Hord' [(_ & -> & ->)|[(_ & -> & ->)|([e He] & _)]]];
      [done| |done]. split; [done|]. by rewrite Permutation_app_comm.
  - destruct (submit_cases _ _ _ _ _ _ _ _ Hq Hrun Hord) as [Hord' [(He & _)|[(He & _)|(_ & -> & ->)]]];
      [done..|]. split; [done|]. simpl. by rewrite Permutation_cons_append.
  - destruct (fence_handler_available _ f s Hq (Nat.lt_succ_diag_r _))
      as [(s1 & Hrun1 & Hq1 & Hdescs & Hused & Hcomp)|(s1 & Hrun1)]; rewrite Hrun in Hrun1; simplify_eq.
    split; [by eapply all_wait_fence|]. rewrite (new_entries_app _ _ _ Hused), app_nil_r.
    by apply waiting_completed.
  - rewrite fence_handler_unavailable in Hrun by (done || lia). simplify_eq.
    rewrite new_entries_same by done. rewrite app_nil_r. split; [by eapply all_wait_fence|].
    by apply waiting_completed.
  - by rewrite app_nil_r.
Qed.

(** Claim C11. No descriptor is lost and none is answered twice while worker and callback
    take turns, for as long as no thread panics: whatever the front-end and the guest do to
    the queue in between, the entries added to the used ring, together with the descriptors
    still waiting and those that were lost, are exactly those that waited at first and those
    submitted since. Descriptors are lost only when the worker fails to add an entry, or
    when a fence completes while the queue cannot be locked ([fence_step]). And a
    descriptor that waits has a fence above the last one that its ring completed. *)
Theorem fences_conserved ls s0 s :
  all_wait s0 → runs fence_step ls s0 s →
  concat ls.*1.*2 ++ concat ls.*2 ++ waiting s ≡ₚ waiting s0 ++ concat ls.*1.*1 ∧ all_wait s.
Proof.
  intros Hord Hruns. induction Hruns as [s|l ls s s1 s' Hstep _ IH]; [by rewrite app_nil_r|].
  destruct (fence_step_conserves _ _ _ Hstep Hord) as [Hord1 Hone]. destruct (IH Hord1) as [Hrest Hord'].
  split; [|done]. simpl. rewrite (app_assoc (waiting s)), <-Hone.
  transitivity (l.1.2 ++ l.2 ++ (waiting s1 ++ concat ls.*1.*1)); [|by rewrite <-!app_assoc].
  rewrite <-Hrest. clear. solve_Permutation.
Qed.
End fence_properties.

(** ** Fences over the concrete queue *)
Module FenceExamples.
Import SimQueue.

(** A device is its queue, or nothing while the queue is disabled. *)
#[export] Instance sim_device : DeviceQueue (option queue) queue := {|
  dq_try_lock_queue d := d;
  dq_store q d := Some q;
  dq_signal_used_queue := ret tt;
  dq_kick_register _ _ := ret tt;
  dq_read_kick := gets (λ d, bool_decide (is_Some d));
|}.

#[export] Instance sim_device_laws : DeviceQueueLaws (option queue) queue mem chain.
Proof. by split. Qed.

Lemma sim_signal_result (d : option queue) : is_Some (dq_try_lock_queue d) →
  (∃ d', dq_signal_used_queue d = (Ret tt, d')) ∨ (∃ e d', dq_signal_used_queue d = (Fail e, d')).
Proof. left. by eexists. Qed.

Definition q0 : queue := Queue true true 16 16 0 0 (0, 0, 0) [] [] true.
Definition descs0 : list FenceDescriptor :=
  [MkFenceDescriptor Global 1 3 24; MkFenceDescriptor (ContextSpecific 1 0) 1 4 24;
   MkFenceDescriptor Global 2 5 24; MkFenceDescriptor Global 7 6 24].
Definition env (d : option queue) (descs : list FenceDescriptor) : FenceEnv (option queue) mem :=
  MkFenceEnv (MkFenceState descs ∅) d (Mem [] None []).
Definition fence2 : RutabagaFence := MkRutabagaFence 1 2 0 0.

Lemma fence_handler_answers_witness :
  used_entries (fence_handler 5 fence2 (env (Some q0) descs0)).2 = [(3, 24); (5, 24)] ∧
  ((∃ s', fence_handler 5 fence2 (env (Some q0) descs0) = (Ret tt, s') ∧ queue_available s' ∧
    fs_descs (fe_fences s') = filter (λ d, ¬ fence_matches Global 2 d) descs0 ∧
    used_entries s' = [] ++ (desc_entry <$> filter (fence_matches Global 2) descs0) ∧
    fs_completed_fences (fe_fences s') = <[Global := 2]> ∅) ∨
  (∃ s', fence_handler 5 fence2 (env (Some q0) descs0) = (Panic, s'))).
Proof.
  split; [reflexivity|].
  exact (fence_handler_answers (Chain:=chain) sim_signal_result 5 fence2 (env (Some q0) descs0)
    ltac:(by eexists) ltac:(simpl; lia)).
Defined.

Lemma fence_handler_drops_witness :
  fence_handler 5 fence2 (env None descs0) =
    (Ret tt, MkFenceEnv
      (MkFenceState (filter (λ d, ¬ fence_matches Global 2 d) descs0) (<[Global := 2]> ∅))
      None (Mem [] None [])).
Proof.
  exact (fence_handler_drops (Chain:=chain) 5 fence2 (env None descs0)
    ltac:(by intros [? ?]) ltac:(simpl; lia)).
Defined.

(** Two commands wait; the fence of the first one completes; a third command is answered at
    once; the front-end stops the ring, and the other fence completes. *)
Definition s0 : FenceEnv (option queue) mem := env (Some q0) [].
Definition s1 : FenceEnv (option queue) mem := (submit Global 2 5 24 q0 s0).2.
Definition s2 : FenceEnv (option queue) mem := (submit Global 4 6 24 q0 s1).2.
Definition s3 : FenceEnv (option queue) mem := (fence_handler 3 fence2 s2).2.
Definition q3 : queue := default q0 (fe_device s3).
Definition s4 : FenceEnv (option queue) mem := (submit Global 1 7 24 q3 s3).2.
Definition s5 : FenceEnv (option queue) mem := MkFenceEnv (fe_fences s4) None (fe_mem s4).
Definition s6 : FenceEnv (option queue) mem := (fence_handler 2 (MkRutabagaFence 1 4 0 0) s5).2.

Definition fence_labels : list (list (Z * Z) * list (Z * Z) * list (Z * Z)) :=
  [([(5, 24)], new_entries s0 s1, []); ([(6, 24)], new_entries s1 s2, []);
   ([], new_entries s2 s3, []); ([(7, 24)], new_entries s3 s4, []);
   ([], [], []); ([], new_entries s5 s6, completed_by (MkRutabagaFence 1 4 0 0) s5)].

Lemma labelled_steps : runs fence_step fence_labels s0 s6.
Proof.
  apply (runs_cons _ _ _ s0 s1); [by apply (step_submit Global 2 5 24 q0 s0 s1)|].
  apply (runs_cons _ _ _ s1 s2); [by apply (step_submit Global 4 6 24 q0 s1 s2)|].
  apply (runs_cons _ _ _ s2 s3); [apply (step_fence fence2 s2 s3); [by eexists|done]|].
  apply (runs_cons _ _ _ s3 s4); [by apply (step_submit Global 1 7 24 q3 s3 s4)|].
  apply (runs_cons _ _ _ s4 s5); [apply (step_other None (fe_mem s4) s4)|].
  apply (runs_cons _ _ _ s5 s6); [|apply runs_nil].
  apply (step_fence_unavailable (MkRutabagaFence 1 4 0 0) s5 s6); [by intros [? ?]|done].
Qed.

Lemma fences_conserved_witness :
  fence_labels = [([(5, 24)], [], []); ([(6, 24)], [], []); ([], [(5, 24)], []); ([(7, 24)], [(7, 24)], []);
    ([], [], []); ([], [], [(6, 24)])] ∧
  concat fence_labels.*1.*2 ++ concat fence_labels.*2 ++ waiting s6 ≡ₚ
    waiting s0 ++ concat fence_labels.*1.*1 ∧ all_wait s6.
Proof.
  split; [reflexivity|].
  exact (fences_conserved sim_signal_result fence_labels s0 s6 ltac:(by intros d ?%elem_of_nil) labelled_steps).
Defined.
End FenceExamples.
