(* ===== verification/VirtioGpu.v ===== *)
(** * What the worker asks of a GPU: the trait [VirtioGpu] of
    [device/virtio-gpu/src/virtio_gpu.rs]

    The interface between the worker, which takes commands from a queue, and the
    GPU that executes them, with the data that crosses it. Every operation answers
    with a response, as its result or as its error. *)

From S2P Require Import Prelude Codec GpuProtocol GpuResponse GpuFence.

Record Rectangle : Type := MkRectangle { rc_x : Z; rc_y : Z; rc_width : Z; rc_height : Z }.

(** [From<virtio_gpu_rect>] *)
Definition rectangle_from (r : virtio_gpu_rect) : Rectangle :=
  MkRectangle (rect_x r) (rect_y r) (rect_width r) (rect_height r).

(** [rutabaga_gfx]: transfers, the description of a 3d resource, and a slice of
    guest memory given to the renderer. *)
Record Transfer3D : Type := MkTransfer3D {
  tr_x : Z; tr_y : Z; tr_z : Z; tr_w : Z; tr_h : Z; tr_d : Z;
  tr_level : Z; tr_stride : Z; tr_layer_stride : Z; tr_offset : Z;
}.

Record ResourceCreate3D : Type := MkResourceCreate3D {
  rc3_target : Z; rc3_format : Z; rc3_bind : Z; rc3_width : Z; rc3_height : Z;
  rc3_depth : Z; rc3_array_size : Z; rc3_last_level : Z; rc3_nr_samples : Z; rc3_flags : Z;
}.

Record RutabagaIovec : Type := MkRutabagaIovec { iov_base : Z; iov_len : Z }.

(** [vhost::vhost_user::gpu_message] *)
Record VhostUserGpuCursorPos : Type := MkVhostUserGpuCursorPos {
  cp_scanout_id : Z; cp_x : Z; cp_y : Z;
}.

(** [VirtioGpuResult] of a method on [G] *)
Abbreviation GpuM G := (M G GpuResponse GpuResponse).

Class VirtioGpu (G : Type) : Type := {
  resource_unmap_blob : Z → GpuM G;
  resource_map_blob : Z → Z → GpuM G;
  gpu_process_fence {E : Type} : VirtioGpuRing → Z → Z → Z → M G E bool;
  create_fence : RutabagaFence → GpuM G;
  submit_command : Z → bytes → list Z → GpuM G;
  context_detach_resource : Z → Z → GpuM G;
  context_attach_resource : Z → Z → GpuM G;
  destroy_context : Z → GpuM G;
  force_ctx_0 : G → G;
  display_info : GpuM G;
  get_edid : Z → GpuM G;
  set_scanout : Z → Z → Rectangle → GpuM G;
  resource_create_3d : Z → ResourceCreate3D → GpuM G;
  unref_resource : Z → GpuM G;
  flush_resource : Z → Rectangle → GpuM G;
  transfer_write : Z → Z → Transfer3D → GpuM G;
  (* the length of the optional buffer *)
  transfer_read : Z → Z → Transfer3D → option nat → GpuM G;
  attach_backing : Z → list RutabagaIovec → GpuM G;
  detach_backing : Z → GpuM G;
  update_cursor : Z → VhostUserGpuCursorPos → Z → Z → GpuM G;
  move_cursor : Z → VhostUserGpuCursorPos → GpuM G;
  resource_assign_uuid : Z → GpuM G;
  get_capset_info : Z → GpuM G;
  get_capset : Z → Z → GpuM G;
  create_context : Z → Z → option debug_name → GpuM G;
  get_event_poll_fd : G → option Z;
  event_poll : G → G;
}.

(** ** What the worker relies on *)

(** The operations that answer a command. *)
Inductive gpu_method {G} `{VirtioGpu G} : GpuM G → Prop :=
| gm_submit_command c bs ids : gpu_method (submit_command c bs ids)
| gm_context_detach_resource c r : gpu_method (context_detach_resource c r)
| gm_context_attach_resource c r : gpu_method (context_attach_resource c r)
| gm_destroy_context c : gpu_method (destroy_context c)
| gm_display_info : gpu_method display_info
| gm_get_edid scanout : gpu_method (get_edid scanout)
| gm_set_scanout sid r rect : gpu_method (set_scanout sid r rect)
| gm_resource_create_3d r create : gpu_method (resource_create_3d r create)
| gm_unref_resource r : gpu_method (unref_resource r)
| gm_flush_resource r rect : gpu_method (flush_resource r rect)
| gm_transfer_write c r t : gpu_method (transfer_write c r t)
| gm_transfer_read c r t buf : gpu_method (transfer_read c r t buf)
| gm_attach_backing r vecs : gpu_method (attach_backing r vecs)
| gm_detach_backing r : gpu_method (detach_backing r)
| gm_update_cursor r pos x y : gpu_method (update_cursor r pos x y)
| gm_move_cursor r pos : gpu_method (move_cursor r pos)
| gm_get_capset_info i : gpu_method (get_capset_info i)
| gm_get_capset i v : gpu_method (get_capset i v)
| gm_create_context c init name : gpu_method (create_context c init name)
| gm_create_fence f : gpu_method (create_fence f).

(** The answers that the GPU has kept for later, as entries of a used ring: no
    command changes them, and [process_fence] keeps the answer it is given exactly
    when it says so. *)
Class VirtioGpuLaws (G : Type) `{VirtioGpu G} : Type := {
  gpu_pending : G → list (Z * Z);
  gpu_method_keeps m : gpu_method m → keeps gpu_pending m;
  force_ctx_0_pending g : gpu_pending (force_ctx_0 g) = gpu_pending g;
  event_poll_pending g : gpu_pending (event_poll g) = gpu_pending g;
  process_fence_cases {E} ring fence_id desc_index len g :
    (∃ g', gpu_process_fence (E:=E) ring fence_id desc_index len g = (Ret true, g') ∧
      gpu_pending g' = gpu_pending g) ∨
    (∃ g', gpu_process_fence (E:=E) ring fence_id desc_index len g = (Ret false, g') ∧
      gpu_pending g' = gpu_pending g ++ [(desc_index, len)]);
}.
