(* ===== verification/RutabagaGpu.v ===== *)
(** * A GPU on rutabaga: [device/virtio-gpu/src/virtio_gpu.rs]

    [RutabagaVirtioGpu] executes the commands on the rutabaga renderer and shows
    its output through the GPU socket of the front-end. Its own state is the table
    of resources, with the scanouts that show each of them, the table of scanouts,
    and the fences. Rutabaga and the socket are interfaces; the socket's messages
    are observed. *)

From S2P Require Import Prelude VirtQueue Codec GpuProtocol GpuResponse GpuFence VirtioGpu.

Definition READ_RESOURCE_BYTES_PER_PIXEL : Z := 4.

(** [Query3D]: modifier, strides and offsets of up to four planes *)
Record Query3D : Type := MkQuery3D { q3_modifier : Z; q3_strides : list Z; q3_offsets : list Z }.

Class Rutabaga (RG : Type) : Type := {
  rg_query : Z → RG → outcome RutabagaError Query3D;
  (* what was read, when there is a buffer *)
  rg_transfer_read : Z → Z → Transfer3D → option nat → M RG RutabagaError bytes;
  rg_transfer_write : Z → Z → Transfer3D → M RG RutabagaError unit;
  rg_resource_create_3d : Z → ResourceCreate3D → M RG RutabagaError unit;
  rg_unref_resource : Z → M RG RutabagaError unit;
  rg_attach_backing : Z → list RutabagaIovec → M RG RutabagaError unit;
  rg_detach_backing : Z → M RG RutabagaError unit;
  rg_get_capset_info : Z → RG → outcome RutabagaError (Z * Z * Z);
  rg_get_capset : Z → Z → RG → outcome RutabagaError bytes;
  rg_create_context : Z → Z → option debug_name → M RG RutabagaError unit;
  rg_destroy_context : Z → M RG RutabagaError unit;
  rg_context_attach_resource : Z → Z → M RG RutabagaError unit;
  rg_context_detach_resource : Z → Z → M RG RutabagaError unit;
  rg_submit_command : Z → bytes → list Z → M RG RutabagaError unit;
  rg_create_fence : RutabagaFence → M RG RutabagaError unit;
  rg_event_poll : RG → RG;
  rg_force_ctx_0 : RG → RG;
  rg_poll_descriptor : RG → option Z;
}.

(** A call of rutabaga returns. *)
Class RutabagaLaws (RG : Type) `{Rutabaga RG} : Prop := {
  rg_transfer_read_keeps c r t n : keeps (λ _ : RG, tt) (rg_transfer_read c r t n);
  rg_transfer_write_keeps c r t : keeps (λ _ : RG, tt) (rg_transfer_write c r t);
  rg_resource_create_3d_keeps r create : keeps (λ _ : RG, tt) (rg_resource_create_3d r create);
  rg_unref_resource_keeps r : keeps (λ _ : RG, tt) (rg_unref_resource r);
  rg_attach_backing_keeps r vecs : keeps (λ _ : RG, tt) (rg_attach_backing r vecs);
  rg_detach_backing_keeps r : keeps (λ _ : RG, tt) (rg_detach_backing r);
  rg_get_capset_info_returns i (rg : RG) : rg_get_capset_info i rg ≠ NoFuel;
  rg_get_capset_returns i v (rg : RG) : rg_get_capset i v rg ≠ NoFuel;
  rg_create_context_keeps c init name : keeps (λ _ : RG, tt) (rg_create_context c init name);
  rg_destroy_context_keeps c : keeps (λ _ : RG, tt) (rg_destroy_context c);
  rg_context_attach_resource_keeps c r : keeps (λ _ : RG, tt) (rg_context_attach_resource c r);
  rg_context_detach_resource_keeps c r : keeps (λ _ : RG, tt) (rg_context_detach_resource c r);
  rg_submit_command_keeps c bs ids : keeps (λ _ : RG, tt) (rg_submit_command c bs ids);
  rg_create_fence_keeps f : keeps (λ _ : RG, tt) (rg_create_fence f);
}.
#[export] Hint Resolve rg_transfer_read_keeps rg_transfer_write_keeps rg_resource_create_3d_keeps
  rg_unref_resource_keeps rg_attach_backing_keeps rg_detach_backing_keeps rg_create_context_keeps
  rg_destroy_context_keeps rg_context_attach_resource_keeps rg_context_detach_resource_keeps
  rg_submit_command_keeps rg_create_fence_keeps : keeps.

(** The messages of the GPU socket. *)
Inductive gpu_message : Type :=
| GpuSetScanout (scanout_id width height : Z)
| GpuUpdateScanout (scanout_id x y width height : Z) (data : bytes)
| GpuCursorUpdate (pos : VhostUserGpuCursorPos) (hot_x hot_y : Z) (data : bytes)
| GpuCursorPos (pos : VhostUserGpuCursorPos)
| GpuCursorPosHide (pos : VhostUserGpuCursorPos).

(** [vhost::vhost_user::GpuBackend]: sending a message, the two requests with an
    answer, and what was sent so far. *)
Class GpuBackend (GB : Type) : Type := {
  gb_send : gpu_message → M GB Z unit;
  gb_get_display_info : M GB Z (list virtio_gpu_display_one);
  (* the size field and the 1024 bytes of the EDID *)
  gb_get_edid : Z → M GB Z (Z * bytes);
  gb_sent : GB → list gpu_message;
}.

Class GpuBackendLaws (GB : Type) `{GpuBackend GB} : Prop := {
  gb_get_display_info_keeps : keeps gb_sent gb_get_display_info;
  gb_get_edid_keeps scanout : keeps gb_sent (gb_get_edid scanout);
  gb_send_ok m g g' : gb_send m g = (Ret tt, g') → gb_sent g' = gb_sent g ++ [m];
  gb_send_fail m g e g' : gb_send m g = (Fail e, g') → gb_sent g' = gb_sent g;
  gb_send_result m g :
    (∃ g', gb_send m g = (Ret tt, g')) ∨ (∃ e g', gb_send m g = (Fail e, g'));
}.

(** [AssociatedScanouts]: one bit per scanout *)
Definition scanouts_enable (scanouts scanout_id : Z) : Z := Z.lor scanouts (Z.shiftl 1 scanout_id).
Definition scanouts_disable (scanouts scanout_id : Z) : Z := Z.lxor scanouts (Z.shiftl 1 scanout_id).
Definition has_any_enabled (scanouts : Z) : bool := bool_decide (scanouts ≠ 0).
Definition iter_enabled (scanouts : Z) : list Z :=
  filter (λ i, Z.land (Z.shiftr scanouts i) 1 = 1) (seqZ 0 VIRTIO_GPU_MAX_SCANOUTS).

Record VirtioGpuResource : Type := MkVirtioGpuResource {
  r_id : Z;
  r_width : Z;
  r_height : Z;
  r_scanouts : Z;
}.

Definition set_r_scanouts (f : Z → Z) (r : VirtioGpuResource) : VirtioGpuResource :=
  MkVirtioGpuResource (r_id r) (r_width r) (r_height r) (f (r_scanouts r)).

Definition calculate_size (r : VirtioGpuResource) : outcome string Z :=
  outcome_bind (ok_or (checked_mul 64 (r_width r) (r_height r))
    "Multiplication of width and height overflowed"%string) (λ size,
    ok_or (checked_mul 64 size READ_RESOURCE_BYTES_PER_PIXEL)
      "Multiplication of result and bytes_per_pixel overflowed"%string).

Definition resource_new (resource_id width height : Z) : VirtioGpuResource :=
  MkVirtioGpuResource resource_id width height 0.

Record RutabagaVirtioGpu (RG GB : Type) : Type := MkRutabagaVirtioGpu {
  g_rutabaga : RG;
  g_gpu_backend : GB;
  g_resources : gmap Z VirtioGpuResource;
  g_fence_state : FenceState;
  g_scanouts : list (option Z);
}.
Arguments MkRutabagaVirtioGpu {RG GB}.
Arguments g_rutabaga {RG GB}.
Arguments g_gpu_backend {RG GB}.
Arguments g_resources {RG GB}.
Arguments g_fence_state {RG GB}.
Arguments g_scanouts {RG GB}.

(** A GPU without resources, with all scanouts disabled. *)
Definition gpu_new {RG GB} (rutabaga : RG) (gpu_backend : GB) : RutabagaVirtioGpu RG GB :=
  MkRutabagaVirtioGpu rutabaga gpu_backend ∅ (MkFenceState [] ∅)
    (replicate (Z.to_nat VIRTIO_GPU_MAX_SCANOUTS) None).

Section gpu.
Context {RG GB : Type} `{Rutabaga RG} `{GpuBackend GB}.
(** whether machine additions and debug assertions are checked *)
Context (checks : bool).

Local Notation G := (RutabagaVirtioGpu RG GB).

Definition set_resources (f : gmap Z VirtioGpuResource → gmap Z VirtioGpuResource) (g : G) : G :=
  MkRutabagaVirtioGpu (g_rutabaga g) (g_gpu_backend g) (f (g_resources g)) (g_fence_state g)
    (g_scanouts g).
Definition set_scanout_slot (scanout_id : Z) (v : option Z) (g : G) : G :=
  MkRutabagaVirtioGpu (g_rutabaga g) (g_gpu_backend g) (g_resources g) (g_fence_state g)
    (<[Z.to_nat scanout_id := v]> (g_scanouts g)).

Definition on_rutabaga {E A} : M RG E A → M G E A :=
  zoom g_rutabaga (λ rg g, MkRutabagaVirtioGpu rg (g_gpu_backend g) (g_resources g)
    (g_fence_state g) (g_scanouts g)).
Definition on_backend {E A} : M GB E A → M G E A :=
  zoom g_gpu_backend (λ gb g, MkRutabagaVirtioGpu (g_rutabaga g) gb (g_resources g)
    (g_fence_state g) (g_scanouts g)).
Definition on_fence_state {E A} : M FenceState E A → M G E A :=
  zoom g_fence_state (λ fs g, MkRutabagaVirtioGpu (g_rutabaga g) (g_gpu_backend g)
    (g_resources g) fs (g_scanouts g)).

(** [self.rutabaga.call(..)?] and [self.gpu_backend.call(..).map_err(..)?] *)
Definition call {A} (m : M RG RutabagaError A) : M G GpuResponse A :=
  map_err ErrRutabaga (on_rutabaga m).
Definition send (m : gpu_message) : M G GpuResponse unit :=
  map_err (λ _, ErrUnspec) (on_backend (gb_send m)).

(** A rutabaga call whose success carries no data. *)
Definition call_no_data {A} (m : M RG RutabagaError A) : GpuM G :=
  do! call m in ret OkNoData.

(** [self.resources.get(..).ok_or(ErrInvalidResourceId)?] *)
Definition get_resource (resource_id : Z) : M G GpuResponse VirtioGpuResource :=
  let! resources := gets g_resources in
  lift (ok_or (resources !! resource_id) ErrInvalidResourceId).

Definition result_from_query (resource_id : Z) (g : G) : GpuResponse :=
  match rg_query resource_id (g_rutabaga g) with
  | Ret query =>
      OkResourcePlaneInfo (q3_modifier query)
        ((λ plane_index : nat, MkGpuResponsePlaneInfo (q3_strides query !!! plane_index)
           (q3_offsets query !!! plane_index)) <$> seq 0 4)
  | _ => OkNoData
  end.

(** The error is a message; [output] is the length of the buffer, and the result
    what was read into it. *)
Definition read_2d_resource (resource : VirtioGpuResource) (output : Z) : M G string bytes :=
  let! minimal_buffer_size := lift (calculate_size resource) in
  do! assert (bool_decide (minimal_buffer_size ≤ output)) in
  let! stride := lift (arith checks 32 (r_width resource * READ_RESOURCE_BYTES_PER_PIXEL)) in
  let transfer := MkTransfer3D 0 0 0 (r_width resource) (r_height resource) 1 0 stride 0 0 in
  map_err (λ _, "rutabaga error"%string)
    (on_rutabaga (rg_transfer_read 0 (r_id resource) transfer (Some (Z.to_nat output)))).

Definition gpu_display_info : GpuM G :=
  let! pmodes := map_err (λ _, ErrUnspec) (on_backend gb_get_display_info) in
  ret (OkDisplayInfo
    ((λ d, (rect_width (display_one_r d), rect_height (display_one_r d),
            bool_decide (display_one_enabled d = 1))) <$> pmodes)).

Definition gpu_get_edid (scanout_id : Z) : GpuM G :=
  let! (size, edid) := map_err (λ _, ErrUnspec) (on_backend (gb_get_edid scanout_id)) in
  (* slicing past the end panics *)
  do! assert (bool_decide (size ≤ Z.of_nat (length edid))) in
  ret (OkEdid (take (Z.to_nat size) edid)).

(** Taking the scanout away from the resource that it shows. *)
Definition detach_scanout (scanout_id : Z) (scanout : option Z) : M G GpuResponse unit :=
  match scanout with
  | Some old_id =>
      let! resource := get_resource old_id in
      modify (set_resources (<[old_id :=
        set_r_scanouts (λ s, scanouts_disable s scanout_id) resource]>))
  | None => ret tt
  end.

Definition gpu_set_scanout (scanout_id resource_id : Z) (rect : Rectangle) : GpuM G :=
  let! scanouts := gets g_scanouts in
  let! scanout := lift (ok_or (scanouts !! Z.to_nat scanout_id) ErrInvalidScanoutId) in
  do! detach_scanout scanout_id scanout in
  if bool_decide (resource_id = 0) then
    do! modify (set_scanout_slot scanout_id None) in
    do! send (GpuSetScanout scanout_id 0 0) in
    ret OkNoData
  else
    do! (if bool_decide (scanout = None)
         then send (GpuSetScanout scanout_id (rc_width rect) (rc_height rect))
         else ret tt) in
    let! resource := get_resource resource_id in
    do! modify (set_resources (<[resource_id :=
          set_r_scanouts (λ s, scanouts_enable s scanout_id) resource]>)) in
    do! modify (set_scanout_slot scanout_id (Some resource_id)) in
    ret OkNoData.

Definition gpu_resource_create_3d (resource_id : Z) (create : ResourceCreate3D) : GpuM G :=
  do! call (rg_resource_create_3d resource_id create) in
  let resource := resource_new resource_id (rc3_width create) (rc3_height create) in
  let! resources := gets g_resources in
  do! assert (negb checks || bool_decide (resources !! resource_id = None)) in
  do! modify (set_resources (<[resource_id := resource]>)) in
  gets (result_from_query resource_id).

Definition gpu_unref_resource (resource_id : Z) : GpuM G :=
  let! resources := gets g_resources in
  do! modify (set_resources (delete resource_id)) in
  match resources !! resource_id with
  | None => fail ErrInvalidResourceId
  | Some resource =>
      if has_any_enabled (r_scanouts resource) then fail ErrUnspec
      else
        do! call (rg_unref_resource resource_id) in
        ret OkNoData
  end.

(** The body of the loop over the scanouts that show the resource. *)
Definition flush_scanout (resource : VirtioGpuResource) (scanout_id : Z) : M G GpuResponse unit :=
  let! resource_size := lift (outcome_map_err (λ _, ErrUnspec) (calculate_size resource)) in
  let! r := attempt (read_2d_resource resource resource_size) in
  match r with
  | inl e => ret tt
  | inr data =>
      send (GpuUpdateScanout scanout_id 0 0 (r_width resource) (r_height resource) data)
  end.

Definition gpu_flush_resource (resource_id : Z) (rect : Rectangle) : GpuM G :=
  if bool_decide (resource_id = 0) then ret OkNoData
  else
    let! resource := get_resource resource_id in
    do! for_each (iter_enabled (r_scanouts resource)) (flush_scanout resource) in
    ret OkNoData.

Definition gpu_transfer_write (ctx_id resource_id : Z) (transfer : Transfer3D) : GpuM G :=
  call_no_data (rg_transfer_write ctx_id resource_id transfer).

Definition gpu_transfer_read (ctx_id resource_id : Z) (transfer : Transfer3D) (buf : option nat) :
    GpuM G :=
  call_no_data (rg_transfer_read ctx_id resource_id transfer buf).

Definition gpu_attach_backing (resource_id : Z) (iovecs : list RutabagaIovec) : GpuM G :=
  call_no_data (rg_attach_backing resource_id iovecs).

Definition gpu_detach_backing (resource_id : Z) : GpuM G :=
  call_no_data (rg_detach_backing resource_id).

Definition CURSOR_WIDTH : Z := 64.
Definition CURSOR_HEIGHT : Z := 64.

Definition gpu_update_cursor (resource_id : Z) (cursor_pos : VhostUserGpuCursorPos) (hot_x hot_y : Z) :
    GpuM G :=
  let! cursor_resource := get_resource resource_id in
  if bool_decide (r_width cursor_resource ≠ CURSOR_WIDTH ∨ r_height cursor_resource ≠ CURSOR_HEIGHT)
  then fail ErrInvalidParameter
  else
    let! data := map_err (λ _, ErrUnspec) (read_2d_resource cursor_resource
                   (READ_RESOURCE_BYTES_PER_PIXEL * CURSOR_WIDTH * CURSOR_HEIGHT)) in
    do! send (GpuCursorUpdate cursor_pos hot_x hot_y data) in
    ret OkNoData.

Definition gpu_move_cursor (resource_id : Z) (cursor : VhostUserGpuCursorPos) : GpuM G :=
  do! (if bool_decide (resource_id = 0) then send (GpuCursorPosHide cursor)
       else send (GpuCursorPos cursor)) in
  ret OkNoData.

Definition gpu_get_capset_info (index : Z) : GpuM G :=
  let! rutabaga := gets g_rutabaga in
  let! x := lift (outcome_map_err ErrRutabaga (rg_get_capset_info index rutabaga)) in
  ret (OkCapsetInfo x.1.1 x.1.2 x.2).

Definition gpu_get_capset (capset_id version : Z) : GpuM G :=
  let! rutabaga := gets g_rutabaga in
  let! capset := lift (outcome_map_err ErrRutabaga (rg_get_capset capset_id version rutabaga)) in
  ret (OkCapset capset).

(** The methods that are not implemented answer [ErrUnspec]. *)
Definition not_implemented : GpuM G := fail ErrUnspec.

Definition map_rutabaga (f : RG → RG) (g : G) : G :=
  MkRutabagaVirtioGpu (f (g_rutabaga g)) (g_gpu_backend g) (g_resources g) (g_fence_state g)
    (g_scanouts g).

#[export] Instance rutabaga_virtio_gpu : VirtioGpu G := {|
  resource_unmap_blob _ := not_implemented;
  resource_map_blob _ _ := not_implemented;
  gpu_process_fence E ring fence_id desc_index len :=
    on_fence_state (process_fence ring fence_id desc_index len);
  create_fence fence := call_no_data (rg_create_fence fence);
  submit_command ctx_id commands fence_ids :=
    call_no_data (rg_submit_command ctx_id commands fence_ids);
  context_detach_resource ctx_id resource_id :=
    call_no_data (rg_context_detach_resource ctx_id resource_id);
  context_attach_resource ctx_id resource_id :=
    call_no_data (rg_context_attach_resource ctx_id resource_id);
  destroy_context ctx_id := call_no_data (rg_destroy_context ctx_id);
  force_ctx_0 := map_rutabaga rg_force_ctx_0;
  display_info := gpu_display_info;
  get_edid := gpu_get_edid;
  set_scanout := gpu_set_scanout;
  resource_create_3d := gpu_resource_create_3d;
  unref_resource := gpu_unref_resource;
  flush_resource := gpu_flush_resource;
  transfer_write := gpu_transfer_write;
  transfer_read := gpu_transfer_read;
  attach_backing := gpu_attach_backing;
  detach_backing := gpu_detach_backing;
  update_cursor := gpu_update_cursor;
  move_cursor := gpu_move_cursor;
  resource_assign_uuid _ := not_implemented;
  get_capset_info := gpu_get_capset_info;
  get_capset := gpu_get_capset;
  create_context ctx_id init name := call_no_data (rg_create_context ctx_id init name);
  get_event_poll_fd g := rg_poll_descriptor (g_rutabaga g);
  event_poll := map_rutabaga rg_event_poll;
|}.
End gpu.

(** ** Sizes *)

(** The size of a resource with 32-bit dimensions is computed without
    wrapping: it is the product of the dimensions and the four bytes of a pixel
    when that fits the address space, and an error otherwise, which only the last
    multiplication can cause. *)
Theorem calculate_size_spec r :
  in_width 32 (r_width r) → in_width 32 (r_height r) →
  calculate_size r =
    if bool_decide (r_width r * r_height r * 4 < 2 ^ 64) then Ret (r_width r * r_height r * 4)
    else Fail "Multiplication of result and bytes_per_pixel overflowed"%string.
Proof.
  unfold in_width. intros Hw Hh. unfold calculate_size, checked_mul, READ_RESOURCE_BYTES_PER_PIXEL.
  rewrite bool_decide_eq_true_2 by (unfold in_width; nia). simpl.
  destruct (decide (r_width r * r_height r * 4 < 2 ^ 64)) as [Hlt|Hge].
  - rewrite (bool_decide_eq_true_2 (_ < _)) by done.
    rewrite bool_decide_eq_true_2 by (unfold in_width; nia). done.
  - rewrite (bool_decide_eq_false_2 (_ < _)) by done.
    rewrite bool_decide_eq_false_2 by (unfold in_width; lia). done.
Qed.

Lemma calculate_size_spec_witness :
  calculate_size (MkVirtioGpuResource 1 (2 ^ 31) (2 ^ 31) 0) =
    (if bool_decide (2 ^ 31 * 2 ^ 31 * 4 < 2 ^ 64) then Ret (2 ^ 31 * 2 ^ 31 * 4)
     else Fail "Multiplication of result and bytes_per_pixel overflowed"%string) ∧
  calculate_size (MkVirtioGpuResource 1 (2 ^ 31) (2 ^ 31) 0) =
    Fail "Multiplication of result and bytes_per_pixel overflowed"%string.
Proof.
  split; [|reflexivity].
  apply (calculate_size_spec (MkVirtioGpuResource 1 (2 ^ 31) (2 ^ 31) 0)); done.
Defined.

(** ** Scanouts *)

Lemma elem_of_iter_enabled s i :
  i ∈ iter_enabled s ↔ 0 ≤ i < VIRTIO_GPU_MAX_SCANOUTS ∧ Z.testbit s i = true.
Proof.
  unfold iter_enabled. rewrite list_elem_of_filter, elem_of_seqZ, Z.add_0_l.
  assert (0 ≤ i → Z.land (Z.shiftr s i) 1 = 1 ↔ Z.testbit s i = true) as Hbit.
  { intros Hi. change 1 with (Z.ones 1) at 1. rewrite Z.land_ones by done.
    rewrite <-Z.bit0_mod, Z.shiftr_spec, Z.add_0_l by done. by destruct (Z.testbit s i). }
  split.
  - intros [Hb Hi]. split; [done|]. apply Hbit; [lia|done].
  - intros [Hi Hb]. split; [|done]. apply Hbit; [lia|done].
Qed.

Section gpu_properties.
Context {RG GB : Type} `{Rutabaga RG} `{GpuBackendLaws GB}.
Context (checks : bool).

Local Notation G := (RutabagaVirtioGpu RG GB).
Implicit Types g : G.

(** The two tables say the same: scanout [sid] shows resource [rid] in the table
    of scanouts exactly when bit [sid] of that resource is set. *)
Definition scanouts_agree g : Prop :=
  length (g_scanouts g) = Z.to_nat VIRTIO_GPU_MAX_SCANOUTS ∧
  ∀ sid rid, 0 ≤ sid < VIRTIO_GPU_MAX_SCANOUTS →
    g_scanouts g !! Z.to_nat sid = Some (Some rid) ↔
    ∃ r, g_resources g !! rid = Some r ∧ Z.testbit (r_scanouts r) sid = true.

(** The same tables: what an operation that is not about them leaves alone. *)
Definition same_tables g g' : Prop :=
  g_resources g' = g_resources g ∧ g_scanouts g' = g_scanouts g.

Lemma scanouts_agree_same g g' : same_tables g g' → scanouts_agree g → scanouts_agree g'.
Proof. unfold scanouts_agree. by intros [-> ->]. Qed.

Lemma same_tables_trans g1 g2 g3 : same_tables g1 g2 → same_tables g2 g3 → same_tables g1 g3.
Proof. intros [] []. split; congruence. Qed.

Lemma call_same {A} (m : M RG RutabagaError A) g : same_tables g (call m g).2.
Proof. unfold call, map_err, on_rutabaga, zoom. by destruct (m (g_rutabaga g)). Qed.

Lemma send_cases m g :
  (∃ g', send m g = (Ret tt, g') ∧ same_tables g g' ∧
    gb_sent (g_gpu_backend g') = gb_sent (g_gpu_backend g) ++ [m]) ∨
  (∃ g', send m g = (Fail ErrUnspec, g') ∧ same_tables g g' ∧
    gb_sent (g_gpu_backend g') = gb_sent (g_gpu_backend g)).
Proof.
  unfold send, map_err, on_backend, zoom.
  destruct (gb_send_result m (g_gpu_backend g)) as [[g' Hr]|(e & g' & Hr)]; rewrite Hr; simpl.
  - left. eexists. split_and!; [done|done|]. by apply gb_send_ok in Hr.
  - right. eexists. split_and!; [done|done|]. by apply gb_send_fail in Hr.
Qed.

Lemma send_Ret m g g' : send m g = (Ret tt, g') → same_tables g g'.
Proof. intros Hr. destruct (send_cases m g) as [(g1 & Hr1 & Hs & _)|(g1 & Hr1 & _)]; congruence. Qed.

Lemma get_resource_Ret rid g r g' :
  get_resource rid g = (Ret r, g') → g' = g ∧ g_resources g !! rid = Some r.
Proof.
  unfold get_resource, bind, gets, lift, ok_or.
  destruct (g_resources g !! rid); intros; by simplify_eq.
Qed.

(** In agreeing tables, detaching works and leaves no resource with the bit of
    that scanout, and the bits of the other scanouts as they were. *)
Lemma detach_scanout_ok sid scanout g :
  scanouts_agree g → 0 ≤ sid < VIRTIO_GPU_MAX_SCANOUTS →
  g_scanouts g !! Z.to_nat sid = Some scanout →
  ∃ g', detach_scanout sid scanout g = (Ret tt, g') ∧ g_scanouts g' = g_scanouts g ∧
    g_gpu_backend g' = g_gpu_backend g ∧ g_rutabaga g' = g_rutabaga g ∧
    (∀ rid, is_Some (g_resources g' !! rid) ↔ is_Some (g_resources g !! rid)) ∧
    (∀ rid r', g_resources g' !! rid = Some r' → ∃ r, g_resources g !! rid = Some r ∧
      ∀ i, 0 ≤ i → Z.testbit (r_scanouts r') i = Z.testbit (r_scanouts r) i && bool_decide (i ≠ sid)).
Proof.
  intros [_ Hagree] Hsid Hslot. destruct scanout as [old|]; unfold detach_scanout.
  - destruct (proj1 (Hagree sid old Hsid) Hslot) as (r & Hr & Hbit).
    unfold bind, get_resource, bind, gets, lift, ok_or, modify. rewrite Hr.
    eexists. split; [done|]. split_and!; [done..| |]; simpl.
    + intros rid. destruct (decide (rid = old)) as [->|Hne].
      * rewrite lookup_insert_eq, Hr. split; intros _; by eexists.
      * by rewrite lookup_insert_ne.
    + intros rid r' Hr'. destruct (decide (rid = old)) as [->|Hne].
      * rewrite lookup_insert_eq in Hr'. simplify_eq. exists r. split; [done|].
        intros i Hi. simpl. unfold scanouts_disable. rewrite testbit_lxor_bit by lia.
        destruct (decide (sid = i)) as [->|Hne].
        -- rewrite Hbit, bool_decide_eq_true_2, bool_decide_eq_false_2; naive_solver.
        -- rewrite bool_decide_eq_false_2, bool_decide_eq_true_2 by naive_solver.
           by rewrite xorb_false_r, andb_true_r.
      * rewrite lookup_insert_ne in Hr' by done. exists r'. split; [done|]. intros i Hi.
        destruct (decide (i = sid)) as [->|]; [|by rewrite bool_decide_eq_true_2, andb_true_r].
        rewrite bool_decide_eq_false_2, andb_false_r by naive_solver.
        apply not_true_is_false. intros Hb.
        assert (g_scanouts g !! Z.to_nat sid = Some (Some rid)) as Hslot'
          by (apply Hagree; eauto). congruence.
  - exists g. unfold ret. split_and!; [done..|]. intros rid r Hr. exists r. split; [done|].
    intros i Hi. destruct (decide (i = sid)) as [->|]; [|by rewrite bool_decide_eq_true_2, andb_true_r].
    rewrite bool_decide_eq_false_2, andb_false_r by naive_solver.
    apply not_true_is_false. intros Hb.
    assert (g_scanouts g !! Z.to_nat sid = Some (Some rid)) as Hslot' by (apply Hagree; eauto).
    congruence.
Qed.

(** The tables after the scanout has been detached, with its slot set to what the
    resources now say. *)
Lemma agree_after_detach sid v g g1 g' :
  scanouts_agree g → 0 ≤ sid < VIRTIO_GPU_MAX_SCANOUTS →
  (∀ rid r', g_resources g1 !! rid = Some r' → ∃ r, g_resources g !! rid = Some r ∧
    ∀ i, 0 ≤ i → Z.testbit (r_scanouts r') i = Z.testbit (r_scanouts r) i && bool_decide (i ≠ sid)) →
  (∀ rid, is_Some (g_resources g1 !! rid) ↔ is_Some (g_resources g !! rid)) →
  g_scanouts g' = <[Z.to_nat sid := v]> (g_scanouts g) →
  (∀ rid r', g_resources g' !! rid = Some r' ↔
    ∃ r, g_resources g1 !! rid = Some r ∧
      r' = if bool_decide (v = Some rid) then set_r_scanouts (λ s, scanouts_enable s sid) r else r) →
  (∀ rid, v = Some rid → is_Some (g_resources g1 !! rid)) →
  scanouts_agree g'.
Proof.
  intros [Hlen Hagree] Hsid Hdet Hdom Hslots Hres Hv. split; [by rewrite Hslots, length_insert|].
  intros sid' rid Hsid'. rewrite Hslots.
  assert (∀ r1, g_resources g1 !! rid = Some r1 → Z.testbit (r_scanouts r1) sid = false) as Hoff.
  { intros r1 Hr1. destruct (Hdet _ _ Hr1) as (r & _ & Hb). rewrite Hb by lia.
    rewrite bool_decide_eq_false_2, andb_false_r by naive_solver. done. }
  destruct (decide (sid' = sid)) as [->|Hne].
  - rewrite list_lookup_insert_eq by (rewrite Hlen; lia). split.
    + intros [= ->]. destruct (Hv rid eq_refl) as [r1 Hr1].
      exists (set_r_scanouts (λ s, scanouts_enable s sid) r1). split.
      * apply Hres. exists r1. by rewrite bool_decide_eq_true_2.
      * simpl. unfold scanouts_enable. rewrite testbit_lor_bit by lia.
        by rewrite bool_decide_eq_true_2, orb_true_r.
    + intros (r' & (r1 & Hr1 & ->)%Hres & Hb). case_bool_decide; [congruence|].
      by rewrite (Hoff r1 Hr1) in Hb.
  - assert (Z.to_nat sid' ≠ Z.to_nat sid) by lia.
    rewrite list_lookup_insert_ne by done. rewrite Hagree by done.
    assert (∀ r1, Z.testbit (r_scanouts (if bool_decide (v = Some rid)
      then set_r_scanouts (λ s, scanouts_enable s sid) r1 else r1)) sid' =
      Z.testbit (r_scanouts r1) sid') as Hkeep.
    { intros r1. case_bool_decide; [|done]. simpl. unfold scanouts_enable.
      rewrite testbit_lor_bit, (bool_decide_eq_false_2 (sid = sid')), orb_false_r by lia. done. }
    split.
    + intros (r & Hr & Hb). destruct (proj2 (Hdom rid) (ex_intro _ r Hr)) as [r1 Hr1].
      eexists. split; [apply Hres; by eexists|]. rewrite Hkeep.
      destruct (Hdet _ _ Hr1) as (r0 & Hr0 & Hb0). rewrite Hb0 by lia.
      rewrite bool_decide_eq_true_2, andb_true_r by done. congruence.
    + intros (r' & (r1 & Hr1 & ->)%Hres & Hb). rewrite Hkeep in Hb.
      destruct (Hdet _ _ Hr1) as (r0 & Hr0 & Hb0). rewrite Hb0 in Hb by lia.
      exists r0. split; [done|]. by apply andb_true_iff in Hb as [? _].
Qed.

Lemma set_scanout_ok sid rid rect g resp g' :
  scanouts_agree g → 0 ≤ sid →
  gpu_set_scanout sid rid rect g = (Ret resp, g') →
  resp = OkNoData ∧ sid < VIRTIO_GPU_MAX_SCANOUTS ∧ scanouts_agree g' ∧
  g_scanouts g' = <[Z.to_nat sid := if bool_decide (rid = 0) then None else Some rid]> (g_scanouts g).
Proof.
  intros Hag Hsid0 Hrun. unfold gpu_set_scanout, gets, lift, ok_or in Hrun.
  apply bind_inv_Ret in Hrun as (slots & s & [= <- <-] & Hrun).
  destruct (g_scanouts g !! Z.to_nat sid) as [scanout|] eqn:Hslot; [|done].
  apply bind_inv_Ret in Hrun as (x & s & [= <- <-] & Hrun).
  assert (sid < VIRTIO_GPU_MAX_SCANOUTS) as Hsid.
  { apply lookup_lt_Some in Hslot. destruct Hag as [Hl _]. rewrite Hl in Hslot. unfold VIRTIO_GPU_MAX_SCANOUTS in *. lia. }
  destruct (detach_scanout_ok sid scanout g Hag (conj Hsid0 Hsid) Hslot)
    as (g1 & Hdet & Hs1 & _ & _ & Hdom & Hbits).
  erewrite bind_Ret in Hrun by done. case_bool_decide as Hz.
  - apply bind_inv_Ret in Hrun as ([] & g2 & [= <-] & Hrun).
    apply bind_inv_Ret in Hrun as ([] & g3 & Hsend%send_Ret & [= <- <-]).
    split_and!; [done..| |].
    + apply (scanouts_agree_same _ _ Hsend).
      apply (agree_after_detach sid None g g1); try done; simpl; [by rewrite Hs1|].
      intros rid' r'. naive_solver.
    + destruct Hsend as [_ ->]. simpl. by rewrite Hs1.
  - apply bind_inv_Ret in Hrun as ([] & g2 & Hsend & Hrun).
    assert (same_tables g1 g2) as [Hr2 Hs2].
    { case_bool_decide; [by apply send_Ret in Hsend|by unfold ret in Hsend; simplify_eq]. }
    apply bind_inv_Ret in Hrun as (r & g3 & [-> Hr]%get_resource_Ret & Hrun).
    apply bind_inv_Ret in Hrun as ([] & g4 & [= <-] & Hrun).
    apply bind_inv_Ret in Hrun as ([] & g5 & [= <-] & [= <- <-]).
    rewrite Hr2 in Hr. split_and!; [done..| |by simpl; rewrite Hs2, Hs1].
    apply (agree_after_detach sid (Some rid) g g1); try done; simpl; [by rewrite Hs2, Hs1| |].
    + rewrite Hr2. intros rid' r'. destruct (decide (rid' = rid)) as [->|Hne].
      * rewrite lookup_insert_eq, Hr, bool_decide_eq_true_2 by done. naive_solver.
      * rewrite lookup_insert_ne, bool_decide_eq_false_2 by naive_solver. naive_solver.
    + intros rid' [= <-]. by eexists.
Qed.

(** ** Runs of commands that succeed *)

Lemma create_3d_ok rid create g resp g' :
  scanouts_agree g → g_resources g !! rid = None →
  gpu_resource_create_3d checks rid create g = (Ret resp, g') → scanouts_agree g'.
Proof.
  intros Hag Hnew Hrun. unfold gpu_resource_create_3d in Hrun.
  apply bind_inv_Ret in Hrun as ([] & g1 & Hcall & Hrun).
  pose proof (call_same (rg_resource_create_3d rid create) g) as Hsame. rewrite Hcall in Hsame.
  unfold gets in Hrun. apply bind_inv_Ret in Hrun as (rs & g2 & [= <- <-] & Hrun).
  apply bind_inv_Ret in Hrun as ([] & g2 & Hassert & Hrun).
  assert (g2 = g1) as ->.
  { unfold assert, ret, panic in Hassert. by case_match; simplify_eq. }
  apply bind_inv_Ret in Hrun as ([] & g3 & [= <-] & [= <- <-]).
  apply (scanouts_agree_same _ _ Hsame) in Hag as [Hlen Hag]. destruct Hsame as [Hr Hs].
  split; [done|]. simpl. intros sid rid' Hsid. rewrite Hag by done. simpl in *. rewrite Hr in *.
  destruct (decide (rid' = rid)) as [->|Hne]; [|by rewrite lookup_insert_ne].
  rewrite lookup_insert_eq, Hnew. split; [naive_solver|]. intros (r & [= <-] & Hb).
  simpl in Hb. by rewrite Z.bits_0 in Hb.
Qed.

(** [unref_resource] on every branch. *)
Lemma unref_resource_run rid g :
  gpu_unref_resource rid g =
    match g_resources g !! rid with
    | None => (Fail ErrInvalidResourceId, g)
    | Some r =>
        if bool_decide (r_scanouts r = 0)
        then call_no_data (rg_unref_resource rid) (set_resources (delete rid) g)
        else (Fail ErrUnspec, set_resources (delete rid) g)
    end.
Proof.
  unfold gpu_unref_resource. erewrite bind_Ret by done. erewrite bind_Ret by done.
  unfold has_any_enabled. destruct (g_resources g !! rid) as [r|] eqn:Hr.
  - destruct (decide (r_scanouts r = 0)) as [Hz|Hne].
    + by rewrite bool_decide_eq_false_2, bool_decide_eq_true_2 by (done || auto).
    + by rewrite bool_decide_eq_true_2, bool_decide_eq_false_2 by done.
  - unfold fail. f_equal. unfold set_resources. rewrite delete_id by done. by destruct g.
Qed.

(** Unreferencing a resource that a scanout shows is refused, but the
    refusal has already forgotten the resource: its scanout can then neither be
    given another resource nor be disabled, every [set_scanout] for it being an
    error that changes nothing. *)
Theorem unref_refused_jams_scanout sid rid g :
  scanouts_agree g → 0 ≤ sid < VIRTIO_GPU_MAX_SCANOUTS →
  g_scanouts g !! Z.to_nat sid = Some (Some rid) →
  ∃ g', gpu_unref_resource rid g = (Fail ErrUnspec, g') ∧
    ∀ new rect, gpu_set_scanout sid new rect g' = (Fail ErrInvalidResourceId, g').
Proof.
  intros [_ Hag] Hsid Hslot. destruct (proj1 (Hag sid rid Hsid) Hslot) as (r & Hr & Hbit).
  exists (set_resources (delete rid) g). split.
  - rewrite unref_resource_run, Hr, bool_decide_eq_false_2; [done|]. intros Hz.
    by rewrite Hz, Z.bits_0 in Hbit.
  - intros new rect. unfold gpu_set_scanout. erewrite bind_Ret by done.
    erewrite bind_Ret by (unfold lift, ok_or; simpl; by rewrite Hslot).
    apply bind_Fail. unfold detach_scanout. apply bind_Fail.
    unfold get_resource. erewrite bind_Ret by done. unfold lift, ok_or. simpl.
    by rewrite lookup_delete_eq.
Qed.

Lemma unref_ok rid g resp g' :
  scanouts_agree g → gpu_unref_resource rid g = (Ret resp, g') →
  (∀ r, g_resources g !! rid = Some r → r_scanouts r = 0) → scanouts_agree g'.
Proof.
  intros Hag Hrun Hzero. rewrite unref_resource_run in Hrun.
  destruct (g_resources g !! rid) as [r|] eqn:Hr; [|done].
  rewrite bool_decide_eq_true_2 in Hrun by auto.
  unfold call_no_data in Hrun. apply bind_inv_Ret in Hrun as ([] & g2 & Hcall & [= <- <-]).
  pose proof (call_same (rg_unref_resource rid) (set_resources (delete rid) g)) as Hsame.
  rewrite Hcall in Hsame. apply (scanouts_agree_same _ _ Hsame). destruct Hag as [Hlen Hag].
  split; [done|]. simpl. intros sid rid' Hsid. rewrite Hag by done.
  destruct (decide (rid' = rid)) as [->|Hne]; [|by rewrite lookup_delete_ne].
  rewrite lookup_delete_eq, Hr. split; [|naive_solver]. intros (r' & [= <-] & Hb).
  by rewrite (Hzero r eq_refl), Z.bits_0 in Hb.
Qed.

(** Commands that are about the tables, when they succeed, and any other
    operation. *)
Inductive gpu_step : G → G → Prop :=
| gstep_set_scanout sid rid rect g resp g' :
    0 ≤ sid → gpu_set_scanout sid rid rect g = (Ret resp, g') → gpu_step g g'
| gstep_create rid create g resp g' :
    (* rutabaga refuses an identifier that is in use *)
    g_resources g !! rid = None →
    gpu_resource_create_3d checks rid create g = (Ret resp, g') → gpu_step g g'
| gstep_unref rid g resp g' :
    gpu_unref_resource rid g = (Ret resp, g') → gpu_step g g'
| gstep_other g g' : same_tables g g' → gpu_step g g'.

Lemma unref_Ret_zero rid g resp g' r :
  gpu_unref_resource rid g = (Ret resp, g') → g_resources g !! rid = Some r → r_scanouts r = 0.
Proof.
  intros Hrun Hr. rewrite unref_resource_run, Hr in Hrun. by case_bool_decide.
Qed.

Lemma gpu_new_agree rutabaga gpu_backend : scanouts_agree (gpu_new rutabaga gpu_backend).
Proof.
  split; [by apply length_replicate|]. intros sid rid Hsid. simpl. split.
  - intros Hl. change [None; None; None; None; None; None; None; None; None; None; None; None;
      None; None; None; None] with (replicate 16 (None : option Z)) in Hl.
    apply lookup_replicate in Hl as [? _]. done.
  - intros (r & Hr & _). by rewrite lookup_empty in Hr.
Qed.

Lemma rtc_agree g g' : scanouts_agree g → rtc gpu_step g g' → scanouts_agree g'.
Proof.
  intros Hag Hreach. revert Hag.
  induction Hreach as [|g1 g2 g3 Hstep _ IH]; [done|]. intros Hag. apply IH.
  destruct Hstep as [? ? ? ? ? ? ? Hr|? ? ? ? ? ? Hr|? ? ? ? Hr|? ? Hs].
  - by eapply set_scanout_ok.
  - by eapply create_3d_ok.
  - eapply unref_ok; [done..|]. intros r. by eapply unref_Ret_zero.
  - by eapply scanouts_agree_same.
Qed.

(** As long as its commands succeed, a GPU's two records of what each
    scanout shows agree: a scanout shows a resource in the table of scanouts
    exactly when the resource exists and carries that scanout's bit. *)
Theorem scanouts_consistent rutabaga gpu_backend g sid rid :
  rtc gpu_step (gpu_new rutabaga gpu_backend) g → 0 ≤ sid < VIRTIO_GPU_MAX_SCANOUTS →
  g_scanouts g !! Z.to_nat sid = Some (Some rid) ↔
  ∃ r, g_resources g !! rid = Some r ∧ sid ∈ iter_enabled (r_scanouts r).
Proof.
  intros Hreach Hsid. assert (scanouts_agree g) as [_ Hag].
  { eapply rtc_agree; [apply gpu_new_agree|done]. }
  rewrite Hag by done. setoid_rewrite elem_of_iter_enabled. naive_solver.
Qed.

(** A [set_scanout] that fails because its resource does not exist is
    not undone: the scanout still shows the old resource, but that resource no
    longer carries the scanout's bit, so that flushing it does not reach the
    scanout any more. *)
Theorem set_scanout_failure_detaches sid old new rect g :
  scanouts_agree g → 0 ≤ sid < VIRTIO_GPU_MAX_SCANOUTS →
  g_scanouts g !! Z.to_nat sid = Some (Some old) →
  new ≠ 0 → g_resources g !! new = None →
  ∃ g' r', gpu_set_scanout sid new rect g = (Fail ErrInvalidResourceId, g') ∧
    g_scanouts g' !! Z.to_nat sid = Some (Some old) ∧
    g_resources g' !! old = Some r' ∧ sid ∉ iter_enabled (r_scanouts r').
Proof.
  intros Hag Hsid Hslot Hnew Hno.
  destruct (detach_scanout_ok sid (Some old) g Hag Hsid Hslot)
    as (g1 & Hdet & Hs1 & _ & _ & Hdom & Hbits).
  destruct (proj1 (proj2 Hag sid old Hsid) Hslot) as (r & Hr & _).
  destruct (proj2 (Hdom old) (ex_intro _ r Hr)) as [r' Hr'].
  exists g1, r'. split_and!; [|by rewrite Hs1|done|].
  - unfold gpu_set_scanout, gets, lift, ok_or.
    erewrite bind_Ret by done. rewrite Hslot. erewrite bind_Ret by done.
    erewrite bind_Ret by done. rewrite (bool_decide_eq_false_2 (new = 0)) by done.
    rewrite (bool_decide_eq_false_2 (Some old = None)) by done.
    erewrite bind_Ret by done. apply bind_Fail.
    unfold get_resource, bind, gets, lift, ok_or.
    destruct (g_resources g1 !! new) eqn:Hx; [|done].
    destruct (proj1 (Hdom new) (ex_intro _ _ Hx)). congruence.
  - rewrite elem_of_iter_enabled. intros [_ Hb]. destruct (Hbits _ _ Hr') as (r0 & _ & Hb0).
    rewrite Hb0, bool_decide_eq_false_2, andb_false_r in Hb by (lia || naive_solver). done.
Qed.

(** ** Flushing *)

(** Rutabaga reads whatever it is asked for. *)
Definition reads_succeed : Prop :=
  ∀ ctx rid transfer n rg, ∃ d rg', rg_transfer_read (RG:=RG) ctx rid transfer n rg = (Ret d, rg').

Definition sent (g : G) : list gpu_message := gb_sent (g_gpu_backend g).

Lemma read_2d_Ret r output g x g' :
  attempt (E':=GpuResponse) (read_2d_resource checks r output) g = (Ret x, g') →
  same_tables g g' ∧ sent g' = sent g ∧
  (reads_succeed → calculate_size r = Ret output → ∃ d, x = inr d).
Proof.
  unfold attempt, read_2d_resource, lift, map_err, on_rutabaga, zoom, assert, bind.
  destruct (calculate_size r) as [n|e| |] eqn:Hn; [|intros [= <- <-]|intros [=]..].
  - case_bool_decide as Hle; simpl; [|intros [=]]. unfold ret.
    unfold arith at 1. case_bool_decide as Hw; simpl.
    + destruct (rg_transfer_read _ _ _ _ (g_rutabaga g)) as [[d|e| |] rg] eqn:Hread; simpl;
        intros [= <- <-]; (split; [done|]; split; [done|]); intros Hok _; [by eexists|].
      edestruct Hok as (d & rg' & Hd). rewrite Hd in Hread. discriminate.
    + destruct checks; [intros [=]|]. unfold outcome_map_err.
      destruct (rg_transfer_read _ _ _ _ (g_rutabaga g)) as [[d|e| |] rg] eqn:Hread; simpl;
        intros [= <- <-]; (split; [done|]; split; [done|]); intros Hok _; [by eexists|].
      edestruct Hok as (d & rg' & Hd). rewrite Hd in Hread. discriminate.
  - split; [done|]. split; [done|]. intros; congruence.
Qed.

(** The message that shows [data], the contents of [r], on scanout [sid]. *)
Definition update_of (r : VirtioGpuResource) (sid : Z) (data : bytes) : gpu_message :=
  GpuUpdateScanout sid 0 0 (r_width r) (r_height r) data.

Lemma flush_scanout_Ret r sid g g' :
  flush_scanout checks r sid g = (Ret tt, g') →
  same_tables g g' ∧
  ((∃ d, sent g' = sent g ++ [update_of r sid d]) ∨ ¬ reads_succeed ∧ sent g' = sent g).
Proof.
  unfold flush_scanout. intros Hrun.
  apply bind_inv_Ret in Hrun as (size & g1 & Hsize & Hrun).
  assert (calculate_size r = Ret size) as Hsize'.
  { unfold lift, outcome_map_err in Hsize. by destruct (calculate_size r); simplify_eq. }
  assert (g1 = g) as -> by (unfold lift in Hsize; congruence).
  apply bind_inv_Ret in Hrun as (x & g2 & (Hsame & Hsent & Hok)%read_2d_Ret & Hrun).
  destruct x as [e|d].
  - unfold ret in Hrun. simplify_eq. split; [done|]. right. split; [|done].
    intros Hreads. by destruct (Hok Hreads Hsize').
  - destruct (send_cases (update_of r sid d) g2) as [(g3 & Hs & Hs3 & Hm)|(g3 & Hs & _)];
      unfold update_of in Hs; rewrite Hs in Hrun; simplify_eq.
    split; [by eapply same_tables_trans|]. left. exists d. unfold sent in *. by rewrite Hm, Hsent.
Qed.

Lemma flush_scanouts_Ret r sids g g' :
  for_each sids (flush_scanout checks r) g = (Ret tt, g') →
  same_tables g g' ∧ ∃ shown : list (Z * bytes),
    sublist shown.*1 sids ∧
    sent g' = sent g ++ ((λ x, update_of r x.1 x.2) <$> shown) ∧
    (reads_succeed → shown.*1 = sids).
Proof.
  revert g. induction sids as [|sid sids IH]; intros g Hrun; simpl in Hrun.
  - unfold ret in Hrun. simplify_eq. split; [done|]. exists []. by rewrite app_nil_r.
  - apply bind_inv_Ret in Hrun as ([] & g1 & (Hs1 & Hsent1)%flush_scanout_Ret & Hrun).
    destruct (IH g1 Hrun) as (Hs2 & shown & Hsub & Hsent2 & Hall).
    split; [by eapply same_tables_trans|]. destruct Hsent1 as [[d Hsent1]|[Hno Hsent1]].
    + exists ((sid, d) :: shown). simpl. split; [by apply sublist_skip|]. split.
      * by rewrite Hsent2, Hsent1, <-app_assoc.
      * intros Hok. f_equal. by apply Hall.
    + exists shown. split; [by apply sublist_cons|]. split; [by rewrite Hsent2, Hsent1|done].
Qed.

(** Flushing a resource sends one update per scanout that shows it, in
    the order of the scanouts and with the dimensions of the resource, and leaves
    both tables alone. Only a scanout for which rutabaga failed to read the
    resource is left out. *)
Theorem flush_resource_updates rid rect g resp g' :
  rid ≠ 0 → gpu_flush_resource checks rid rect g = (Ret resp, g') →
  resp = OkNoData ∧ same_tables g g' ∧
  ∃ r (shown : list (Z * bytes)), g_resources g !! rid = Some r ∧
    sublist shown.*1 (iter_enabled (r_scanouts r)) ∧
    sent g' = sent g ++ ((λ x, update_of r x.1 x.2) <$> shown) ∧
    (reads_succeed → shown.*1 = iter_enabled (r_scanouts r)).
Proof.
  intros Hrid Hrun. unfold gpu_flush_resource in Hrun.
  rewrite bool_decide_eq_false_2 in Hrun by done.
  apply bind_inv_Ret in Hrun as (r & g1 & [-> Hr]%get_resource_Ret & Hrun).
  apply bind_inv_Ret in Hrun as ([] & g2 & Hloop & [= <- <-]).
  destruct (flush_scanouts_Ret r _ g g2 Hloop) as (Hsame & shown & Hshown).
  split; [done|]. split; [done|]. by exists r, shown.
Qed.
End gpu_properties.

(** ** The fences of a GPU *)

Section gpu_interface.
Context {RG GB : Type} `{RutabagaLaws RG} `{GpuBackendLaws GB}.
Context (checks : bool).

Local Notation G := (RutabagaVirtioGpu RG GB).
Implicit Types g : G.

(** The descriptors that wait for a fence, as entries of a used ring *)
Definition pending_descs g : list (Z * Z) := desc_entry <$> fs_descs (g_fence_state g).

Lemma on_rutabaga_keeps {E A} (m : M RG E A) :
  keeps (λ _, tt) m → keeps pending_descs (on_rutabaga (GB:=GB) m).
Proof. intros Hm. by eapply keeps_zoom. Qed.

Lemma on_backend_keeps {E A} (m : M GB E A) :
  keeps (λ _, tt) m → keeps pending_descs (on_backend (RG:=RG) m).
Proof. intros Hm. by eapply keeps_zoom. Qed.

Lemma call_keeps {A} (m : M RG RutabagaError A) :
  keeps (λ _, tt) m → keeps pending_descs (call (GB:=GB) m).
Proof. intros Hm. by apply keeps_map_err, on_rutabaga_keeps. Qed.

Lemma call_no_data_keeps {A} (m : M RG RutabagaError A) :
  keeps (λ _, tt) m → keeps pending_descs (call_no_data (GB:=GB) m).
Proof. intros Hm. apply keeps_bind; [by apply call_keeps|]. intros _. apply keeps_ret. Qed.

Lemma send_keeps m : keeps pending_descs (send (RG:=RG) (GB:=GB) m).
Proof.
  apply keeps_map_err, on_backend_keeps. intros gb. split; [done|].
  by destruct (gb_send_result m gb) as [(g' & ->)|(e & g' & ->)].
Qed.

Lemma set_tables_keeps (f : G → G) :
  (∀ g, g_fence_state (f g) = g_fence_state g) → keeps (E:=GpuResponse) pending_descs (modify f).
Proof. intros Hf. apply keeps_modify. intros g. unfold pending_descs. by rewrite Hf. Qed.

Lemma get_resource_keeps rid : keeps pending_descs (get_resource (RG:=RG) (GB:=GB) rid).
Proof.
  apply keeps_bind; [apply keeps_gets|]. intros rs. apply keeps_lift. by destruct (rs !! rid).
Qed.

Lemma calculate_size_returns r : calculate_size r ≠ NoFuel.
Proof.
  unfold calculate_size, ok_or, outcome_bind. destruct (checked_mul _ _ _) as [size|]; [|done].
  by destruct (checked_mul _ _ _).
Qed.

Lemma arith_returns {E} w z : arith (E:=E) checks w z ≠ NoFuel.
Proof. unfold arith. by repeat case_match. Qed.

Lemma ok_or_returns {E A} (o : option A) (e : E) : ok_or o e ≠ NoFuel.
Proof. by destruct o. Qed.

Lemma outcome_map_err_returns {E E' A} (f : E → E') (o : outcome E A) :
  o ≠ NoFuel → outcome_map_err f o ≠ NoFuel.
Proof. by destruct o. Qed.

Lemma read_2d_keeps r n : keeps pending_descs (read_2d_resource (RG:=RG) (GB:=GB) checks r n).
Proof.
  unfold read_2d_resource. apply keeps_bind; [apply keeps_lift, calculate_size_returns|].
  intros size. apply keeps_bind; [apply keeps_assert|]. intros _.
  apply keeps_bind; [apply keeps_lift, arith_returns|]. intros stride.
  apply keeps_map_err, on_rutabaga_keeps. apply rg_transfer_read_keeps.
Qed.

(** Goes through the body of an operation. *)
Ltac keeps_body :=
  repeat first
    [ apply keeps_ret | apply keeps_fail | apply keeps_gets | apply keeps_assert
    | apply send_keeps | apply get_resource_keeps | apply read_2d_keeps
    | apply set_tables_keeps; done
    | apply call_keeps; auto with keeps | apply call_no_data_keeps; auto with keeps
    | apply on_backend_keeps; auto with keeps
    | apply keeps_lift, ok_or_returns | apply keeps_lift, outcome_map_err_returns
    | apply keeps_attempt | apply keeps_map_err | apply keeps_for_each | apply keeps_bind
    | case_match | match goal with |- ∀ _, _ => intros ? end ].

Lemma gpu_set_scanout_keeps sid rid rect :
  keeps pending_descs (gpu_set_scanout (RG:=RG) (GB:=GB) sid rid rect).
Proof.
  unfold gpu_set_scanout, detach_scanout. keeps_body.
Qed.

Lemma gpu_methods_keep m :
  gpu_method (H:=rutabaga_virtio_gpu checks) m → keeps pending_descs m.
Proof.
  intros [ | | | | | | | | | | | | | | | | | | | ]; simpl; try apply gpu_set_scanout_keeps;
    unfold gpu_display_info, gpu_get_edid, gpu_resource_create_3d, gpu_unref_resource,
      gpu_flush_resource, flush_scanout, gpu_transfer_write, gpu_transfer_read,
      gpu_attach_backing, gpu_detach_backing, gpu_update_cursor, gpu_move_cursor,
      gpu_get_capset_info, gpu_get_capset;
    keeps_body; eauto using keeps_unit, gb_get_display_info_keeps, gb_get_edid_keeps,
      rg_get_capset_info_returns, rg_get_capset_returns, calculate_size_returns with keeps.
Qed.

(** The GPU keeps the promises that the worker relies on. *)
#[export, program] Instance rutabaga_virtio_gpu_laws : VirtioGpuLaws G (H:=rutabaga_virtio_gpu checks) := {|
  gpu_pending := pending_descs;
|}.
Next Obligation. apply gpu_methods_keep. Qed.
Next Obligation. done. Qed.
Next Obligation. done. Qed.
Next Obligation.
  intros E ring fence_id desc_index len g. simpl.
  unfold on_fence_state, zoom, process_fence, bind, get, modify, ret. simpl. case_bool_decide.
  - right. eexists. split; [done|]. unfold pending_descs. simpl. by rewrite fmap_app.
  - left. eexists. by split.
Qed.
End gpu_interface.

(** ** A small GPU

    A renderer that has no more than a counter of its calls and reads zeroes, and a
    socket that keeps what it was sent, to run the GPU on. *)
Module GpuExamples.
#[export] Instance counting_rutabaga : Rutabaga nat := {|
  rg_query _ _ := Fail (MkRutabagaError 0);
  rg_transfer_read _ _ _ n := let! _ := modify S in ret (replicate (default 0%nat n) 0);
  rg_transfer_write _ _ _ := modify S;
  rg_resource_create_3d _ _ := modify S;
  rg_unref_resource _ := modify S;
  rg_attach_backing _ _ := modify S;
  rg_detach_backing _ := modify S;
  rg_get_capset_info i _ := Ret (i, 0, 0);
  rg_get_capset _ _ _ := Ret [];
  rg_create_context _ _ _ := modify S;
  rg_destroy_context _ := modify S;
  rg_context_attach_resource _ _ := modify S;
  rg_context_detach_resource _ _ := modify S;
  rg_submit_command _ _ _ := modify S;
  rg_create_fence _ := modify S;
  rg_event_poll n := n;
  rg_force_ctx_0 n := n;
  rg_poll_descriptor _ := None;
|}.

#[export] Instance recording_backend : GpuBackend (list gpu_message) := {|
  gb_send m := modify (λ l, l ++ [m]);
  gb_get_display_info := ret [];
  gb_get_edid _ := fail 0;
  gb_sent l := l;
|}.

#[export] Instance recording_backend_laws : GpuBackendLaws (list gpu_message).
Proof.
  split; [done..| | |].
  - intros m g g' [= <-]. done.
  - intros m g e g' [=].
  - intros m g. left. by eexists.
Qed.

Definition G := RutabagaVirtioGpu nat (list gpu_message).
Definition gpu0 : G := gpu_new 0%nat [].
Definition two_by_one : ResourceCreate3D := MkResourceCreate3D 0 0 0 2 1 0 0 0 0 0.

(** Resource 7 is created and shown on scanouts 1 and 3. *)
Definition gpu1 : G := (gpu_resource_create_3d true 7 two_by_one gpu0).2.
Definition gpu2 : G := (gpu_set_scanout 1 7 (MkRectangle 0 0 2 1) gpu1).2.
Definition gpu3 : G := (gpu_set_scanout 3 7 (MkRectangle 0 0 2 1) gpu2).2.

Lemma gpu3_reached : rtc (gpu_step true) gpu0 gpu3.
Proof.
  apply rtc_l with gpu1.
  { apply (gstep_create true 7 two_by_one gpu0 OkNoData); [done|vm_compute; reflexivity]. }
  apply rtc_l with gpu2.
  { apply (gstep_set_scanout true 1 7 (MkRectangle 0 0 2 1) gpu1 OkNoData); [done|].
    vm_compute; reflexivity. }
  apply rtc_once.
  apply (gstep_set_scanout true 3 7 (MkRectangle 0 0 2 1) gpu2 OkNoData); [done|].
  vm_compute; reflexivity.
Qed.

Lemma gpu3_agree : scanouts_agree gpu3.
Proof. apply (rtc_agree true gpu0); [apply gpu_new_agree|apply gpu3_reached]. Qed.

Lemma scanouts_consistent_witness :
  g_scanouts gpu3 !! Z.to_nat 3 = Some (Some 7) ↔
    ∃ r, g_resources gpu3 !! 7 = Some r ∧ 3 ∈ iter_enabled (r_scanouts r).
Proof.
  exact (scanouts_consistent true 0%nat [] gpu3 3 7 gpu3_reached ltac:(done)).
Defined.

Lemma unref_refused_jams_scanout_witness :
  ∃ g', gpu_unref_resource 7 gpu3 = (Fail ErrUnspec, g') ∧
    ∀ new rect, gpu_set_scanout 3 new rect g' = (Fail ErrInvalidResourceId, g').
Proof.
  exact (unref_refused_jams_scanout 3 7 gpu3 gpu3_agree
    ltac:(done) eq_refl).
Defined.

Lemma set_scanout_failure_detaches_witness :
  ∃ g' r', gpu_set_scanout 3 8 (MkRectangle 0 0 2 1) gpu3 = (Fail ErrInvalidResourceId, g') ∧
    g_scanouts g' !! Z.to_nat 3 = Some (Some 7) ∧
    g_resources g' !! 7 = Some r' ∧ 3 ∉ iter_enabled (r_scanouts r').
Proof.
  exact (set_scanout_failure_detaches 3 7 8 (MkRectangle 0 0 2 1) gpu3 gpu3_agree
    ltac:(done) eq_refl ltac:(lia) eq_refl).
Defined.

Lemma flush_resource_updates_witness :
  sent (gpu_flush_resource true 7 (MkRectangle 0 0 2 1) gpu3).2 =
    sent gpu3 ++ [GpuUpdateScanout 1 0 0 2 1 (replicate 8 0);
                  GpuUpdateScanout 3 0 0 2 1 (replicate 8 0)] ∧
  ∃ r (shown : list (Z * bytes)), g_resources gpu3 !! 7 = Some r ∧
    sublist shown.*1 (iter_enabled (r_scanouts r)) ∧
    sent (gpu_flush_resource true 7 (MkRectangle 0 0 2 1) gpu3).2 =
      sent gpu3 ++ ((λ x, update_of r x.1 x.2) <$> shown) ∧
    (reads_succeed (RG:=nat) → shown.*1 = iter_enabled (r_scanouts r)).
Proof.
  split; [vm_compute; reflexivity|].
  refine (proj2 (proj2 (flush_resource_updates true 7 (MkRectangle 0 0 2 1) gpu3 OkNoData _
    ltac:(lia) _))).
  vm_compute. reflexivity.
Defined.
End GpuExamples.
