(* ===== verification/GpuDisplay.v ===== *)
(** * What the scanouts show: a specification of the display, and its refinement

    [RutabagaVirtioGpu] of [virtio_gpu.rs] keeps two tables that have to agree: each scanout
    names the resource it shows, and each resource has a bit per scanout. This file says
    what the two are for with one table: a [screen] knows the resources with their
    sizes and which of them each scanout shows. [display_refines] proves that the commands
    of a guest, with their answers and the messages that they send to the front-end, are
    those of the specification, on every branch that does not mishap; and
    [failed_scanout_crosses] shows what the mishap of a failed [set_scanout] leads to. *)

From S2P Require Import Prelude VirtQueue Codec GpuProtocol GpuResponse GpuFence VirtioGpu RutabagaGpu.

(** ** The specification *)

Record screen : Type := MkScreen {
  sn_resources : gmap Z (Z * Z); (* width and height *)
  sn_shown : list (option Z);    (* the resource that each scanout shows *)
}.

Definition screen_init : screen := MkScreen ∅ (replicate (Z.to_nat VIRTIO_GPU_MAX_SCANOUTS) None).

Definition show (sid : Z) (rid : option Z) (a : screen) : screen :=
  MkScreen (sn_resources a) (<[Z.to_nat sid := rid]> (sn_shown a)).
Definition add_resource (rid w h : Z) (a : screen) : screen :=
  MkScreen (<[rid := (w, h)]> (sn_resources a)) (sn_shown a).
Definition remove_resource (rid : Z) (a : screen) : screen :=
  MkScreen (delete rid (sn_resources a)) (sn_shown a).

(** The scanouts that show a resource, in order *)
Definition shown_on (rid : Z) (a : screen) : list Z :=
  filter (λ sid, sn_shown a !! Z.to_nat sid = Some (Some rid)) (seqZ 0 VIRTIO_GPU_MAX_SCANOUTS).

Inductive display_command : Type :=
| SetScanout (sid rid : Z) (rect : Rectangle)
| CreateResource (rid : Z) (create : ResourceCreate3D)
| UnrefResource (rid : Z)
| FlushResource (rid : Z) (rect : Rectangle).

(** A command ([None] for one that is not about the display), its answer, and the messages
    that the front-end gets. *)
Definition display_event : Type :=
  option display_command * outcome GpuResponse GpuResponse * list gpu_message.

Definition about_cursor (m : gpu_message) : Prop :=
  match m with GpuSetScanout _ _ _ | GpuUpdateScanout _ _ _ _ _ _ => False | _ => True end.

Definition update (w h : Z) (x : Z * bytes) : gpu_message := GpuUpdateScanout x.1 0 0 w h x.2.

(** The front-end is told about a scanout that was off. *)
Definition announce (sid w h : Z) (before : option Z) : list gpu_message :=
  match before with None => [GpuSetScanout sid w h] | Some _ => [] end.

Inductive screen_step : display_event → screen → screen → Prop :=
| sn_disable sid rect shown a :
    sn_shown a !! Z.to_nat sid = Some shown →
    screen_step (Some (SetScanout sid 0 rect), Ret OkNoData, [GpuSetScanout sid 0 0]) a (show sid None a)
| sn_disable_unsent sid rect shown a :
    sn_shown a !! Z.to_nat sid = Some shown →
    screen_step (Some (SetScanout sid 0 rect), Fail ErrUnspec, []) a (show sid None a)
| sn_show sid rid rect shown a :
    rid ≠ 0 → sn_shown a !! Z.to_nat sid = Some shown → is_Some (sn_resources a !! rid) →
    screen_step (Some (SetScanout sid rid rect), Ret OkNoData,
      announce sid (rc_width rect) (rc_height rect) shown) a (show sid (Some rid) a)
| sn_show_unsent sid rid rect a :
    rid ≠ 0 → sn_shown a !! Z.to_nat sid = Some None →
    screen_step (Some (SetScanout sid rid rect), Fail ErrUnspec, []) a a
| sn_show_missing sid rid rect a :
    rid ≠ 0 → sn_shown a !! Z.to_nat sid = Some None → sn_resources a !! rid = None →
    screen_step (Some (SetScanout sid rid rect), Fail ErrInvalidResourceId,
      [GpuSetScanout sid (rc_width rect) (rc_height rect)]) a a
| sn_no_scanout sid rid rect a :
    sn_shown a !! Z.to_nat sid = None →
    screen_step (Some (SetScanout sid rid rect), Fail ErrInvalidScanoutId, []) a a
| sn_create rid create resp a :
    sn_resources a !! rid = None →
    screen_step (Some (CreateResource rid create), Ret resp, []) a
      (add_resource rid (rc3_width create) (rc3_height create) a)
| sn_create_refused rid create e a :
    screen_step (Some (CreateResource rid create), Fail (ErrRutabaga e), []) a a
| sn_unref rid o a :
    is_Some (sn_resources a !! rid) → shown_on rid a = [] →
    o = Ret OkNoData ∨ (∃ e, o = Fail (ErrRutabaga e)) →
    screen_step (Some (UnrefResource rid), o, []) a (remove_resource rid a)
| sn_unref_missing rid a :
    sn_resources a !! rid = None →
    screen_step (Some (UnrefResource rid), Fail ErrInvalidResourceId, []) a a
| sn_flush rid rect w h (updates : list (Z * bytes)) o a :
    rid ≠ 0 → sn_resources a !! rid = Some (w, h) → sublist updates.*1 (shown_on rid a) →
    o = Ret OkNoData ∨ o = Fail ErrUnspec →
    screen_step (Some (FlushResource rid rect), o, update w h <$> updates) a a
| sn_flush_none rect a : screen_step (Some (FlushResource 0 rect), Ret OkNoData, []) a a
| sn_flush_missing rid rect a :
    rid ≠ 0 → sn_resources a !! rid = None →
    screen_step (Some (FlushResource rid rect), Fail ErrInvalidResourceId, []) a a
| sn_other o ms a : Forall about_cursor ms → screen_step (None, o, ms) a a.

(** ** The commands of the GPU *)

Section display.
Context {RG GB : Type} `{RutabagaLaws RG} `{GpuBackendLaws GB}.
Context (checks : bool).

Local Notation G := (RutabagaVirtioGpu RG GB).
Implicit Types g : G.

Definition run_display (c : display_command) : GpuM G :=
  match c with
  | SetScanout sid rid rect => gpu_set_scanout sid rid rect
  | CreateResource rid create => gpu_resource_create_3d checks rid create
  | UnrefResource rid => gpu_unref_resource rid
  | FlushResource rid rect => gpu_flush_resource checks rid rect
  end.

(** The methods that are not about the display *)
Inductive other_method : GpuM G → Prop :=
| om_call {A} (m : M RG RutabagaError A) : other_method (call_no_data m)
| om_display_info : other_method gpu_display_info
| om_get_edid sid : other_method (gpu_get_edid sid)
| om_update_cursor rid pos x y : other_method (gpu_update_cursor checks rid pos x y)
| om_move_cursor rid pos : other_method (gpu_move_cursor rid pos)
| om_get_capset_info i : other_method (gpu_get_capset_info i)
| om_get_capset i v : other_method (gpu_get_capset i v).

(** The screen of a GPU: its resources without their bits *)
Definition size_of_resource (r : VirtioGpuResource) : Z * Z := (r_width r, r_height r).
Definition abs (g : G) : screen := MkScreen (size_of_resource <$> g_resources g) (g_scanouts g).

(** A command mishaps: a scanout that shows something is given a resource that does not
    exist, a resource that is shown is given up, or rutabaga creates one that exists. *)
Definition mishap (c : display_command) (o : outcome GpuResponse GpuResponse) (a : screen) : Prop :=
  match c with
  | SetScanout sid rid _ =>
      rid ≠ 0 ∧ sn_resources a !! rid = None ∧ ∃ old, sn_shown a !! Z.to_nat sid = Some (Some old)
  | CreateResource rid _ => (∃ resp, o = Ret resp) ∧ is_Some (sn_resources a !! rid)
  | UnrefResource rid => is_Some (sn_resources a !! rid) ∧ shown_on rid a ≠ []
  | FlushResource _ _ => False
  end.

(** The identifier of a scanout is a [u32]. *)
Definition valid_display (c : display_command) : Prop :=
  match c with SetScanout sid _ _ => 0 ≤ sid | _ => True end.

Definition answers (o : outcome GpuResponse GpuResponse) : Prop := o ≠ Panic ∧ o ≠ NoFuel.

(** A command that is answered and does not mishap, or another method *)
Inductive display_step : display_event → G → G → Prop :=
| display_cmd c o ms g g' :
    valid_display c → run_display c g = (o, g') → answers o → ¬ mishap c o (abs g) →
    sent g' = sent g ++ ms → display_step (Some c, o, ms) g g'
| display_other m o ms g g' :
    other_method m → m g = (o, g') → sent g' = sent g ++ ms → display_step (None, o, ms) g g'.

(** *** Methods that leave the screen alone *)

(** The tables are the same, and what was sent is not about the scanouts. *)
Definition quiet_from (g0 g : G) : Prop :=
  same_tables g0 g ∧ ∃ ms, Forall about_cursor ms ∧ sent g = sent g0 ++ ms.

Lemma quiet_same g0 g g' : same_tables g g' → sent g' = sent g → quiet_from g0 g → quiet_from g0 g'.
Proof.
  intros Hs Hm [Hq (ms & Hms & Hsent)]. split; [by eapply same_tables_trans|].
  exists ms. by rewrite Hm.
Qed.

Lemma quiet_call {A} g0 (m : M RG RutabagaError A) : preserves (quiet_from g0) (call m).
Proof.
  intros g Hg. eapply quiet_same; [apply call_same| |done].
  unfold call, map_err, on_rutabaga, zoom. by destruct (m (g_rutabaga g)).
Qed.

Lemma quiet_send g0 m : about_cursor m → preserves (quiet_from g0) (send m).
Proof.
  intros Hm g [Hs (ms & Hms & Hsent)].
  destruct (send_cases m g) as [(g' & -> & Hs' & Hm')|(g' & -> & Hs' & Hm')]; simpl;
    (split; [by eapply same_tables_trans|]).
  - exists (ms ++ [m]). split; [apply Forall_app; by repeat constructor|].
    unfold sent in *. by rewrite Hm', Hsent, app_assoc.
  - exists ms. unfold sent in *. by rewrite Hm'.
Qed.

Lemma quiet_backend {E A} g0 (m : M GB E A) :
  keeps gb_sent m → preserves (quiet_from g0) (on_backend m).
Proof.
  intros Hm g Hg. unfold on_backend, zoom. destruct (Hm (g_gpu_backend g)) as [Hk _].
  destruct (m (g_gpu_backend g)) as [o gb]. by apply (quiet_same g0 g).
Qed.

Lemma quiet_get_resource g0 rid : preserves (quiet_from g0) (get_resource rid).
Proof. intros g Hg. unfold get_resource, bind, gets, lift. by destruct (ok_or _ _). Qed.

Lemma quiet_read g0 r n : preserves (quiet_from g0) (read_2d_resource checks r n).
Proof.
  unfold read_2d_resource. apply preserves_bind; [apply preserves_lift|intros size].
  apply preserves_bind; [apply preserves_assert|intros _].
  apply preserves_bind; [apply preserves_lift|intros stride]. apply preserves_map_err.
  intros g Hg. unfold on_rutabaga, zoom.
  destruct (rg_transfer_read _ _ _ _ (g_rutabaga g)) as [o rg]. by apply (quiet_same g0 g).
Qed.

#[local] Hint Resolve quiet_call quiet_send quiet_backend quiet_get_resource quiet_read
  gb_get_display_info_keeps gb_get_edid_keeps : preserves.

(** Goes through the body of a method. *)
Ltac quiet_body :=
  repeat first
    [ apply quiet_call | apply quiet_send; exact I | apply quiet_get_resource | apply quiet_read
    | apply quiet_backend | apply preserves_bind | apply preserves_map_err
    | solve [auto with preserves] | case_match | match goal with |- ∀ _, _ => intros ? end ].

Lemma quiet_other g0 m : other_method m → preserves (quiet_from g0) m.
Proof.
  intros [A m'| |sid|rid pos x y|rid pos|i|i v];
    unfold call_no_data, gpu_display_info, gpu_get_edid, gpu_update_cursor, gpu_move_cursor,
      gpu_get_capset_info, gpu_get_capset; quiet_body.
Qed.

(** *** The tables as a screen *)

Lemma list_filter_iff_elem {A} (P Q : A → Prop) `{!∀ x, Decision (P x), !∀ x, Decision (Q x)} (l : list A) :
  (∀ x, x ∈ l → P x ↔ Q x) → filter P l = filter Q l.
Proof.
  induction l as [|x l IH]; intros HPQ; [done|]. rewrite !filter_cons, IH by set_solver.
  pose proof (HPQ x ltac:(set_solver)). repeat case_decide; naive_solver.
Qed.

Lemma sizes_insert (res : gmap Z VirtioGpuResource) rid r f :
  res !! rid = Some r →
  size_of_resource <$> <[rid := set_r_scanouts f r]> res = size_of_resource <$> res.
Proof.
  intros Hr. rewrite fmap_insert. apply insert_id. by rewrite lookup_fmap, Hr.
Qed.

Lemma abs_lookup g rid : sn_resources (abs g) !! rid = size_of_resource <$> g_resources g !! rid.
Proof. apply lookup_fmap. Qed.

Lemma abs_lookup_None g rid : sn_resources (abs g) !! rid = None ↔ g_resources g !! rid = None.
Proof. rewrite abs_lookup. apply fmap_None. Qed.

Lemma abs_lookup_Some g rid :
  is_Some (sn_resources (abs g) !! rid) ↔ is_Some (g_resources g !! rid).
Proof. rewrite abs_lookup. apply fmap_is_Some. Qed.

Lemma abs_same g g' : same_tables g g' → abs g' = abs g.
Proof. intros [Hr Hs]. unfold abs. by rewrite Hr, Hs. Qed.

Lemma abs_add rid r g :
  abs (set_resources <[rid := r]> g) = add_resource rid (r_width r) (r_height r) (abs g).
Proof. unfold abs, add_resource. simpl. by rewrite fmap_insert. Qed.

Lemma abs_remove rid g : abs (set_resources (delete rid) g) = remove_resource rid (abs g).
Proof. unfold abs, remove_resource. simpl. by rewrite fmap_delete. Qed.

Lemma shown_on_enabled g rid r :
  scanouts_agree g → g_resources g !! rid = Some r → shown_on rid (abs g) = iter_enabled (r_scanouts r).
Proof.
  intros [_ Hag] Hr. unfold shown_on, iter_enabled. apply list_filter_iff_elem.
  intros sid Hsid%elem_of_seqZ. rewrite Z.add_0_l in Hsid. simpl. rewrite Hag by done.
  transitivity (sid ∈ iter_enabled (r_scanouts r)).
  - rewrite elem_of_iter_enabled. naive_solver.
  - unfold iter_enabled. rewrite list_elem_of_filter, elem_of_seqZ, Z.add_0_l. naive_solver.
Qed.

Lemma call_sent {A} (m : M RG RutabagaError A) g : sent (call m g).2 = sent g.
Proof. unfold call, map_err, on_rutabaga, zoom. by destruct (m (g_rutabaga g)). Qed.

Lemma call_fails {A} (m : M RG RutabagaError A) g e g' :
  call m g = (Fail e, g') → ∃ e', e = ErrRutabaga e'.
Proof.
  unfold call, map_err, on_rutabaga, zoom. destruct (m (g_rutabaga g)) as [[] ?]; intros [=]; eauto.
Qed.

(** No bit is set beyond those of the scanouts. *)
Definition scanout_bits (r : VirtioGpuResource) : Prop :=
  bits_subset (r_scanouts r) (Z.ones VIRTIO_GPU_MAX_SCANOUTS).

Definition display_ok g : Prop := scanouts_agree g ∧ map_Forall (λ _, scanout_bits) (g_resources g).

Lemma display_ok_same g g' : same_tables g g' → display_ok g → display_ok g'.
Proof.
  intros Hs [Hag Hb]. split; [by eapply scanouts_agree_same|]. by destruct Hs as [-> _].
Qed.

Lemma display_ok_new rutabaga gpu_backend : display_ok (gpu_new rutabaga gpu_backend).
Proof. split; [apply gpu_new_agree|]. apply map_Forall_empty. Qed.

Lemma no_bits r : scanout_bits r → iter_enabled (r_scanouts r) = [] → r_scanouts r = 0.
Proof.
  unfold scanout_bits. rewrite bits_subset_testbit. intros Hb Hnone. apply Z.bits_inj_0. intros i.
  destruct (Z.testbit (r_scanouts r) i) eqn:Hi; [|done].
  assert (0 ≤ i) by (apply Z.nlt_ge; intros ?; by rewrite Z.testbit_neg_r in Hi).
  assert (i < VIRTIO_GPU_MAX_SCANOUTS).
  { apply Z.nle_gt. intros ?. specialize (Hb i Hi). by rewrite Z.ones_spec_high in Hb. }
  assert (i ∈ iter_enabled (r_scanouts r)) as Hin by (by apply elem_of_iter_enabled).
  rewrite Hnone in Hin. by apply elem_of_nil in Hin.
Qed.

Lemma scanout_bits_flip r f sid :
  f = (λ s, scanouts_enable s sid) ∨ f = (λ s, scanouts_disable s sid) →
  0 ≤ sid < VIRTIO_GPU_MAX_SCANOUTS → scanout_bits r → scanout_bits (set_r_scanouts f r).
Proof.
  unfold scanout_bits. rewrite !bits_subset_testbit. intros Hf Hsid Hb i. simpl.
  destruct Hf as [->| ->]; unfold scanouts_enable, scanouts_disable;
    rewrite ?testbit_lor_bit, ?testbit_lxor_bit by lia; case_bool_decide as Hi; subst.
  1,3: intros _; by rewrite Z.ones_spec_low by lia.
  - rewrite orb_false_r. auto.
  - rewrite xorb_false_r. auto.
Qed.

(** Detaching changes a bit of a resource only. *)
Lemma detach_keeps sid scanout g g1 :
  0 ≤ sid < VIRTIO_GPU_MAX_SCANOUTS → detach_scanout sid scanout g = (Ret tt, g1) →
  map_Forall (λ _, scanout_bits) (g_resources g) →
  map_Forall (λ _, scanout_bits) (g_resources g1) ∧
  size_of_resource <$> g_resources g1 = size_of_resource <$> g_resources g.
Proof.
  intros Hsid Hrun Hb. destruct scanout as [old|]; simpl in Hrun; [|by unfold ret in Hrun; simplify_eq].
  apply bind_inv_Ret in Hrun as (r & g2 & [-> Hr]%get_resource_Ret & [= <-]). simpl. split.
  - apply map_Forall_insert_2; [|done]. apply (scanout_bits_flip r _ sid); eauto.
  - by apply sizes_insert.
Qed.

(** *** The commands, on every branch *)

(** What a command promises: the tables agree, and the specification makes the same step. *)
Definition refined (c : display_command) g o g' : Prop :=
  display_ok g' ∧ ∃ ms, sent g' = sent g ++ ms ∧ screen_step (Some c, o, ms) (abs g) (abs g').

(** A command that sends nothing *)
Lemma refined_silent c g o g' :
  display_ok g' → sent g' = sent g → screen_step (Some c, o, []) (abs g) (abs g') →
  refined c g o g'.
Proof. intros Hag Hs Hstep. split; [done|]. exists []. by rewrite app_nil_r. Qed.

Lemma unref_refined rid g o g' :
  display_ok g → gpu_unref_resource rid g = (o, g') → answers o →
  ¬ mishap (UnrefResource rid) o (abs g) → refined (UnrefResource rid) g o g'.
Proof.
  intros [Hag Hb] Hrun [Hp Hf] Hno. rewrite unref_resource_run in Hrun.
  destruct (g_resources g !! rid) as [r|] eqn:Hr.
  2: { simplify_eq. apply refined_silent; [done..|]. apply sn_unref_missing. by apply abs_lookup_None. }
  assert (is_Some (sn_resources (abs g) !! rid)) as Hsome by (apply abs_lookup_Some; by rewrite Hr).
  assert (shown_on rid (abs g) = []) as Hshown
    by (destruct (decide (shown_on rid (abs g) = [])); [done|by destruct Hno]).
  assert (r_scanouts r = 0) as Hz by (apply no_bits; [by apply (Hb rid)|]; by erewrite <-shown_on_enabled).
  rewrite bool_decide_eq_true_2 in Hrun by done.
  pose proof (call_same (rg_unref_resource rid) (set_resources (delete rid) g)) as Hsame.
  pose proof (call_sent (rg_unref_resource rid) (set_resources (delete rid) g)) as Hsent.
  assert (g' = (call (rg_unref_resource rid) (set_resources (delete rid) g)).2 ∧
    (o = Ret OkNoData ∨ ∃ e, o = Fail (ErrRutabaga e))) as [-> Ho].
  { unfold call_no_data, bind in Hrun.
    destruct (call (rg_unref_resource rid) (set_resources (delete rid) g)) as [[[]|e| |] g2] eqn:Hc;
      unfold ret in Hrun; simplify_eq; [by auto| |done..].
    apply call_fails in Hc as [e' ->]. eauto. }
  apply refined_silent; [apply (display_ok_same _ _ Hsame); split|done|].
  - destruct Hag as [Hlen Hag]. split; [done|]. intros sid rid' Hsid. simpl. rewrite Hag by done.
    destruct (decide (rid' = rid)) as [->|Hne]; [|by rewrite lookup_delete_ne].
    rewrite lookup_delete_eq, Hr. split; [|naive_solver]. intros (r' & [= <-] & Hbit).
    by rewrite Hz, Z.bits_0 in Hbit.
  - by apply map_Forall_delete.
  - rewrite (abs_same _ _ Hsame), abs_remove. by apply sn_unref.
Qed.

Lemma create_refined rid create g o g' :
  display_ok g → gpu_resource_create_3d checks rid create g = (o, g') → answers o →
  ¬ mishap (CreateResource rid create) o (abs g) → refined (CreateResource rid create) g o g'.
Proof.
  intros Hok Hrun [Hp Hf] Hno. unfold gpu_resource_create_3d, bind at 1 in Hrun.
  pose proof (call_same (rg_resource_create_3d rid create) g) as Hsame.
  pose proof (call_sent (rg_resource_create_3d rid create) g) as Hsent.
  destruct (call (rg_resource_create_3d rid create) g) as [[[]|e| |] g1] eqn:Hc; simplify_eq/=; [| |done..].
  - unfold bind, gets, assert, modify in Hrun. simpl in Hrun.
    destruct (negb checks || bool_decide (g_resources g1 !! rid = None)); unfold ret, panic in Hrun;
      simplify_eq.
    assert (g_resources g !! rid = None) as Hnew.
    { apply abs_lookup_None, eq_None_not_Some. intros Hs. apply Hno. split; [by eexists|done]. }
    destruct (display_ok_same _ _ Hsame Hok) as [[Hlen Hag] Hb]. destruct Hsame as [Hr Hs].
    apply refined_silent; [split|done|].
    + split; [done|]. intros sid rid' Hsid. simpl. rewrite Hag by done. rewrite Hr.
      destruct (decide (rid' = rid)) as [->|Hne]; [|by rewrite lookup_insert_ne].
      rewrite lookup_insert_eq, Hnew. split; [naive_solver|]. intros (r & [= <-] & Hbit).
      simpl in Hbit. by rewrite Z.bits_0 in Hbit.
    + simpl. by apply map_Forall_insert_2.
    + rewrite abs_add, <-(abs_same g g1) by done. simpl.
      apply sn_create. apply abs_lookup_None. by rewrite Hr.
  - apply call_fails in Hc as [e' ->]. apply refined_silent; [by apply (display_ok_same g)|done|].
    rewrite (abs_same _ _ Hsame). apply sn_create_refused.
Qed.

Lemma flush_scanout_all r sid g o g' :
  flush_scanout checks r sid g = (o, g') → o ≠ Panic → o ≠ NoFuel →
  same_tables g g' ∧ (o = Ret tt ∨ o = Fail ErrUnspec) ∧
  ∃ ds : list bytes, (length ds ≤ 1)%nat ∧ sent g' = sent g ++ ((λ d, update_of r sid d) <$> ds).
Proof.
  unfold flush_scanout. intros Hrun Hp Hf. unfold bind at 1, lift in Hrun.
  destruct (calculate_size r) as [size|e| |]; simpl in Hrun; simplify_eq.
  2: { split; [done|]. split; [auto|]. exists []. split; [simpl; lia|]. by rewrite app_nil_r. }
  unfold bind in Hrun.
  destruct (attempt (read_2d_resource checks r size) g) as [[x|e| |] g1] eqn:Hread; simplify_eq.
  2: { unfold attempt in Hread. by destruct (read_2d_resource checks r size g) as [[] ?]. }
  apply read_2d_Ret in Hread as (Hs1 & Hm1 & _). destruct x as [e|d].
  { unfold ret in Hrun. simplify_eq. split; [done|]. split; [auto|]. exists [].
    split; [simpl; lia|]. simpl. by rewrite app_nil_r. }
  destruct (send_cases (update_of r sid d) g1) as [(g2 & Hs & Hs2 & Hm2)|(g2 & Hs & Hs2 & Hm2)];
    unfold update_of in Hs; rewrite Hs in Hrun; simplify_eq; (split; [by eapply same_tables_trans|]);
    (split; [auto|]); unfold sent in *; rewrite Hm2, Hm1.
  - by exists [d].
  - exists []. split; [simpl; lia|]. by rewrite app_nil_r.
Qed.

Lemma flush_scanouts_all r sids g o g' :
  for_each sids (flush_scanout checks r) g = (o, g') → o ≠ Panic → o ≠ NoFuel →
  same_tables g g' ∧ (o = Ret tt ∨ o = Fail ErrUnspec) ∧
  ∃ shown : list (Z * bytes), sublist shown.*1 sids ∧
    sent g' = sent g ++ ((λ x, update_of r x.1 x.2) <$> shown).
Proof.
  revert g. induction sids as [|sid sids IH]; intros g Hrun Hp Hf; simpl in Hrun.
  { unfold ret in Hrun. simplify_eq. split; [done|]. split; [auto|]. exists []. by rewrite app_nil_r. }
  unfold bind in Hrun. destruct (flush_scanout checks r sid g) as [o1 g1] eqn:Hone.
  assert (o1 ≠ Panic ∧ o1 ≠ NoFuel) as [Hp1 Hf1] by (destruct o1; simplify_eq; by split).
  destruct (flush_scanout_all r sid g o1 g1 Hone Hp1 Hf1) as (Hs1 & Ho1 & ds & Hlen & Hm1).
  destruct Ho1 as [->| ->].
  - destruct (IH g1 Hrun Hp Hf) as (Hs2 & Ho & shown & Hsub & Hm2).
    split; [by eapply same_tables_trans|]. split; [done|].
    destruct ds as [|d [|]]; [|exists ((sid, d) :: shown)|simpl in Hlen; lia].
    + exists shown. split; [by apply sublist_cons|]. by rewrite Hm2, Hm1, app_nil_r.
    + split; [by apply sublist_skip|]. by rewrite Hm2, Hm1, <-app_assoc.
  - simplify_eq. split; [done|]. split; [auto|].
    destruct ds as [|d [|]]; [exists []|exists [(sid, d)]|simpl in Hlen; lia]; (split; [|done]).
    + apply sublist_nil_l.
    + apply sublist_skip, sublist_nil_l.
Qed.

Lemma flush_refined rid rect g o g' :
  display_ok g → gpu_flush_resource checks rid rect g = (o, g') → answers o →
  refined (FlushResource rid rect) g o g'.
Proof.
  intros Hok Hrun [Hp Hf]. unfold gpu_flush_resource in Hrun. case_bool_decide as Hz.
  { unfold ret in Hrun. simplify_eq. apply refined_silent; [done..|]. apply sn_flush_none. }
  unfold bind at 1, get_resource, bind at 1, gets, lift, ok_or in Hrun.
  destruct (g_resources g !! rid) as [r|] eqn:Hr; simplify_eq/=.
  2: { apply refined_silent; [done..|]. apply sn_flush_missing; [done|]. by apply abs_lookup_None. }
  unfold bind in Hrun.
  destruct (for_each (iter_enabled (r_scanouts r)) (flush_scanout checks r) g) as [o1 g1] eqn:Hloop.
  assert (o1 ≠ Panic ∧ o1 ≠ NoFuel) as [Hp1 Hf1] by (destruct o1; unfold ret in Hrun; simplify_eq; by split).
  destruct (flush_scanouts_all r _ g o1 g1 Hloop Hp1 Hf1) as (Hs & Ho & shown & Hsub & Hm).
  assert (g' = g1 ∧ (o = Ret OkNoData ∨ o = Fail ErrUnspec)) as [-> Ho']
    by (destruct Ho as [->| ->]; unfold ret in Hrun; simplify_eq; auto).
  split; [by apply (display_ok_same g)|]. exists ((λ x, update_of r x.1 x.2) <$> shown).
  split; [done|]. rewrite (abs_same _ _ Hs).
  apply (sn_flush _ _ (r_width r) (r_height r)); [done| | |done].
  - by rewrite abs_lookup, Hr.
  - erewrite shown_on_enabled; [done|apply Hok|done].
Qed.

(** Giving a detached scanout its new content, when nothing is sent *)
Lemma slot_refined sid v g g1 g' scanout f :
  display_ok g → 0 ≤ sid < VIRTIO_GPU_MAX_SCANOUTS → g_scanouts g !! Z.to_nat sid = Some scanout →
  detach_scanout sid scanout g = (Ret tt, g1) →
  g_scanouts g' = <[Z.to_nat sid := v]> (g_scanouts g1) → g_resources g' = f (g_resources g1) →
  match v with
  | None => f = id
  | Some rid => ∃ r, g_resources g1 !! rid = Some r ∧
      f = <[rid := set_r_scanouts (λ s, scanouts_enable s sid) r]>
  end →
  display_ok g' ∧ abs g' = show sid v (abs g).
Proof.
  intros [Hag Hb] Hsid Hslot Hdet Hs2 Hr2 Hf.
  destruct (detach_keeps _ _ _ _ Hsid Hdet Hb) as [Hb1 Hsizes].
  destruct (detach_scanout_ok sid scanout g Hag Hsid Hslot) as (g1' & Hdet' & Hs1 & _ & _ & Hdom & Hbits).
  rewrite Hdet in Hdet'. simplify_eq.
  assert (∀ rid r', f (g_resources g1') !! rid = Some r' ↔
    ∃ r, g_resources g1' !! rid = Some r ∧
      r' = if bool_decide (v = Some rid) then set_r_scanouts (λ s, scanouts_enable s sid) r else r) as Hf'.
  { intros rid' r'. destruct v as [rid|]; [|subst; simpl; naive_solver].
    destruct Hf as (r & Hr & ->). destruct (decide (rid' = rid)) as [->|Hne].
    - rewrite lookup_insert_eq, Hr, bool_decide_eq_true_2 by done. naive_solver.
    - rewrite lookup_insert_ne, bool_decide_eq_false_2 by naive_solver. naive_solver. }
  split; [split|].
  - apply (agree_after_detach sid v g g1'); try done; [by rewrite Hs2, Hs1|by rewrite Hr2|].
    intros rid ->. destruct Hf as (r & Hr & _). by eexists.
  - rewrite Hr2. intros rid r' (r & Hr%Hb1 & ->)%Hf'.
    case_bool_decide; [|done]. by apply (scanout_bits_flip r _ sid); auto.
  - unfold abs, show. simpl. rewrite Hs2, Hs1, Hr2, <-Hsizes. f_equal.
    destruct v as [rid|]; [|by subst]. destruct Hf as (r & Hr & ->). by apply sizes_insert.
Qed.

(** [set_scanout] of a scanout that there is, once it is detached from what it shows *)
Lemma set_scanout_detached sid rid rect g g1 scanout :
  g_scanouts g !! Z.to_nat sid = Some scanout → detach_scanout sid scanout g = (Ret tt, g1) →
  gpu_set_scanout sid rid rect g =
    (if bool_decide (rid = 0) then
       do! modify (set_scanout_slot sid None) in
       do! send (GpuSetScanout sid 0 0) in
       ret OkNoData
     else
       do! (if bool_decide (scanout = None)
            then send (GpuSetScanout sid (rc_width rect) (rc_height rect)) else ret tt) in
       let! resource := get_resource rid in
       do! modify (set_resources (<[rid := set_r_scanouts (λ s, scanouts_enable s sid) resource]>)) in
       do! modify (set_scanout_slot sid (Some rid)) in
       ret OkNoData) g1.
Proof.
  intros Hslot Hdet. unfold gpu_set_scanout, gets, lift, ok_or. unfold bind at 1 2.
  rewrite Hslot. by erewrite bind_Ret.
Qed.

Section set_scanout.
Context (sid : Z) (rect : Rectangle) (g g1 : G) (scanout : option Z).
Hypotheses (Hok : display_ok g) (Hsid : 0 ≤ sid < VIRTIO_GPU_MAX_SCANOUTS)
  (Hslot : g_scanouts g !! Z.to_nat sid = Some scanout)
  (Hdet : detach_scanout sid scanout g = (Ret tt, g1)) (Hsent : sent g1 = sent g).

Lemma set_scanout_off_refined o g' :
  gpu_set_scanout sid 0 rect g = (o, g') → refined (SetScanout sid 0 rect) g o g'.
Proof using All.
  intros Hrun. erewrite set_scanout_detached in Hrun by done. simpl in Hrun.
  unfold bind at 1, modify in Hrun.
  destruct (slot_refined sid None g g1 (set_scanout_slot sid None g1) scanout id) as [Hok' Habs]; try done.
  destruct (send_cases (GpuSetScanout sid 0 0) (set_scanout_slot sid None g1))
    as [(g2 & Hs & Hs2 & Hm2)|(g2 & Hs & Hs2 & Hm2)];
    unfold bind in Hrun; rewrite Hs in Hrun; unfold ret in Hrun; simplify_eq;
    (split; [by eapply display_ok_same|]); rewrite (abs_same _ _ Hs2), Habs.
  - exists [GpuSetScanout sid 0 0]. split; [unfold sent in *; by rewrite Hm2, <-Hsent|].
    by apply (sn_disable _ _ scanout).
  - exists []. split; [unfold sent in *; by rewrite Hm2, app_nil_r|]. by apply (sn_disable_unsent _ _ scanout).
Qed.

(** The resource is given the scanout, and the scanout the resource. *)
Lemma slot_enabled rid g2 r :
  same_tables g1 g2 → g_resources g1 !! rid = Some r →
  let g' := set_scanout_slot sid (Some rid)
    (set_resources <[rid := set_r_scanouts (λ s, scanouts_enable s sid) r]> g2) in
  display_ok g' ∧ abs g' = show sid (Some rid) (abs g) ∧ is_Some (sn_resources (abs g) !! rid).
Proof using All.
  intros [Hr2 Hs2] Hr g'. apply and_assoc. split.
  - eapply slot_refined; [done|done|done|done|simpl; by rewrite Hs2| |]; simpl; [by rewrite Hr2|eauto].
  - destruct (detach_scanout_ok sid scanout g (proj1 Hok) Hsid Hslot) as (g1' & Hdet' & _ & _ & _ & Hdom & _).
    rewrite Hdet in Hdet'. simplify_eq. apply abs_lookup_Some, Hdom. by eexists.
Qed.

Lemma set_scanout_on_refined rid o g' :
  rid ≠ 0 → gpu_set_scanout sid rid rect g = (o, g') →
  ¬ mishap (SetScanout sid rid rect) o (abs g) → refined (SetScanout sid rid rect) g o g'.
Proof using All.
  intros Hz Hrun Hno. erewrite set_scanout_detached in Hrun by done.
  rewrite (bool_decide_eq_false_2 (rid = 0)) in Hrun by done. unfold bind at 1 in Hrun.
  pose proof (slot_enabled rid) as Hshow. destruct scanout as [old|].
  - rewrite bool_decide_eq_false_2 in Hrun by done.
    unfold ret at 1, bind at 1, get_resource, bind at 1, gets, lift, ok_or in Hrun.
    destruct (g_resources g1 !! rid) as [r|] eqn:Hr.
    + unfold bind, modify, ret in Hrun. simplify_eq.
      destruct (Hshow g1 r ltac:(done) eq_refl) as (Hok' & Habs & Hin).
      apply refined_silent; [done|done|]. rewrite Habs. by apply (sn_show _ _ _ (Some old)).
    + destruct (detach_scanout_ok sid (Some old) g (proj1 Hok) Hsid Hslot) as (g1' & Hdet' & _ & _ & _ & Hdom & _).
      rewrite Hdet in Hdet'. simplify_eq. destruct Hno. split; [done|]. split; [|by exists old].
      apply abs_lookup_None, eq_None_not_Some. intros ?%Hdom. by rewrite Hr in *.
  - unfold detach_scanout, ret in Hdet. simplify_eq. rewrite bool_decide_eq_true_2 in Hrun by done.
    destruct (send_cases (GpuSetScanout sid (rc_width rect) (rc_height rect)) g1)
      as [(g2 & Hs & Hs2 & Hm2)|(g2 & Hs & Hs2 & Hm2)]; rewrite Hs in Hrun; simplify_eq.
    2: { apply refined_silent; [by apply (display_ok_same g1)|done|]. rewrite (abs_same _ _ Hs2).
         by apply sn_show_unsent. }
    unfold bind at 1, get_resource, bind at 1, gets, lift, ok_or in Hrun.
    pose proof Hs2 as [Hr2 _]. rewrite Hr2 in Hrun.
    destruct (g_resources g1 !! rid) as [r|] eqn:Hr; [unfold bind, modify, ret in Hrun|]; simplify_eq.
    + destruct (Hshow g2 r ltac:(done) eq_refl) as (Hok' & Habs & Hin). split; [done|].
      exists [GpuSetScanout sid (rc_width rect) (rc_height rect)]. split; [done|].
      rewrite Habs. by apply (sn_show _ _ _ None).
    + split; [by apply (display_ok_same g1)|]. rewrite (abs_same _ _ Hs2). eexists.
      split; [done|]. apply sn_show_missing; [done..|]. by apply abs_lookup_None.
Qed.
End set_scanout.

Lemma set_scanout_refined sid rid rect g o g' :
  display_ok g → 0 ≤ sid → gpu_set_scanout sid rid rect g = (o, g') →
  ¬ mishap (SetScanout sid rid rect) o (abs g) → refined (SetScanout sid rid rect) g o g'.
Proof.
  intros Hok Hsid0 Hrun Hno. destruct (g_scanouts g !! Z.to_nat sid) as [scanout|] eqn:Hslot.
  2: { unfold gpu_set_scanout, bind, gets, lift, ok_or in Hrun. rewrite Hslot in Hrun. simplify_eq.
       apply refined_silent; [done..|]. by apply sn_no_scanout. }
  assert (sid < VIRTIO_GPU_MAX_SCANOUTS) as Hsid.
  { apply lookup_lt_Some in Hslot. destruct Hok as [[Hl _] _]. rewrite Hl in Hslot.
    unfold VIRTIO_GPU_MAX_SCANOUTS in *. lia. }
  destruct (detach_scanout_ok sid scanout g (proj1 Hok) (conj Hsid0 Hsid) Hslot)
    as (g1 & Hdet & _ & Hback & _).
  assert (sent g1 = sent g) as Hsent by (unfold sent; by rewrite Hback).
  destruct (decide (rid = 0)) as [->|Hz]; [by eapply set_scanout_off_refined|by eapply set_scanout_on_refined].
Qed.

(** *** Runs *)

Lemma run_display_refined c g o g' :
  display_ok g → valid_display c → run_display c g = (o, g') → answers o →
  ¬ mishap c o (abs g) → refined c g o g'.
Proof.
  intros Hok Hvalid Hrun Hans Hno.
  destruct c; simpl in *; [by apply set_scanout_refined|by apply create_refined
    |by apply unref_refined|by apply flush_refined].
Qed.

(** The other methods leave the screen alone. *)
Lemma other_refined m g o g' :
  display_ok g → other_method m → m g = (o, g') →
  display_ok g' ∧ ∃ ms, sent g' = sent g ++ ms ∧ screen_step (None, o, ms) (abs g) (abs g').
Proof.
  intros Hok Hm Hrun. destruct (quiet_other g m Hm g) as [Hs (ms & Hq & Hms)].
  { split; [done|]. exists []. by rewrite app_nil_r. }
  rewrite Hrun in Hs, Hms. simpl in *. split; [by eapply display_ok_same|].
  exists ms. split; [done|]. rewrite (abs_same _ _ Hs). by apply sn_other.
Qed.

Lemma display_step_refined e g g' :
  display_ok g → display_step e g g' → display_ok g' ∧ screen_step e (abs g) (abs g').
Proof.
  intros Hok Hstep. destruct Hstep as [c o ms g g' Hvalid Hrun Hans Hno Hms|m o ms g g' Hm Hrun Hms].
  - destruct (run_display_refined c g o g' Hok Hvalid Hrun Hans Hno) as (Hok' & ms' & Hms' & Hstep).
    rewrite Hms in Hms'. by apply app_inv_head in Hms' as ->.
  - destruct (other_refined m g o g' Hok Hm Hrun) as (Hok' & ms' & Hms' & Hstep).
    rewrite Hms in Hms'. by apply app_inv_head in Hms' as ->.
Qed.

(** Claim C5. The GPU refines the specification of the display. Whatever commands a guest
    gives, in whatever order, with whatever answers of rutabaga and of the front-end's
    socket: as long as none mishaps, the answers, the messages to the front-end and what
    each scanout shows are those of a screen, a single table from scanouts to resources.
    In particular a scanout is announced when it was off and only then, is switched off
    when the guest asks for it, and a flush updates scanouts that show the resource only,
    in order, each once, and with the size of the resource. *)
Theorem display_refines rutabaga gpu_backend es g :
  runs display_step es (gpu_new rutabaga gpu_backend) g → runs screen_step es screen_init (abs g).
Proof.
  intros Hruns.
  exact (proj2 (runs_simulation_inv display_step screen_step display_ok abs _ _ _ display_step_refined
    (display_ok_new rutabaga gpu_backend) Hruns)).
Qed.

(** *** A mishap *)

(** [set_scanout] of a scanout that shows [old]: the bit of the scanout is flipped. *)
Lemma set_scanout_shown sid old r rid rect g :
  g_scanouts g !! Z.to_nat sid = Some (Some old) → g_resources g !! old = Some r → rid ≠ 0 →
  let g1 := set_resources (<[old := set_r_scanouts (λ s, scanouts_disable s sid) r]>) g in
  gpu_set_scanout sid rid rect g =
    match g_resources g1 !! rid with
    | None => (Fail ErrInvalidResourceId, g1)
    | Some r' => (Ret OkNoData, set_scanout_slot sid (Some rid)
        (set_resources (<[rid := set_r_scanouts (λ s, scanouts_enable s sid) r']>) g1))
    end.
Proof.
  intros Hslot Hr Hz g1. erewrite (set_scanout_detached _ _ _ _ g1) by
    (done || (simpl; unfold get_resource, bind, gets, lift, ok_or; by rewrite Hr)).
  rewrite !bool_decide_eq_false_2 by done.
  unfold ret at 1, bind at 1, get_resource, bind at 1, gets, lift, ok_or.
  unfold bind at 1. by destruct (g_resources g1 !! rid).
Qed.

(** Flushing a resource that has the bit of a scanout draws on it. *)
Lemma flush_draws rid rect g resp g' r sid :
  rid ≠ 0 → gpu_flush_resource checks rid rect g = (Ret resp, g') → reads_succeed (RG:=RG) →
  g_resources g !! rid = Some r → sid ∈ iter_enabled (r_scanouts r) →
  ∃ ms data, sent g' = sent g ++ ms ∧ update_of r sid data ∈ ms.
Proof.
  intros Hz Hrun Hok Hr Hsid. unfold gpu_flush_resource in Hrun. rewrite bool_decide_eq_false_2 in Hrun by done.
  apply bind_inv_Ret in Hrun as (r' & g1 & [-> Hr']%get_resource_Ret & Hrun). simplify_eq.
  apply bind_inv_Ret in Hrun as ([] & g2 & Hloop & [= <- <-]).
  destruct (flush_scanouts_Ret checks r' _ g g2 Hloop) as (_ & shown & _ & Hms & Hall).
  rewrite <-(Hall Hok) in Hsid. apply list_elem_of_fmap in Hsid as ([sid' data] & -> & Hin).
  eexists _, data. split; [done|]. apply list_elem_of_fmap. by exists (sid', data).
Qed.

(** Claim C39. A [set_scanout] that fails because its resource does not exist has already
    switched off the bit of the scanout in the resource that it shows, but the scanout
    still names that resource: when the guest then gives the scanout another resource, the
    bit is flipped once more, back on. From then on flushing the old resource draws on a
    scanout that shows the new one. *)
Theorem failed_scanout_crosses sid old missing new rect rect' rect'' g :
  scanouts_agree g → 0 ≤ sid < VIRTIO_GPU_MAX_SCANOUTS →
  g_scanouts g !! Z.to_nat sid = Some (Some old) → old ≠ 0 →
  missing ≠ 0 → g_resources g !! missing = None →
  new ≠ 0 → new ≠ old → is_Some (g_resources g !! new) →
  ∃ g1 g2, gpu_set_scanout sid missing rect g = (Fail ErrInvalidResourceId, g1) ∧
    gpu_set_scanout sid new rect' g1 = (Ret OkNoData, g2) ∧
    g_scanouts g2 !! Z.to_nat sid = Some (Some new) ∧
    ∀ resp g3, reads_succeed (RG:=RG) → gpu_flush_resource checks old rect'' g2 = (Ret resp, g3) →
      ∃ r ms data, g_resources g2 !! old = Some r ∧ sent g3 = sent g2 ++ ms ∧ update_of r sid data ∈ ms.
Proof.
  intros [Hlen Hag] Hsid Hslot Hold Hmissing Hno Hnew Hne [rn Hrn].
  destruct (proj1 (Hag sid old Hsid) Hslot) as (r & Hr & Hbit).
  assert (missing ≠ old) by congruence.
  eexists. eexists. split_and!.
  - rewrite (set_scanout_shown sid old r) by done. simpl. by rewrite lookup_insert_ne, Hno by done.
  - erewrite (set_scanout_shown sid old) by (done || (simpl; by rewrite lookup_insert_eq)). simpl.
    by rewrite !lookup_insert_ne, Hrn by done.
  - simpl. by rewrite list_lookup_insert_eq by (rewrite Hlen; lia).
  - intros resp g3 Hreads Hrun.
    pose (r2 := set_r_scanouts (λ s, scanouts_disable s sid) (set_r_scanouts (λ s, scanouts_disable s sid) r)).
    edestruct (flush_draws old rect'' _ resp g3 r2 sid Hold Hrun Hreads) as (ms & data & Hms & Hin).
    + simpl. by rewrite lookup_insert_ne, lookup_insert_eq by done.
    + apply elem_of_iter_enabled. split; [done|]. simpl. unfold scanouts_disable.
      rewrite !testbit_lxor_bit by lia. by rewrite Hbit, bool_decide_eq_true_2 by done.
    + exists r2, ms, data. split; [|done]. simpl. by rewrite lookup_insert_ne, lookup_insert_eq by done.
Qed.
End display.

(** ** A small display *)
Module GpuDisplayExamples.
Import GpuExamples.

#[export] Instance counting_rutabaga_laws : RutabagaLaws nat.
Proof. split; by intros. Qed.

Definition rect : Rectangle := MkRectangle 0 0 2 1.
Definition full_update (sid : Z) : gpu_message := GpuUpdateScanout sid 0 0 2 1 (replicate 8 0).

(** Resource 7 is created, and shown on scanouts 1 and 3; it is flushed, and scanout 1 is
    switched off; a capability set is asked for; a missing resource is shown on a
    scanout that is off; and resource 7 is given up after its last scanout. *)
Definition commands : list display_command :=
  [CreateResource 7 two_by_one; SetScanout 1 7 rect; SetScanout 3 7 rect; FlushResource 7 rect;
   SetScanout 1 0 rect; SetScanout 2 9 rect; SetScanout 3 0 rect; UnrefResource 7; UnrefResource 7].
Definition events : list display_event :=
  [(Some (CreateResource 7 two_by_one), Ret OkNoData, []);
   (Some (SetScanout 1 7 rect), Ret OkNoData, [GpuSetScanout 1 2 1]);
   (Some (SetScanout 3 7 rect), Ret OkNoData, [GpuSetScanout 3 2 1]);
   (Some (FlushResource 7 rect), Ret OkNoData, [full_update 1; full_update 3]);
   (Some (SetScanout 1 0 rect), Ret OkNoData, [GpuSetScanout 1 0 0]);
   (Some (SetScanout 2 9 rect), Fail ErrInvalidResourceId, [GpuSetScanout 2 2 1]);
   (Some (SetScanout 3 0 rect), Ret OkNoData, [GpuSetScanout 3 0 0]);
   (Some (UnrefResource 7), Ret OkNoData, []);
   (Some (UnrefResource 7), Fail ErrInvalidResourceId, [])].

Fixpoint after (cs : list display_command) (g : G) : G :=
  match cs with [] => g | c :: cs => after cs (run_display true c g).2 end.

Ltac display_command_step :=
  eapply runs_cons;
  [ eapply display_cmd;
    [ done | vm_compute; reflexivity | done
    | vm_compute; intros Hm; repeat match goal with H : _ ∧ _ |- _ => destruct H end;
      first [done | by repeat match goal with H : ∃ _, _ |- _ => destruct H
                        | H : is_Some _ |- _ => destruct H end]
    | vm_compute; reflexivity ] | ].

Lemma display_refines_witness : ∃ g : G, runs screen_step events screen_init (abs g) ∧ abs g = screen_init.
Proof.
  exists (after commands gpu0). split; [|vm_compute; reflexivity].
  apply (display_refines true 0%nat [] events). unfold events.
  do 9 display_command_step. vm_compute. apply runs_nil.
Defined.

(** Scanout 3 shows resource 7 and there is a resource 8; showing the missing resource 9
    on it fails, then it shows resource 8, and flushing resource 7 draws on it. *)
Definition gpu4 : G := (gpu_resource_create_3d true 8 two_by_one gpu3).2.

Lemma gpu4_agree : scanouts_agree gpu4.
Proof.
  apply (create_3d_ok true 8 two_by_one gpu3 OkNoData); [apply gpu3_agree|done|vm_compute; reflexivity].
Qed.

Definition crossed : G := (gpu_set_scanout 3 8 rect (gpu_set_scanout 3 9 rect gpu4).2).2.

Lemma failed_scanout_crosses_witness :
  (∃ g1 g2 : G, gpu_set_scanout 3 9 rect gpu4 = (Fail ErrInvalidResourceId, g1) ∧
    gpu_set_scanout 3 8 rect g1 = (Ret OkNoData, g2) ∧
    g_scanouts g2 !! Z.to_nat 3 = Some (Some 8) ∧
    ∀ resp g3, reads_succeed (RG:=nat) → gpu_flush_resource true 7 rect g2 = (Ret resp, g3) →
      ∃ r ms data, g_resources g2 !! 7 = Some r ∧ sent g3 = sent g2 ++ ms ∧ update_of r 3 data ∈ ms) ∧
  reads_succeed (RG:=nat) ∧
  sent (gpu_flush_resource true 7 rect crossed).2 = sent crossed ++ [full_update 1; full_update 3].
Proof.
  split; [|split].
  - exact (failed_scanout_crosses true 3 7 9 8 rect rect rect gpu4 gpu4_agree ltac:(done) eq_refl
      ltac:(done) ltac:(done) eq_refl ltac:(done) ltac:(done) ltac:(vm_compute; by eexists)).
  - intros c r t n g. by eexists _, _.
  - vm_compute. reflexivity.
Defined.
End GpuDisplayExamples.
