(* ===== verification/GpuWorker.v ===== *)
(** * The GPU worker: [device/virtio-gpu/src/worker.rs]

    The thread that takes commands from the control and cursor queues, has a GPU
    execute them, and answers them: at once, or when the fence that a command asks
    for completes. The GPU is the interface [VirtioGpu]; its [VirtioGpuLaws] say
    which descriptors it has kept for later. *)

From S2P Require Import Prelude EventToken Epoll EventManager VirtQueue Codec.
From S2P Require Import GpuProtocol GpuResponse GpuFence VirtioGpu RutabagaGpu.

(** The errors of [device.rs] *)
Inductive device_error : Type :=
| HandleEventNotEpollIn
| HandleEventUnknown
| DescriptorReadFailed_
| DescriptorWriteFailed_
| InvalidCommandType (type : Z)
| NotificationFailed (e : errno)
| EventFdFailed
| CreateIteratorDescChain (e : vq_error)
| CreateReader (e : vq_error)
| CreateWriter (e : vq_error)
| GpuCommandDecode (e : GpuCommandDecodeError)
| GpuResponseEncode (e : GpuResponseEncodeError)
| QueueAddUsed (e : vq_error)
| EpollHandler (msg : string)
| RegisterEpollListener (e : errno).

(** An error of the worker: one of the device or of the system. *)
Inductive worker_error : Type :=
| DeviceError (e : device_error)
| IoError (e : errno).

Inductive WorkerToken : Type := Quit | ControlQ | CursorQ | Poll.

#[export] Instance WorkerToken_eq_dec : EqDecision WorkerToken.
Proof. solve_decision. Defined.

#[export] Instance WorkerToken_token : EventToken WorkerToken :=
  derive_unit_enum [Quit; ControlQ; CursorQ; Poll].

(** [rutabaga_gfx]: the constants and the constructor that the worker uses *)
Class RutabagaConsts : Type := {
  RUTABAGA_PIPE_TEXTURE_2D : Z;
  RUTABAGA_PIPE_BIND_RENDER_TARGET : Z;
  (* [Transfer3D::new_2d(x, y, w, h, offset)] *)
  transfer3d_new_2d : Z → Z → Z → Z → Z → Transfer3D;
}.

(** [GuestMemory::get_slice]: the host address of a range of guest memory *)
Class GuestSlices (Mem : Type) : Type := {
  mem_get_slice : Z → Z → Mem → option Z;
}.

(** ** Commands *)

Section commands.
Context {G Mem : Type} `{VirtioGpu G} `{RutabagaConsts} `{GuestSlices Mem}.

Definition handle_get_edid (req : virtio_gpu_get_edid) : GpuM G := get_edid (get_edid_scanout req).

Definition handle_resource_create_2d (req : virtio_gpu_resource_create_2d) : GpuM G :=
  let create := MkResourceCreate3D RUTABAGA_PIPE_TEXTURE_2D (resource_create_2d_format req)
    RUTABAGA_PIPE_BIND_RENDER_TARGET (resource_create_2d_width req)
    (resource_create_2d_height req) 1 1 0 0 0 in
  resource_create_3d (resource_create_2d_resource_id req) create.

Definition handle_transfer_to_host_2d (req : virtio_gpu_transfer_to_host_2d) : GpuM G :=
  let r := transfer_to_host_2d_r req in
  let transfer := transfer3d_new_2d (rect_x r) (rect_y r) (rect_width r) (rect_height r)
    (transfer_to_host_2d_offset req) in
  transfer_write 0 (transfer_to_host_2d_resource_id req) transfer.

Definition cursor_pos_of (pos : virtio_gpu_cursor_pos) : VhostUserGpuCursorPos :=
  MkVhostUserGpuCursorPos (cursor_pos_scanout_id pos) (cursor_pos_x pos) (cursor_pos_y pos).

Definition handle_update_cursor (req : virtio_gpu_update_cursor) : GpuM G :=
  update_cursor (update_cursor_resource_id req) (cursor_pos_of (update_cursor_pos req))
    (update_cursor_hot_x req) (update_cursor_hot_y req).

Definition handle_move_cursor (req : virtio_gpu_update_cursor) : GpuM G :=
  move_cursor (update_cursor_resource_id req) (cursor_pos_of (update_cursor_pos req)).

Definition handle_ctx_create (hdr : virtio_gpu_ctrl_hdr) (req : virtio_gpu_ctx_create) : GpuM G :=
  let context_name := Some (get_debug_name req) in
  create_context (ctrl_hdr_ctx_id hdr) (ctx_create_context_init req) context_name.

Definition handle_resource_create_3d (req : virtio_gpu_resource_create_3d) : GpuM G :=
  let create := MkResourceCreate3D (resource_create_3d_target req) (resource_create_3d_format req)
    (resource_create_3d_bind req) (resource_create_3d_width req) (resource_create_3d_height req)
    (resource_create_3d_depth req) (resource_create_3d_array_size req)
    (resource_create_3d_last_level req) (resource_create_3d_nr_samples req)
    (resource_create_3d_flags req) in
  resource_create_3d (resource_create_3d_resource_id req) create.

Definition transfer_of (req : virtio_gpu_transfer_host_3d) : Transfer3D :=
  let b := transfer_host_3d_box_ req in
  MkTransfer3D (box_x b) (box_y b) (box_z b) (box_w b) (box_h b) (box_d b)
    (transfer_host_3d_level req) (transfer_host_3d_stride req)
    (transfer_host_3d_layer_stride req) (transfer_host_3d_offset req).

Definition handle_transfer_to_host_3d (ctx_id : Z) (req : virtio_gpu_transfer_host_3d) : GpuM G :=
  transfer_write ctx_id (transfer_host_3d_resource_id req) (transfer_of req).

Definition handle_transfer_from_host_3d (ctx_id : Z) (req : virtio_gpu_transfer_host_3d) : GpuM G :=
  transfer_read ctx_id (transfer_host_3d_resource_id req) (transfer_of req) None.

(** The second loop of [rutabaga_iovecs_from_guest_mem] *)
Fixpoint push_iovecs (vecs : list (Z * Z)) (mem : Mem) : outcome GpuResponse (list RutabagaIovec) :=
  match vecs with
  | [] => Ret []
  | (addr, len) :: vecs =>
      match mem_get_slice addr len mem with
      | Some base =>
          outcome_bind (push_iovecs vecs mem) (λ iovecs, Ret (MkRutabagaIovec base len :: iovecs))
      | None => Panic
      end
  end.

Definition rutabaga_iovecs_from_guest_mem (vecs : list (Z * Z)) (mem : Mem) :
    outcome GpuResponse (list RutabagaIovec) :=
  if existsb (λ v, bool_decide (mem_get_slice v.1 v.2 mem = None)) vecs
  then Fail ErrInvalidParameter
  else push_iovecs vecs mem.

Definition process_gpu_command (mem : Mem) (hdr : virtio_gpu_ctrl_hdr) (cmd : GpuCommand) : GpuM G :=
  do! modify force_ctx_0 in
  match cmd with
  | GetDisplayInfo => display_info
  | GetEdid req => handle_get_edid req
  | ResourceCreate2d req => handle_resource_create_2d req
  | ResourceUnref req => unref_resource (resource_unref_resource_id req)
  | SetScanout req =>
      set_scanout (set_scanout_scanout_id req) (set_scanout_resource_id req)
        (rectangle_from (set_scanout_r req))
  | ResourceFlush req =>
      flush_resource (resource_flush_resource_id req) (rectangle_from (resource_flush_r req))
  | TransferToHost2d req => handle_transfer_to_host_2d req
  | ResourceAttachBacking req iovecs =>
      let! iovecs := lift (rutabaga_iovecs_from_guest_mem iovecs mem) in
      attach_backing (resource_attach_backing_resource_id req) iovecs
  | ResourceDetachBacking req => detach_backing (resource_detach_backing_resource_id req)
  | UpdateCursor req => handle_update_cursor req
  | MoveCursor req => handle_move_cursor req
  | ResourceAssignUuid _ => panic
  | GetCapsetInfo req => get_capset_info (get_capset_info_capset_index req)
  | GetCapset req => get_capset (get_capset_capset_id req) (get_capset_capset_version req)
  | CtxCreate req => handle_ctx_create hdr req
  | CtxDestroy _ => destroy_context (ctrl_hdr_ctx_id hdr)
  | CtxAttachResource req =>
      context_attach_resource (ctrl_hdr_ctx_id hdr) (ctx_resource_resource_id req)
  | CtxDetachResource req =>
      context_detach_resource (ctrl_hdr_ctx_id hdr) (ctx_resource_resource_id req)
  | ResourceCreate3d req => handle_resource_create_3d req
  | TransferToHost3d req => handle_transfer_to_host_3d (ctrl_hdr_ctx_id hdr) req
  | TransferFromHost3d req => handle_transfer_from_host_3d (ctrl_hdr_ctx_id hdr) req
  | CmdSubmit3d cmd_data fence_ids => submit_command (ctrl_hdr_ctx_id hdr) cmd_data fence_ids
  | ResourceCreateBlob _ => panic
  | SetScanoutBlob _ => panic
  | ResourceMapBlob _ => panic
  | ResourceUnmapBlob _ => panic
  end.
End commands.

(** ** Queues *)

(** What a queue is processed with: the GPU, the locked queue and guest memory. *)
Record QueueEnv (G Q Mem : Type) : Type := MkQueueEnv { qe_gpu : G; qe_queue : Q; qe_mem : Mem }.
Arguments MkQueueEnv {G Q Mem}.
Arguments qe_gpu {G Q Mem}.
Arguments qe_queue {G Q Mem}.
Arguments qe_mem {G Q Mem}.

Section queues.
Context {G Q Mem Chain R Wr : Type} `{VirtioGpu G} `{RutabagaConsts} `{GuestSlices Mem}
  `{QueueProc Q Mem Chain} `{ReaderOps R} `{WriterOps Wr} `{ChainStreams Mem Chain R Wr}
  `{GpuCmdNumbers} `{GpuRespNumbers}.

Local Notation QE := (QueueEnv G Q Mem).

Definition on_gpu {E A} : M G E A → M QE E A :=
  zoom qe_gpu (λ g s, MkQueueEnv g (qe_queue s) (qe_mem s)).

(** A method of the queue that reads or writes guest memory *)
Definition on_queue_mem {E A} : M (Q * Mem) E A → M QE E A :=
  zoom (λ s, (qe_queue s, qe_mem s)) (λ qm s, MkQueueEnv (qe_gpu s) qm.1 qm.2).

Definition pop_descriptor_chain {E} : M QE E (option Chain) :=
  λ s,
    let '(chain, q) := q_pop_descriptor_chain (qe_mem s) (qe_queue s) in
    (Ret chain, MkQueueEnv (qe_gpu s) q (qe_mem s)).

Definition queue_add_used (head_index len : Z) : M QE device_error unit :=
  map_err QueueAddUsed (on_queue_mem (q_add_used head_index len)).

(** [response.encode(.., writer)], whose bytes end up in guest memory *)
Definition write_response (response : GpuResponse) (flags fence_id ctx_id ring_idx : Z) (writer : Wr) :
    M QE device_error Z :=
  λ s,
    let '(o, w) := encode response flags fence_id ctx_id ring_idx writer in
    (outcome_map_err GpuResponseEncode o, MkQueueEnv (qe_gpu s) (qe_queue s)
      (chain_commit w (qe_mem s))).

(** Executing the command of a chain: the response, and the header if there was one. *)
Definition execute (reader : R) : M QE device_error (GpuResponse * option virtio_gpu_ctrl_hdr) :=
  match (decode reader).1 with
  | Ret (ctrl_hdr, gpu_cmd) =>
      let! mem := gets qe_mem in
      let! response_result := attempt (on_gpu (process_gpu_command mem ctrl_hdr gpu_cmd)) in
      let response := match response_result with inr response => response | inl response => response end in
      ret (response, Some ctrl_hdr)
  | Fail e => ret (ErrUnspec, None)
  | Panic => panic
  | NoFuel => no_fuel
  end.

Definition has_flag (flags flag : Z) : bool := bool_decide (Z.land flags flag ≠ 0).

(** The creation of the fence that a header asks for: the response after it, and the
    flags, fence, context and ring that the response carries. *)
Definition make_fence (ctrl_hdr : option virtio_gpu_ctrl_hdr) (response : GpuResponse) :
    M QE device_error (GpuResponse * (Z * Z * Z * Z)) :=
  match ctrl_hdr with
  | Some hdr =>
      if has_flag (ctrl_hdr_flags hdr) VIRTIO_GPU_FLAG_FENCE then
        let flags := ctrl_hdr_flags hdr in
        let fence_id := ctrl_hdr_fence_id hdr in
        let ctx_id := ctrl_hdr_ctx_id hdr in
        let ring_idx := ctrl_hdr_ring_idx hdr in
        let! r := attempt (on_gpu (create_fence (MkRutabagaFence flags fence_id ctx_id ring_idx))) in
        let response := match r with inl fence_response => fence_response | inr _ => response end in
        ret (response, (flags, fence_id, ctx_id, ring_idx))
      else ret (response, (0, 0, 0, 0))
  | None => ret (response, (0, 0, 0, 0))
  end.

Definition process_queue_chain (head_index : Z) (reader : R) (writer : Wr) : M QE device_error bool :=
  let! (response, ctrl_hdr) := execute reader in
  if bool_decide (w_available_bytes writer = 0) then
    do! queue_add_used head_index 0 in
    ret true
  else
    let! (response, (flags, fence_id, ctx_id, ring_idx)) := make_fence ctrl_hdr response in
    let! response_len := write_response response flags fence_id ctx_id ring_idx writer in
    let! add_to_queue :=
      if has_flag flags VIRTIO_GPU_FLAG_FENCE then
        let ring := if has_flag flags VIRTIO_GPU_FLAG_INFO_RING_IDX
                    then ContextSpecific ctx_id ring_idx else Global in
        on_gpu (gpu_process_fence ring fence_id head_index response_len)
      else ret true in
    do! (if add_to_queue : bool then queue_add_used head_index response_len else ret tt) in
    ret add_to_queue.

(** The [while let] loop, with the flag it accumulates. *)
Fixpoint process_chains (fuel : nat) (signal_used_queue : bool) : M QE device_error bool :=
  match fuel with
  | O => no_fuel
  | S fuel =>
      let! next := pop_descriptor_chain in
      match next with
      | None => ret signal_used_queue
      | Some desc_chain =>
          let head_index := chain_head_index desc_chain in
          let! mem := gets qe_mem in
          let! reader := lift (outcome_map_err CreateReader (chain_reader mem desc_chain)) in
          let! writer := lift (outcome_map_err CreateWriter (chain_writer mem desc_chain)) in
          let! used_queue := process_queue_chain head_index reader writer in
          process_chains fuel (signal_used_queue || used_queue)
      end
  end.

Definition process_queue (fuel : nat) : M QE device_error bool := process_chains fuel false.

(** An invariant of a run over a queue: what the GPU does, a pop, an entry for the used
    ring and the bytes of a response keep it. *)
Section invariant.
Context (J : QE → Prop).
Context (J_gpu : ∀ g s, J s → J (MkQueueEnv g (qe_queue s) (qe_mem s)))
  (J_pop : ∀ s, J s → J (MkQueueEnv (qe_gpu s) (q_pop_descriptor_chain (qe_mem s) (qe_queue s)).2 (qe_mem s)))
  (J_add : ∀ head len s, J s →
    let qm := (q_add_used head len (qe_queue s, qe_mem s)).2 in J (MkQueueEnv (qe_gpu s) qm.1 qm.2))
  (J_commit : ∀ s0 chain writer response flags fence_id ctx_id ring_idx s,
    J s0 → (q_pop_descriptor_chain (qe_mem s0) (qe_queue s0)).1 = Some chain →
    chain_writer (qe_mem s0) chain = Ret writer → J s →
    J (MkQueueEnv (qe_gpu s) (qe_queue s)
      (chain_commit (encode response flags fence_id ctx_id ring_idx writer).2 (qe_mem s)))).

Lemma invariant_on_gpu {E A} (m : M G E A) : preserves J (on_gpu m).
Proof using J_gpu. intros s Hs. unfold on_gpu, zoom. destruct (m _). by apply J_gpu. Qed.

Lemma invariant_pop {E} : preserves J (pop_descriptor_chain (E:=E)).
Proof using J_pop.
  intros s Hs. unfold pop_descriptor_chain. specialize (J_pop s Hs). by destruct (q_pop_descriptor_chain _ _).
Qed.

Lemma invariant_add_used head len : preserves J (queue_add_used head len).
Proof using J_add.
  apply preserves_map_err. intros s Hs. unfold on_queue_mem, zoom. specialize (J_add head len s Hs).
  by destruct (q_add_used _ _ _) as [o [q m]].
Qed.

(** The writer of a chain that was popped *)
Definition writer_of (writer : Wr) : Prop :=
  ∃ s chain, J s ∧ (q_pop_descriptor_chain (qe_mem s) (qe_queue s)).1 = Some chain ∧
    chain_writer (qe_mem s) chain = Ret writer.

Lemma invariant_write_response response flags fence_id ctx_id ring_idx (writer : Wr) :
  writer_of writer → preserves J (write_response response flags fence_id ctx_id ring_idx writer).
Proof using J_commit.
  intros (s0 & chain & Hs0 & Hpop & Hw) s Hs. unfold write_response.
  specialize (J_commit s0 chain writer response flags fence_id ctx_id ring_idx s Hs0 Hpop Hw Hs).
  by destruct (encode _ _ _ _ _ writer) as [o w].
Qed.

#[local] Hint Resolve invariant_on_gpu invariant_pop invariant_add_used invariant_write_response : preserves.

Lemma invariant_chain head_index (reader : R) (writer : Wr) :
  writer_of writer → preserves J (process_queue_chain head_index reader writer).
Proof using All.
  intros Hwriter.
  unfold process_queue_chain. apply preserves_bind.
  { unfold execute. destruct (decode reader).1 as [[hdr cmd]|e| |]; eauto 8 with preserves. }
  intros [response ctrl_hdr]. apply preserves_if; [eauto 8 with preserves|]. apply preserves_bind.
  { unfold make_fence. destruct ctrl_hdr; eauto 8 with preserves. }
  intros [resp [[[flags fence_id] ctx_id] ring_idx]]. eauto 12 with preserves.
Qed.

Lemma invariant_process_queue fuel : preserves J (process_queue fuel).
Proof using All.
  unfold process_queue. generalize false. induction fuel as [|fuel IH]; intros b s Hs; [done|]. simpl.
  unfold bind at 1, pop_descriptor_chain. pose proof (J_pop s Hs) as Hs1.
  destruct (q_pop_descriptor_chain (qe_mem s) (qe_queue s)) as [[chain|] q] eqn:Hpop; [|done]. simpl in Hs1.
  erewrite bind_Ret by done. simpl. unfold bind at 1, lift.
  destruct (chain_reader (qe_mem s) chain) as [reader|e| |]; [|done..]. simpl. unfold bind at 1, lift.
  destruct (chain_writer (qe_mem s) chain) as [writer|e| |] eqn:Hw; [|done..]. simpl.
  revert Hs1. generalize (MkQueueEnv (qe_gpu s) q (qe_mem s)). apply preserves_bind; [|by intros used].
  apply invariant_chain. exists s, chain. by rewrite Hpop.
Qed.
End invariant.
End queues.

(** ** The worker *)

(** What the worker runs on: the GPU, the device world, with its queues and the
    kernel's epoll instances, and guest memory. *)
Record WorkerEnv (G S Mem : Type) : Type := MkWorkerEnv { we_gpu : G; we_device : S; we_mem : Mem }.
Arguments MkWorkerEnv {G S Mem}.
Arguments we_gpu {G S Mem}.
Arguments we_device {G S Mem}.
Arguments we_mem {G S Mem}.

(** [GpuWorker]: its event manager; the GPU is part of what it runs on, and its two
    queues are the two instances of [DeviceQueue] on the device world. *)
Record GpuWorker : Type := MkGpuWorker { gw_event_manager : EventManager }.

Section worker.
Context {G S Q Mem Chain R Wr : Type} `{VirtioGpu G} `{RutabagaConsts} `{GuestSlices Mem}
  `{QueueProc Q Mem Chain} `{!QueueConfig Q Mem} `{ReaderOps R} `{WriterOps Wr}
  `{ChainStreams Mem Chain R Wr} `{GpuCmdNumbers} `{GpuRespNumbers} `{EpollOps S}
  `{EventSetBits}.

Local Notation WE := (WorkerEnv G S Mem).

Definition on_device {E A} : M S E A → M WE E A :=
  zoom we_device (λ d s, MkWorkerEnv (we_gpu s) d (we_mem s)).

Definition io {A} (m : M S errno A) : M WE worker_error A := map_err IoError (on_device m).

(** What a section runs on that holds the lock of a queue, and releasing it. *)
Definition unlock {DQ : DeviceQueue S Q} (s : WE * Q) : WE :=
  MkWorkerEnv (we_gpu s.1) (dq_store s.2 (we_device s.1)) (we_mem s.1).

Definition locked {DQ : DeviceQueue S Q} {E A} (queue : Q) (m : M (WE * Q) E A) : M WE E A :=
  λ s, let '(o, s') := m (s, queue) in (o, unlock s').

Definition on_locked {E A} : M (QueueEnv G Q Mem) E A → M (WE * Q) E A :=
  zoom (λ s, MkQueueEnv (we_gpu s.1) s.2 (we_mem s.1))
    (λ q s, (MkWorkerEnv (qe_gpu q) (we_device s.1) (qe_mem q), qe_queue q)).

(** One round with EVENT_IDX: [None] to go round again. *)
Definition event_idx_turn {DQ : DeviceQueue S Q} (fuel : nat) : M (WE * Q) worker_error (option unit) :=
  do! unwrap (on_locked (on_queue_mem q_disable_notification)) in
  let! notify := map_err DeviceError (on_locked (process_queue fuel)) in
  do! (if notify : bool
       then unwrap (zoom fst (λ e s, (e, s.2)) (on_device dq_signal_used_queue))
       else ret tt) in
  let! more := unwrap (on_locked (on_queue_mem q_enable_notification)) in
  ret (if more : bool then None else Some tt).

(** After the kick was read: the run over the queue with its lock held *)
Definition process_if_locked {DQ : DeviceQueue S Q} (fuel : nat) : M WE worker_error unit :=
  let! device := gets we_device in
  match dq_try_lock_queue device with
  | None => ret tt
  | Some queue =>
      locked queue
        (if q_event_idx_enabled queue then loop fuel (event_idx_turn fuel)
         else
           do! map_err DeviceError (on_locked (process_queue fuel)) in
           ret tt)
  end.

Definition handle_queue_event {DQ : DeviceQueue S Q} (fuel : nat) : M WE worker_error unit :=
  let! ready := io dq_read_kick in
  if negb ready then ret tt else process_if_locked fuel.

Context (control_queue cursor_queue : DeviceQueue S Q).
(** the [Arc] that holds an epoll descriptor *)
Context (arc_of : Z → EpollArc).

Definition add_kick (em : EventManager) (queue : DeviceQueue S Q) (token : WorkerToken) :
    M WE worker_error unit :=
  io (dq_kick_register (DeviceQueue:=queue) (arc_of (em_epoll em)) (token_as_raw token)).

Definition gpu_worker_new (exit_evt : EventFd) : M WE worker_error GpuWorker :=
  let! event_manager := io em_new in
  do! io (em_add event_manager exit_evt Quit) in
  do! add_kick event_manager control_queue ControlQ in
  do! add_kick event_manager cursor_queue CursorQ in
  let! gpu := gets we_gpu in
  do! match get_event_poll_fd gpu with
      | Some poll_event => io (em_add event_manager (MkEventFd poll_event) Poll)
      | None => ret tt
      end in
  ret (MkGpuWorker event_manager).

(** The arms of the [match] on a token: [Some] to return from [run]. *)
Definition handle_token (fuel : nat) (token : WorkerToken) : M WE worker_error (option unit) :=
  match token with
  | Quit => ret (Some tt)
  | ControlQ => do! handle_queue_event (DQ:=control_queue) fuel in ret None
  | CursorQ => do! handle_queue_event (DQ:=cursor_queue) fuel in ret None
  | Poll =>
      do! modify (λ s, MkWorkerEnv (event_poll (we_gpu s)) (we_device s) (we_mem s)) in
      ret None
  end.

(** The [for] loop over the events of one wait. *)
Fixpoint handle_events (fuel : nat) (events : list (TriggeredEvent WorkerToken)) :
    M WE worker_error (option unit) :=
  match events with
  | [] => ret None
  | event :: events =>
      let! stop := handle_token fuel (te_token event) in
      match stop with
      | Some r => ret (Some r)
      | None => handle_events fuel events
      end
  end.

Definition run_turn (fuel : nat) (w : GpuWorker) : M WE worker_error (option unit) :=
  let! events := io (em_wait fuel (gw_event_manager w)) in
  handle_events fuel events.

Definition gpu_worker_run (fuel : nat) (w : GpuWorker) : M WE worker_error unit :=
  loop fuel (run_turn fuel w).
End worker.

(** ** Dispatch *)

Section dispatch.
Context {G Mem : Type} `{VirtioGpu G} `{RutabagaConsts} `{GuestSlices Mem}.

(** The commands that the worker does not implement. *)
Definition unimplemented (cmd : GpuCommand) : bool :=
  match cmd with
  | ResourceAssignUuid _ | ResourceCreateBlob _ | SetScanoutBlob _ | ResourceMapBlob _
  | ResourceUnmapBlob _ => true
  | _ => false
  end.

Lemma push_iovecs_ok vecs mem :
  Forall (λ v, is_Some (mem_get_slice v.1 v.2 mem)) vecs →
  ∃ iovecs, push_iovecs vecs mem = Ret iovecs ∧
    Forall2 (λ v io, mem_get_slice v.1 v.2 mem = Some (iov_base io) ∧ iov_len io = v.2) vecs iovecs.
Proof.
  induction 1 as [|[addr len] vecs [base Hb] _ (iovecs & IH & Hall)]; simpl.
  - by exists [].
  - simpl in Hb. rewrite Hb, IH. eexists. split; [done|]. by constructor.
Qed.

(** Guest memory is only handed to the renderer when all of it is there. *)
Lemma rutabaga_iovecs_cases vecs mem :
  (∃ iovecs, rutabaga_iovecs_from_guest_mem vecs mem = Ret iovecs ∧
    Forall2 (λ v io, mem_get_slice v.1 v.2 mem = Some (iov_base io) ∧ iov_len io = v.2) vecs iovecs) ∨
  ((∃ v, v ∈ vecs ∧ mem_get_slice v.1 v.2 mem = None) ∧
    rutabaga_iovecs_from_guest_mem vecs mem = Fail ErrInvalidParameter).
Proof.
  unfold rutabaga_iovecs_from_guest_mem.
  destruct (existsb _ vecs) eqn:Hb.
  - right. split; [|done]. apply existsb_exists in Hb as (v & Hv & Hn%bool_decide_eq_true).
    exists v. by rewrite list_elem_of_In.
  - left. apply push_iovecs_ok, Forall_forall. intros v Hv. apply not_eq_None_Some. intros Hn.
    apply not_true_iff_false in Hb. apply Hb, existsb_exists. exists v.
    by rewrite bool_decide_eq_true, <-list_elem_of_In.
Qed.

(** A command is one call of the GPU, a panic, or refused for its guest memory. *)
Lemma process_gpu_command_cases mem hdr cmd g :
  (unimplemented cmd = true ∧ process_gpu_command mem hdr cmd g = (Panic, force_ctx_0 g)) ∨
  (∃ req vecs v, cmd = ResourceAttachBacking req vecs ∧ v ∈ vecs ∧ mem_get_slice v.1 v.2 mem = None ∧
    process_gpu_command mem hdr cmd g = (Fail ErrInvalidParameter, force_ctx_0 g)) ∨
  (unimplemented cmd = false ∧
    ∃ m, gpu_method m ∧ process_gpu_command mem hdr cmd g = m (force_ctx_0 g)).
Proof.
  unfold process_gpu_command. erewrite bind_Ret by done.
  destruct cmd; try (left; by split);
    try (right; right; split; [done|]; eexists; split; [|done]; constructor).
  unfold bind, lift. destruct (rutabaga_iovecs_cases vecs mem) as [(iovecs & -> & _)|[(v & Hv & Hn) ->]].
  - right. right. split; [done|]. eexists. split; [|done]. constructor.
  - right. left. by eexists _, _, v.
Qed.

Lemma process_gpu_command_keeps `{!VirtioGpuLaws G} mem hdr cmd :
  keeps gpu_pending (process_gpu_command mem hdr cmd).
Proof.
  intros g. rewrite <-(force_ctx_0_pending g).
  destruct (process_gpu_command_cases mem hdr cmd g) as
    [[_ ->]|[(req & vecs & v & _ & _ & _ & ->)|(_ & m & Hm & ->)]]; [done|done|].
  by apply gpu_method_keeps.
Qed.
End dispatch.

(** ** Every chain is answered once *)

Section processing.
Context {G Q Mem Chain R Wr : Type} `{VirtioGpuLaws G} `{RutabagaConsts} `{GuestSlices Mem}
  `{QueueProcLaws Q Mem Chain} `{ReaderLaws R} `{WriterLaws Wr} `{!ChainStreams Mem Chain R Wr}
  `{!ChainStreamsLaws Q Mem Chain R Wr} `{GpuCmdNumbers} `{GpuRespNumbers}.

Local Notation QE := (QueueEnv G Q Mem).
Implicit Types s : QE.

(** The chains that the driver has made available, the entries of the used ring, and
    the answers that wait for a fence. *)
Definition avail_of s : list Chain := q_avail (qe_queue s) (qe_mem s).
Definition used_of s : list (Z * Z) := q_used (qe_queue s) (qe_mem s).
Definition views s : list Chain * list (Z * Z) * list (Z * Z) :=
  (avail_of s, used_of s, gpu_pending (qe_gpu s)).

Lemma on_gpu_keeps {E A} (m : M G E A) : keeps gpu_pending m → keeps views (on_gpu (Q:=Q) (Mem:=Mem) m).
Proof.
  intros Hm. eapply keeps_zoom; [|done]. intros s t Ht. unfold views, avail_of, used_of. simpl. congruence.
Qed.

Lemma write_response_keeps response flags fence_id ctx_id ring_idx (writer : Wr) :
  keeps views (write_response response flags fence_id ctx_id ring_idx writer).
Proof.
  intros s. unfold write_response.
  destruct (encode_keeps response flags fence_id ctx_id ring_idx writer) as [_ Ho].
  destruct (encode response flags fence_id ctx_id ring_idx writer) as [o w].
  destruct (chain_commit_views w (qe_queue s) (qe_mem s)) as [Ha Hu].
  unfold views, avail_of, used_of. simpl. rewrite Ha, Hu. split; [done|]. by destruct o.
Qed.

Lemma execute_keeps (reader : R) : keeps views (execute reader).
Proof.
  unfold execute. destruct (decode_result reader) as [(hdr & cmd & Hd)|[e Hd]]; rewrite Hd.
  - auto using on_gpu_keeps, process_gpu_command_keeps with keeps.
  - apply keeps_ret.
Qed.

Lemma make_fence_keeps ctrl_hdr response : keeps views (make_fence (Mem:=Mem) (Q:=Q) ctrl_hdr response).
Proof.
  unfold make_fence. destruct ctrl_hdr; [|apply keeps_ret]. apply keeps_if; [|apply keeps_ret].
  apply keeps_bind; [|intros; apply keeps_ret].
  apply keeps_attempt, on_gpu_keeps, gpu_method_keeps. constructor.
Qed.

(** What one chain leads to: an entry of the used ring, an answer that waits, or, when
    its processing fails, neither. *)
Definition chain_outcome (head : Z) s (run : outcome device_error bool * QE) : Prop :=
  run.1 ≠ NoFuel ∧ avail_of run.2 = avail_of s ∧
  match run.1 with
  | Ret true => (∃ len, used_of run.2 = used_of s ++ [(head, len)]) ∧
      gpu_pending (qe_gpu run.2) = gpu_pending (qe_gpu s)
  | Ret false => used_of run.2 = used_of s ∧
      ∃ len, gpu_pending (qe_gpu run.2) = gpu_pending (qe_gpu s) ++ [(head, len)]
  | _ => used_of run.2 = used_of s ∧ gpu_pending (qe_gpu run.2) = gpu_pending (qe_gpu s)
  end.

Lemma chain_outcome_keep {A} head s (m : M QE device_error A) (k : A → M QE device_error bool) :
  keeps views m → (∀ a s1, m s = (Ret a, s1) → views s1 = views s → chain_outcome head s1 (k a s1)) →
  chain_outcome head s (bind m k s).
Proof.
  intros Hm Hk. unfold bind. destruct (Hm s) as [Hv Ho]. unfold views in Hv, Hk.
  destruct (m s) as [[a|e| |] s1]; simpl in *; [|injection Hv as ???; by split_and!..|done].
  specialize (Hk a s1 eq_refl Hv). injection Hv as Ha Hu Hp. unfold chain_outcome in *.
  by rewrite <-Ha, <-Hu, <-Hp.
Qed.

Lemma add_used_outcome head len s :
  chain_outcome head s ((do! queue_add_used head len in ret true) s).
Proof.
  unfold queue_add_used, bind, map_err, on_queue_mem, zoom. destruct s as [g q m]. simpl.
  destruct (q_add_used_result head len (q, m)) as [[[q' m'] Hr]|(e & [q' m'] & Hr)]; rewrite Hr; simpl.
  - destruct (q_add_used_ok _ _ _ _ _ _ Hr) as [Hu Ha]. unfold chain_outcome, avail_of, used_of. simpl.
    split; [done|]. split; [done|]. split; [|done]. by exists len.
  - destruct (q_add_used_fail _ _ _ _ _ _ _ Hr) as [Hu Ha]. by split_and!.
Qed.

Lemma process_queue_chain_outcome head (reader : R) (writer : Wr) s :
  chain_outcome head s (process_queue_chain head reader writer s).
Proof.
  unfold process_queue_chain. apply chain_outcome_keep; [apply execute_keeps|].
  intros [response ctrl_hdr] s1 _ _. case_bool_decide; [apply add_used_outcome|].
  apply chain_outcome_keep; [apply make_fence_keeps|]. intros [resp [[[flags fid] ctx] ring]] s2 _ _.
  apply chain_outcome_keep; [apply write_response_keeps|]. intros len s3 _ _.
  destruct (has_flag flags VIRTIO_GPU_FLAG_FENCE).
  - set (r := if has_flag flags VIRTIO_GPU_FLAG_INFO_RING_IDX then _ else _).
    unfold on_gpu, zoom, bind at 1.
    destruct (process_fence_cases (E:=device_error) r fid head len (qe_gpu s3))
      as [(g' & -> & Hg)|(g' & -> & Hg)]; simpl.
    + pose proof (add_used_outcome head len (MkQueueEnv g' (qe_queue s3) (qe_mem s3))) as Ho.
      unfold chain_outcome in *. simpl in *. by rewrite Hg in Ho.
    + unfold bind, ret. unfold chain_outcome, avail_of, used_of. simpl.
      split; [done|]. split; [done|]. split; [done|]. by exists len.
  - unfold bind at 1, ret at 1. apply add_used_outcome.
Qed.
(** The processing of a run of chains, one result for each: its head, the length of the
    answer, and whether it went to the used ring or waits for its fence. *)
Definition entries (used : bool) (rs : list (Z * Z * bool)) : list (Z * Z) :=
  (filter (λ r, r.2 = used) rs).*1.

Definition heads (cs : list Chain) : list Z := chain_head_index <$> cs.

Definition queue_outcome (signalled : bool) s (run : outcome device_error bool * QE) : Prop :=
  ∃ rs lost,
    heads (avail_of s) = rs.*1.*1 ++ lost ++ heads (avail_of run.2) ∧
    used_of run.2 = used_of s ++ entries true rs ∧
    gpu_pending (qe_gpu run.2) = gpu_pending (qe_gpu s) ++ entries false rs ∧
    match run.1 with
    | Ret b => lost = [] ∧ b = signalled || existsb snd rs ∧
        ∃ q, q_pop_descriptor_chain (qe_mem run.2) q = (None, qe_queue run.2)
    | NoFuel => False
    | _ => length lost = 1%nat
    end.

Lemma entries_cons used hl u rs :
  entries used ((hl, u) :: rs) = (if eqb u used then [hl] else []) ++ entries used rs.
Proof. unfold entries. rewrite filter_cons. by destruct u, used. Qed.

(** The rest of the run, after a chain whose result is [(head, len, used)]. *)
Lemma queue_outcome_cons signalled head len used s s1 run :
  heads (avail_of s) = head :: heads (avail_of s1) →
  used_of s1 = used_of s ++ (if used : bool then [(head, len)] else []) →
  gpu_pending (qe_gpu s1) = gpu_pending (qe_gpu s) ++ (if used then [] else [(head, len)]) →
  queue_outcome (signalled || used) s1 run → queue_outcome signalled s run.
Proof.
  intros Ha Hu Hp (rs & lost & Ha' & Hu' & Hp' & Ho). exists ((head, len, used) :: rs), lost.
  rewrite !entries_cons. split; [by rewrite Ha, Ha'|].
  split; [rewrite Hu', Hu, <-app_assoc; by destruct used|].
  split; [rewrite Hp', Hp, <-app_assoc; by destruct used|].
  destruct run.1; [|done..]. destruct Ho as (-> & -> & Hq). split; [done|]. split; [|done].
  simpl. by rewrite orb_assoc.
Qed.

(** The run ends with a chain that was popped and whose processing fails. *)
Lemma queue_outcome_lost signalled head s (run : outcome device_error bool * QE) :
  heads (avail_of s) = head :: heads (avail_of run.2) →
  used_of run.2 = used_of s → gpu_pending (qe_gpu run.2) = gpu_pending (qe_gpu s) →
  run.1 ≠ NoFuel → (∀ b, run.1 ≠ Ret b) → queue_outcome signalled s run.
Proof.
  intros Ha Hu Hp Ho Hb. exists [], [head]. unfold entries. simpl. rewrite Hu, Hp, !app_nil_r.
  split; [done|]. split; [done|]. split; [done|]. destruct run.1; naive_solver.
Qed.

Lemma process_chains_outcome fuel signalled s :
  (length (avail_of s) < fuel)%nat → queue_outcome signalled s (process_chains (R:=R) (Wr:=Wr) fuel signalled s).
Proof.
  revert signalled s. induction fuel as [|fuel IH]; intros signalled s Hfuel; [lia|]. simpl.
  unfold bind at 1, pop_descriptor_chain.
  destruct (q_pop_descriptor_chain (qe_mem s) (qe_queue s)) as [[c|] q] eqn:Hpop.
  2: { destruct (q_pop_None _ _ _ Hpop) as [Ha Hu]. exists [], []. unfold entries. simpl.
    rewrite !app_nil_r, orb_false_r. unfold avail_of, used_of. simpl. rewrite Ha, Hu.
    repeat (split; [done|]). by exists (qe_queue s). }
  destruct (q_pop_Some _ _ _ _ Hpop) as (Ha & Hu & _).
  set (s0 := MkQueueEnv (qe_gpu s) q (qe_mem s)).
  assert (heads (avail_of s) = chain_head_index c :: heads (avail_of s0)) as Hheads
    by (unfold avail_of; by rewrite Ha).
  assert (used_of s0 = used_of s) as Hused by done.
  assert (S (length (avail_of s0)) = length (avail_of s)) as Hlen by (unfold avail_of; by rewrite Ha).
  erewrite bind_Ret by done.
  destruct (chain_reader_result (qe_mem s0) c) as [[r Hr]|[e Hr]]; rewrite Hr.
  2: { erewrite bind_Fail by done. by eapply queue_outcome_lost. }
  erewrite bind_Ret by done.
  destruct (chain_writer_result (qe_mem s0) c) as [[w Hw]|[e Hw]]; rewrite Hw.
  2: { erewrite bind_Fail by done. by eapply queue_outcome_lost. }
  erewrite bind_Ret by done.
  pose proof (process_queue_chain_outcome (chain_head_index c) r w s0) as (Hnf & Hav & Hout).
  unfold bind. destruct (process_queue_chain (chain_head_index c) r w s0) as [[b|e| |] s1]; simpl in *.
  - assert (queue_outcome (signalled || b) s1 (process_chains fuel (signalled || b) s1)) as Hrest.
    { apply IH. rewrite Hav. lia. }
    destruct b; destruct Hout as [Hu1 Hp1].
    + destruct Hu1 as [len Hu1]. eapply (queue_outcome_cons _ _ len true s); [| | |done].
      * by rewrite Hheads, Hav.
      * by rewrite Hu1, Hused.
      * by rewrite Hp1, app_nil_r.
    + destruct Hp1 as [len Hp1]. eapply (queue_outcome_cons _ _ len false s); [| | |done].
      * by rewrite Hheads, Hav.
      * by rewrite Hu1, Hused, app_nil_r.
      * by rewrite Hp1.
  - destruct Hout. eapply queue_outcome_lost; simpl; [by rewrite Hheads, Hav|congruence..|done|done].
  - destruct Hout. eapply queue_outcome_lost; simpl; [by rewrite Hheads, Hav|congruence..|done|done].
  - done.
Qed.

(** Claim C12. One run over a queue handles the available chains in order and answers
    each of them once: its head goes to the used ring, or its answer waits with the
    GPU for a fence. The run returns when no chain is left to pop, with the flag that
    says whether the used ring has grown; when it fails or panics, exactly one chain,
    the one it was working on, is lost. More fuel than there are chains is enough. *)
Theorem process_queue_conserves fuel s :
  (length (avail_of s) < fuel)%nat →
  let run := process_queue (R:=R) (Wr:=Wr) fuel s in
  ∃ rs lost,
    heads (avail_of s) = rs.*1.*1 ++ lost ++ heads (avail_of run.2) ∧
    used_of run.2 = used_of s ++ entries true rs ∧
    gpu_pending (qe_gpu run.2) = gpu_pending (qe_gpu s) ++ entries false rs ∧
    match run.1 with
    | Ret b => lost = [] ∧ b = existsb snd rs ∧
        ∃ q, q_pop_descriptor_chain (qe_mem run.2) q = (None, qe_queue run.2)
    | NoFuel => False
    | _ => length lost = 1%nat
    end.
Proof. intros Hfuel. apply (process_chains_outcome fuel false s Hfuel). Qed.
(** ** What a guest gets for a command *)

(** The chain holds a header, a command and possibly more. *)
Definition holds_command (reader : R) (hdr : virtio_gpu_ctrl_hdr) (cmd : GpuCommand) : Prop :=
  valid hdr ∧ valid_command cmd ∧ ctrl_hdr_type_ hdr = VIRTIO_GPU_CMD (command_type cmd) ∧
  ∃ rest, r_remaining reader = as_slice hdr ++ encode_body cmd ++ rest.

Lemma decode_command (reader : R) hdr cmd :
  holds_command reader hdr cmd → (decode reader).1 = Ret (hdr, cmd).
Proof.
  intros (Hh & Hc & Ht & rest & Hr). by destruct (decode_front hdr cmd reader rest Hh Hc Ht Hr) as (r' & -> & _).
Qed.

(** A guest that sends one of the commands that the worker does not implement
    makes the worker's thread panic; its chain is never answered. *)
Theorem unimplemented_command_panics fuel c q' (reader : R) (writer : Wr) hdr cmd s :
  q_pop_descriptor_chain (qe_mem s) (qe_queue s) = (Some c, q') →
  chain_reader (qe_mem s) c = Ret reader → chain_writer (qe_mem s) c = Ret writer →
  holds_command reader hdr cmd → unimplemented cmd = true →
  let run := process_queue (R:=R) (Wr:=Wr) (S fuel) s in
  run.1 = Panic ∧ used_of run.2 = used_of s ∧ gpu_pending (qe_gpu run.2) = gpu_pending (qe_gpu s).
Proof.
  intros Hpop Hr Hw Hcmd Hun. destruct (q_pop_Some _ _ _ _ Hpop) as (_ & Hu & _).
  set (s0 := MkQueueEnv (qe_gpu s) q' (qe_mem s)).
  assert (process_queue (R:=R) (Wr:=Wr) (S fuel) s =
    (Panic, MkQueueEnv (force_ctx_0 (qe_gpu s)) q' (qe_mem s))) as ->.
  { unfold process_queue. simpl.
    erewrite (bind_Ret _ _ s (Some c) s0) by (unfold pop_descriptor_chain; by rewrite Hpop).
    change (qe_mem s) with (qe_mem s0) in Hr, Hw.
    cbv beta iota zeta. erewrite bind_Ret by done. rewrite Hr. erewrite bind_Ret by done. rewrite Hw.
    erewrite bind_Ret by done. apply bind_Panic. unfold process_queue_chain. apply bind_Panic.
    unfold execute. rewrite (decode_command _ _ _ Hcmd). erewrite bind_Ret by done.
    apply bind_Panic. unfold attempt, on_gpu, zoom.
    destruct (process_gpu_command_cases (qe_mem s0) hdr cmd (qe_gpu s0)) as
      [[_ ->]|[(req & vecs & v & -> & _)|[Hno _]]]; [done|done|congruence]. }
  simpl. split; [done|]. split; [done|]. apply force_ctx_0_pending.
Qed.

(** The command has been executed with response [resp]. *)
Lemma command_executed (reader : R) hdr cmd s (o : outcome GpuResponse GpuResponse) g1 (resp : GpuResponse) :
  holds_command reader hdr cmd →
  process_gpu_command (qe_mem s) hdr cmd (qe_gpu s) = (o, g1) → (o = Ret resp ∨ o = Fail resp) →
  execute reader s = (Ret (resp, Some hdr), MkQueueEnv g1 (qe_queue s) (qe_mem s)).
Proof.
  intros Hcmd Hrun Ho. unfold execute. rewrite (decode_command _ _ _ Hcmd). erewrite bind_Ret by done.
  unfold bind, attempt, on_gpu, zoom. rewrite Hrun. by destruct Ho as [-> | ->].
Qed.

(** Its response is written. *)
Lemma command_written head (reader : R) (writer : Wr) hdr cmd s (o : outcome GpuResponse GpuResponse) g1
    (resp : GpuResponse) :
  holds_command reader hdr cmd → w_available_bytes writer ≠ 0 →
  process_gpu_command (qe_mem s) hdr cmd (qe_gpu s) = (o, g1) → (o = Ret resp ∨ o = Fail resp) →
  process_queue_chain head reader writer s =
    (let! (response, (flags, fence_id, ctx_id, ring_idx)) := make_fence (Some hdr) resp in
     let! response_len := write_response response flags fence_id ctx_id ring_idx writer in
     let! add_to_queue :=
       if has_flag flags VIRTIO_GPU_FLAG_FENCE then
         let ring := if has_flag flags VIRTIO_GPU_FLAG_INFO_RING_IDX
                     then ContextSpecific ctx_id ring_idx else Global in
         on_gpu (gpu_process_fence ring fence_id head response_len)
       else ret true in
     do! (if add_to_queue : bool then queue_add_used head response_len else ret tt) in
     ret add_to_queue) (MkQueueEnv g1 (qe_queue s) (qe_mem s)).
Proof.
  intros Hcmd Hroom Hrun Ho. unfold process_queue_chain.
  rewrite (bind_Ret _ _ _ _ _ (command_executed _ _ _ _ _ _ _ Hcmd Hrun Ho)). cbv beta iota.
  by rewrite (bool_decide_eq_false_2 _ Hroom).
Qed.

(** There is no room for a response. *)
Lemma command_without_room head (reader : R) (writer : Wr) hdr cmd s (o : outcome GpuResponse GpuResponse) g1
    (resp : GpuResponse) :
  holds_command reader hdr cmd → w_available_bytes writer = 0 →
  process_gpu_command (qe_mem s) hdr cmd (qe_gpu s) = (o, g1) → (o = Ret resp ∨ o = Fail resp) →
  process_queue_chain head reader writer s =
    (do! queue_add_used head 0 in ret true) (MkQueueEnv g1 (qe_queue s) (qe_mem s)).
Proof.
  intros Hcmd Hroom Hrun Ho. unfold process_queue_chain.
  rewrite (bind_Ret _ _ _ _ _ (command_executed _ _ _ _ _ _ _ Hcmd Hrun Ho)). cbv beta iota.
  by rewrite (bool_decide_eq_true_2 _ Hroom).
Qed.

(** What encoding [resp] behind [hdr] comes to: for a response that is one object and has
    room, the bytes of the object, with their number; for the layout of planes, a length that
    is reported with nothing written. *)
Definition encoded_as (resp : GpuResponse) (hdr : virtio_gpu_ctrl_hdr) (writer : Wr)
    (run : outcome GpuResponseEncodeError Z * Wr) : Prop :=
  (∀ bs, valid_response resp → response_object resp hdr = Some bs →
    Z.of_nat (length bs) ≤ w_available_bytes writer →
    run.1 = Ret (Z.of_nat (length bs)) ∧ w_written run.2 = w_written writer ++ bs) ∧
  (∀ fm planes, resp = OkResourcePlaneInfo fm planes → Z.of_nat (length planes) ≤ PLANE_INFO_MAX_COUNT →
    72 ≤ w_available_bytes writer → run = (Ret 72, writer)).

Lemma encode_encoded_as resp flags fence_id ctx_id ring_idx (writer : Wr) :
  let hdr := response_header resp flags fence_id ctx_id ring_idx in
  valid hdr → encoded_as resp hdr writer (encode resp flags fence_id ctx_id ring_idx writer).
Proof.
  intros hdr Hv. split.
  - intros bs Hresp Hobj Hroom.
    destruct (encode_object_run resp flags fence_id ctx_id ring_idx bs writer Hv Hresp Hobj) as [[Hfit _] _].
    by destruct (Hfit Hroom) as (w & -> & Hw).
  - intros fm planes -> Hn Hroom. by apply encode_gaps.
Qed.

(** The response of the GPU, as its result or as its error *)
Definition responds (o : outcome GpuResponse GpuResponse) (resp : GpuResponse) : Prop :=
  o = Ret resp ∨ o = Fail resp.

(** Claim C22. A command without a fence is answered at once. What the GPU responded, as
    its result or as its error, is encoded for the chain behind a header without fence,
    and whatever the response is, the chain is put in the used ring with the length that
    encoding it reported; the worker fails when the entry cannot be added, and when
    encoding fails, in which case the chain is not used. For a response that is one
    object and has room, the bytes of the object are what is written and their number is
    the length; for the layout of planes, which is what the creation of a resource
    responds when rutabaga knows it, a length of 72 is reported with nothing written. A
    chain without any room to write is put in the used ring with length 0. *)
Theorem command_answered head (reader : R) (writer : Wr) hdr cmd s o g1 resp :
  holds_command reader hdr cmd → has_flag (ctrl_hdr_flags hdr) VIRTIO_GPU_FLAG_FENCE = false →
  process_gpu_command (qe_mem s) hdr cmd (qe_gpu s) = (o, g1) → responds o resp →
  let '(written, w) := encode resp 0 0 0 0 writer in
  let s' := MkQueueEnv g1 (qe_queue s) (chain_commit w (qe_mem s)) in
  encoded_as resp (response_header resp 0 0 0 0) writer (written, w) ∧
  process_queue_chain head reader writer s =
    if bool_decide (w_available_bytes writer = 0)
    then (do! queue_add_used head 0 in ret true) (MkQueueEnv g1 (qe_queue s) (qe_mem s))
    else
      match written with
      | Ret len => (do! queue_add_used head len in ret true) s'
      | Fail e => (Fail (GpuResponseEncode e), s')
      | Panic => (Panic, s')
      | NoFuel => (NoFuel, s')
      end.
Proof.
  intros Hcmd Hflag Hrun Ho.
  assert (valid (response_header resp 0 0 0 0)) as Hv by (by apply response_header_fits).
  pose proof (encode_encoded_as resp 0 0 0 0 writer Hv) as Hobj.
  destruct (encode resp 0 0 0 0 writer) as [written w] eqn:Henc. split; [done|].
  case_bool_decide as Hroom; [by apply (command_without_room _ _ _ hdr cmd _ o _ resp)|].
  erewrite command_written by done.
  unfold make_fence. rewrite Hflag. erewrite bind_Ret by done. cbv beta iota.
  unfold bind at 1, write_response. rewrite Henc. by destruct written.
Qed.

(** Claim C23. A command that asks for a fence that has not completed, in a chain with
    room to write, is executed, and its response, or that of the failed creation of the
    fence, is encoded behind a header with the fence, context and ring of its own
    header; but its chain does not go to the used ring: its answer waits with the GPU,
    with the length that encoding it reported. When encoding fails, the worker fails
    with that error and nothing new waits. What is written and its length are, by the
    kind of the response, as for a command without a fence. *)
Theorem fenced_command_waits head (reader : R) (writer : Wr) hdr cmd s o g1 resp created g2 resp' :
  holds_command reader hdr cmd → has_flag (ctrl_hdr_flags hdr) VIRTIO_GPU_FLAG_FENCE = true →
  w_available_bytes writer ≠ 0 →
  process_gpu_command (qe_mem s) hdr cmd (qe_gpu s) = (o, g1) → responds o resp →
  let flags := ctrl_hdr_flags hdr in let fence_id := ctrl_hdr_fence_id hdr in
  let ctx_id := ctrl_hdr_ctx_id hdr in let ring_idx := ctrl_hdr_ring_idx hdr in
  create_fence (MkRutabagaFence flags fence_id ctx_id ring_idx) g1 = (created, g2) →
  (∃ ok, created = Ret ok ∧ resp' = resp) ∨ created = Fail resp' →
  let '(written, w) := encode resp' flags fence_id ctx_id ring_idx writer in
  let mem' := chain_commit w (qe_mem s) in
  encoded_as resp' (response_header resp' flags fence_id ctx_id ring_idx) writer (written, w) ∧
  match written with
  | Ret len =>
      ∀ g3, gpu_process_fence (E:=device_error)
          (if has_flag flags VIRTIO_GPU_FLAG_INFO_RING_IDX then ContextSpecific ctx_id ring_idx else Global)
          fence_id head len g2 = (Ret false, g3) →
        process_queue_chain head reader writer s = (Ret false, MkQueueEnv g3 (qe_queue s) mem') ∧
        gpu_pending g3 = gpu_pending (qe_gpu s) ++ [(head, len)]
  | _ =>
      process_queue_chain head reader writer s =
        (outcome_map_err GpuResponseEncode (outcome_map (λ _, false) written),
         MkQueueEnv g2 (qe_queue s) mem') ∧
      gpu_pending g2 = gpu_pending (qe_gpu s)
  end.
Proof.
  intros Hcmd Hflag Hroom Hrun Ho flags fence_id ctx_id ring_idx Hcreate Hresp.
  subst flags fence_id ctx_id ring_idx. set (flags := ctrl_hdr_flags hdr) in *.
  set (fence_id := ctrl_hdr_fence_id hdr) in *. set (ctx_id := ctrl_hdr_ctx_id hdr) in *.
  set (ring_idx := ctrl_hdr_ring_idx hdr) in *.
  assert (valid (response_header resp' flags fence_id ctx_id ring_idx)) as Hv.
  { destruct Hcmd as ([[[[[? ?] ?] ?] ?] _] & _). by apply response_header_fits. }
  assert (make_fence (Some hdr) resp (MkQueueEnv g1 (qe_queue s) (qe_mem s)) =
    (Ret (resp', (flags, fence_id, ctx_id, ring_idx)), MkQueueEnv g2 (qe_queue s) (qe_mem s))) as Hfence.
  { unfold make_fence. fold flags fence_id ctx_id ring_idx. rewrite Hflag.
    unfold bind, attempt, on_gpu, zoom. cbn [qe_gpu]. rewrite Hcreate.
    by destruct Hresp as [(ok & -> & ->)| ->]. }
  assert (gpu_pending g2 = gpu_pending (qe_gpu s)) as Hp.
  { destruct (process_gpu_command_keeps (qe_mem s) hdr cmd (qe_gpu s)) as [Hp1 _].
    destruct (gpu_method_keeps _ (gm_create_fence (MkRutabagaFence flags fence_id ctx_id ring_idx)) g1)
      as [Hp2 _]. rewrite Hrun in Hp1. rewrite Hcreate in Hp2. simpl in *. congruence. }
  pose proof (encode_encoded_as resp' flags fence_id ctx_id ring_idx writer Hv) as Hobj.
  pose proof (command_written head reader writer hdr cmd s o g1 resp Hcmd Hroom Hrun Ho) as Hchain.
  rewrite (bind_Ret _ _ _ _ _ Hfence) in Hchain. unfold bind at 1, write_response in Hchain.
  destruct (encode resp' flags fence_id ctx_id ring_idx writer) as [written w]. split; [done|].
  destruct written as [len|e| |]; [|done..]. intros g3 Hwait. split.
  - rewrite Hchain. cbn [outcome_map_err]. rewrite Hflag. unfold bind at 1, on_gpu, zoom. cbn [qe_gpu].
    by rewrite Hwait.
  - rewrite <-Hp. edestruct (process_fence_cases (E:=device_error)) as [(g' & Hf & _)|(g' & Hf & Hg)];
      rewrite Hf in Hwait; by simplify_eq.
Qed.
End processing.

(** ** Notifications *)

Section notification.
Context {G S Q Mem Chain R Wr : Type} `{VirtioGpu G} `{RutabagaConsts} `{GuestSlices Mem}
  `{QueueProc Q Mem Chain} `{!QueueConfig Q Mem} `{ReaderOps R} `{WriterOps Wr}
  `{ChainStreams Mem Chain R Wr} `{GpuCmdNumbers} `{GpuRespNumbers} {DQ : DeviceQueue S Q}.
Implicit Types s : WorkerEnv G S Mem.

(** Without EVENT_IDX a kick is one run over the queue, and the driver is
    not notified of what that run has put in the used ring: the device is left as it
    was after the kick was read, but for the queue itself. *)
Theorem no_event_idx_never_signals fuel s d1 queue :
  dq_read_kick (we_device s) = (Ret true, d1) → dq_try_lock_queue d1 = Some queue →
  q_event_idx_enabled queue = false →
  let run := process_queue (R:=R) (Wr:=Wr) fuel (MkQueueEnv (we_gpu s) queue (we_mem s)) in
  handle_queue_event (R:=R) (Wr:=Wr) fuel s =
    (outcome_map_err DeviceError (outcome_map (λ _, tt) run.1),
     MkWorkerEnv (qe_gpu run.2) (dq_store (qe_queue run.2) d1) (qe_mem run.2)).
Proof.
  intros Hkick Hlock Hidx run. unfold handle_queue_event.
  erewrite (bind_Ret _ _ _ true (MkWorkerEnv (we_gpu s) d1 (we_mem s))).
  2: { unfold io, map_err, on_device, zoom. by rewrite Hkick. }
  cbn [negb]. unfold process_if_locked. erewrite bind_Ret by done. cbn [we_device]. rewrite Hlock, Hidx.
  unfold locked, bind, map_err, on_locked, zoom. cbn [fst snd we_gpu we_mem]. fold run.
  destruct run as [[b|e| |] s1]; done.
Qed.

(** Memory in which the available ring of [q] has an index that makes no sense: nothing can
    be popped, but there seems to be something new. *)
Definition malformed (queue : Q) (bad : Mem → Prop) : Prop :=
  ∀ m, bad m →
    q_disable_notification (queue, m) = (Ret tt, (queue, m)) ∧
    q_pop_descriptor_chain m queue = (None, queue) ∧
    ∃ m', q_enable_notification (queue, m) = (Ret true, (queue, m')) ∧ bad m'.

(** Every round ends as the one before. *)
Lemma malformed_turn fuel gpu (d : S) m queue bad :
  malformed queue bad → bad m →
  event_idx_turn (R:=R) (Wr:=Wr) fuel (MkWorkerEnv gpu d m, queue) =
    (NoFuel, (MkWorkerEnv gpu d m, queue)) ∨
  ∃ m', bad m' ∧ event_idx_turn (R:=R) (Wr:=Wr) fuel (MkWorkerEnv gpu d m, queue) =
    (Ret None, (MkWorkerEnv gpu d m', queue)).
Proof.
  intros Hbad Hm. destruct (Hbad m Hm) as (Hdis & Hpop & m' & Hen & Hm').
  unfold event_idx_turn, bind, unwrap, map_err, on_locked, on_queue_mem, zoom. simpl. rewrite Hdis. simpl.
  destruct fuel as [|fuel]; [by left|]. right. exists m'. split; [done|].
  unfold process_queue. simpl. unfold bind, pop_descriptor_chain. simpl. rewrite Hpop. simpl.
  by rewrite Hen.
Qed.

Lemma malformed_loop n fuel gpu (d : S) m queue bad :
  malformed queue bad → bad m →
  (loop n (event_idx_turn (R:=R) (Wr:=Wr) fuel) (MkWorkerEnv gpu d m, queue)).1 = NoFuel.
Proof.
  intros Hbad. revert m. induction n as [|n IH]; intros m Hm; [done|]. simpl. unfold bind.
  destruct (malformed_turn fuel gpu d m queue bad Hbad Hm) as [->|(m' & Hm' & ->)]; [done|].
  by apply IH.
Qed.

(** Claim C28. A guest that puts a malformed index in the available ring, on a queue with
    EVENT_IDX, has the worker go round its loop for good, with the lock of the queue held:
    handling the kick does not come back with any fuel. *)
Theorem malformed_ring_spins fuel s d1 queue bad :
  dq_read_kick (we_device s) = (Ret true, d1) → dq_try_lock_queue d1 = Some queue →
  q_event_idx_enabled queue = true → malformed queue bad → bad (we_mem s) →
  (handle_queue_event (R:=R) (Wr:=Wr) fuel s).1 = NoFuel.
Proof.
  intros Hkick Hlock Hidx Hbad Hmem. unfold handle_queue_event.
  erewrite (bind_Ret _ _ _ true (MkWorkerEnv (we_gpu s) d1 (we_mem s))).
  2: { unfold io, map_err, on_device, zoom. by rewrite Hkick. }
  cbn [negb]. unfold process_if_locked. erewrite bind_Ret by done. cbn [we_device]. rewrite Hlock, Hidx.
  unfold locked. pose proof (malformed_loop fuel fuel (we_gpu s) d1 _ _ _ Hbad Hmem) as Hloop.
  destruct (loop fuel _ _) as [o s']. done.
Qed.
End notification.

(** ** The rounds with EVENT_IDX *)

Section rounds.
Context {G S Q Mem Chain R Wr : Type} `{VirtioGpuLaws G} `{RutabagaConsts} `{GuestSlices Mem}
  `{QueueProcLaws Q Mem Chain} `{!QueueConfig Q Mem} `{ReaderLaws R} `{WriterLaws Wr}
  `{!ChainStreams Mem Chain R Wr} `{!ChainStreamsLaws Q Mem Chain R Wr} `{GpuCmdNumbers}
  `{GpuRespNumbers} {DQ : DeviceQueue S Q}.

(** A call of the queue or of the device that is not in this file comes back. *)
Definition comes_back {St E A} (m : M St E A) : Prop := ∀ s, (m s).1 ≠ NoFuel.

(** The methods of the queue, of its kick and of its call that the worker waits for return. *)
Record calls_return : Prop := {
  back_read : comes_back dq_read_kick;
  back_signal : comes_back dq_signal_used_queue;
  back_disable : comes_back q_disable_notification;
  back_enable : comes_back q_enable_notification;
}.

(** What it takes for a ring to be well formed. The device's own steps keep it so: the
    pops, the entries of the used ring, the flags of EVENT_IDX, and the responses, which
    go to buffers of the chains and not to the ring. And the index that the driver has
    published is at most the size of the ring ahead, so that a ring from which nothing can be
    popped has nothing new; this is what a malformed index, as above, is not. *)
Record ring_sound (wf : Q → Mem → Prop) : Prop := {
  sound_pop q m : wf q m → wf (q_pop_descriptor_chain m q).2 m;
  sound_write q0 m0 chain writer response flags fence_id ctx_id ring_idx q m :
    wf q0 m0 → (q_pop_descriptor_chain m0 q0).1 = Some chain → chain_writer m0 chain = Ret writer →
    wf q m → wf q (chain_commit (encode response flags fence_id ctx_id ring_idx writer).2 m);
  sound_used head len q m : wf q m → let qm := (q_add_used head len (q, m)).2 in wf qm.1 qm.2;
  sound_disable q m : wf q m → let qm := (q_disable_notification (q, m)).2 in wf qm.1 qm.2;
  sound_enable q m : wf q m → let qm := (q_enable_notification (q, m)).2 in wf qm.1 qm.2;
  sound_settles q m : wf q m → (q_pop_descriptor_chain m q).1 = None →
    (q_enable_notification ((q_pop_descriptor_chain m q).2, m)).1 ≠ Ret true;
}.

(** A round that was the last: it returned with nothing new, failed or panicked. *)
Definition round_over {E} (o : outcome E (option unit)) : Prop :=
  match o with Ret None | NoFuel => False | _ => True end.

Definition wf_worker (wf : Q → Mem → Prop) (s : WorkerEnv G S Mem * Q) : Prop := wf s.2 (we_mem s.1).

(** A run over the queue ends before a pop that finds nothing, in a ring that is well formed. *)
Lemma process_chains_last wf fuel signalled s b s' :
  ring_sound wf → wf (qe_queue s) (qe_mem s) →
  process_chains (R:=R) (Wr:=Wr) fuel signalled s = (Ret b, s') →
  wf (qe_queue s') (qe_mem s') ∧ ∃ q, wf q (qe_mem s') ∧
    q_pop_descriptor_chain (qe_mem s') q = (None, qe_queue s').
Proof.
  intros Hsound. revert signalled s. induction fuel as [|fuel IH]; intros signalled s Hs; [done|]. simpl.
  unfold bind at 1, pop_descriptor_chain. pose proof (sound_pop _ Hsound _ _ Hs) as Hs1.
  destruct (q_pop_descriptor_chain (qe_mem s) (qe_queue s)) as [[chain|] q] eqn:Hpop; simpl in Hs1.
  2: { intros [= _ <-]. split; [done|]. by exists (qe_queue s). }
  unfold bind at 1, gets at 1. simpl. unfold bind at 1, lift.
  destruct (chain_reader (qe_mem s) chain) as [reader|e| |]; [|done..]. simpl. unfold bind at 1, lift.
  destruct (chain_writer (qe_mem s) chain) as [writer|e| |] eqn:Hw; [|done..]. simpl.
  pose proof (invariant_chain (λ s, wf (qe_queue s) (qe_mem s)) ltac:(done)
    ltac:(intros s0; apply (sound_pop _ Hsound)) ltac:(intros head len s0; apply (sound_used _ Hsound))
    ltac:(intros s0 c w resp fl fe cx ri s1 Hs0 Hc Hcw Hs2; exact (sound_write _ Hsound _ _ c w resp fl fe cx ri _ _ Hs0 Hc Hcw Hs2))
    (chain_head_index chain) reader writer) as Hinv.
  specialize (Hinv ltac:(exists s, chain; by rewrite Hpop) (MkQueueEnv (qe_gpu s) q (qe_mem s)) Hs1).
  unfold bind at 1. destruct (process_queue_chain _ _ _ _) as [[used|e| |] s1]; [|done..]. by apply IH.
Qed.

(** One round is enough. *)
Lemma event_idx_turn_settles wf fuel (w : WorkerEnv G S Mem) q o s' :
  calls_return → ring_sound wf → wf q (we_mem w) → (length (q_avail q (we_mem w)) < fuel)%nat →
  event_idx_turn (R:=R) (Wr:=Wr) fuel (w, q) = (o, s') →
  round_over o ∧ (o = Ret (Some tt) → wf_worker wf s').
Proof.
  intros Hback Hsound Hwf Hfuel. unfold event_idx_turn, on_locked, on_queue_mem.
  unfold bind at 1, unwrap at 1, zoom at 1 2. simpl.
  pose proof (back_disable Hback (q, we_mem w)) as Hdback. pose proof (sound_disable _ Hsound _ _ Hwf) as Hwf1.
  destruct (q_disable_notification (q, we_mem w)) as [[[]|e| |] [q1 m1]] eqn:Hdis; simpl in *;
    try (by intros [= <- <-]).
  apply q_disable_notification_views in Hdis as [_ Hav].
  unfold bind at 1, map_err, zoom at 1. simpl.
  pose proof (process_chains_outcome (R:=R) (Wr:=Wr) fuel false (MkQueueEnv (we_gpu w) q1 m1)) as Hrun.
  pose proof (process_chains_last wf fuel false (MkQueueEnv (we_gpu w) q1 m1)) as Hlast.
  unfold avail_of in Hrun. simpl in Hrun. rewrite Hav in Hrun.
  destruct (Hrun Hfuel) as (rs & lost & _ & _ & _ & Ho). clear Hrun. unfold process_queue.
  destruct (process_chains fuel _ _) as [[notify|e| |] s1]; simpl in *; try (by intros [= <- <-]).
  destruct (Hlast notify s1 Hsound Hwf1 eq_refl) as (Hwf2 & q0 & Hwf0 & Hpop).
  pose proof (sound_settles _ Hsound _ _ Hwf0) as Hsettles. rewrite Hpop in Hsettles. specialize (Hsettles eq_refl).
  pose proof (back_enable Hback (qe_queue s1, qe_mem s1)) as Heback. simpl in Hsettles.
  pose proof (sound_enable _ Hsound _ _ Hwf2) as Hwf3. pose proof (back_signal Hback (we_device w)) as Hs.
  destruct notify; simpl; unfold bind at 1, unwrap, on_device, zoom; simpl;
    [destruct (dq_signal_used_queue (we_device w)) as [[[]|e| |] d']; simpl in *; try (by intros [= <- <-])|];
    unfold bind; simpl;
    destruct (q_enable_notification (qe_queue s1, qe_mem s1)) as [[[]|e| |] [q2 m2]]; by intros [= <- <-].
Qed.

(** Claim C20. Handling a kick comes back, on every branch, when the methods of the
    queue, of its kick and of its call return, the ring is well formed (the worker's own
    writes keep it so, and a ring from which nothing can be popped has nothing new,
    [ring_sound]), and there is more fuel than there are chains. With EVENT_IDX one
    round is enough: what handling the kick does is exactly what its first round does,
    whatever the commands, the GPU and the notifications do, as long as the driver adds
    nothing in the course of it. When the round went well the ring is left well formed,
    for the next kick. *)
Theorem queue_event_returns wf fuel (w : WorkerEnv G S Mem) :
  calls_return → ring_sound wf →
  let kick := dq_read_kick (we_device w) in
  (∀ q, dq_try_lock_queue kick.2 = Some q →
    wf q (we_mem w) ∧ (length (q_avail q (we_mem w)) < fuel)%nat) →
  let run := handle_queue_event (R:=R) (Wr:=Wr) fuel w in
  run.1 ≠ NoFuel ∧
  ∀ q, kick.1 = Ret true → dq_try_lock_queue kick.2 = Some q → q_event_idx_enabled q = true →
    let round := event_idx_turn (R:=R) (Wr:=Wr) fuel (MkWorkerEnv (we_gpu w) kick.2 (we_mem w), q) in
    run = (outcome_map (λ _, tt) round.1, unlock round.2) ∧
    (run.1 = Ret tt → round.1 = Ret (Some tt) ∧ wf_worker wf round.2).
Proof.
  intros Hback Hsound kick Hwf run. pose proof (back_read Hback (we_device w)) as Hread.
  assert (run = handle_queue_event fuel w) as Hrun by done. clearbody run. unfold kick in *. clear kick.
  unfold handle_queue_event, bind at 1, io, map_err, on_device, zoom in Hrun.
  destruct (dq_read_kick (we_device w)) as [[ready|e| |] d1]; simpl in *; try (by subst run).
  destruct ready; [|by subst run]. simpl in Hrun. unfold process_if_locked, bind at 1, gets in Hrun. simpl in Hrun.
  destruct (dq_try_lock_queue d1) as [q|] eqn:Hlock; [|by subst run]. destruct (Hwf q eq_refl) as [Hq Hfuel].
  unfold locked in Hrun. destruct (q_event_idx_enabled q) eqn:Hidx.
  - destruct fuel as [|fuel]; [lia|]. simpl in Hrun. unfold bind at 1 in Hrun.
    destruct (event_idx_turn (Datatypes.S fuel) _) as [o s1] eqn:Hturn.
    destruct (event_idx_turn_settles wf _ (MkWorkerEnv (we_gpu w) d1 (we_mem w)) _ o s1 Hback Hsound Hq Hfuel Hturn) as [Hover Hkept].
    destruct o as [[[]|]|e| |]; simpl in *; try done; subst run; (split; [done|]); intros q' _ [= <-] _;
      rewrite Hturn; naive_solver.
  - split; [|intros q' _ [= <-]; congruence]. unfold bind, map_err, on_locked, zoom in Hrun. simpl in Hrun.
    destruct (process_chains_outcome (R:=R) (Wr:=Wr) fuel false (MkQueueEnv (we_gpu w) q (we_mem w)) Hfuel)
      as (rs & lost & _ & _ & _ & Ho). unfold process_queue in Hrun.
    by destruct (process_chains fuel _ _) as [[notify|e| |] s1]; simpl in *; subst run.
Qed.
End rounds.

(** ** A worker at work *)
Module WorkerExamples.
Import SimQueue ProtocolExamples ResponseExamples GpuExamples.

#[export] Instance consts : RutabagaConsts := {|
  RUTABAGA_PIPE_TEXTURE_2D := 2;
  RUTABAGA_PIPE_BIND_RENDER_TARGET := 2;
  transfer3d_new_2d x y w h offset := MkTransfer3D x y 0 w h 1 0 0 0 offset;
|}.

(** 64 KiB of guest memory *)
#[export] Instance slices : GuestSlices mem := {|
  mem_get_slice addr len _ := if bool_decide (addr + len ≤ 65536) then Some (2 ^ 40 + addr) else None;
|}.

#[export] Instance counting_rutabaga_laws : RutabagaLaws nat.
Proof. split; intros; done. Qed.

#[export] Instance gpu_instance : VirtioGpu G := rutabaga_virtio_gpu true.
#[export] Instance gpu_laws : VirtioGpuLaws G := rutabaga_virtio_gpu_laws true.

Definition header (n : cmd_name) (flags fence : Z) : virtio_gpu_ctrl_hdr :=
  Mk_virtio_gpu_ctrl_hdr (VIRTIO_GPU_CMD n) flags fence 0 0 [0; 0; 0].

Definition chain_of (head : Z) (hdr : virtio_gpu_ctrl_hdr) (cmd : GpuCommand) : chain :=
  Chain head (as_slice hdr ++ encode_body cmd) 24.

(** Resource 7 is unreferenced, resource 9 is created with fence 5, and resource 9 is
    asked for its identifier. *)
Definition unref : GpuCommand := ResourceUnref (Mk_virtio_gpu_resource_unref 7 0).
Definition create : GpuCommand := ResourceCreate2d (Mk_virtio_gpu_resource_create_2d 9 1 2 1).
Definition assign : GpuCommand := ResourceAssignUuid (Mk_virtio_gpu_resource_assign_uuid 9 0).

Definition c1 : chain := chain_of 3 (header RESOURCE_UNREF 0 0) unref.
Definition c2 : chain := chain_of 4 (header RESOURCE_CREATE_2D 1 5) create.
Definition c3 : chain := chain_of 6 (header RESOURCE_ASSIGN_UUID 0 0) assign.

Definition queue_of (cs : list chain) : queue := Queue true false 16 16 0 0 (0, 0, 0) cs [] true.
Definition env_of (cs : list chain) : QueueEnv G queue mem := MkQueueEnv gpu3 (queue_of cs) (Mem [] None []).

Lemma process_queue_conserves_witness :
  (let run := process_queue (R:=reader) (Wr:=writer) 5 (env_of [c1; c2]) in
   run.1 = Ret true ∧ used_of run.2 = [(3, 24)] ∧ gpu_pending (qe_gpu run.2) = [(4, 24)]) ∧
  let run := process_queue (R:=reader) (Wr:=writer) 5 (env_of [c1; c2]) in
  ∃ rs lost,
    heads (avail_of (env_of [c1; c2])) = rs.*1.*1 ++ lost ++ heads (avail_of run.2) ∧
    used_of run.2 = used_of (env_of [c1; c2]) ++ entries true rs ∧
    gpu_pending (qe_gpu run.2) = gpu_pending (qe_gpu (env_of [c1; c2])) ++ entries false rs ∧
    match run.1 with
    | Ret b => lost = [] ∧ b = existsb snd rs ∧
        ∃ q, q_pop_descriptor_chain (qe_mem run.2) q = (None, qe_queue run.2)
    | NoFuel => False
    | _ => length lost = 1%nat
    end.
Proof.
  split; [vm_compute; auto|].
  exact (process_queue_conserves (R:=reader) (Wr:=writer) 5 (env_of [c1; c2])
    ltac:(apply Nat.ltb_lt; vm_compute; reflexivity)).
Defined.

Lemma worker_header_valid n flags fence :
  in_width 32 flags → in_width 64 fence → valid (header n flags fence).
Proof.
  intros ??. split; [|split; [done|repeat constructor; done]]. do 4 (split; [|done]).
  apply VIRTIO_GPU_CMD_u32.
Qed.

Lemma holds_chain head n flags fence cmd :
  in_width 32 flags → in_width 64 fence → valid_command cmd → n = command_type cmd →
  bool_decide (r_remaining (mk_reader (c_readable (chain_of head (header n flags fence) cmd))) =
    as_slice (header n flags fence) ++ encode_body cmd ++ []) = true →
  holds_command (mk_reader (c_readable (chain_of head (header n flags fence) cmd)))
    (header n flags fence) cmd.
Proof.
  intros ?? Hcmd -> Hr%bool_decide_eq_true. split; [by apply worker_header_valid|].
  split; [done|]. split; [done|]. by exists [].
Qed.

Lemma unimplemented_command_panics_witness :
  let run := process_queue (R:=reader) (Wr:=writer) 1 (env_of [c3]) in
  run.1 = Panic ∧ used_of run.2 = used_of (env_of [c3]) ∧
    gpu_pending (qe_gpu run.2) = gpu_pending (qe_gpu (env_of [c3])).
Proof.
  exact (unimplemented_command_panics 0 c3 (set_chains [] [c3] (queue_of [c3]))
    (mk_reader (c_readable c3)) (Writer 24 []) (header RESOURCE_ASSIGN_UUID 0 0) assign (env_of [c3])
    eq_refl eq_refl eq_refl
    (holds_chain 6 RESOURCE_ASSIGN_UUID 0 0 assign ltac:(done) ltac:(done) ltac:(by repeat split) eq_refl
       ltac:(vm_compute; reflexivity)) eq_refl).
Defined.

Definition refused : bytes := as_slice (response_header ErrUnspec 0 0 0 0).

(** The response of a command that fails, with room for it and with too little *)
Lemma command_answered_witness :
  (process_queue_chain 3 (mk_reader (c_readable c1)) (Writer 24 []) (env_of [c1]) =
     (do! queue_add_used 3 24 in ret true)
       (MkQueueEnv (gpu_unref_resource 7 gpu3).2 (queue_of [c1]) (Mem [] None [refused]))) ∧
  (process_queue_chain 3 (mk_reader (c_readable c1)) (Writer 20 []) (env_of [c1])).1 =
     Fail (GpuResponseEncode DescriptorWriteFailed).
Proof.
  pose proof (holds_chain 3 RESOURCE_UNREF 0 0 unref ltac:(done) ltac:(done) ltac:(by repeat split) eq_refl
    ltac:(vm_compute; reflexivity)) as Hcmd.
  assert (process_gpu_command (qe_mem (env_of [c1])) (header RESOURCE_UNREF 0 0) unref gpu3 =
    (Fail ErrUnspec, (gpu_unref_resource 7 gpu3).2)) as Hrun by (vm_compute; reflexivity).
  pose proof (λ room, command_answered 3 (mk_reader (c_readable c1)) (Writer room [])
    (header RESOURCE_UNREF 0 0) unref (env_of [c1]) (Fail ErrUnspec) (gpu_unref_resource 7 gpu3).2 ErrUnspec
    Hcmd eq_refl Hrun (or_intror eq_refl)) as Hanswer.
  split.
  - refine (eq_trans (proj2 (Hanswer 24%nat)) _). vm_compute. reflexivity.
  - refine (eq_trans (f_equal fst (proj2 (Hanswer 20%nat))) _). vm_compute. reflexivity.
Defined.

(** The GPU after the creation of resource 9, after that of the fence, and with the
    answer that waits. *)
Definition after_create : G := (process_gpu_command (Mem [] None []) (header RESOURCE_CREATE_2D 1 5) create gpu3).2.
Definition after_fence : G := (create_fence (MkRutabagaFence 1 5 0 0) after_create).2.
Definition after_wait : G := (gpu_process_fence (E:=device_error) Global 5 4 24 after_fence).2.
Definition created : bytes := as_slice (response_header OkNoData 1 5 0 0).

Lemma fenced_command_waits_witness :
  process_queue_chain 4 (mk_reader (c_readable c2)) (Writer 24 []) (env_of [c2]) =
    (Ret false, MkQueueEnv after_wait (queue_of [c2]) (Mem [] None [created])) ∧
  gpu_pending after_wait = gpu_pending gpu3 ++ [(4, 24)].
Proof.
  exact (proj2 (fenced_command_waits 4 (mk_reader (c_readable c2)) (Writer 24 [])
    (header RESOURCE_CREATE_2D 1 5) create (env_of [c2]) (Ret OkNoData) after_create OkNoData
    (Ret OkNoData) after_fence OkNoData
    (holds_chain 4 RESOURCE_CREATE_2D 1 5 create ltac:(done) ltac:(done) ltac:(by repeat split) eq_refl
       ltac:(vm_compute; reflexivity))
    eq_refl ltac:(done) ltac:(vm_compute; reflexivity) (or_introl eq_refl) ltac:(vm_compute; reflexivity)
    (or_introl (ex_intro _ OkNoData (conj eq_refl eq_refl)))) after_wait ltac:(vm_compute; reflexivity)).
Defined.

Definition worker_env (cs : list chain) : WorkerEnv G device mem :=
  MkWorkerEnv gpu3 (Device (Some (queue_of cs)) 0) (Mem [] None []).

Lemma no_event_idx_never_signals_witness :
  (let s := (handle_queue_event (R:=reader) (Wr:=writer) 5 (worker_env [c1])).2 in
   mem_used (we_mem s) = [(3, 24)] ∧ sd_signals (we_device s) = 0%nat) ∧
  let run := process_queue (R:=reader) (Wr:=writer) 5 (MkQueueEnv gpu3 (queue_of [c1]) (Mem [] None [])) in
  handle_queue_event (R:=reader) (Wr:=writer) 5 (worker_env [c1]) =
    (outcome_map_err DeviceError (outcome_map (λ _, tt) run.1),
     MkWorkerEnv (qe_gpu run.2) (dq_store (qe_queue run.2) (Device (Some (queue_of [c1])) 0)) (qe_mem run.2)).
Proof.
  split; [vm_compute; auto|].
  exact (no_event_idx_never_signals 5 (worker_env [c1]) (Device (Some (queue_of [c1])) 0) (queue_of [c1])
    eq_refl eq_refl eq_refl).
Defined.

Definition with_event_idx (cs : list chain) : queue := set_event_idx true (queue_of cs).
Definition event_env (cs : list chain) : WorkerEnv G device mem :=
  MkWorkerEnv gpu3 (Device (Some (with_event_idx cs)) 0) (Mem [] None []).

(** The available chains begin at descriptors of the table. *)
Definition heads_in_table (q : queue) (m : mem) : Prop :=
  Forall (λ c, 0 ≤ c_head c < sq_size q) (sq_avail q).

Lemma heads_sound : ring_sound (R:=reader) (Wr:=writer) heads_in_table.
Proof.
  split; unfold heads_in_table; try done.
  - intros q m Hq. simpl. unfold pop. destruct (sq_avail q) eqn:Hav; simpl; [by rewrite Hav|].
    by apply Forall_cons in Hq as [_ ?].
  - intros head len q m Hq. simpl. by case_bool_decide.
  - intros q m _. simpl. unfold pop. destruct (sq_avail q) eqn:Hav; simpl; [by rewrite Hav|done].
Qed.

Lemma queue_event_returns_witness :
  let run := handle_queue_event (R:=reader) (Wr:=writer) 5 (event_env [c1; c2]) in
  let round := event_idx_turn (R:=reader) (Wr:=writer) 5 (event_env [c1; c2], with_event_idx [c1; c2]) in
  run.1 ≠ NoFuel ∧ run = (outcome_map (λ _, tt) round.1, unlock round.2) ∧
  round.1 = Ret (Some tt) ∧ wf_worker heads_in_table round.2.
Proof.
  destruct (queue_event_returns (R:=reader) (Wr:=writer) heads_in_table 5 (event_env [c1; c2])
    ltac:(split; intros []; done) heads_sound) as [Hback Hround].
  - intros q [= <-]. split; [|apply Nat.ltb_lt; vm_compute; reflexivity].
    repeat constructor; try done.
  - destruct (Hround (with_event_idx [c1; c2]) eq_refl eq_refl eq_refl) as [Hrun Hret].
    split; [exact Hback|]. split; [exact Hrun|]. apply Hret. vm_compute. reflexivity.
Defined.

(** Guest memory that is only the index of the available ring, checked as the queue does
    it: an index more than the size ahead gives no chain. *)
Record avail_idx : Type := AvailIdx { ai_idx : Z }.

#[export] Instance avail_idx_proc : QueueProc queue avail_idx chain := {|
  q_pop_descriptor_chain m q :=
    let ahead := wrap 16 (ai_idx m - sq_next_avail q) in
    if bool_decide (ahead = 0 ∨ sq_size q < ahead) then (None, q)
    else (Some (Chain 0 [] 0), set_next_avail (wrap 16 (sq_next_avail q + 1)) q);
  q_go_to_previous_position q := set_next_avail (wrap 16 (sq_next_avail q - 1)) q;
  q_add_used _ _ := ret tt;
  q_disable_notification := ret tt;
  q_enable_notification := gets (λ s, bool_decide (ai_idx s.2 ≠ sq_next_avail s.1));
  chain_head_index := c_head;
  q_avail _ _ := [];
  q_used _ _ := [];
|}.
#[export] Instance avail_idx_config : QueueConfig queue avail_idx := {|
  q_new := new; q_try_set_desc_table_address := try_set 16 (λ a '(_, y, z), (a, y, z));
  q_try_set_avail_ring_address := try_set 2 (λ a '(x, _, z), (x, a, z));
  q_try_set_used_ring_address := try_set 4 (λ a '(x, y, _), (x, y, a));
  q_set_ready := set_ready; q_ready := sq_ready; q_set_size := set_size; q_size := sq_size;
  q_max_size := sq_max_size; q_set_event_idx := set_event_idx; q_event_idx_enabled := sq_event_idx;
  q_set_next_avail := set_next_avail; q_next_avail := sq_next_avail; q_set_next_used := set_next_used;
  q_used_idx _ _ := Ret 0;
|}.
#[export] Instance avail_idx_streams : ChainStreams avail_idx chain reader writer := {|
  chain_reader _ c := Ret (mk_reader (c_readable c));
  chain_writer _ c := Ret (Writer (Z.to_nat (c_writable c)) []);
  chain_commit _ m := m;
|}.
#[export] Instance avail_idx_slices : GuestSlices avail_idx := {| mem_get_slice _ _ _ := None |}.

(** A queue of size 16, and an index of 1000 *)
Lemma malformed_ring_spins_witness :
  (handle_queue_event (R:=reader) (Wr:=writer) 50
    (MkWorkerEnv gpu3 (Device (Some (with_event_idx [])) 0) (AvailIdx 1000))).1 = NoFuel.
Proof.
  apply (malformed_ring_spins (Mem:=avail_idx) (R:=reader) (Wr:=writer) 50
    (MkWorkerEnv gpu3 (Device (Some (with_event_idx [])) 0) (AvailIdx 1000))
    (Device (Some (with_event_idx [])) 0) (with_event_idx []) (λ m, m = AvailIdx 1000)); try reflexivity.
  intros m ->. split; [reflexivity|]. split; [vm_compute; reflexivity|].
  exists (AvailIdx 1000). split; [vm_compute; reflexivity|reflexivity].
Defined.
End WorkerExamples.
