(* ===== verification/GpuScreen.v ===== *)
(** * What the driver queues is what the screens show

    [GpuDisplay] is about the methods of the GPU. The worker of [worker.rs] takes commands
    from a queue, decodes them, and calls these methods. Here the two are put together:
    the commands that the chains of a queue carry, in the order of the chains, take the
    specification of the display from screen to screen ([queue_displays]). *)

From S2P Require Import Prelude VirtQueue Codec GpuProtocol GpuResponse GpuFence VirtioGpu RutabagaGpu GpuDisplay GpuWorker.

Section screen.
Context {RG GB : Type} `{RutabagaLaws RG} `{GpuBackendLaws GB}.
Context (checks : bool).
Local Notation G := (RutabagaVirtioGpu RG GB).
Context {Mem : Type} `{RutabagaConsts} `{GuestSlices Mem}.
Implicit Types g : G.

#[local] Instance gpu_instance : VirtioGpu G := rutabaga_virtio_gpu checks.

(** The commands that are about the display *)
Definition display_of (cmd : GpuCommand) : option display_command :=
  match cmd with
  | GpuProtocol.SetScanout req =>
      Some (SetScanout (set_scanout_scanout_id req) (set_scanout_resource_id req)
        (rectangle_from (set_scanout_r req)))
  | ResourceCreate2d req =>
      Some (CreateResource (resource_create_2d_resource_id req)
        (MkResourceCreate3D RUTABAGA_PIPE_TEXTURE_2D (resource_create_2d_format req)
          RUTABAGA_PIPE_BIND_RENDER_TARGET (resource_create_2d_width req)
          (resource_create_2d_height req) 1 1 0 0 0))
  | ResourceCreate3d req =>
      Some (CreateResource (resource_create_3d_resource_id req)
        (MkResourceCreate3D (resource_create_3d_target req) (resource_create_3d_format req)
          (resource_create_3d_bind req) (resource_create_3d_width req) (resource_create_3d_height req)
          (resource_create_3d_depth req) (resource_create_3d_array_size req)
          (resource_create_3d_last_level req) (resource_create_3d_nr_samples req)
          (resource_create_3d_flags req)))
  | ResourceUnref req => Some (UnrefResource (resource_unref_resource_id req))
  | ResourceFlush req =>
      Some (FlushResource (resource_flush_resource_id req) (rectangle_from (resource_flush_r req)))
  | _ => None
  end.

(** A command is a method of the display, or another one, or has no effect. *)
Lemma process_display mem hdr cmd g c :
  display_of cmd = Some c →
  process_gpu_command mem hdr cmd g = run_display (GB:=GB) checks c (force_ctx_0 g).
Proof. destruct cmd; intros [= <-]; reflexivity. Qed.

Lemma process_other mem hdr cmd g :
  display_of cmd = None →
  (∃ m, other_method checks m ∧ process_gpu_command mem hdr cmd g = m (force_ctx_0 g)) ∨
  ∃ o, process_gpu_command mem hdr cmd g = (o, force_ctx_0 g).
Proof.
  assert (∀ m : GpuM G, other_method checks m →
    (∃ m', other_method checks m' ∧ m (force_ctx_0 g) = m' (force_ctx_0 g)) ∨
    ∃ o, m (force_ctx_0 g) = (o, force_ctx_0 g)) as Hother by eauto.
  intros Hcmd. unfold process_gpu_command. erewrite bind_Ret by done.
  destruct cmd; try discriminate Hcmd; try (right; eexists; reflexivity);
    try (apply Hother; constructor; fail).
  unfold bind, lift. destruct (rutabaga_iovecs_from_guest_mem vecs mem) as [iovecs|e| |];
    [apply Hother; constructor|right; by eexists..].
Qed.

(** ** One command *)

(** What the worker and the renderer do to the GPU besides its methods: another context is
    current, there is another fence, or the renderer is polled. *)
Inductive rendered : RG → RG → Prop :=
| rendered_ctx_0 rg : rendered rg (rg_force_ctx_0 rg)
| rendered_fence f rg : rendered rg (rg_create_fence f rg).2
| rendered_poll rg : rendered rg (rg_event_poll rg).

Definition stays g g' : Prop :=
  same_tables g g' ∧ g_gpu_backend g' = g_gpu_backend g ∧ rtc rendered (g_rutabaga g) (g_rutabaga g').

#[export] Instance stays_preorder : PreOrder stays.
Proof.
  split; [by repeat split|]. intros g1 g2 g3 (Hs & Hb & Hr) (Hs' & Hb' & Hr').
  split; [by eapply same_tables_trans|]. split; [congruence|by etransitivity].
Qed.

Lemma stays_force g : stays g (force_ctx_0 g).
Proof. split; [done|]. split; [done|]. apply rtc_once, rendered_ctx_0. Qed.

Lemma stays_poll g : stays g (event_poll g).
Proof. split; [done|]. split; [done|]. apply rtc_once, rendered_poll. Qed.

Lemma stays_sent g g' : stays g g' → sent g' = sent g.
Proof. intros (_ & Hb & _). unfold sent. by rewrite Hb. Qed.

Lemma stays_abs g g' : stays g g' → abs g' = abs g.
Proof. intros [Hs _]. by apply abs_same. Qed.

(** What was done for a command: the method of the GPU was called, or nothing was. The
    event holds the answer of the method and what the method sent. *)
Inductive called : display_event → G → G → Prop :=
| called_display d o ms g g0 g1 g' :
    stays g g0 → valid_display d → run_display checks d g0 = (o, g1) → answers o →
    sent g1 = sent g ++ ms → stays g1 g' → called (Some d, o, ms) g g'
| called_other m o ms g g0 g1 g' :
    stays g g0 → other_method checks m → m g0 = (o, g1) →
    sent g1 = sent g ++ ms → stays g1 g' → called (None, o, ms) g g'
| called_nothing o g g' : stays g g' → called (None, o, []) g g'.

(** Messages are only ever added. *)
Definition grows_from g0 g : Prop := ∃ ms, sent g = sent g0 ++ ms.

Lemma grows_same g0 g g' : sent g' = sent g → grows_from g0 g → grows_from g0 g'.
Proof. intros Hs [ms Hms]. exists ms. by rewrite Hs. Qed.

Lemma grows_call {A} g0 (m : M RG RutabagaError A) : preserves (grows_from g0) (call m).
Proof. intros g. apply grows_same, call_sent. Qed.

Lemma grows_modify {E} g0 f : (∀ g, sent (f g) = sent g) → preserves (E:=E) (grows_from g0) (modify f).
Proof. intros Hf. apply preserves_modify. intros g. by apply grows_same. Qed.

Lemma grows_send g0 m : preserves (grows_from g0) (send m).
Proof.
  intros g [ms Hms]. destruct (send_cases m g) as [(g' & -> & _ & Hm)|(g' & -> & _ & Hm)]; simpl.
  - exists (ms ++ [m]). unfold sent in *. by rewrite Hm, Hms, app_assoc.
  - exists ms. unfold sent in *. by rewrite Hm.
Qed.

Lemma grows_get_resource g0 rid : preserves (grows_from g0) (get_resource rid).
Proof. intros g Hg. unfold get_resource, bind, gets, lift. by destruct (ok_or _ _). Qed.

Lemma grows_read g0 r n : preserves (grows_from g0) (read_2d_resource checks r n).
Proof.
  intros g [ms Hms]. destruct (quiet_read checks g r n g) as [_ (ms' & _ & Hm)].
  { split; [done|]. exists []. by rewrite app_nil_r. }
  exists (ms ++ ms'). by rewrite Hm, Hms, app_assoc.
Qed.

Lemma grows_display g0 d : preserves (grows_from g0) (run_display checks d).
Proof.
  assert (∀ r sid, preserves (grows_from g0) (flush_scanout checks r sid)) as Hflush.
  { intros r sid. unfold flush_scanout. apply preserves_bind; [apply preserves_lift|intros size].
    apply preserves_bind; [apply preserves_attempt, grows_read|intros [e|data]];
      [apply preserves_ret|apply grows_send]. }
  destruct d; simpl;
    unfold gpu_set_scanout, gpu_resource_create_3d, gpu_unref_resource, gpu_flush_resource, detach_scanout;
    repeat first
      [ apply grows_call | apply grows_send | apply grows_get_resource | by apply grows_modify
      | apply preserves_ret | apply preserves_fail | apply preserves_gets | apply preserves_lift
      | apply preserves_assert | apply preserves_for_each, Hflush | apply preserves_bind
      | case_match | match goal with |- ∀ _, _ => intros ? end ].
Qed.

Lemma process_called mem hdr cmd g o g' :
  valid_command cmd → process_gpu_command mem hdr cmd g = (o, g') → answers o →
  ∃ ms, called (display_of cmd, o, ms) g g'.
Proof.
  intros Hvalid Hrun Hans. pose proof (stays_force g) as Hf.
  destruct (display_of cmd) as [d|] eqn:Hcmd.
  - rewrite (process_display _ _ _ _ _ Hcmd) in Hrun.
    destruct (grows_display g d (force_ctx_0 g)) as [ms Hms]; [exists []; by rewrite app_nil_r|].
    rewrite Hrun in Hms. exists ms. eapply called_display; [done| |done..].
    destruct cmd; try discriminate Hcmd; injection Hcmd as <-; simpl; try done. apply Hvalid.
  - destruct (process_other mem hdr cmd g Hcmd) as [(m & Hm & Heq)|[o' Heq]]; rewrite Heq in Hrun.
    + destruct (quiet_other checks g m Hm (force_ctx_0 g)) as [_ (ms & _ & Hms)].
      { split; [done|]. exists []. by rewrite app_nil_r. }
      rewrite Hrun in Hms. exists ms. by eapply called_other.
    + simplify_eq. exists []. by apply called_nothing.
Qed.

(** What was called takes the screen along, or is a command that mishaps there. *)
Definition mishaps (e : display_event) (a : screen) : Prop :=
  ∃ d, e.1.1 = Some d ∧ mishap d e.1.2 a.

Lemma mishap_em c o a : mishap c o a ∨ ¬ mishap c o a.
Proof.
  destruct c as [sid rid rect|rid create|rid|rid rect]; simpl.
  - destruct (decide (rid ≠ 0)) as [Hz|]; [|right; naive_solver].
    destruct (decide (sn_resources a !! rid = None)); [|right; naive_solver].
    destruct (sn_shown a !! Z.to_nat sid) as [[old|]|]; [left; eauto|right; naive_solver..].
  - destruct o as [resp|e| |]; [|right; naive_solver..].
    destruct (decide (is_Some (sn_resources a !! rid))); [left; eauto|right; naive_solver].
  - destruct (decide (is_Some (sn_resources a !! rid) ∧ shown_on rid a ≠ [])); tauto.
  - right. tauto.
Qed.

Lemma called_shows e g g' :
  called e g g' → display_ok g →
  (display_ok g' ∧ screen_step e (abs g) (abs g')) ∨ mishaps e (abs g).
Proof.
  intros Hcall Hok.
  destruct Hcall as [d o ms g g0 g1 g' Hs0 Hd Hrun Hans Hms Hs1|m o ms g g0 g1 g' Hs0 Hm Hrun Hms Hs1|o g g' Hs].
  - pose proof (display_ok_same _ _ (proj1 Hs0) Hok) as Hok0.
    destruct (mishap_em d o (abs g0)) as [Hmis|Hno].
    { right. exists d. split; [done|]. by rewrite <-(stays_abs _ _ Hs0). }
    left. destruct (run_display_refined checks d g0 o g1 Hok0 Hd Hrun Hans Hno) as (Hok1 & ms' & Hms' & Hstep).
    rewrite Hms, (stays_sent _ _ Hs0) in Hms'. apply app_inv_head in Hms' as ->.
    split; [by apply (display_ok_same _ _ (proj1 Hs1))|]. by rewrite (stays_abs _ _ Hs1), <-(stays_abs _ _ Hs0).
  - pose proof (display_ok_same _ _ (proj1 Hs0) Hok) as Hok0. left.
    destruct (other_refined checks m g0 o g1 Hok0 Hm Hrun) as (Hok1 & ms' & Hms' & Hstep).
    rewrite Hms, (stays_sent _ _ Hs0) in Hms'. apply app_inv_head in Hms' as ->.
    split; [by apply (display_ok_same _ _ (proj1 Hs1))|]. by rewrite (stays_abs _ _ Hs1), <-(stays_abs _ _ Hs0).
  - left. split; [by apply (display_ok_same _ _ (proj1 Hs))|]. rewrite (stays_abs _ _ Hs). by apply sn_other.
Qed.

(** *** Several commands *)

(** What was done for the commands, one after the other *)
Definition performed (es : list display_event) g g' : Prop :=
  ∃ g1, runs called es g g1 ∧ stays g1 g'.

Lemma called_stays e g g0 g' : stays g g0 → called e g0 g' → called e g g'.
Proof.
  intros Hs Hcall. destruct Hcall as [d o ms g0 g1 g2 g' Hs0 Hd Hrun Hans Hms Hs1
    |m o ms g0 g1 g2 g' Hs0 Hm Hrun Hms Hs1|o g0 g' Hs0].
  - eapply called_display; [by etransitivity|done..| |done]. by rewrite <-(stays_sent _ _ Hs).
  - eapply called_other; [by etransitivity|done..| |done]. by rewrite <-(stays_sent _ _ Hs).
  - apply called_nothing. by etransitivity.
Qed.

Lemma performed_stays es g g0 g' : stays g g0 → performed es g0 g' → performed es g g'.
Proof.
  intros Hs (g1 & Hruns & Hs1). destruct Hruns as [g0|e es g0 g2 g1 Hcall Hruns].
  - exists g. split; [apply runs_nil|]. by etransitivity.
  - exists g1. split; [|done]. eapply runs_cons; [by eapply called_stays|done].
Qed.

Lemma performed_nil g g' : stays g g' → performed [] g g'.
Proof. intros Hs. exists g. split; [apply runs_nil|done]. Qed.

Lemma performed_cons e es g g1 g' : called e g g1 → performed es g1 g' → performed (e :: es) g g'.
Proof. intros Hcall (g2 & Hruns & Hs). exists g2. split; [|done]. by eapply runs_cons. Qed.

Lemma performed_app es es' g g1 g' : performed es g g1 → performed es' g1 g' → performed (es ++ es') g g'.
Proof.
  intros (g2 & Hruns & Hs) Hperf. destruct (performed_stays _ _ _ _ Hs Hperf) as (g3 & Hruns' & Hs').
  exists g3. split; [|done]. by eapply runs_app.
Qed.

Lemma called_sent e g g' : called e g g' → sent g' = sent g ++ e.2.
Proof.
  intros Hcall. destruct Hcall as [d o ms g g0 g1 g' _ _ _ _ Hms Hs|m o ms g g0 g1 g' _ _ _ Hms Hs|o g g' Hs];
    rewrite (stays_sent _ _ Hs); [done..|]. by rewrite app_nil_r.
Qed.

(** The messages of the calls are all that is sent. *)
Lemma performed_sent es g g' : performed es g g' → sent g' = sent g ++ concat es.*2.
Proof.
  intros (g1 & Hruns & Hs). rewrite (stays_sent _ _ Hs). clear Hs.
  induction Hruns as [g|e es g g2 g1 Hcall _ IH]; simpl; [by rewrite app_nil_r|].
  by rewrite IH, (called_sent _ _ _ Hcall), <-app_assoc.
Qed.

(** The screen goes along with what was done. *)
Definition follows (es : list display_event) g g' : Prop :=
  performed es g g' ∧ display_ok g' ∧ runs screen_step es (abs g) (abs g').

(** It does so up to a command that, when it was carried out, mishapped on the screen
    that the GPU had at that moment; what was done afterwards is what is left. *)
Definition strays (es : list display_event) g g' : Prop :=
  ∃ es1 e es2 g1 g2, es = es1 ++ e :: es2 ∧
    follows es1 g g1 ∧ called e g1 g2 ∧ mishaps e (abs g1) ∧ performed es2 g2 g'.

Lemma runs_called_shown es g g' :
  runs called es g g' → display_ok g → follows es g g' ∨ strays es g g'.
Proof.
  induction 1 as [g|e es g g1 g' Hcall Hruns IH]; intros Hok.
  { left. split; [by apply performed_nil|]. split; [done|apply runs_nil]. }
  destruct (called_shows _ _ _ Hcall Hok) as [[Hok1 Hstep]|Hmis].
  2: { right. exists [], e, es, g, g1. split; [done|]. split; [|split; [done|]].
       - split; [by apply performed_nil|]. split; [done|apply runs_nil].
       - split; [done|]. by exists g'. }
  destruct (IH Hok1) as [(Hperf & Hok' & Hshown)|(es1 & e' & es2 & g2 & g3 & -> & (Hperf & Hok' & Hshown) & Hrest)].
  - left. split; [by eapply performed_cons|]. split; [done|]. by eapply runs_cons.
  - right. exists (e :: es1), e', es2, g2, g3. split; [done|]. split; [|done].
    split; [by eapply performed_cons|]. split; [done|]. by eapply runs_cons.
Qed.

Lemma performed_shown es g g' : performed es g g' → display_ok g → follows es g g' ∨ strays es g g'.
Proof.
  intros (g1 & Hruns & Hs) Hok.
  destruct (runs_called_shown _ _ _ Hruns Hok) as [(_ & Hok1 & Hshown)|(es1 & e & es2 & g2 & g3 & -> & Hfol & Hcall & Hmis & Hperf)].
  - left. split; [by exists g1|]. split; [by apply (display_ok_same _ _ (proj1 Hs))|].
    by rewrite (stays_abs _ _ Hs).
  - right. exists es1, e, es2, g2, g3. split; [done|]. split; [done|]. split; [done|]. split; [done|].
    rewrite <-(app_nil_r es2). eapply performed_app; [done|]. by apply performed_nil.
Qed.

(** ** What the driver asks for *)

Context {Q Chain R Wr : Type} `{QueueProcLaws Q Mem Chain} `{ReaderLaws R} `{WriterLaws Wr}
  `{!ChainStreams Mem Chain R Wr} `{!ChainStreamsLaws Q Mem Chain R Wr} `{GpuCmdNumbers}
  `{GpuRespNumbers}.
Local Notation QE := (QueueEnv G Q Mem).
Implicit Types s : QE.

Definition request : Type := outcome GpuCommandDecodeError (virtio_gpu_ctrl_hdr * GpuCommand).

(** The command about the display in what a chain holds; [None] if there is none, or if
    the bytes of the chain are no command. *)
Definition display_in (r : request) : option display_command :=
  match r with Ret (_, cmd) => display_of cmd | _ => None end.

(** The driver leaves its requests alone while the device works on them: queue and memory
    are [intact] as long as the chains hold what [asks] says, and the device's writes, which
    go to the parts of the chains that are for them and to the used ring, do not touch
    that. *)
Record requests_stay (chains : list Chain) (asks : Chain → request) (intact : Q → Mem → Prop) : Prop := {
  stay_read c q m (r : R) : c ∈ chains → intact q m → chain_reader m c = Ret r → (decode r).1 = asks c;
  stay_pop q m : intact q m → intact (q_pop_descriptor_chain m q).2 m;
  stay_write c q m (w : Wr) q' m' resp flags fence_id ctx_id ring_idx :
    c ∈ chains → intact q m → chain_writer m c = Ret w → intact q' m' →
    intact q' (chain_commit (encode resp flags fence_id ctx_id ring_idx w).2 m');
  stay_used head len q m : intact q m →
    let '(q', m') := (q_add_used head len (q, m)).2 in intact q' m';
  stay_disable q m : intact q m →
    let '(q', m') := (q_disable_notification (q, m)).2 in intact q' m';
  stay_enable q m : intact q m →
    let '(q', m') := (q_enable_notification (q, m)).2 in intact q' m';
}.

(** ** One chain *)

(** The command of a chain that is executed. *)
Definition obeyed (c : option display_command) g g' : Prop :=
  ∃ o ms, called (c, o, ms) g g'.

Lemma execute_obeyed (reader : R) s o s1 :
  execute reader s = (o, s1) → o ≠ Panic → o ≠ NoFuel →
  qe_queue s1 = qe_queue s ∧ qe_mem s1 = qe_mem s ∧
    obeyed (display_in (decode reader).1) (qe_gpu s) (qe_gpu s1).
Proof.
  intros Hrun Hp Hf. unfold execute in Hrun.
  assert (∀ hdr cmd, (decode reader).1 = Ret (hdr, cmd) → valid_command cmd) as Hvalid.
  { intros hdr cmd Hd. destruct (decode_cases reader) as [(hdr' & cmd' & Hd' & Hv)|[e Hd']];
      rewrite Hd in Hd'; by simplify_eq. }
  destruct (decode_result reader) as [(hdr & cmd & Hd)|[e Hd]]; rewrite Hd in *; simpl.
  2: { unfold ret in Hrun. simplify_eq. split; [done|]. split; [done|]. exists (Fail ErrUnspec), []. by apply called_nothing. }
  erewrite bind_Ret in Hrun by done. unfold bind, attempt, on_gpu, zoom in Hrun.
  destruct (process_gpu_command (qe_mem s) hdr cmd (qe_gpu s)) as [oc g1] eqn:Hcmd.
  assert (answers oc ∧ s1 = MkQueueEnv g1 (qe_queue s) (qe_mem s)) as [Hans ->]
    by (split; [split|]; destruct oc; unfold ret in Hrun; by simplify_eq).
  split; [done|]. split; [done|]. exists oc. exact (process_called _ _ _ _ _ _ (Hvalid _ _ eq_refl) Hcmd Hans).
Qed.

(** Once its command is executed, nothing in the processing of a chain takes chains or
    changes the screen. *)
Definition at_rest (intact : Q → Mem → Prop) (avail : list Chain) g s : Prop :=
  avail_of s = avail ∧ stays g (qe_gpu s) ∧ intact (qe_queue s) (qe_mem s).

Lemma rest_gpu {E A} intact avail g (m : M G E A) :
  (∀ g', preserves (stays g') m) → preserves (at_rest intact avail g) (on_gpu m).
Proof.
  intros Hm s (Ha & Hg & Hi). unfold on_gpu, zoom. pose proof (Hm g (qe_gpu s) Hg) as Hg'.
  by destruct (m (qe_gpu s)) as [o g'].
Qed.

Lemma rest_create_fence intact avail g fence :
  preserves (at_rest intact avail g) (on_gpu (create_fence fence)).
Proof.
  apply rest_gpu. intros g0. simpl. apply preserves_bind; [|intros; apply preserves_ret].
  apply preserves_map_err. intros g' Hg'. etransitivity; [exact Hg'|].
  pose proof (rtc_once _ _ (rendered_fence fence (g_rutabaga g'))) as Hr.
  unfold on_rutabaga, zoom. by destruct (rg_create_fence fence (g_rutabaga g')).
Qed.

Lemma rest_process_fence intact avail g ring fence_id head len :
  preserves (at_rest intact avail g)
    (on_gpu (gpu_process_fence (E:=device_error) ring fence_id head len)).
Proof.
  apply rest_gpu. intros g0 g' Hg. simpl. unfold on_fence_state, zoom.
  by destruct (process_fence ring fence_id head len (g_fence_state g')).
Qed.

Lemma rest_make_fence intact avail g hdr resp :
  preserves (at_rest intact avail g) (make_fence hdr resp).
Proof.
  unfold make_fence. destruct hdr; [|apply preserves_ret]. apply preserves_if; [|apply preserves_ret].
  apply preserves_bind; [apply preserves_attempt, rest_create_fence|intros; apply preserves_ret].
Qed.

Lemma rest_write_response intact avail g resp flags fence_id ctx_id ring_idx (writer : Wr) :
  (∀ resp flags fence_id ctx_id ring_idx q m, intact q m →
    intact q (chain_commit (encode resp flags fence_id ctx_id ring_idx writer).2 m)) →
  preserves (at_rest intact avail g) (write_response resp flags fence_id ctx_id ring_idx writer).
Proof.
  intros Hsafe s (Ha & Hg & Hi). unfold write_response.
  specialize (Hsafe resp flags fence_id ctx_id ring_idx (qe_queue s) (qe_mem s) Hi).
  destruct (encode resp flags fence_id ctx_id ring_idx writer) as [o w]. simpl in *.
  split; [|done]. unfold avail_of in *. simpl.
  by destruct (chain_commit_views w (qe_queue s) (qe_mem s)) as [-> _].
Qed.

Lemma rest_add_used intact avail g head len :
  (∀ q m, intact q m → let '(q', m') := (q_add_used head len (q, m)).2 in intact q' m') →
  preserves (at_rest intact avail g) (queue_add_used head len).
Proof.
  intros Hsafe s (Ha & Hg & Hi). unfold queue_add_used, map_err, on_queue_mem, zoom.
  specialize (Hsafe (qe_queue s) (qe_mem s) Hi). unfold avail_of in *.
  destruct (q_add_used_result head len (qe_queue s, qe_mem s)) as [[[q m] Hr]|(e & [q m] & Hr)];
    rewrite Hr in *; simpl in *; split; try done; unfold avail_of; simpl.
  - by destruct (q_add_used_ok _ _ _ _ _ _ Hr) as [_ ->].
  - by destruct (q_add_used_fail _ _ _ _ _ _ _ Hr) as [_ ->].
Qed.

Section run.
Context (chains : list Chain) (asks : Chain → request) (intact : Q → Mem → Prop).
Context (Hstay : requests_stay chains asks intact).

Lemma chain_obeyed c (reader : R) (writer : Wr) s o s1 :
  c ∈ chains → intact (qe_queue s) (qe_mem s) → chain_reader (qe_mem s) c = Ret reader →
  chain_writer (qe_mem s) c = Ret writer →
  process_queue_chain (chain_head_index c) reader writer s = (o, s1) → o ≠ Panic → o ≠ NoFuel →
  avail_of s1 = avail_of s ∧ intact (qe_queue s1) (qe_mem s1) ∧
    ∃ g1, obeyed (display_in (asks c)) (qe_gpu s) g1 ∧ stays g1 (qe_gpu s1).
Proof.
  intros Hc Hi Hread Hwrite Hrun Hp Hf.
  rewrite <-(stay_read _ _ _ Hstay _ _ _ _ Hc Hi Hread). destruct (execute reader s) as [oe s2] eqn:Hexec.
  assert (oe ≠ Panic ∧ oe ≠ NoFuel) as [Hpe Hfe].
  { unfold process_queue_chain, bind at 1 in Hrun. rewrite Hexec in Hrun. by destruct oe; simplify_eq. }
  destruct (execute_obeyed reader s oe s2 Hexec Hpe Hfe) as (Hq & Hm & Hobeyed).
  assert (at_rest intact (avail_of s) (qe_gpu s2) s1) as (Ha & Hg & Hi1); [|by eauto 6].
  replace s1 with (process_queue_chain (chain_head_index c) reader writer s).2 by (by rewrite Hrun).
  apply (preserves_bind_run (at_rest intact (avail_of s) (qe_gpu s2)) (execute reader) _ s).
  - rewrite Hexec. simpl. split; [unfold avail_of; by rewrite Hq, Hm|]. by rewrite Hq, Hm.
  - intros [resp hdr] s3 _ Hrest. refine ((_ : preserves _ _) s3 Hrest).
    pose proof (stay_used _ _ _ Hstay) as Hused.
    pose proof (λ resp f i x y q m, stay_write _ _ _ Hstay c _ _ writer q m resp f i x y Hc Hi Hwrite) as Hsafe.
    repeat first
      [ apply preserves_ret | apply rest_process_fence | apply rest_make_fence
      | apply rest_write_response; intros; by apply Hsafe | apply rest_add_used; intros; by apply Hused
      | apply preserves_bind | case_match | match goal with |- ∀ _, _ => intros ? end ].
Qed.

(** ** A queue *)

Definition asked : list Chain → list (option display_command) := fmap (λ c, display_in (asks c)).

(** The chains in [taken] are obeyed, one after the other. *)
Definition obeyed_all (taken : list Chain) g g' : Prop :=
  ∃ es, es.*1.*1 = asked taken ∧ performed es g g'.

Lemma obeyed_all_nil g : obeyed_all [] g g.
Proof. exists []. split; [done|]. by apply performed_nil. Qed.

Lemma obeyed_all_cons c taken g g1 g2 g3 :
  obeyed (display_in (asks c)) g g1 → stays g1 g2 → obeyed_all taken g2 g3 →
  obeyed_all (c :: taken) g g3.
Proof.
  intros (o & ms & Hcall) Hst (es & Hes & Hperf). exists ((display_in (asks c), o, ms) :: es).
  unfold asked in *. csimpl. split; [by rewrite Hes|]. eapply performed_cons; [done|]. by eapply performed_stays.
Qed.

Lemma obeyed_all_app taken taken' g g1 g2 :
  obeyed_all taken g g1 → obeyed_all taken' g1 g2 → obeyed_all (taken ++ taken') g g2.
Proof.
  intros (es & Hes & Hperf) (es' & Hes' & Hperf'). exists (es ++ es').
  unfold asked in *. rewrite !fmap_app, Hes, Hes'. split; [done|]. by eapply performed_app.
Qed.

(** The chains that the run has popped are obeyed, but for one whose processing could not
    start. *)
Definition queue_shown s (o : outcome device_error bool) s1 : Prop :=
  ∃ taken lost, avail_of s = taken ++ lost ++ avail_of s1 ∧ (length lost ≤ 1)%nat ∧
    (∀ b, o = Ret b → lost = []) ∧ obeyed_all taken (qe_gpu s) (qe_gpu s1).

Lemma queue_shown_here s o s1 lost :
  avail_of s = lost ++ avail_of s1 → (length lost ≤ 1)%nat → (∀ b, o = Ret b → lost = []) →
  qe_gpu s1 = qe_gpu s → queue_shown s o s1.
Proof.
  intros Ha Hl Ho Hg. exists [], lost. rewrite Hg. split_and!; try done. apply obeyed_all_nil.
Qed.

Lemma queue_shown_cons c s s1 o s2 :
  avail_of s = c :: avail_of s1 →
  (∃ g1, obeyed (display_in (asks c)) (qe_gpu s) g1 ∧ stays g1 (qe_gpu s1)) →
  queue_shown s1 o s2 → queue_shown s o s2.
Proof.
  intros Ha Hc (taken & lost & Ha1 & Hl & Hlost & Hall). exists (c :: taken), lost.
  split; [by rewrite Ha, Ha1|]. split; [done|]. split; [done|].
  destruct Hc as (g1 & Hob & Hst). by apply (obeyed_all_cons c taken _ g1 (qe_gpu s1)).
Qed.

Lemma process_chains_shown fuel signalled s o s1 :
  (∀ c, c ∈ avail_of s → c ∈ chains) → intact (qe_queue s) (qe_mem s) →
  process_chains (R:=R) (Wr:=Wr) fuel signalled s = (o, s1) → o ≠ Panic → o ≠ NoFuel →
  queue_shown s o s1 ∧ intact (qe_queue s1) (qe_mem s1).
Proof.
  revert signalled s. induction fuel as [|fuel IH]; intros signalled s Hin Hi Hrun Hp Hf; simpl in Hrun.
  { unfold no_fuel in Hrun. by simplify_eq. }
  unfold bind at 1, pop_descriptor_chain in Hrun. pose proof (stay_pop _ _ _ Hstay _ _ Hi) as Hi0.
  destruct (q_pop_descriptor_chain (qe_mem s) (qe_queue s)) as [[c|] q] eqn:Hpop; simpl in Hi0.
  2: { unfold ret in Hrun. simplify_eq. split; [|done]. destruct (q_pop_None _ _ _ Hpop) as [Ha _].
       apply (queue_shown_here _ _ _ []); try done; simpl; lia. }
  destruct (q_pop_Some _ _ _ _ Hpop) as (Ha & _). fold (avail_of s) in Ha.
  set (s0 := MkQueueEnv (qe_gpu s) q (qe_mem s)) in *.
  erewrite bind_Ret in Hrun by done. cbn [qe_mem s0] in Hrun.
  destruct (chain_reader_result (qe_mem s) c) as [[r Hr]|[e Hr]]; rewrite Hr in Hrun.
  2: { erewrite bind_Fail in Hrun by done. simplify_eq. split; [by apply (queue_shown_here _ _ _ [c])|done]. }
  erewrite bind_Ret in Hrun by done.
  destruct (chain_writer_result (qe_mem s) c) as [[w Hw]|[e Hw]]; rewrite Hw in Hrun.
  2: { erewrite bind_Fail in Hrun by done. simplify_eq. split; [by apply (queue_shown_here _ _ _ [c])|done]. }
  erewrite bind_Ret in Hrun by done. unfold bind in Hrun.
  destruct (process_queue_chain (chain_head_index c) r w s0) as [oc s2] eqn:Hchain.
  assert (oc ≠ Panic ∧ oc ≠ NoFuel) as [Hpc Hfc] by (destruct oc; simplify_eq; by split).
  assert (c ∈ chains) as Hc by (apply Hin; rewrite Ha; by left).
  destruct (chain_obeyed c r w s0 oc s2 Hc Hi0 Hr Hw Hchain Hpc Hfc) as (Ha2 & Hi2 & Hob).
  assert (queue_shown s2 o s1 ∧ intact (qe_queue s1) (qe_mem s1)) as [Hshown Hi1].
  { destruct oc as [used|e| |]; [|simplify_eq; split; [|done]; apply (queue_shown_here _ _ _ []); try done; simpl; lia|done..].
    apply (IH _ _) in Hrun; [done| |done..].
    intros c' Hc'. apply Hin. rewrite Ha. right. by rewrite Ha2 in Hc'. }
  split; [|done]. apply (queue_shown_cons c s s2 o s1); [by rewrite Ha2|done|done].
Qed.
End run.

(** What a driver queues is what the screens show. When the worker has gone over a
    queue and its thread has not panicked, the methods of the GPU that it called are those
    for the commands that the chains it has taken ask for, in the order of the chains;
    with their answers and messages they have taken the display from screen to screen,
    unless one of them, when it was called, mishapped on the screen of that moment. No chain is left out but
    one that could not be read, which ends the run with an error, and chains that ask for
    something else, or hold no command, leave the screens alone. *)
Theorem queue_displays chains asks intact fuel s o s1 :
  requests_stay chains asks intact →
  (∀ c, c ∈ avail_of s → c ∈ chains) → intact (qe_queue s) (qe_mem s) → display_ok (qe_gpu s) →
  (length (avail_of s) < fuel)%nat →
  process_queue (R:=R) (Wr:=Wr) fuel s = (o, s1) → o ≠ Panic →
  ∃ taken lost, avail_of s = taken ++ lost ++ avail_of s1 ∧ (length lost ≤ 1)%nat ∧
    (∀ b, o = Ret b → lost = []) ∧
    ∃ es, es.*1.*1 = asked asks taken ∧
      (follows es (qe_gpu s) (qe_gpu s1) ∨ strays es (qe_gpu s) (qe_gpu s1)).
Proof.
  intros Hstay Hin Hi Hok Hfuel Hrun Hp.
  destruct (process_chains_shown chains asks intact Hstay fuel false s o s1 Hin Hi Hrun Hp)
    as [(taken & lost & Ha & Hl & Hlost & es & Hes & Hperf) _]; [|by eauto 12 using performed_shown].
  destruct (process_chains_outcome (R:=R) (Wr:=Wr) fuel false s Hfuel) as (rs & lost & _ & _ & _ & Ho).
  unfold process_queue in Hrun. rewrite Hrun in Ho. by destruct o.
Qed.
End screen.

(** ** A queue of display commands *)
Module GpuScreenExamples.
Import SimQueue ProtocolExamples ResponseExamples GpuExamples WorkerExamples.

(** Resource 9 is created, shown on scanout 2 and flushed; its identifier is fenced. *)
Definition area : virtio_gpu_rect := Mk_virtio_gpu_rect 0 0 2 1.
Definition show_9 : GpuCommand := GpuProtocol.SetScanout (Mk_virtio_gpu_set_scanout area 2 9).
Definition flush_9 : GpuCommand := ResourceFlush (Mk_virtio_gpu_resource_flush area 9 0).

Definition display_chains : list chain :=
  [chain_of 4 (header RESOURCE_CREATE_2D 1 5) create; chain_of 5 (header SET_SCANOUT 0 0) show_9;
   Chain 6 [1; 2; 3] 24; chain_of 7 (header RESOURCE_FLUSH 0 0) flush_9].
Definition display_env : QueueEnv G queue mem :=
  MkQueueEnv gpu0 (queue_of display_chains) (Mem [] None []).
Definition asks_of (c : chain) : request := (decode (mk_reader (c_readable c))).1.

Lemma queue_displays_witness :
  (let run := process_queue (R:=reader) (Wr:=writer) 5 display_env in
   run.1 = Ret true ∧
   sent (qe_gpu run.2) = [GpuSetScanout 2 2 1; GpuUpdateScanout 2 0 0 2 1 (replicate 8 0)] ∧
   abs (qe_gpu run.2) = show 2 (Some 9) (add_resource 9 2 1 screen_init)) ∧
  (let run := process_queue (R:=reader) (Wr:=writer) 5 display_env in
   ∃ taken lost, avail_of display_env = taken ++ lost ++ avail_of run.2 ∧ (length lost ≤ 1)%nat ∧
     (∀ b, run.1 = Ret b → lost = []) ∧
     ∃ es, es.*1.*1 = asked asks_of taken ∧
       (follows true es (qe_gpu display_env) (qe_gpu run.2) ∨
        strays true es (qe_gpu display_env) (qe_gpu run.2))).
Proof.
  split; [vm_compute; auto|].
  apply (queue_displays (R:=reader) (Wr:=writer) true display_chains asks_of (λ _ _, True) 5).
  - split; try done.
    + intros c q m r _ _ [= <-]. reflexivity.
    + intros head len q m _. by destruct (q_add_used head len (q, m)).2.
  - by intros c.
  - done.
  - apply display_ok_new.
  - apply Nat.ltb_lt. vm_compute. reflexivity.
  - apply surjective_pairing.
  - vm_compute. discriminate.
Defined.
End GpuScreenExamples.
