(* ===== verification/GpuSystem.v ===== *)
(** * The handler and the threads of the GPU, together

    The front-end's requests run on one thread, the worker of the GPU on another, and the
    callback of rutabaga may run on a third. They share the rings, guest memory and the
    fences. A step of the system is a request, or a section of one of the other threads
    that holds a lock: registering with a ring, reading its kick, the processing of its
    queue, the callback for a completed fence. Each of them is what the specification
    calls a step of the device, so that runs of the system are runs of the
    specification. *)

From S2P Require Import Prelude EventToken Epoll EventManager VirtQueue Bitmap Vring VhostBackend VhostHandler.
From S2P Require Import SessionSpec SessionRefinement Codec GpuProtocol GpuResponse GpuFence VirtioGpu.
From S2P Require Import DeviceRings RutabagaGpu GpuWorker.

Section system.
Context {D Mem Q W B Sock Region Mmap File Chain R Wr RG GB : Type}.
Context `{EpollLaws W} `{EventSetBits} `{!EventFdOps W, !EventFdLaws W}
  `{!QueueConfig Q Mem, !QueueConfigLaws Q Mem}
  `{VhostUserBits} `{!VhostUserDevice D Mem (Vring Q) Sock} `{!BitmapReplace B}
  `{!GuestMemory Mem Region Mmap File}.
Context `{Rutabaga RG} `{GpuBackend GB} `{RutabagaConsts} `{GuestSlices Mem}
  `{!QueueProc Q Mem Chain, !QueueProcSetup Q Mem Chain} `{ReaderOps R} `{WriterOps Wr}
  `{ChainStreams Mem Chain R Wr} `{GpuCmdNumbers} `{GpuRespNumbers}.
Context (checks : bool).

Local Notation HD := (VhostUserHandler D Mem Q W B).
Local Notation G := (RutabagaVirtioGpu RG GB).

Record Sys : Type := MkSys { sys_gpu : G; sys_handler : HD }.
Implicit Types (h : HD) (v : Vring Q).

Definition sys_mem (s : Sys) : Mem := gm_mem (h_atomic_mem (sys_handler s)).

(** What the worker and the callback run on *)
Definition on_worker {E A} : M (WorkerEnv G HD Mem) E A → M Sys E A :=
  zoom (λ s, MkWorkerEnv (sys_gpu s) (sys_handler s) (sys_mem s))
    (λ w _, MkSys (we_gpu w) (set_guest_mem (we_mem w) (we_device w))).

Definition on_callback {E A} : M (FenceEnv HD Mem) E A → M Sys E A :=
  zoom (λ s, MkFenceEnv (g_fence_state (sys_gpu s)) (sys_handler s) (sys_mem s))
    (λ f s, MkSys (on_fence_state (E:=E) (put (fe_fences f)) (sys_gpu s)).2
      (set_guest_mem (fe_mem f) (fe_device f))).

Definition control_queue : DeviceQueue HD Q := handler_queue CONTROL_QUEUE.

(** A step of the system, labelled with the request it is, and its answer. The worker serves both queues;
    fences are reported for the control queue. *)
Inductive sys_step : option (exchange (Sock:=Sock) (File:=File)) → Sys → Sys → Prop :=
| sys_request r s :
    is_answer (reply_to checks r (sys_handler s)).1 →
    sys_step (Some (r, (reply_to checks r (sys_handler s)).1)) s
      (MkSys (sys_gpu s) (reply_to checks r (sys_handler s)).2)
| sys_register i epoll token s :
    sys_step None s (on_worker (on_device (dq_kick_register (DeviceQueue:=handler_queue i) epoll token)) s).2
| sys_read_kick i s :
    sys_step None s (on_worker (on_device (dq_read_kick (DeviceQueue:=handler_queue i))) s).2
| sys_process i fuel s :
    sys_step None s (on_worker (process_if_locked (H:=rutabaga_virtio_gpu checks) (R:=R) (Wr:=Wr)
      (DQ:=handler_queue i) fuel) s).2
| sys_poll s :
    sys_step None s (MkSys (event_poll (VirtioGpu:=rutabaga_virtio_gpu checks) (sys_gpu s)) (sys_handler s))
| sys_fence fuel completed_fence s :
    sys_step None s (on_callback (fence_handler (H:=control_queue) fuel completed_fence) s).2
| sys_guest mem s : sys_step None s (MkSys (sys_gpu s) (set_guest_mem mem (sys_handler s))).

(** ** The threads as steps of the device *)

Local Notation device_step := (device_step (D:=D) (Mem:=Mem) (Q:=Q) (W:=W) (B:=B)).

(** *** The worker with the lock of a queue *)

Local Notation QE := (QueueEnv G Q Mem).
Local Notation WE := (WorkerEnv G HD Mem).

(** The queue that is processed is the one that was locked, moved on. *)
Definition moved (q : Q) (s : QE) : Prop := q_same_setup q (qe_queue s).

Lemma moved_on_queue {E A} q (m : M (Q * Mem) E A) :
  (∀ s, q_same_setup s.1 (m s).2.1) → preserves (moved q) (on_queue_mem (G:=G) m).
Proof.
  intros Hm. apply (preserves_zoom _ (λ qm, q_same_setup q qm.1)); [done|done|].
  intros s Hs. by eapply same_setup_trans.
Qed.

#[local] Hint Resolve moved_on_queue q_disable_notification_setup q_enable_notification_setup : preserves.

Lemma moved_process_queue q fuel :
  preserves (moved q) (process_queue (H:=rutabaga_virtio_gpu checks) (R:=R) (Wr:=Wr) fuel).
Proof.
  apply invariant_process_queue; [done| | |done]; intros *; intros Hs; unfold moved; simpl;
    (eapply same_setup_trans; [exact Hs|]); [apply q_pop_setup|].
  apply (q_add_used_setup _ _ (qe_queue s, qe_mem s)).
Qed.

(** While the lock of ring [i] is held, the rest of the system makes steps of the device. *)
Definition locked_ok (i : nat) h (s : WE * Q) : Prop :=
  holds i h s.2 ∧ device_step h (we_device s.1).

Lemma locked_on_locked {E A} i h (m : M QE E A) :
  (∀ q, preserves (moved q) m) → preserves (locked_ok i h) (on_locked m).
Proof.
  intros Hm [w q] [Hq Hstep]. unfold on_locked, zoom. simpl.
  specialize (Hm q (MkQueueEnv (we_gpu w) q (we_mem w)) (same_setup_refl q)).
  destruct (m _) as [o s']. split; [|done]. simpl in *. unfold moved in Hm.
  destruct Hq as (v & Hv & Hrun & Hs). exists v. split; [done|]. split; [done|].
  by eapply same_setup_trans.
Qed.

Lemma locked_signal {E} i h :
  preserves (locked_ok i h) (unwrap (E':=E) (zoom fst (λ e s, (e, s.2))
    (on_device (dq_signal_used_queue (DeviceQueue:=handler_queue i))))).
Proof.
  apply preserves_unwrap. intros [w q] [Hq Hstep]. simpl in *. unfold zoom, on_device, zoom. simpl.
  pose proof (device_step_vring i signal_used_queue (we_device w) signal_device_vring) as Hs.
  destruct (on_vring i signal_used_queue (we_device w)) as [o h']. split; [done|].
  by eapply device_step_trans.
Qed.

(** The section of [process_if_locked] that holds the lock *)
Definition worker_section i fuel (b : bool) : M (WE * Q) worker_error unit :=
  if b then loop fuel (event_idx_turn (H:=rutabaga_virtio_gpu checks) (R:=R) (Wr:=Wr) (DQ:=handler_queue i) fuel)
  else
    do! map_err DeviceError (on_locked (process_queue (H:=rutabaga_virtio_gpu checks) (R:=R) (Wr:=Wr) fuel)) in
    ret tt.

(** What the run over the queue, the notifications of the driver and the signal keep, it
    keeps. *)
Lemma section_invariant i fuel b (J : WE * Q → Prop) :
  preserves J (on_locked (process_queue (H:=rutabaga_virtio_gpu checks) (R:=R) (Wr:=Wr) fuel)) →
  preserves J (on_locked (on_queue_mem q_disable_notification)) →
  preserves J (on_locked (on_queue_mem q_enable_notification)) →
  preserves J (unwrap (E':=worker_error) (zoom fst (λ e s, (e, s.2))
    (on_device (dq_signal_used_queue (DeviceQueue:=handler_queue i))))) →
  preserves J (worker_section i fuel b).
Proof.
  intros Hproc Hdis Hen Hsig. destruct b; simpl.
  - apply preserves_loop. unfold event_idx_turn. apply preserves_bind; [by apply preserves_unwrap|intros _].
    apply preserves_bind; [by apply preserves_map_err|intros notify].
    apply preserves_bind; [apply preserves_if; [done|apply preserves_ret]|intros _].
    apply preserves_bind; [by apply preserves_unwrap|intros more]. apply preserves_ret.
  - apply preserves_bind; [|intros _; apply preserves_ret]. by apply preserves_map_err.
Qed.

Lemma locked_section i h fuel (b : bool) : preserves (locked_ok i h) (worker_section i fuel b).
Proof.
  apply section_invariant; [apply locked_on_locked..|apply locked_signal]; eauto using moved_process_queue with preserves.
Qed.

Lemma lock_ok i (w : WE) q :
  dq_try_lock_queue (DeviceQueue:=handler_queue i) (we_device w) = Some q → locked_ok i (we_device w) (w, q).
Proof. intros Hlock. split; [by apply lock_holds|apply device_step_refl]. Qed.

Lemma process_if_locked_section i fuel (w : WE) q :
  dq_try_lock_queue (DeviceQueue:=handler_queue i) (we_device w) = Some q →
  process_if_locked (H:=rutabaga_virtio_gpu checks) (R:=R) (Wr:=Wr) (DQ:=handler_queue i) fuel w =
    locked (DQ:=handler_queue i) q (worker_section i fuel (q_event_idx_enabled q)) w.
Proof. intros Hlock. unfold process_if_locked. erewrite bind_Ret by done. by rewrite Hlock. Qed.

Lemma process_if_unlocked i fuel (w : WE) :
  dq_try_lock_queue (DeviceQueue:=handler_queue i) (we_device w) = None →
  process_if_locked (H:=rutabaga_virtio_gpu checks) (R:=R) (Wr:=Wr) (DQ:=handler_queue i) fuel w = (Ret tt, w).
Proof. intros Hlock. unfold process_if_locked. erewrite bind_Ret by done. by rewrite Hlock. Qed.

Lemma process_device_step i fuel (w : WE) :
  device_step (we_device w) (we_device (process_if_locked (H:=rutabaga_virtio_gpu checks) (R:=R) (Wr:=Wr)
    (DQ:=handler_queue i) fuel w).2).
Proof.
  destruct (dq_try_lock_queue (DeviceQueue:=handler_queue i) (we_device w)) as [q|] eqn:Hlock.
  2: { rewrite process_if_unlocked by done. apply device_step_refl. }
  rewrite (process_if_locked_section i fuel w q Hlock). unfold locked. pose proof (locked_section i (we_device w) fuel (q_event_idx_enabled q) (w, q)
    (lock_ok i w q Hlock)) as Hok.
  destruct (worker_section _ _ _ (w, q)) as [o s']. destruct Hok as [Hq Hstep]. by apply store_device_step.
Qed.

(** *** The callback for a completed fence *)

Definition callback_ok h (f : FenceEnv HD Mem) : Prop := device_step h (fe_device f).

Lemma callback_answer h d :
  preserves (callback_ok h) (answer_desc (H:=control_queue) d).
Proof.
  intros f Hf. unfold answer_desc, bind at 1, gets.
  destruct (dq_try_lock_queue (fe_device f)) as [q|] eqn:Hlock; [|done].
  apply lock_holds in Hlock. revert f Hf Hlock.
  change (∀ f, callback_ok h f → holds CONTROL_QUEUE (fe_device f) q →
    callback_ok h ((do! unwrap (fence_add_used (H:=control_queue) q (fd_desc_index d) (fd_len d)) in
      unwrap (E':=string) (on_fence_device (dq_signal_used_queue (DeviceQueue:=control_queue)))) f).2).
  intros f Hf Hq. apply preserves_bind_run; unfold unwrap at 1, fence_add_used.
  - pose proof (q_add_used_setup (fd_desc_index d) (fd_len d) (q, fe_mem f)) as Hadd.
    destruct (q_add_used _ _ (q, fe_mem f)) as [o [q' m']]. unfold callback_ok. simpl fe_device.
    eapply device_step_trans; [exact Hf|]. apply store_device_step; [|apply device_step_refl].
    destruct Hq as (v & Hv & Hrun & Hs). exists v. split; [done|]. split; [done|].
    by eapply same_setup_trans.
  - intros [] f1 _ Hf1. unfold callback_ok, unwrap, on_fence_device, zoom.
    pose proof (device_step_vring CONTROL_QUEUE signal_used_queue (fe_device f1) signal_device_vring) as Hs.
    simpl. destruct (on_vring _ signal_used_queue (fe_device f1)) as [o h']. simpl in *.
    by eapply device_step_trans.
Qed.

Lemma callback_fences {E A} h (m : M FenceState E A) : preserves (callback_ok h) (on_fences m).
Proof. intros f Hf. unfold on_fences, zoom. by destruct (m _). Qed.

#[local] Hint Resolve callback_answer callback_fences : preserves.

Lemma callback_loop h fuel ring fence_id i :
  preserves (callback_ok h) (fence_loop (H:=control_queue) fuel ring fence_id i).
Proof.
  revert i. induction fuel as [|fuel IH]; intros i; simpl; [by intros f|].
  apply preserves_bind; [eauto with preserves|intros descs].
  destruct (descs !! i) as [d|]; [|eauto with preserves]. case_decide; eauto with preserves.
Qed.

Lemma fence_device_step fuel fence (f : FenceEnv HD Mem) :
  device_step (fe_device f) (fe_device (fence_handler (H:=control_queue) fuel fence f).2).
Proof.
  pose proof (device_step_refl (fe_device f)) as Hf. revert Hf.
  generalize (fe_device f) at 1 3. intros h. revert f.
  change (preserves (callback_ok h) (fence_handler (H:=control_queue) fuel fence)).
  unfold fence_handler. eauto using callback_loop with preserves.
Qed.

(** ** Runs of the system *)

Lemma sys_simulation l (s s' : Sys) :
  sys_step l s s' → handler_step checks l (sys_handler s) (sys_handler s').
Proof.
  assert (∀ h h' mem, device_step h h' → handler_step (Sock:=Sock) (File:=File) checks None h (set_guest_mem mem h'))
    as Hdev.
  { intros h h' mem Hh. apply handler_device. eapply device_step_trans; [exact Hh|apply device_step_mem]. }
  intros Hstep. destruct Hstep as [r s Ho|i epoll token s|i s|i fuel s|s|fuel fence s|mem s]; simpl.
  - by apply handler_request.
  - unfold on_worker, on_device, zoom. simpl.
    pose proof (device_step_vring i (kick_register_self epoll token) (sys_handler s)
      (register_device_vring epoll token)) as Hs.
    destruct (on_vring _ _ _). by apply Hdev.
  - unfold on_worker, on_device, zoom. simpl.
    pose proof (device_step_vring i read_kick (sys_handler s) read_kick_device_vring) as Hs.
    destruct (on_vring _ _ _). by apply Hdev.
  - unfold on_worker, zoom.
    pose proof (process_device_step i fuel (MkWorkerEnv (sys_gpu s) (sys_handler s) (sys_mem s))) as Hs.
    destruct (process_if_locked _ _). by apply Hdev.
  - apply handler_device, device_step_refl.
  - unfold on_callback, zoom.
    pose proof (fence_device_step fuel fence (MkFenceEnv (g_fence_state (sys_gpu s)) (sys_handler s) (sys_mem s))) as Hs.
    destruct (fence_handler _ _ _). by apply Hdev.
  - apply handler_device, device_step_mem.
Qed.

(** Claim C2. The handler and the threads of the GPU implement the specification of a
    session together: however the front-end's requests, the worker, the callback of the
    renderer and the guest interleave, every run of the system is a run of the
    specification, in which a request has the answer and the effect that it has there, and
    the threads only move the positions of rings that are running. *)
Theorem gpu_system_refines calls device mem env h0 gpu ls (s : Sys) :
  device_calls (Mem:=Mem) (Q:=Q) (Sock:=Sock) calls →
  handler_new (B:=B) (W:=W) device mem env = Ret h0 → runs sys_step ls (MkSys gpu h0) s →
  runs spec_step ls (spec_init (vud_avail_features device) (qa_max_size <$> vud_queues device))
    (abs (sys_handler s)).
Proof.
  intros Hcalls Hnew Hruns. rewrite <-(handler_new_init _ _ _ _ Hnew).
  change h0 with (sys_handler (MkSys gpu h0)).
  apply (runs_simulation sys_step spec_step (λ s, abs (sys_handler s))); [|done].
  intros l s1 s2 Hstep%sys_simulation. by eapply handler_simulation.
Qed.
End system.


(** ** A session with a guest that sends commands *)
Module GpuSystemExamples.
Import Sim SimQueue VringExamples BackendExamples HandlerExamples ProtocolExamples ResponseExamples.
Import GpuExamples WorkerExamples.

(** Guest memory with the available and the used ring of the control queue and of the cursor
    queue, which is the one of 64 entries *)
Record gmem : Type := MkGMem {
  gm_available : list chain; gm_used : list (Z * Z);
  gm_cursor : list chain; gm_cursor_used : list (Z * Z);
  gm_buffers : list bytes;
}.

Definition GMem (available : list chain) (used : list (Z * Z)) (buffers : list bytes) : gmem :=
  MkGMem available used [] [] buffers.

Definition is_cursor (q : queue) : bool := bool_decide (sq_max_size q = 64).
Definition ring_chains (q : queue) (m : gmem) : list chain := if is_cursor q then gm_cursor m else gm_available m.
Definition ring_used (q : queue) (m : gmem) : list (Z * Z) := if is_cursor q then gm_cursor_used m else gm_used m.
Definition add_entry (q : queue) (entry : Z * Z) (m : gmem) : gmem :=
  if is_cursor q
  then MkGMem (gm_available m) (gm_used m) (gm_cursor m) (gm_cursor_used m ++ [entry]) (gm_buffers m)
  else MkGMem (gm_available m) (gm_used m ++ [entry]) (gm_cursor m) (gm_cursor_used m) (gm_buffers m).

#[export] Instance gmem_config : QueueConfig queue gmem := {|
  q_new := SimQueue.new;
  q_try_set_desc_table_address := SimQueue.try_set 16 (λ a '(_, y, z), (a, y, z));
  q_try_set_avail_ring_address := SimQueue.try_set 2 (λ a '(x, _, z), (x, a, z));
  q_try_set_used_ring_address := SimQueue.try_set 4 (λ a '(x, y, _), (x, y, a));
  q_set_ready := SimQueue.set_ready;
  q_ready := SimQueue.sq_ready;
  q_set_size := SimQueue.set_size;
  q_size := SimQueue.sq_size;
  q_max_size := SimQueue.sq_max_size;
  q_set_event_idx := SimQueue.set_event_idx;
  q_event_idx_enabled := SimQueue.sq_event_idx;
  q_set_next_avail := SimQueue.set_next_avail;
  q_next_avail := SimQueue.sq_next_avail;
  q_set_next_used := SimQueue.set_next_used;
  q_used_idx q m := Ret (Z.of_nat (length (ring_used q m)));
|}.

#[export] Instance gmem_config_laws : QueueConfigLaws queue gmem.
Proof. destruct SimQueue.config_laws. split; try assumption. Qed.

(** The position in the available ring says which chain is next. *)
#[export] Instance gmem_proc : QueueProc queue gmem chain := {|
  q_pop_descriptor_chain m q :=
    match ring_chains q m !! Z.to_nat (sq_next_avail q) with
    | Some c => (Some c, set_next_avail (Z.of_nat (S (Z.to_nat (sq_next_avail q)))) q)
    | None => (None, q)
    end;
  q_go_to_previous_position q := set_next_avail (Z.of_nat (Z.to_nat (sq_next_avail q) - 1)) q;
  q_add_used head len := λ '(q, m),
    (Ret tt, (q, add_entry q (head, len) m));
  q_disable_notification := ret tt;
  q_enable_notification := gets (λ s,
    negb (bool_decide (length (ring_chains s.1 s.2) ≤ Z.to_nat (sq_next_avail s.1)))%nat);
  chain_head_index := c_head;
  q_avail q m := drop (Z.to_nat (sq_next_avail q)) (ring_chains q m);
  q_used := ring_used;
|}.

#[export] Instance gmem_proc_setup : QueueProcSetup queue gmem chain.
Proof.
  split; simpl; [intros m q; by destruct (ring_chains q m !! _)|done|by intros head len [q m]|done..].
Qed.

#[export] Instance gmem_streams : ChainStreams gmem chain reader writer := {|
  chain_reader _ c := Ret (mk_reader (c_readable c));
  chain_writer _ c := Ret (Writer (Z.to_nat (c_writable c)) []);
  chain_commit w m :=
    MkGMem (gm_available m) (gm_used m) (gm_cursor m) (gm_cursor_used m) (gm_buffers m ++ [wr_written w]);
|}.

#[export] Instance gmem_slices : GuestSlices gmem := {| mem_get_slice _ _ _ := None |}.

#[export] Instance gmem_regions : GuestMemory gmem MemRegion VhostUserMemoryRegion Z := {|
  mmap_region r _ := Ret r;
  guest_region_new r gpa := Ret (MkMemRegion gpa (vm_memory_size r));
  region_as_ptr r := 2 ^ 40 + mr_start_addr r;
  region_info r := r;
  from_regions rs := if bool_decide (rs = []) then Fail 1 else Ret (GMem [] [] []);
  insert_region m _ := Ret m;
  remove_region m _ _ := Ret m;
  mem_regions _ := [];
  file_fd f := f;
  mmap_log len _ _ := Ret (replicate (Z.to_nat len) 0);
|}.

#[export] Instance gmem_dev : VhostUserDevice dev gmem (Vring queue) () :=
  implementer_device id (λ d _, d) (λ _, 0) default_set_gpu_socket.

Lemma gmem_dev_calls : device_calls (Mem:=gmem) (Q:=queue) (Sock:=()) d_activations.
Proof.
  split; intros; simpl; try done.
  unfold impl_set_acked_features, bind, assert, ret, panic, zoom, modify.
  by destruct (bool_decide _).
Qed.

Definition GSys : Type :=
  Sys (D:=dev) (Mem:=gmem) (Q:=queue) (W:=world) (B:=AtomicBitmapMmap) (RG:=nat) (GB:=list gpu_message).

Definition ghandler : VhostUserHandler dev gmem queue world AtomicBitmapMmap :=
  MkVhostUserHandler (Dev 0 0) false false [MkQueueArgs 256; MkQueueArgs 64] false false 0 0 []
    (MkGuestMem (GMem [] [] []) ∅ []) [queue0 256; queue0 64] env0.

Definition start : list (request () Z) :=
  [SET_OWNER; SET_FEATURES (2 ^ 32 + 2 ^ 30); SET_MEM_TABLE [region] [3]; SET_VRING_KICK 0 (Some 40);
   SET_VRING_ENABLE 0 true].

(** Requests, as far as they are answered, their answers and their effect on the handler *)
Definition request_all (rs : list (request () Z)) (s : GSys) : GSys :=
  MkSys (sys_gpu s) (foldl (λ h r, (reply_to true r h).2) (sys_handler s) rs).

Local Notation GHandler := (VhostUserHandler dev gmem queue world AtomicBitmapMmap).

Fixpoint all_answered (rs : list (request () Z)) (h : GHandler) : Prop :=
  match rs with
  | [] => True
  | r :: rs => is_answer (reply_to true r h).1 ∧ all_answered rs (reply_to true r h).2
  end.

Fixpoint exchanges (rs : list (request () Z)) (h : GHandler) : list (option exchange) :=
  match rs with
  | [] => []
  | r :: rs => Some (r, (reply_to true r h).1) :: exchanges rs (reply_to true r h).2
  end.

Lemma runs_requests rs (s s' : GSys) ls :
  all_answered rs (sys_handler s) →
  runs (sys_step (R:=reader) (Wr:=writer) true) ls (request_all rs s) s' →
  runs (sys_step (R:=reader) (Wr:=writer) true) (exchanges rs (sys_handler s) ++ ls) s s'.
Proof.
  revert s. induction rs as [|r rs IH]; intros s; [by destruct s|].
  intros [Hr Hrs] Hruns. simpl.
  eapply runs_cons; [by apply sys_request|].
  by apply (IH (MkSys (sys_gpu s) (reply_to true r (sys_handler s)).2)).
Qed.

(** The guest sends two commands, the worker processes them, and the front-end stops the
    ring. *)
Definition s0 : GSys := MkSys gpu3 ghandler.
Definition s1 : GSys := request_all start s0.
Definition s2 : GSys := MkSys (sys_gpu s1) (set_guest_mem (GMem [c1; c2] [] []) (sys_handler s1)).
Definition s3 : GSys := (on_worker (on_device (dq_read_kick (DeviceQueue:=handler_queue 0))) s2).2.
Definition s4 : GSys := (on_worker (process_if_locked (H:=rutabaga_virtio_gpu true) (R:=reader) (Wr:=writer)
  (DQ:=handler_queue 0) 5) s3).2.
Definition s5 : GSys := request_all [GET_VRING_BASE 0] s4.

Lemma stop_answer : exchanges [GET_VRING_BASE 0] (sys_handler s4) = [Some (GET_VRING_BASE 0, Ret (RingState 0 2))].
Proof. vm_compute. reflexivity. Qed.

Lemma gpu_system_refines_witness :
  let ls := exchanges start ghandler ++ [None; None; None; Some (GET_VRING_BASE 0, Ret (RingState 0 2))] in
  rg_next_avail <$> ss_rings (abs (sys_handler s5)) !! 0%nat = Some 2 ∧ gm_used (sys_mem s5) = [(3, 24)] ∧
  runs spec_step ls
    (spec_init (vud_avail_features (Mem:=gmem) (Q:=Vring queue) (S:=()) (Dev 0 0))
      (qa_max_size <$> vud_queues (Mem:=gmem) (Q:=Vring queue) (S:=()) (Dev 0 0)))
    (abs (sys_handler s5)).
Proof.
  split; [vm_compute; reflexivity|]. split; [vm_compute; reflexivity|].
  apply (gpu_system_refines (R:=reader) (Wr:=writer) true d_activations (Dev 0 0)
    (MkGuestMem (GMem [] [] []) ∅ []) env0 ghandler gpu3 _ s5 gmem_dev_calls); [reflexivity|].
  apply (runs_requests start s0 s5); [vm_compute; by split_and!|].
  refine (runs_cons _ _ _ s1 s2 _ (sys_guest true (GMem [c1; c2] [] []) s1) _).
  refine (runs_cons _ _ _ s2 s3 _ (sys_read_kick true 0 s2) _).
  refine (runs_cons _ _ _ s3 s4 _ (sys_process true 0 5 s3) _).
  rewrite <-stop_answer, <-(app_nil_r (exchanges _ _)).
  apply (runs_requests [GET_VRING_BASE 0] s4 s5 []); [vm_compute; by split_and!|apply runs_nil].
Defined.
End GpuSystemExamples.
