(* ===== verification/GpuConservation.v ===== *)
(** * No command is lost between the threads

    The chains of the control queue pass through several hands: the guest makes them
    available, the worker pops them and answers them, or leaves them with the fences, and
    rutabaga's callback answers those. [chains_conserved] follows them through runs of the
    whole system of [GpuSystem]: as long as the ring is running and no thread has failed,
    every chain is either still available, or waits for its fence, or is in the used
    ring, exactly once. *)

From S2P Require Import Prelude EventToken Epoll EventManager VirtQueue Bitmap Vring VhostBackend VhostHandler.
From S2P Require Import SessionSpec SessionRefinement Codec GpuProtocol GpuResponse GpuFence VirtioGpu.
From S2P Require Import DeviceRings RingFrame RutabagaGpu GpuWorker GpuSystem.

(** ** One section of the worker, with the lock of a queue *)

Section section.
Context {G S Q Mem Chain R Wr : Type} `{VirtioGpuLaws G} `{RutabagaConsts} `{GuestSlices Mem}
  `{QueueProcLaws Q Mem Chain} `{!QueueConfig Q Mem} `{ReaderLaws R} `{WriterLaws Wr}
  `{!ChainStreams Mem Chain R Wr} `{!ChainStreamsLaws Q Mem Chain R Wr} `{GpuCmdNumbers}
  `{GpuRespNumbers} {DQ : DeviceQueue S Q}.

Local Notation WE := (WorkerEnv G S Mem).
Implicit Types s : WE * Q.

Definition lavail s : list Chain := q_avail s.2 (we_mem s.1).
Definition lused s : list (Z * Z) := q_used s.2 (we_mem s.1).
Definition lpending s : list (Z * Z) := gpu_pending (we_gpu s.1).

(** *** What every operation under the lock relates, the section relates

    [Rel] is a preorder on what the section runs on that relates before and after of
    each operation; the section then relates its beginning and its end. *)

Section preorder.
Context (fuel : nat) (Rel : relation (WE * Q)) `{!PreOrder Rel}.
Context (Rel_disable : ∀ s o s',
    on_locked (G:=G) (S:=S) (on_queue_mem q_disable_notification) s = (o, s') → Rel s s')
  (Rel_enable : ∀ s o s',
    on_locked (G:=G) (S:=S) (on_queue_mem q_enable_notification) s = (o, s') → Rel s s')
  (Rel_process : ∀ s b s',
    on_locked (S:=S) (process_queue (R:=R) (Wr:=Wr) fuel) s = (Ret b, s') → Rel s s')
  (Rel_device : ∀ s d, Rel s (MkWorkerEnv (we_gpu s.1) d (we_mem s.1), s.2)).

Lemma process_related s b s' :
  map_err (E':=worker_error) DeviceError (on_locked (process_queue (R:=R) (Wr:=Wr) fuel)) s = (Ret b, s') →
  Rel s s'.
Proof using Rel_process.
  unfold map_err. intros Hrun. destruct (on_locked _ s) as [[b'|e| |] s1] eqn:E; simplify_eq/=. eauto.
Qed.

Lemma turn_related s r s' : event_idx_turn (R:=R) (Wr:=Wr) fuel s = (Ret r, s') → Rel s s'.
Proof using All.
  intros Hrun. unfold event_idx_turn in Hrun.
  apply bind_inv_Ret in Hrun as ([] & s1 & Hdis & Hrun).
  apply bind_inv_Ret in Hrun as (notify & s2 & Hproc%process_related & Hrun).
  apply bind_inv_Ret in Hrun as ([] & s3 & Hsig & Hrun).
  apply bind_inv_Ret in Hrun as (more & s4 & Hen & [= _ <-]).
  unfold unwrap in Hdis, Hen.
  destruct (on_locked (on_queue_mem q_disable_notification) s) as [o1 s1'] eqn:Hdis'.
  destruct (on_locked (on_queue_mem q_enable_notification) s3) as [o4 s4'] eqn:Hen'.
  injection Hdis as _ ->. injection Hen as _ ->.
  apply Rel_disable in Hdis'. apply Rel_enable in Hen'. etrans; [exact Hdis'|]. etrans; [exact Hproc|].
  etrans; [|exact Hen']. destruct notify; [|by injection Hsig as <-].
  unfold unwrap, zoom, on_device, zoom in Hsig. cbn in Hsig.
  destruct (dq_signal_used_queue (we_device s2.1)) as [o d']. simpl in Hsig. injection Hsig as _ <-.
  apply Rel_device.
Qed.

Lemma rounds_related n s r s' : loop n (event_idx_turn (R:=R) (Wr:=Wr) fuel) s = (Ret r, s') → Rel s s'.
Proof using All.
  revert s. induction n as [|n IH]; intros s Hrun; [done|]. simpl in Hrun.
  apply bind_inv_Ret in Hrun as (a & s1 & Hturn%turn_related & Hrun).
  destruct a as [a|]; [by injection Hrun as _ <-|]. etrans; [exact Hturn|]. by apply IH.
Qed.

(** The whole section, between taking the lock and its release *)
Lemma section_related (w w' : WE) q :
  dq_try_lock_queue (we_device w) = Some q → process_if_locked (R:=R) (Wr:=Wr) fuel w = (Ret tt, w') →
  ∃ s', w' = unlock s' ∧ Rel (w, q) s' ∧
    s' = ((if q_event_idx_enabled q then loop fuel (event_idx_turn (R:=R) (Wr:=Wr) fuel)
           else do! map_err DeviceError (on_locked (process_queue (R:=R) (Wr:=Wr) fuel)) in ret tt) (w, q)).2.
Proof using All.
  intros Hlock Hrun. unfold process_if_locked in Hrun. erewrite bind_Ret in Hrun by done.
  rewrite Hlock in Hrun. unfold locked in Hrun.
  match type of Hrun with (let '(o, s') := ?m in _) = _ => destruct m as [o s'] eqn:E end.
  injection Hrun as -> <-. exists s'. split; [done|]. split; [|done].
  destruct (q_event_idx_enabled q); [by eapply rounds_related|].
  by apply bind_inv_Ret in E as (b & s1 & E%process_related & [= <-]).
Qed.
End preorder.

(** *** Its chains *)

(** The chains popped in between, each with its answer and where that has gone *)
Definition conserves s s' : Prop :=
  ∃ rs, heads (lavail s) = rs.*1.*1 ++ heads (lavail s') ∧
    lused s' = lused s ++ entries true rs ∧ lpending s' = lpending s ++ entries false rs.

#[export] Instance conserves_refl : Reflexive conserves.
Proof. intros s. exists []. unfold entries. simpl. by rewrite !app_nil_r. Qed.

#[export] Instance conserves_trans : Transitive conserves.
Proof.
  intros s1 s2 s3 (rs & Ha & Hu & Hp) (rs' & Ha' & Hu' & Hp'). exists (rs ++ rs').
  unfold entries in *. rewrite !filter_app, !fmap_app.
  by rewrite Ha, Ha', Hu', Hu, Hp', Hp, <-!app_assoc.
Qed.

Lemma conserves_same s s' :
  lavail s' = lavail s → lused s' = lused s → lpending s' = lpending s → conserves s s'.
Proof. intros Ha Hu Hp. exists []. unfold entries. simpl. by rewrite Ha, Hu, Hp, !app_nil_r. Qed.

Lemma conserves_avail s s' : conserves s s' → (length (lavail s') ≤ length (lavail s))%nat.
Proof.
  intros (rs & Ha & _). apply (f_equal length) in Ha. unfold heads in Ha.
  rewrite length_app, !length_fmap in Ha. lia.
Qed.

Lemma process_conserves fuel s b s' :
  (length (lavail s) < fuel)%nat →
  on_locked (process_queue (R:=R) (Wr:=Wr) fuel) s = (Ret b, s') → conserves s s'.
Proof.
  intros Hfuel. unfold on_locked, zoom. destruct s as [w q]. simpl.
  pose proof (process_chains_outcome (R:=R) (Wr:=Wr) fuel false (MkQueueEnv (we_gpu w) q (we_mem w)) Hfuel)
    as (rs & lost & Ha & Hu & Hp & Ho).
  unfold process_queue. destruct (process_chains fuel _ _) as [o s1]. simpl in *. intros [= -> <-].
  destruct Ho as (-> & _). by exists rs.
Qed.

(** As long as the fuel is more than there are chains *)
Definition conserves_under fuel s s' : Prop := (length (lavail s) < fuel)%nat → conserves s s'.

#[local] Instance conserves_under_preorder fuel : PreOrder (conserves_under fuel).
Proof.
  split; [intros s _; reflexivity|]. intros s1 s2 s3 H12 H23 Hfuel. specialize (H12 Hfuel). etrans; [exact H12|].
  apply H23. apply conserves_avail in H12. lia.
Qed.

Lemma section_conserves fuel (w w' : WE) q :
  dq_try_lock_queue (we_device w) = Some q → (length (lavail (w, q)) < fuel)%nat →
  process_if_locked (R:=R) (Wr:=Wr) fuel w = (Ret tt, w') →
  ∃ s', w' = unlock s' ∧ conserves (w, q) s' ∧
    s' = ((if q_event_idx_enabled q then loop fuel (event_idx_turn (R:=R) (Wr:=Wr) fuel)
           else do! map_err DeviceError (on_locked (process_queue (R:=R) (Wr:=Wr) fuel)) in ret tt) (w, q)).2.
Proof.
  intros Hlock Hfuel Hrun.
  edestruct (section_related fuel (conserves_under fuel)) as (s' & Hw' & Hcons & Hs');
    [..|exact Hlock|exact Hrun|].
  - intros s o s' Hdis _. unfold on_locked, on_queue_mem, zoom in Hdis. simpl in Hdis.
    destruct (q_disable_notification (s.2, we_mem s.1)) as [o1 [q1 m1]] eqn:E. injection Hdis as _ <-.
    apply q_disable_notification_views in E as [Hu Ha]. by apply conserves_same.
  - intros s o s' Hen _. unfold on_locked, on_queue_mem, zoom in Hen. simpl in Hen.
    destruct (q_enable_notification (s.2, we_mem s.1)) as [o1 [q1 m1]] eqn:E. injection Hen as _ <-.
    apply q_enable_notification_views in E as [Hu Ha]. by apply conserves_same.
  - intros s b s' Hproc Hlen. by eapply process_conserves.
  - intros s d _. by apply conserves_same.
  - exists s'. split; [done|]. split; [by apply Hcons|done].
Qed.
End section.

(** ** The system *)

Section system.
Context {D Mem Q W B Sock Region Mmap File Chain R Wr RG GB : Type}.
Context `{EpollLaws W} `{EventSetBits} `{!EventFdOps W, !EventFdLaws W}
  `{!QueueConfig Q Mem, !QueueConfigLaws Q Mem}
  `{VhostUserBits} `{!VhostUserDevice D Mem (Vring Q) Sock} `{!BitmapReplace B}
  `{!GuestMemory Mem Region Mmap File}.
Context `{RutabagaLaws RG} `{GpuBackendLaws GB} `{RutabagaConsts} `{GuestSlices Mem}
  `{!QueueProc Q Mem Chain, !QueueProcLaws Q Mem Chain, !QueueProcSetup Q Mem Chain, !QueuesApart Q Mem Chain}
  `{ReaderLaws R} `{WriterLaws Wr} `{!ChainStreams Mem Chain R Wr, !ChainStreamsLaws Q Mem Chain R Wr}
  `{GpuCmdNumbers} `{GpuRespNumbers}.
Context (checks : bool).

Local Notation HD := (VhostUserHandler D Mem Q W B).
Local Notation Sys := (Sys (D:=D) (Mem:=Mem) (Q:=Q) (W:=W) (B:=B) (RG:=RG) (GB:=GB)).
Implicit Types (s : Sys) (h : HD).

(** The control ring is running, and its lock shows the queue [q]. *)
Definition serving (q : Q) s : Prop :=
  dq_try_lock_queue (DeviceQueue:=control_queue) (sys_handler s) = Some q.

Lemma lock_mem i mem h :
  dq_try_lock_queue (DeviceQueue:=handler_queue i) (set_guest_mem mem h) =
  dq_try_lock_queue (DeviceQueue:=handler_queue i) h.
Proof. done. Qed.

#[local] Existing Instance handler_queue_laws.

(** ** Who has which chain *)

Definition avail q s : list Chain := q_avail q (sys_mem s).
Definition used q s : list (Z * Z) := q_used q (sys_mem s).
(** The answers that wait for a fence *)
Definition waiting s : list (Z * Z) := desc_entry <$> fs_descs (g_fence_state (sys_gpu s)).

(** The answers that a step has left with the fences *)
Definition new_waiting s s' : list (Z * Z) := drop (length (waiting s)) (waiting s').

(** A step of the system in which no thread fails, with the chains that the guest makes
    available on the control ring and the answers of other rings that the fences take over.
    The front-end does not stop or reset the ring or replace guest memory, and the guest
    does not take back what it has made available, nor writes the used ring. *)
Inductive serve_step : list Chain → list (Z * Z) → Sys → Sys → Prop :=
| serve_process fuel q s s' :
    serving q s → (length (avail q s) < fuel)%nat →
    on_worker (process_if_locked (H:=rutabaga_virtio_gpu checks) (R:=R) (Wr:=Wr)
      (DQ:=control_queue) fuel) s = (Ret tt, s') →
    serve_step [] [] s s'
| serve_fence fuel fence s s' :
    (length (waiting s) < fuel)%nat →
    on_callback (fence_handler (H:=control_queue) fuel fence) s = (Ret tt, s') →
    serve_step [] [] s s'
(* the worker at its other queue, which lies apart *)
| serve_cursor i fuel q s s' :
    i ≠ CONTROL_QUEUE → serving q s →
    (∀ q', dq_try_lock_queue (DeviceQueue:=handler_queue i) (sys_handler s) = Some q' →
      apart q q' ∧ (length (q_avail q' (sys_mem s)) < fuel)%nat) →
    on_worker (process_if_locked (H:=rutabaga_virtio_gpu checks) (R:=R) (Wr:=Wr)
      (DQ:=handler_queue i) fuel) s = (Ret tt, s') →
    serve_step [] (new_waiting s s') s s'
| serve_register i epoll token s :
    serve_step [] [] s
      (on_worker (on_device (dq_kick_register (DeviceQueue:=handler_queue i) epoll token)) s).2
| serve_read_kick i s :
    serve_step [] [] s (on_worker (on_device (dq_read_kick (DeviceQueue:=handler_queue i))) s).2
| serve_poll s :
    serve_step [] [] s (MkSys (event_poll (VirtioGpu:=rutabaga_virtio_gpu checks) (sys_gpu s)) (sys_handler s))
| serve_request (r : request Sock File) s :
    spares CONTROL_QUEUE r = true → is_answer (reply_to checks r (sys_handler s)).1 →
    serve_step [] [] s (MkSys (sys_gpu s) (reply_to checks r (sys_handler s)).2)
| serve_guest cs mem q s :
    serving q s → q_avail q mem = avail q s ++ cs → q_used q mem = used q s →
    serve_step cs [] s (MkSys (sys_gpu s) (set_guest_mem mem (sys_handler s))).

(** These are steps of the system. *)
Lemma serve_sys_step cs ds s s' :
  serve_step cs ds s s' → ∃ l, sys_step (Sock:=Sock) (File:=File) (R:=R) (Wr:=Wr) checks l s s'.
Proof.
  intros [fuel q s1 s2 _ _ Hrun|fuel fence s1 s2 _ Hrun|i fuel q s1 s2 _ _ _ Hrun|?|?|?|r s1 _ Hr|?].
  - exists None. replace s2 with (on_worker (process_if_locked (H:=rutabaga_virtio_gpu checks) (R:=R) (Wr:=Wr)
      (DQ:=control_queue) fuel) s1).2 by (by rewrite Hrun). apply sys_process.
  - exists None. replace s2 with (on_callback (fence_handler (H:=control_queue) fuel fence) s1).2
      by (by rewrite Hrun). apply sys_fence.
  - exists None. replace s2 with (on_worker (process_if_locked (H:=rutabaga_virtio_gpu checks) (R:=R) (Wr:=Wr)
      (DQ:=handler_queue i) fuel) s1).2 by (by rewrite Hrun). apply sys_process.
  - eexists. apply sys_register.
  - eexists. apply sys_read_kick.
  - eexists. apply sys_poll.
  - eexists. by apply sys_request.
  - eexists. apply sys_guest.
Qed.

Inductive serve_run : list Chain → list (Z * Z) → Sys → Sys → Prop :=
| serve_nil s : serve_run [] [] s s
| serve_cons cs ds cs' ds' s s1 s' :
    serve_step cs ds s s1 → serve_run cs' ds' s1 s' → serve_run (cs ++ cs') (ds ++ ds') s s'.

(** The chains in [popped] were popped, in order, and what the fences held and took over
    and the popped chains are now in the used ring or wait. *)
Definition passed q (cs : list Chain) (ds : list (Z * Z)) s q' s' : Prop :=
  ∃ popped answered,
    heads (avail q s) ++ heads cs = popped ++ heads (avail q' s') ∧
    used q' s' = used q s ++ answered ∧
    popped ++ (waiting s).*1 ++ ds.*1 ≡ₚ answered.*1 ++ (waiting s').*1.

Lemma entries_heads rs : rs.*1.*1 ≡ₚ (entries true rs).*1 ++ (entries false rs).*1.
Proof.
  induction rs as [|[[head len] u] rs IH]; [done|]. rewrite !entries_cons. destruct u; simpl.
  - by rewrite IH.
  - by rewrite <-Permutation_middle, IH.
Qed.

Lemma process_passed fuel q s s' :
  serving q s → (length (avail q s) < fuel)%nat →
  on_worker (process_if_locked (H:=rutabaga_virtio_gpu checks) (R:=R) (Wr:=Wr)
    (DQ:=control_queue) fuel) s = (Ret tt, s') →
  ∃ q', serving q' s' ∧ passed q [] [] s q' s'.
Proof.
  intros Hq Hfuel Hrun. unfold on_worker, zoom in Hrun.
  set (w := MkWorkerEnv (sys_gpu s) (sys_handler s) (sys_mem s)) in Hrun.
  destruct (process_if_locked fuel w) as [o w'] eqn:Hproc. injection Hrun as -> <-.
  destruct (section_conserves (H0:=rutabaga_virtio_gpu_laws checks) fuel w w' q Hq Hfuel Hproc) as ([w1 q1] & -> & Hcons & Hsec).
  assert (locked_ok CONTROL_QUEUE (sys_handler s) (w1, q1)) as [Hholds Hstep].
  { rewrite Hsec. apply (locked_section checks CONTROL_QUEUE (sys_handler s) fuel _ (w, q)).
    exact (lock_ok CONTROL_QUEUE w q Hq). }
  exists q1. split; [by eapply store_lock|].
  destruct Hcons as (rs & Ha & Hu & Hp). unfold lavail, lused, lpending in *. simpl in *.
  exists rs.*1.*1, (entries true rs). rewrite !app_nil_r. split; [exact Ha|]. split; [exact Hu|].
  change (waiting (MkSys (we_gpu w1) _)) with (pending_descs (we_gpu w1)). rewrite Hp.
  rewrite fmap_app, (Permutation_app_comm _ (waiting s).*1), entries_heads.
  change (pending_descs (sys_gpu s)) with (waiting s).
  rewrite !app_assoc. f_equiv. by rewrite Permutation_app_comm.
Qed.

(** The callback pops nothing. *)
Definition callback_avail (cs : list Chain) (f : FenceEnv HD Mem) : Prop :=
  ∃ q, dq_try_lock_queue (DeviceQueue:=control_queue) (fe_device f) = Some q ∧ q_avail q (fe_mem f) = cs.

Lemma callback_avail_answer cs d :
  preserves (callback_avail cs) (answer_desc (H:=control_queue) d).
Proof.
  intros f (q & Hq & Hcs). unfold answer_desc. erewrite bind_Ret by done. rewrite Hq.
  apply preserves_bind_run; unfold unwrap at 1, fence_add_used.
  - pose proof (q_add_used_setup (fd_desc_index d) (fd_len d) (q, fe_mem f)) as Hsetup.
    destruct (q_add_used_result (fd_desc_index d) (fd_len d) (q, fe_mem f))
      as [[[q' m'] Hadd]|(e & [q' m'] & Hadd)]; rewrite Hadd in Hsetup |- *; exists q'; (split;
      [eapply store_lock; [|apply device_step_refl];
       destruct (lock_holds _ _ _ Hq) as (v & Hv & Hrun & Hs); exists v; split; [done|]; split; [done|];
       by eapply same_setup_trans|]); simpl.
    + by apply q_add_used_ok in Hadd as [_ ->].
    + by apply q_add_used_fail in Hadd as [_ ->].
  - intros [] f1 _ (q1 & Hq1 & Hcs1). exists q1. unfold unwrap, on_fence_device, zoom.
    pose proof (dq_signal_lock (DeviceQueueLaws:=handler_queue_laws CONTROL_QUEUE) (fe_device f1)) as Hs.
    change (handler_queue CONTROL_QUEUE) with (control_queue (D:=D) (Mem:=Mem) (Q:=Q) (W:=W) (B:=B)) in Hs.
    destruct (dq_signal_used_queue (fe_device f1)) as [o h']. cbn [fe_device fe_mem snd fst] in *.
    split; [by rewrite Hs|done].
Qed.

Lemma callback_avail_fences {E A} cs (m : M FenceState E A) : preserves (callback_avail cs) (on_fences m).
Proof. intros f Hf. unfold on_fences, zoom. by destruct (m _). Qed.

#[local] Hint Resolve callback_avail_answer callback_avail_fences : preserves.

Lemma callback_avail_handler cs fuel fence :
  preserves (callback_avail cs) (fence_handler (H:=control_queue) fuel fence).
Proof.
  unfold fence_handler. apply preserves_bind; [|eauto with preserves].
  generalize 0%nat. induction fuel as [|fuel IH]; intros i; simpl; [by intros f|].
  apply preserves_bind; [eauto with preserves|intros descs].
  destruct (descs !! i) as [d|]; [|eauto with preserves]. case_decide; eauto with preserves.
Qed.

Lemma fence_passed fuel fence q s s' :
  serving q s → (length (waiting s) < fuel)%nat →
  on_callback (fence_handler (H:=control_queue) fuel fence) s = (Ret tt, s') →
  ∃ q', serving q' s' ∧ passed q [] [] s q' s'.
Proof.
  intros Hq Hfuel Hrun. unfold on_callback, zoom in Hrun.
  set (f := MkFenceEnv (g_fence_state (sys_gpu s)) (sys_handler s) (sys_mem s)) in Hrun.
  assert (callback_avail (avail q s) (fence_handler (H:=control_queue) fuel fence f).2) as (q' & Hq' & Ha)
    by (apply callback_avail_handler; by exists q).
  destruct (fence_handler fuel fence f) as [o f'] eqn:Hf. injection Hrun as -> <-.
  unfold waiting in Hfuel. rewrite length_fmap in Hfuel. cbn [snd] in Hq', Ha.
  destruct (fence_handler_available (H:=control_queue) (handler_signal_result CONTROL_QUEUE) fuel fence f
    (mk_is_Some _ _ Hq) Hfuel) as [(f1 & Hf1 & _ & Hdescs & Hused & _)|(f1 & Hf1)];
    rewrite Hf in Hf1; [|done]. injection Hf1 as <-.
  exists q'. split; [exact Hq'|]. unfold used_entries in Hused. rewrite Hq' in Hused.
  change (fe_device f) with (sys_handler s) in Hused. unfold serving in Hq. rewrite Hq in Hused.
  exists [], (desc_entry <$> filter (fence_matches (fence_ring fence) (rf_fence_id fence)) (fs_descs (fe_fences f))).
  rewrite !app_nil_r. split; [by rewrite <-Ha|]. split; [exact Hused|]. simpl.
  change (waiting (MkSys _ _)) with (desc_entry <$> fs_descs (fe_fences f')).
  rewrite Hdescs, <-!fmap_app. symmetry. apply fmap_Permutation, fmap_Permutation, filter_split.
Qed.

(** *** Steps that leave the ring alone *)

Lemma untouched_passed cs ds q s s' :
  serving q s' → avail q s' = avail q s ++ cs → used q s' = used q s → waiting s' = waiting s ++ ds →
  ∃ q', serving q' s' ∧ passed q cs ds s q' s'.
Proof.
  intros Hq Ha Hu Hw. exists q. split; [done|]. exists [], [].
  rewrite Ha, Hu, Hw, !app_nil_r. unfold heads. by rewrite !fmap_app.
Qed.

(** What the worker at another queue, which lies apart, keeps of the control queue *)
Definition beside (q : Q) (cs : list Chain) (us : list (Z * Z)) (t : WorkerEnv (RutabagaVirtioGpu RG GB) HD Mem * Q) : Prop :=
  dq_try_lock_queue (DeviceQueue:=control_queue) (we_device t.1) = Some q ∧ apart q t.2 ∧
  q_avail q (we_mem t.1) = cs ∧ q_used q (we_mem t.1) = us.

Lemma beside_on_locked {E A} q cs us (m : M (QueueEnv (RutabagaVirtioGpu RG GB) Q Mem) E A) :
  preserves (λ e, apart q (qe_queue e) ∧ q_avail q (qe_mem e) = cs ∧ q_used q (qe_mem e) = us) m →
  preserves (beside q cs us) (on_locked m).
Proof.
  intros Hm [w q'] (Hl & Hrest). unfold on_locked, zoom. simpl in *.
  specialize (Hm (MkQueueEnv (we_gpu w) q' (we_mem w)) Hrest). by destruct (m _).
Qed.

Lemma beside_notification {E A} q cs us (m : M (Q * Mem) E A) :
  (∀ q' mem o q1 m1, apart q q' → m (q', mem) = (o, (q1, m1)) →
    apart q q1 ∧ q_avail q m1 = q_avail q mem ∧ q_used q m1 = q_used q mem) →
  preserves (beside q cs us) (on_locked (on_queue_mem m)).
Proof.
  intros Hm. apply beside_on_locked. intros [g q' mem] (Hq & Ha & Hu). unfold on_queue_mem, zoom. simpl in *.
  destruct (m (q', mem)) as [o [q1 m1]] eqn:Hrun. destruct (Hm _ _ _ _ _ Hq Hrun) as (? & Ha1 & Hu1).
  simpl. by rewrite Ha1, Hu1.
Qed.

Lemma beside_section i fuel b q cs us :
  preserves (beside q cs us) (worker_section (R:=R) (Wr:=Wr) checks i fuel b).
Proof.
  apply section_invariant.
  - apply beside_on_locked, invariant_process_queue; [done|..].
    + intros [g q' mem] (Hq & Ha & Hu). split; [by apply apart_pop|done].
    + intros head len [g q' mem] (Hq & Ha & Hu). simpl in *.
      destruct (q_add_used head len (q', mem)) as [o [q1 m1]] eqn:Hadd.
      destruct (apart_add_used _ _ _ _ _ _ _ _ Hq Hadd) as (? & Ha1 & Hu1). simpl. by rewrite Ha1, Hu1.
    + intros _ chain writer resp fl fe cx ri [g q' mem] _ _ _ (Hq & Ha & Hu). simpl in *.
      destruct (chain_commit_views (encode resp fl fe cx ri writer).2 q mem) as [Ha1 Hu1].
      by rewrite Ha1, Hu1.
  - apply beside_notification. intros *. apply apart_disable.
  - apply beside_notification. intros *. apply apart_enable.
  - apply preserves_unwrap. intros [w q'] (Hl & Hrest). unfold zoom, on_device, zoom. simpl.
    pose proof (frame_lock CONTROL_QUEUE i signal_used_queue (we_device w) keeps_signal) as Hf.
    destruct (on_vring i signal_used_queue (we_device w)) as [o h']. split; [|done]. by etrans.
Qed.

Lemma cursor_beside i fuel q s :
  i ≠ CONTROL_QUEUE → serving q s →
  (∀ q', dq_try_lock_queue (DeviceQueue:=handler_queue i) (sys_handler s) = Some q' → apart q q') →
  let s' := (on_worker (process_if_locked (H:=rutabaga_virtio_gpu checks) (R:=R) (Wr:=Wr)
    (DQ:=handler_queue i) fuel) s).2 in
  serving q s' ∧ avail q s' = avail q s ∧ used q s' = used q s.
Proof.
  intros Hi Hq Hapart. unfold on_worker, zoom.
  set (w := MkWorkerEnv (sys_gpu s) (sys_handler s) (sys_mem s)).
  destruct (dq_try_lock_queue (DeviceQueue:=handler_queue i) (we_device w)) as [q'|] eqn:Hlock.
  2: { by rewrite process_if_unlocked. }
  rewrite (process_if_locked_section checks i fuel w q' Hlock). unfold locked.
  pose proof (beside_section i fuel (q_event_idx_enabled q') q (avail q s) (used q s) (w, q')) as Hb.
  destruct (worker_section _ _ _ _ (w, q')) as [o [w1 q1]]. destruct Hb as (Hl & _ & Ha & Hu); [by split_and!; auto|].
  split; [|done]. etrans; [|exact Hl]. exact (frame_store CONTROL_QUEUE i q1 (we_device w1) (not_eq_sym Hi)).
Qed.

Lemma cursor_waiting i fuel s s' :
  (∀ q', dq_try_lock_queue (DeviceQueue:=handler_queue i) (sys_handler s) = Some q' →
    (length (q_avail q' (sys_mem s)) < fuel)%nat) →
  on_worker (process_if_locked (H:=rutabaga_virtio_gpu checks) (R:=R) (Wr:=Wr)
    (DQ:=handler_queue i) fuel) s = (Ret tt, s') →
  waiting s' = waiting s ++ new_waiting s s'.
Proof.
  intros Hfuel Hrun. cut (∃ ds, waiting s' = waiting s ++ ds).
  { intros [ds Hds]. unfold new_waiting. by rewrite Hds, drop_app_length. }
  unfold on_worker, zoom in Hrun. set (w := MkWorkerEnv (sys_gpu s) (sys_handler s) (sys_mem s)) in Hrun.
  destruct (process_if_locked fuel w) as [o w'] eqn:Hproc. injection Hrun as -> <-.
  destruct (dq_try_lock_queue (DeviceQueue:=handler_queue i) (we_device w)) as [q'|] eqn:Hlock.
  - destruct (section_conserves (H0:=rutabaga_virtio_gpu_laws checks) fuel w w' q' Hlock (Hfuel q' Hlock) Hproc)
      as ([w1 q1] & -> & (rs & _ & _ & Hp) & _). by exists (entries false rs).
  - rewrite process_if_unlocked in Hproc by done. injection Hproc as <-. exists []. by rewrite app_nil_r.
Qed.

Lemma step_passed cs ds q s s' :
  serving q s → serve_step cs ds s s' → ∃ q', serving q' s' ∧ passed q cs ds s q' s'.
Proof.
  intros Hq Hstep. destruct Hstep as [fuel q0 s s' Hq0 Hfuel Hrun|fuel fence s s' Hfuel Hrun
    |i fuel q0 s s' Hi Hq0 Hapart Hrun|i epoll token s|i s|s|r s Hr _|cs mem q0 s Hq0 Ha Hu].
  - unfold serving in *. simplify_eq. by eapply process_passed.
  - by eapply fence_passed.
  - unfold serving in *. rewrite Hq0 in Hq. injection Hq as ->.
    destruct (cursor_beside i fuel q s Hi Hq0) as (Hq' & Ha & Hu); [by intros q' Hq'; apply Hapart|].
    rewrite Hrun in Hq', Ha, Hu. apply untouched_passed; [done|by rewrite app_nil_r|done|].
    eapply cursor_waiting; [|done]. intros q' Hq1. by apply Hapart.
  - unfold on_worker, on_device, zoom. simpl.
    pose proof (frame_lock CONTROL_QUEUE i _ (sys_handler s) (keeps_register epoll token)) as Hf.
    destruct (on_vring i _ (sys_handler s)) as [o h']. apply untouched_passed; try by rewrite ?app_nil_r.
    unfold serving in *. by rewrite <-Hq.
  - unfold on_worker, on_device, zoom. simpl.
    pose proof (frame_lock CONTROL_QUEUE i _ (sys_handler s) keeps_read_kick) as Hf.
    destruct (on_vring i _ (sys_handler s)) as [o h']. apply untouched_passed; try by rewrite ?app_nil_r.
    unfold serving in *. by rewrite <-Hq.
  - apply untouched_passed; by rewrite ?app_nil_r.
  - pose proof (proj1 (lock_iff CONTROL_QUEUE (sys_handler s) q) Hq) as (v & Hv & Hvq & He & Hready).
    destruct (undisturbed_lock CONTROL_QUEUE q (sys_mem s) (λ _, True) Hready (reply_to checks r (sys_handler s)).2)
      as (Hq' & Hm & _).
    { apply request_spares; [done|by intros ???? ? ?|done|]. split; [by exists v|done]. }
    apply untouched_passed; [exact Hq'|..]; unfold avail, used, waiting, sys_mem; simpl;
      rewrite ?Hm, ?app_nil_r; done.
  - unfold serving in *. rewrite Hq0 in Hq. injection Hq as ->.
    apply untouched_passed; [done|exact Ha|exact Hu|by rewrite app_nil_r].
Qed.

Lemma passed_trans q0 q1 q2 cs ds cs' ds' s s1 s' :
  passed q0 cs ds s q1 s1 → passed q1 cs' ds' s1 q2 s' → passed q0 (cs ++ cs') (ds ++ ds') s q2 s'.
Proof.
  intros (p & a & Ha & Hu & Hw) (p' & a' & Ha' & Hu' & Hw'). exists (p ++ p'), (a ++ a').
  unfold heads in *. rewrite !fmap_app. split; [by rewrite app_assoc, Ha, <-app_assoc, Ha', app_assoc|].
  split; [by rewrite Hu', Hu, app_assoc|].
  rewrite <-(app_assoc a.*1), <-Hw'.
  trans (p' ++ (p ++ (waiting s).*1 ++ ds.*1) ++ ds'.*1).
  - by rewrite (Permutation_app_comm p p'), <-!app_assoc.
  - rewrite Hw, <-!app_assoc. apply Permutation_app_swap_app.
Qed.

(** Claim C4. No command on the control queue is lost or answered twice while its ring keeps
    running. The runs are those of the system in which no thread fails, each section that
    holds a lock being one step: the worker at the control queue and at other queues, which
    lie apart in guest memory, its registrations, kicks and polls, rutabaga's callback, a
    guest that adds chains, and the requests of the front-end, but for those that reset,
    disable, stop, move or resize this ring, set features or replace guest memory. However
    these interleave, the chains were popped in the order in which they became available,
    and each that was popped is once in the used ring or waits for its fence. The fences
    also answer, on the control ring, the commands of the cursor queue that asked for a
    fence. *)
Theorem chains_conserved cs ds q s s' :
  serving q s → serve_run cs ds s s' →
  ∃ q', serving q' s' ∧ ∃ popped answered,
    heads (avail q s) ++ heads cs = popped ++ heads (avail q' s') ∧
    used q' s' = used q s ++ answered ∧
    popped ++ (waiting s).*1 ++ ds.*1 ≡ₚ answered.*1 ++ (waiting s').*1.
Proof.
  change (serving q s → serve_run cs ds s s' → ∃ q', serving q' s' ∧ passed q cs ds s q' s').
  intros Hq Hrun. revert q Hq. induction Hrun as [s|cs ds cs' ds' s s1 s' Hstep _ IH]; intros q Hq.
  - exists q. split; [done|]. exists [], []. simpl. by rewrite !app_nil_r.
  - destruct (step_passed _ _ _ _ _ Hq Hstep) as (q1 & Hq1 & Hp1).
    destruct (IH q1 Hq1) as (q' & Hq' & Hp'). exists q'. split; [done|]. by eapply passed_trans.
Qed.
End system.

(** ** A command with a fence, from the guest to the used ring *)
Module ConservationExamples.
Import Sim SimQueue VringExamples BackendExamples HandlerExamples ProtocolExamples ResponseExamples.
Import GpuExamples WorkerExamples GpuSystemExamples.

#[export] Instance gmem_proc_laws : QueueProcLaws queue gmem chain.
Proof.
  split; simpl.
  - intros m q c q'. destruct (ring_chains q m !! Z.to_nat (sq_next_avail q)) as [c'|] eqn:Hc; [|done].
    intros ?; simplify_eq. split; [|split; [done|split; [|done]]]; simpl.
    + rewrite Nat2Z.id. by apply drop_S.
    + rewrite Nat2Z.id. f_equal. lia.
  - intros m q q'. by destruct (ring_chains q m !! _); intros [= <-].
  - intros head len q m q' m' [= <- <-]. unfold ring_used, ring_chains, add_entry. by destruct (is_cursor q).
  - done.
  - intros head len [q m]. left. by eexists.
  - by intros q m q' m' o [= <- <- <-].
  - by intros q m q' m' o [= <- <- <-].
Qed.

#[export] Instance gmem_streams_laws : ChainStreamsLaws queue gmem chain reader writer.
Proof. split; [by eauto..|done]. Qed.

(** One of them is the cursor queue, and the other is not. *)
#[export] Program Instance gmem_apart : QueuesApart queue gmem chain := {| apart q q' := is_cursor q ≠ is_cursor q' |}.
Next Obligation. intros m q q'. simpl. by destruct (ring_chains q' m !! _). Qed.
Next Obligation. done. Qed.
Next Obligation.
  intros head len q q' m o q1 m1 Hne [= _ <- <-]. split; [done|]. simpl in *.
  unfold ring_chains, ring_used, add_entry. destruct (is_cursor q'), (is_cursor q); [by destruct Hne|by split..|by destruct Hne].
Qed.
Next Obligation. by intros q q' m o q1 m1 ? [= <- <- <-]. Qed.
Next Obligation. by intros q q' m o q1 m1 ? [= <- <- <-]. Qed.

(** The guest sends two commands, the second with fence 5, and the worker processes both.
    The front-end starts the cursor queue and asks for the features; the guest sends a
    command on the cursor queue that also asks for a fence, and the worker processes it.
    Rutabaga completes the fences. *)
Definition move : GpuCommand :=
  MoveCursor (Mk_virtio_gpu_update_cursor (Mk_virtio_gpu_cursor_pos 0 3 4 0) 0 0 0 0).
Definition c9 : chain := chain_of 9 (header MOVE_CURSOR 1 6) move.
Definition start_cursor : list (request () Z) := [SET_VRING_KICK 1 (Some 41); SET_VRING_ENABLE 1 true; GET_FEATURES].
Definition t0 : GSys := s1.
Definition t1 : GSys := s2.
Definition t2 : GSys := (on_worker (process_if_locked (H:=rutabaga_virtio_gpu true) (R:=reader) (Wr:=writer)
  (DQ:=control_queue) 5) t1).2.
Definition t3 : GSys := request_all start_cursor t2.
Definition t4 : GSys := MkSys (sys_gpu t3) (set_guest_mem (MkGMem (gm_available (sys_mem t3)) (gm_used (sys_mem t3))
  [c9] [] (gm_buffers (sys_mem t3))) (sys_handler t3)).
Definition t5 : GSys := (on_worker (process_if_locked (H:=rutabaga_virtio_gpu true) (R:=reader) (Wr:=writer)
  (DQ:=handler_queue 1) 5) t4).2.
Definition t6 : GSys := (on_callback (fence_handler (H:=control_queue) 5 (MkRutabagaFence 1 6 0 0)) t5).2.
Definition queue_at (n : Z) : queue := Queue true false 256 256 n 0 (0, 0, 0) [] [] true.

Local Notation run := (serve_run (Sock:=()) (File:=Z) (R:=reader) (Wr:=writer) true).

(** Requests that spare the control ring *)
Lemma requests_served rs (s s' : GSys) cs ds :
  all_answered rs (sys_handler s) → Forall (λ r, spares CONTROL_QUEUE r = true) rs →
  run cs ds (request_all rs s) s' → run cs ds s s'.
Proof.
  revert s. induction rs as [|r rs IH]; intros s; [by destruct s|].
  intros [Hr Hrs] [Hsp Hsps]%Forall_cons Hruns.
  apply (serve_cons true [] [] cs ds s (MkSys (sys_gpu s) (reply_to true r (sys_handler s)).2) s').
  - by apply serve_request.
  - by apply IH.
Qed.

Lemma example_run : run [c1; c2] [(9, 24)] t0 t6.
Proof.
  apply (serve_cons true [c1; c2] [] [] [(9, 24)] t0 t1 t6).
  { apply (serve_guest true [c1; c2] (GMem [c1; c2] [] []) (queue_at 0) t0); vm_compute; reflexivity. }
  apply (serve_cons true [] [] [] [(9, 24)] t1 t2 t6).
  { apply (serve_process true 5 (queue_at 0) t1 t2); [vm_compute; reflexivity|vm_compute; lia|vm_compute; reflexivity]. }
  apply (requests_served start_cursor t2 t6); [vm_compute; by split_and!|by repeat constructor|].
  apply (serve_cons true [] [] [] [(9, 24)] t3 t4 t6).
  { apply (serve_guest true [] (sys_mem t4) (queue_at 2) t3); vm_compute; reflexivity. }
  apply (serve_cons true [] [(9, 24)] [] [] t4 t5 t6).
  { assert (new_waiting t4 t5 = [(9, 24)]) as <- by (vm_compute; reflexivity).
    apply (serve_cursor true 1 5 (queue_at 2) t4 t5); [done|vm_compute; reflexivity| |vm_compute; reflexivity].
    intros q' Hq'. assert (q' = Queue true false 64 64 0 0 (0, 0, 0) [] [] true) as ->
      by (vm_compute in Hq'; by injection Hq').
    split; [by vm_compute|vm_compute; lia]. }
  apply (serve_cons true [] [] [] [] t5 t6 t6); [|apply serve_nil].
  apply (serve_fence true 5 (MkRutabagaFence 1 6 0 0) t5 t6); [vm_compute; lia|vm_compute; reflexivity].
Qed.

Lemma chains_conserved_witness :
  waiting t5 = [(4, 24); (9, 24)] ∧ used (queue_at 2) t6 = [(3, 24); (4, 24); (9, 24)] ∧
  ∃ q', serving q' t6 ∧ ∃ popped answered,
    heads (avail (queue_at 0) t0) ++ heads [c1; c2] = popped ++ heads (avail q' t6) ∧
    used q' t6 = used (queue_at 0) t0 ++ answered ∧
    popped ++ (waiting t0).*1 ++ [9] ≡ₚ answered.*1 ++ (waiting t6).*1.
Proof.
  split; [vm_compute; reflexivity|]. split; [vm_compute; reflexivity|].
  apply (chains_conserved (Sock:=()) (File:=Z) (R:=reader) (Wr:=writer) true [c1; c2] [(9, 24)] (queue_at 0) t0 t6);
    [|apply example_run].
  vm_compute. reflexivity.
Defined.
End ConservationExamples.
