(* ===== verification/ScreenSystem.v ===== *)
(** * The screens in runs of the whole system

    [GpuScreen] is about one run over a queue. Here the rounds of a section that holds the
    queue's lock are put together, then the sections of both queues and the steps of the
    other threads: in runs of the system of [GpuSystem], the screens go through the
    commands of the chains in the order in which the worker took them. *)

From S2P Require Import Prelude EventToken Epoll EventManager VirtQueue Bitmap Vring VhostBackend VhostHandler.
From S2P Require Import SessionSpec SessionRefinement Codec GpuProtocol GpuResponse GpuFence VirtioGpu.
From S2P Require Import DeviceRings RutabagaGpu GpuDisplay GpuWorker GpuScreen GpuSystem GpuConservation.

(** ** One section of the worker *)

Section section.
Context {S Q Mem Chain R Wr RG GB : Type} `{RutabagaLaws RG} `{GpuBackendLaws GB} `{RutabagaConsts}
  `{GuestSlices Mem} `{QueueProcLaws Q Mem Chain} `{!QueueConfig Q Mem} `{ReaderLaws R}
  `{WriterLaws Wr} `{!ChainStreams Mem Chain R Wr} `{!ChainStreamsLaws Q Mem Chain R Wr}
  `{GpuCmdNumbers} `{GpuRespNumbers} {DQ : DeviceQueue S Q}.
Context (checks : bool).

Local Notation G := (RutabagaVirtioGpu RG GB).
#[local] Instance section_gpu : VirtioGpu G := rutabaga_virtio_gpu checks.
#[local] Instance section_gpu_laws : VirtioGpuLaws G := rutabaga_virtio_gpu_laws checks.
Local Notation WE := (WorkerEnv G S Mem).
Implicit Types s : WE * Q.

Context (chains : list Chain) (asks : Chain → request) (intact : Q → Mem → Prop).
Context (Hstay : requests_stay (R:=R) (Wr:=Wr) chains asks intact).

(** What is available is among [chains], and the requests are as the driver made them. *)
Definition ready s : Prop := (∀ c, c ∈ lavail s → c ∈ chains) ∧ intact s.2 (we_mem s.1).

(** Between [s] and [s'], chains were taken from the front, and obeyed. *)
Definition section_shown fuel s s' : Prop :=
  ready s → (length (lavail s) < fuel)%nat → ready s' ∧
  ∃ taken, lavail s = taken ++ lavail s' ∧ obeyed_all checks asks taken (we_gpu s.1) (we_gpu s'.1).

#[local] Instance section_shown_preorder fuel : PreOrder (section_shown fuel).
Proof.
  split.
  - intros s Hready _. split; [done|]. exists []. split; [done|]. apply obeyed_all_nil.
  - intros s1 s2 s3 Hleft Hright Hready Hfuel. destruct (Hleft Hready Hfuel) as [Hready2 (t & Ha & Hob)].
    destruct (Hright Hready2) as [Hready3 (t' & Ha' & Hob')]; [rewrite Ha, length_app in Hfuel; lia|].
    split; [done|]. exists (t ++ t'). split; [by rewrite Ha, Ha', app_assoc|].
    by eapply obeyed_all_app.
Qed.

(** A step that leaves the available chains and the GPU alone *)
Lemma section_shown_same fuel s s' :
  lavail s' = lavail s → we_gpu s'.1 = we_gpu s.1 →
  (intact s.2 (we_mem s.1) → intact s'.2 (we_mem s'.1)) → section_shown fuel s s'.
Proof.
  intros Ha Hg Hi [Hin Hint] _. split; [split; [by rewrite Ha|auto]|]. exists []. rewrite Ha, Hg.
  split; [done|]. apply obeyed_all_nil.
Qed.

Lemma process_queue_shown fuel s b s' :
  on_locked (process_queue (R:=R) (Wr:=Wr) fuel) s = (Ret b, s') → section_shown fuel s s'.
Proof using All.
  intros Hrun [Hin Hi] Hfuel. unfold on_locked, zoom in Hrun.
  destruct (process_queue fuel _) as [o qs] eqn:Hproc. injection Hrun as -> <-.
  destruct (process_chains_shown checks chains asks intact Hstay fuel false
      (MkQueueEnv (we_gpu s.1) s.2 (we_mem s.1)) _ _ Hin Hi Hproc)
    as [(taken & lost & Ha & _ & Hlost & Hob) Hi']; [done..|].
  rewrite (Hlost b eq_refl) in Ha. split; [|by exists taken]. split; [|done].
  intros c Hc. apply Hin. change (lavail s) with (avail_of (MkQueueEnv (we_gpu s.1) s.2 (we_mem s.1))).
  rewrite Ha. by apply elem_of_app; right.
Qed.

Lemma locked_section_shown fuel (w w' : WE) q :
  dq_try_lock_queue (we_device w) = Some q → process_if_locked (R:=R) (Wr:=Wr) fuel w = (Ret tt, w') →
  ∃ s', w' = unlock s' ∧ section_shown fuel (w, q) s' ∧
    s' = ((if q_event_idx_enabled q then loop fuel (event_idx_turn (R:=R) (Wr:=Wr) fuel)
           else do! map_err DeviceError (on_locked (process_queue (R:=R) (Wr:=Wr) fuel)) in ret tt) (w, q)).2.
Proof using All.
  intros Hlock Hrun. eapply (section_related fuel (section_shown fuel)); [..|exact Hlock|exact Hrun].
  - intros s o s' Hdis. unfold on_locked, on_queue_mem, zoom in Hdis. simpl in Hdis.
    pose proof (stay_disable _ _ _ Hstay s.2 (we_mem s.1)) as Hd.
    destruct (q_disable_notification (s.2, we_mem s.1)) as [o1 [q1 m1]] eqn:E. injection Hdis as _ <-.
    apply q_disable_notification_views in E as [_ Ha]. by apply section_shown_same.
  - intros s o s' Hen. unfold on_locked, on_queue_mem, zoom in Hen. simpl in Hen.
    pose proof (stay_enable _ _ _ Hstay s.2 (we_mem s.1)) as Hd.
    destruct (q_enable_notification (s.2, we_mem s.1)) as [o1 [q1 m1]] eqn:E. injection Hen as _ <-.
    apply q_enable_notification_views in E as [_ Ha]. by apply section_shown_same.
  - intros s b s'. apply process_queue_shown.
  - intros s d. by apply section_shown_same.
Qed.
End section.

(** ** The system *)

Section system.
Context {D Mem Q W B Sock Region Mmap File Chain R Wr RG GB : Type}.
Context `{EpollLaws W} `{EventSetBits} `{!EventFdOps W, !EventFdLaws W}
  `{!QueueConfig Q Mem, !QueueConfigLaws Q Mem}
  `{VhostUserBits} `{!VhostUserDevice D Mem (Vring Q) Sock} `{!BitmapReplace B}
  `{!GuestMemory Mem Region Mmap File}.
Context `{RutabagaLaws RG} `{GpuBackendLaws GB} `{RutabagaConsts} `{GuestSlices Mem}
  `{!QueueProc Q Mem Chain, !QueueProcLaws Q Mem Chain, !QueueProcSetup Q Mem Chain}
  `{ReaderLaws R} `{WriterLaws Wr} `{!ChainStreams Mem Chain R Wr, !ChainStreamsLaws Q Mem Chain R Wr}
  `{GpuCmdNumbers} `{GpuRespNumbers}.
Context (checks : bool).

Local Notation HD := (VhostUserHandler D Mem Q W B).
Local Notation Sys := (Sys (D:=D) (Mem:=Mem) (Q:=Q) (W:=W) (B:=B) (RG:=RG) (GB:=GB)).
Implicit Types (s : Sys) (h : HD).

(** Ring [i] is running, and its lock shows the queue [q]. *)
Definition serving_at (i : nat) (q : Q) s : Prop :=
  dq_try_lock_queue (DeviceQueue:=handler_queue i) (sys_handler s) = Some q.

(** The worker goes over the queue of a ring. *)
Definition work (i fuel : nat) s : outcome worker_error unit * Sys :=
  on_worker (process_if_locked (H:=rutabaga_virtio_gpu checks) (R:=R) (Wr:=Wr)
    (DQ:=handler_queue i) fuel) s.

(** A step, labelled with the commands about the display that the worker took in it. The
    worker may find either ring, or that it is not running; the steps of the other
    threads leave the display alone ([other_threads_stay]). *)
Inductive watched_step : list (option display_command) → Sys → Sys → Prop :=
| watched_work i fuel q q' taken asks intact s s' :
    serving_at i q s → (length (q_avail q (sys_mem s)) < fuel)%nat →
    requests_stay (R:=R) (Wr:=Wr) (q_avail q (sys_mem s)) asks intact → intact q (sys_mem s) →
    work i fuel s = (Ret tt, s') → serving_at i q' s' →
    q_avail q (sys_mem s) = taken ++ q_avail q' (sys_mem s') →
    watched_step (asked asks taken) s s'
| watched_idle i fuel s :
    dq_try_lock_queue (DeviceQueue:=handler_queue i) (sys_handler s) = None →
    watched_step [] s (work i fuel s).2
| watched_other s s' : stays (sys_gpu s) (sys_gpu s') → watched_step [] s s'.

(** A step of the system is the worker's, or leaves the display alone. *)
Lemma other_threads_stay l s s' :
  sys_step (Sock:=Sock) (File:=File) (R:=R) (Wr:=Wr) checks l s s' →
  (∃ i fuel, s' = (work i fuel s).2) ∨ stays (sys_gpu s) (sys_gpu s').
Proof.
  intros Hstep. destruct Hstep as [r s Ho|i epoll token s|i s|i fuel s|s|fuel fence s|mem s]; simpl;
    try (left; by exists i, fuel); right; try exact (stays_poll checks _).
  2, 3: unfold on_worker, on_device, zoom; simpl; by destruct (on_vring i _ (sys_handler s)).
  2: unfold on_callback, zoom; destruct (fence_handler _ _ _).
  all: split; [done|split; [done|reflexivity]].
Qed.

Lemma work_shown i fuel q asks intact s s' :
  serving_at i q s → (length (q_avail q (sys_mem s)) < fuel)%nat →
  requests_stay (R:=R) (Wr:=Wr) (q_avail q (sys_mem s)) asks intact → intact q (sys_mem s) →
  work i fuel s = (Ret tt, s') →
  ∃ q' taken, serving_at i q' s' ∧ q_avail q (sys_mem s) = taken ++ q_avail q' (sys_mem s') ∧
    obeyed_all checks asks taken (sys_gpu s) (sys_gpu s').
Proof.
  intros Hq Hfuel Hstay Hi Hrun. unfold work, on_worker, zoom in Hrun.
  set (w := MkWorkerEnv (sys_gpu s) (sys_handler s) (sys_mem s)) in Hrun.
  destruct (process_if_locked fuel w) as [o w'] eqn:Hproc. injection Hrun as -> <-.
  destruct (locked_section_shown checks _ asks intact Hstay fuel w w' q Hq Hproc)
    as ([w1 q1] & -> & Hshown & Hsec).
  assert (locked_ok i (sys_handler s) (w1, q1)) as [Hholds Hstep].
  { rewrite Hsec. apply (locked_section checks i (sys_handler s) fuel _ (w, q)).
    exact (lock_ok i w q Hq). }
  destruct Hshown as [_ (taken & Ha & Hob)]; [by split|done|].
  exists q1, taken. split; [by eapply store_lock|done].
Qed.

Lemma watched_performed cmds s s' :
  watched_step cmds s s' → ∃ es, es.*1.*1 = cmds ∧ performed checks es (sys_gpu s) (sys_gpu s').
Proof.
  intros Hstep. destruct Hstep as [i fuel q q' taken asks intact s s' Hq Hfuel Hstay Hi Hrun Hq' Ha
    |i fuel s Hlock|s s' Hst].
  - destruct (work_shown i fuel q asks intact s s' Hq Hfuel Hstay Hi Hrun) as (q1 & taken' & Hq1 & Ha1 & Hob).
    unfold serving_at in *. rewrite Hq' in Hq1. injection Hq1 as <-.
    rewrite Ha in Ha1. apply app_inv_tail in Ha1 as <-. exact Hob.
  - exists []. split; [done|]. apply performed_nil.
    unfold work, on_worker, zoom, process_if_locked, bind, gets. simpl in Hlock |- *. by rewrite Hlock.
  - exists []. split; [done|]. by apply performed_nil.
Qed.

(** Claim C6. What the guest asks for is what the screens show, in every run of the
    system: however the front-end's requests, the worker with its two queues, the callback of
    the renderer and the guest interleave, as long as no thread fails and the driver leaves
    its requests alone while they are worked on, the methods of the GPU that were called are
    those for the commands that the worker took from the queues, in the order in which it
    took them; all the messages that the front-end got are those of these calls; and the
    calls, with their answers and messages, have taken the display from screen to screen,
    unless one of them, when it was called, mishapped on the screen that the GPU had at that
    moment: a shown scanout was given a resource that did not exist, a resource was given
    up while it was shown, or rutabaga created one that existed. *)
Theorem system_displays cmds s s' :
  display_ok (sys_gpu s) → runs watched_step cmds s s' →
  ∃ es, es.*1.*1 = concat cmds ∧ sent (sys_gpu s') = sent (sys_gpu s) ++ concat es.*2 ∧
    (follows checks es (sys_gpu s) (sys_gpu s') ∨ strays checks es (sys_gpu s) (sys_gpu s')).
Proof.
  intros Hok Hruns.
  assert (∃ es, es.*1.*1 = concat cmds ∧ performed checks es (sys_gpu s) (sys_gpu s')) as (es & Hes & Hperf).
  { clear Hok. induction Hruns as [s|c cmds s s1 s' Hstep _ (es' & Hes' & Hperf')]; simpl.
    - exists []. split; [done|]. by apply performed_nil.
    - apply watched_performed in Hstep as (es & <- & Hperf). exists (es ++ es').
      split; [by rewrite !fmap_app, Hes'|]. by eapply performed_app. }
  exists es. split; [done|]. split; [by eapply performed_sent|]. by apply performed_shown.
Qed.
End system.

(** ** Three commands on their way to the screen *)
Module ScreenSystemExamples.
Import Sim SimQueue VringExamples BackendExamples HandlerExamples ProtocolExamples ResponseExamples.
Import GpuExamples GpuDisplayExamples WorkerExamples GpuScreenExamples GpuSystemExamples ConservationExamples.

(** The guest creates resource 9 and shows it on scanout 2; the worker does so; the guest
    flushes the resource; the worker does so; the front-end stops the ring. *)
Definition d1 : chain := chain_of 4 (header RESOURCE_CREATE_2D 0 0) create.
Definition d2 : chain := chain_of 5 (header SET_SCANOUT 0 0) show_9.
Definition d3 : chain := chain_of 7 (header RESOURCE_FLUSH 0 0) flush_9.

Definition add_available (cs : list chain) (s : GSys) : GSys :=
  MkSys (sys_gpu s) (set_guest_mem (GMem (gm_available (sys_mem s) ++ cs) (gm_used (sys_mem s))
    (gm_buffers (sys_mem s))) (sys_handler s)).

Definition u0 : GSys := request_all start (MkSys gpu0 ghandler).
Definition u1 : GSys := add_available [d1; d2] u0.
Definition u2 : GSys := (work (R:=reader) (Wr:=writer) true 0 5 u1).2.
Definition u3 : GSys := add_available [d3] u2.
Definition u4 : GSys := (work (R:=reader) (Wr:=writer) true 0 5 u3).2.
Definition u5 : GSys := request_all [GET_VRING_BASE 0] u4.

Definition shown_commands : list (list (option display_command)) :=
  [[]; asked asks_of [d1; d2]; []; asked asks_of [d3]; []].

Lemma gmem_requests_stay cs :
  requests_stay (R:=reader) (Wr:=writer) (Q:=queue) (Mem:=gmem) cs asks_of (λ _ _, True).
Proof.
  split; try done. by intros c q m r _ _ [= <-].
Qed.

Ltac evaluate := vm_compute; reflexivity.

Lemma system_displays_witness :
  sent (sys_gpu u5) = [GpuSetScanout 2 2 1; full_update 2] ∧
  abs (sys_gpu u5) = show 2 (Some 9) (add_resource 9 2 1 screen_init) ∧
  ∃ es, es.*1.*1 = concat shown_commands ∧ sent (sys_gpu u5) = sent (sys_gpu u0) ++ concat es.*2 ∧
    (follows true es (sys_gpu u0) (sys_gpu u5) ∨ strays true es (sys_gpu u0) (sys_gpu u5)).
Proof.
  split; [vm_compute; reflexivity|]. split; [vm_compute; reflexivity|].
  apply (system_displays (R:=reader) (Wr:=writer) true shown_commands u0 u5); [apply display_ok_new|].
  unfold shown_commands. eapply runs_cons; [apply (watched_other true u0 u1); vm_compute; repeat split; apply rtc_refl|].
  eapply runs_cons.
  { apply (watched_work true 0 5 (queue_at 0) (queue_at 2) [d1; d2] asks_of (λ _ _, True) u1 u2);
      [evaluate|vm_compute; lia|apply gmem_requests_stay|exact I|evaluate..]. }
  eapply runs_cons; [apply (watched_other true u2 u3); vm_compute; repeat split; apply rtc_refl|].
  eapply runs_cons.
  { apply (watched_work true 0 5 (queue_at 2) (queue_at 3) [d3] asks_of (λ _ _, True) u3 u4);
      [evaluate|vm_compute; lia|apply gmem_requests_stay|exact I|evaluate..]. }
  eapply runs_cons; [apply (watched_other true u4 u5); vm_compute; repeat split; apply rtc_refl|apply runs_nil].
Defined.
End ScreenSystemExamples.
