(* ===== verification/GpuLocks.v ===== *)
(** * The locks of the worker and of the fence callback

    Two mutexes are shared by the worker of [worker.rs] and the closure of
    [create_fence_handler] in [virtio_gpu.rs]: that of the control queue, which
    [Vring::try_lock_queue] takes, and that of the [FenceState]. The other files run a
    section that holds a lock as one step. This one looks at the order in which the two
    threads take the locks: a thread is the list of its lock operations, and a step is one
    such operation. The rings are taken to be running, so that [try_lock_queue] locks. *)

From S2P Require Import Prelude Codec GpuProtocol GpuFence GpuWorker.

Inductive lock : Type := QueueLock | FenceLock.
Inductive thread : Type := Worker | Callback.
Inductive lock_op : Type := Acquire (l : lock) | Release (l : lock).

#[export] Instance lock_eq_dec : EqDecision lock.
Proof. solve_decision. Defined.
#[export] Instance thread_eq_dec : EqDecision thread.
Proof. solve_decision. Defined.
#[export] Instance lock_op_eq_dec : EqDecision lock_op.
Proof. solve_decision. Defined.

(** [handle_queue_event] on the control queue, for commands with these headers: the guard
    of the queue lives until the end, and [process_fence] locks the fences for each command
    with a fence. *)
Definition worker_program (hdrs : list virtio_gpu_ctrl_hdr) : list lock_op :=
  [Acquire QueueLock] ++
  (hdrs ≫= λ hdr, if has_flag (ctrl_hdr_flags hdr) VIRTIO_GPU_FLAG_FENCE
                  then [Acquire FenceLock; Release FenceLock] else []) ++
  [Release QueueLock].

(** The callback for a completed fence: the guard of the fences lives until the end, and
    the queue is locked for each descriptor that the fence answers. *)
Definition callback_program (completed_fence : RutabagaFence) (descs : list FenceDescriptor) : list lock_op :=
  [Acquire FenceLock] ++
  (descs ≫= λ d, if bool_decide (fence_matches (fence_ring completed_fence) (rf_fence_id completed_fence) d)
                 then [Acquire QueueLock; Release QueueLock] else []) ++
  [Release FenceLock].

(** ** Threads and mutexes *)

Record locks : Type := MkLocks {
  lk_holder : lock → option thread;
  lk_program : thread → list lock_op;
}.

Definition set_holder (l : lock) (o : option thread) (s : locks) : lock → option thread :=
  λ l', if decide (l' = l) then o else lk_holder s l'.
Definition set_program (t : thread) (p : list lock_op) (s : locks) : thread → list lock_op :=
  λ t', if decide (t' = t) then p else lk_program s t'.

(** The next operation of a thread; acquiring a mutex that is held waits, whoever holds it. *)
Definition thread_step (t : thread) (s : locks) : option locks :=
  match lk_program s t with
  | [] => None
  | Acquire l :: p =>
      match lk_holder s l with
      | None => Some (MkLocks (set_holder l (Some t) s) (set_program t p s))
      | Some _ => None
      end
  | Release l :: p =>
      if decide (lk_holder s l = Some t)
      then Some (MkLocks (set_holder l None s) (set_program t p s)) else None
  end.

Inductive lock_step : locks → locks → Prop :=
| lock_thread t s s' : thread_step t s = Some s' → lock_step s s'.

(** No thread can go on, and one of them is not done. *)
Definition deadlocked (s : locks) : Prop :=
  (∀ t, thread_step t s = None) ∧ ∃ t, lk_program s t ≠ [].

Definition locks_init (hdrs : list virtio_gpu_ctrl_hdr) (fence : RutabagaFence)
    (descs : list FenceDescriptor) : locks :=
  MkLocks (λ _, None)
    (λ t, match t with Worker => worker_program hdrs | Callback => callback_program fence descs end).

(** ** When they can deadlock *)

(** [n] times the inner lock, in a section that holds the outer one *)
Definition pairs (l : lock) (n : nat) : list lock_op := concat (replicate n [Acquire l; Release l]).
Definition nested (outer inner : lock) (n : nat) : list lock_op :=
  Acquire outer :: pairs inner n ++ [Release outer].

Lemma bind_pairs {A} (P : A → bool) l (xs : list A) :
  (xs ≫= λ x, if P x then [Acquire l; Release l] else []) = pairs l (length (filter (λ x, P x = true) xs)).
Proof.
  induction xs as [|x xs IH]; [done|]. rewrite bind_cons, IH, filter_cons.
  by destruct (P x).
Qed.

(** Where a thread is in its program, and what it holds *)
Definition thread_at (outer inner : lock) (n : nat) (t : thread) (s : locks) : Prop :=
  (lk_program s t = nested outer inner n ∧ lk_holder s outer ≠ Some t ∧ lk_holder s inner ≠ Some t) ∨
  (∃ k, (k ≤ n)%nat ∧ lk_program s t = pairs inner k ++ [Release outer] ∧
    lk_holder s outer = Some t ∧ lk_holder s inner ≠ Some t) ∨
  (∃ k, (k < n)%nat ∧ lk_program s t = Release inner :: pairs inner k ++ [Release outer] ∧
    lk_holder s outer = Some t ∧ lk_holder s inner = Some t) ∨
  (lk_program s t = [] ∧ lk_holder s outer ≠ Some t ∧ lk_holder s inner ≠ Some t).

(** A thread's own step keeps it in its program. *)
Lemma thread_at_own outer inner n t s s' :
  outer ≠ inner → thread_at outer inner n t s → thread_step t s = Some s' → thread_at outer inner n t s'.
Proof.
  intros Hne Hat. unfold thread_step.
  destruct Hat as [(Hp & Ho & Hi)|[(k & Hk & Hp & Ho & Hi)|[(k & Hk & Hp & Ho & Hi)|(Hp & Ho & Hi)]]]; rewrite Hp.
  - unfold nested. destruct (lk_holder s outer) eqn:Hfree; intros [= <-]. right; left. exists n.
    unfold set_program, set_holder; simpl. rewrite decide_True by done.
    split; [done|]. split; [done|]. by rewrite decide_True, decide_False by done.
  - destruct k as [|k]; simpl.
    + rewrite decide_True by done. intros [= <-]. right; right; right.
      unfold set_program, set_holder; simpl. rewrite decide_True by done.
      split; [done|]. by rewrite decide_True, decide_False by done.
    + destruct (lk_holder s inner) eqn:Hfree; intros [= <-]. right; right; left. exists k.
      unfold set_program, set_holder; simpl. rewrite decide_True by done.
      split; [lia|]. split; [done|]. by rewrite decide_False, decide_True by done.
  - rewrite decide_True by done. intros [= <-]. right; left. exists k.
    unfold set_program, set_holder; simpl. rewrite decide_True by done.
    split; [lia|]. split; [done|]. by rewrite decide_False, decide_True by done.
  - done.
Qed.

(** What a thread does leaves alone what another thread holds. *)
Lemma thread_step_other t t' s s' :
  thread_step t s = Some s' → t' ≠ t →
  lk_program s' t' = lk_program s t' ∧ ∀ l, lk_holder s' l = Some t' ↔ lk_holder s l = Some t'.
Proof.
  unfold thread_step. intros Hstep Hne. destruct (lk_program s t) as [|[l|l] p]; [done|..].
  - destruct (lk_holder s l) eqn:Hl; [done|]. injection Hstep as <-.
    unfold set_program, set_holder. simpl. rewrite decide_False by done. split; [done|]. intros l'.
    case_decide as Heq; [subst; rewrite Hl; split; congruence|done].
  - case_decide as Hl; [|done]. injection Hstep as <-.
    unfold set_program, set_holder. simpl. rewrite decide_False by done. split; [done|]. intros l'.
    case_decide as Heq; [subst; rewrite Hl; split; congruence|done].
Qed.

Lemma thread_at_other outer inner n t t' s s' :
  thread_at outer inner n t' s → thread_step t s = Some s' → t' ≠ t → thread_at outer inner n t' s'.
Proof.
  intros Hat Hstep Hne. destruct (thread_step_other _ _ _ _ Hstep Hne) as [Hp Hh].
  unfold thread_at in *. rewrite Hp. pose proof (Hh outer). pose proof (Hh inner). naive_solver.
Qed.

(** [k] commands with a fence are left to process, [k'] descriptors to answer. *)
Definition threads_at (n m : nat) (s : locks) : Prop :=
  thread_at QueueLock FenceLock n Worker s ∧ thread_at FenceLock QueueLock m Callback s.

Lemma threads_reach n m s s' : rtc lock_step s s' → threads_at n m s → threads_at n m s'.
Proof.
  induction 1 as [s|s s1 s' Hlock _ IH]; [done|]. intros [Hw Hc]. apply IH.
  destruct Hlock as [[] s s1 Hstep]; split.
  - by eapply thread_at_own.
  - by eapply thread_at_other.
  - by eapply thread_at_other.
  - by eapply thread_at_own.
Qed.

(** A thread that cannot go on is done, or waits for a lock: its outer one before it
    starts, its inner one while it holds the outer one. *)
Lemma thread_stuck outer inner n t s :
  thread_at outer inner n t s → thread_step t s = None →
  (lk_program s t = [] ∧ lk_holder s outer ≠ Some t ∧ lk_holder s inner ≠ Some t) ∨
  (lk_holder s outer ≠ Some t ∧ lk_holder s inner ≠ Some t ∧ is_Some (lk_holder s outer)) ∨
  (n ≠ 0%nat ∧ lk_holder s outer = Some t ∧ lk_holder s inner ≠ Some t ∧ is_Some (lk_holder s inner)).
Proof.
  intros Hat Hstep. unfold thread_step in Hstep.
  destruct Hat as [(Hp & Ho & Hi)|[(k & Hk & Hp & Ho & Hi)|[(k & Hk & Hp & Ho & Hi)|(Hp & Ho & Hi)]]];
    rewrite Hp in Hstep.
  - right; left. simpl in Hstep. destruct (lk_holder s outer); [|done]. split; [done|]. split; [done|by eexists].
  - right; right. destruct k as [|k]; simpl in Hstep; [by rewrite decide_True in Hstep|].
    destruct (lk_holder s inner); [|done]. split; [lia|]. split; [done|]. split; [done|by eexists].
  - by rewrite decide_True in Hstep.
  - by left.
Qed.

Lemma deadlock_needs_both n m s : threads_at n m s → deadlocked s → n ≠ 0%nat ∧ m ≠ 0%nat.
Proof.
  intros [Hw Hc] [Hstuck [t Ht]].
  assert (∀ l, is_Some (lk_holder s l) → lk_holder s l = Some Worker ∨ lk_holder s l = Some Callback) as Hholder.
  { intros l [[] Hl]; auto. }
  pose proof (Hholder QueueLock) as HQ. pose proof (Hholder FenceLock) as HF.
  destruct (thread_stuck _ _ _ _ _ Hw (Hstuck Worker)) as [(Hwp & Hw1 & Hw2)|[(Hw1 & Hw2 & Hw3)|(Hn & Hw1 & Hw2 & Hw3)]],
    (thread_stuck _ _ _ _ _ Hc (Hstuck Callback)) as [(Hcp & Hc1 & Hc2)|[(Hc1 & Hc2 & Hc3)|(Hm & Hc1 & Hc2 & Hc3)]];
    [by destruct t|naive_solver..].
Qed.

(** With a command that asks for a fence and a descriptor that waits for the completed one,
    each thread takes its first lock and then waits for the other's. *)
Lemma deadlock_run n m (s : locks) :
  lk_program s Worker = nested QueueLock FenceLock (S n) →
  lk_program s Callback = nested FenceLock QueueLock (S m) → (∀ l, lk_holder s l = None) →
  ∃ s', rtc lock_step s s' ∧ deadlocked s'.
Proof.
  intros Hw Hc Hfree.
  set (s1 := MkLocks (set_holder QueueLock (Some Worker) s)
    (set_program Worker (pairs FenceLock (S n) ++ [Release QueueLock]) s)).
  set (s2 := MkLocks (set_holder FenceLock (Some Callback) s1)
    (set_program Callback (pairs QueueLock (S m) ++ [Release FenceLock]) s1)).
  exists s2. split.
  - apply rtc_l with s1; [apply (lock_thread Worker)|apply rtc_once, (lock_thread Callback)].
    + unfold thread_step. rewrite Hw. simpl. by rewrite Hfree.
    + unfold thread_step, s1 at 1. simpl. unfold set_program at 1. simpl. rewrite Hc. simpl.
      unfold set_holder at 1. simpl. by rewrite Hfree.
  - split; [|by exists Worker]. by intros [].
Qed.

Lemma filter_length_pos {A} (P : A → Prop) `{!∀ x, Decision (P x)} (xs : list A) :
  length (filter P xs) ≠ 0%nat ↔ ∃ x, x ∈ xs ∧ P x.
Proof.
  split.
  - intros Hlen. destruct (filter P xs) as [|x l] eqn:Hf; [done|]. exists x.
    assert (x ∈ filter P xs) as [HP Hx]%list_elem_of_filter by (rewrite Hf; by constructor). done.
  - intros (x & Hx & HP) Hnil%length_zero_iff_nil. by eapply filter_nil_not_elem_of.
Qed.

(** Claim C19. The worker and the fence callback take the locks of the queue and of the
    fences in opposite orders. When rutabaga reports fences from a thread of its own they
    can deadlock, for good, exactly if the worker is processing a command that asks for a
    fence while the callback answers a descriptor that waits. *)
Theorem fence_locks_deadlock hdrs fence descs :
  (∃ s, rtc lock_step (locks_init hdrs fence descs) s ∧ deadlocked s) ↔
  (∃ hdr, hdr ∈ hdrs ∧ has_flag (ctrl_hdr_flags hdr) VIRTIO_GPU_FLAG_FENCE = true) ∧
  (∃ d, d ∈ descs ∧ fence_matches (fence_ring fence) (rf_fence_id fence) d).
Proof.
  set (n := length (filter (λ hdr, has_flag (ctrl_hdr_flags hdr) VIRTIO_GPU_FLAG_FENCE = true) hdrs)).
  set (m := length (filter (λ d, bool_decide (fence_matches (fence_ring fence) (rf_fence_id fence) d) = true) descs)).
  set (s0 := locks_init hdrs fence descs).
  assert (lk_program s0 Worker = nested QueueLock FenceLock n) as Hw
    by (simpl; unfold worker_program; by rewrite bind_pairs).
  assert (lk_program s0 Callback = nested FenceLock QueueLock m) as Hc
    by (simpl; unfold callback_program; by rewrite bind_pairs).
  split.
  - intros (s & Hreach & Hdead).
    destruct (deadlock_needs_both n m s) as [Hn Hm]; [|done|].
    { apply (threads_reach _ _ s0); [done|]. split; left; by split. }
    split; [exact (proj1 (filter_length_pos _ hdrs) Hn)|].
    apply (proj1 (filter_length_pos _ descs)) in Hm as (d & Hd & HP%bool_decide_eq_true).
    eauto.
  - intros [(hdr & Hhdr & Hflag) (d & Hd & Hmatch)].
    assert (n ≠ 0%nat) as Hn by (apply (proj2 (filter_length_pos _ hdrs)); eauto).
    assert (m ≠ 0%nat) as Hm.
    { apply (proj2 (filter_length_pos _ descs)). exists d. by rewrite bool_decide_eq_true. }
    destruct n as [|n']; [done|]. destruct m as [|m']; [done|]. by apply (deadlock_run n' m').
Qed.
