(* ===== verification/GpuConfig.v ===== *)
(** * The configuration of the GPU: [device/virtio-gpu/src/lib.rs] and the arguments of
    the program, [device/vhost-gpu/src/lib.rs] and [main.rs]

    A configuration is a mode, a set of capabilities that the mode supports, and
    flags. The model is the build with the feature [gfxstream], which is the default.
    The bits of a set of capabilities come from rutabaga's constants; what the
    [bitflags] crate generates for the set is an interface. *)

From S2P Require Import Prelude.

Inductive GpuMode : Type := VirglRenderer | Gfxstream.

Definition display_gpu_mode (mode : GpuMode) : string :=
  match mode with VirglRenderer => "virglrenderer" | Gfxstream => "gfxstream" end.

#[export] Instance GpuMode_eq_dec : EqDecision GpuMode.
Proof. solve_decision. Defined.

(** The numbers of rutabaga's capability sets *)
Class CapsetNumbers : Type := {
  RUTABAGA_CAPSET_VIRGL : Z;
  RUTABAGA_CAPSET_VIRGL2 : Z;
  RUTABAGA_CAPSET_GFXSTREAM_VULKAN : Z;
  RUTABAGA_CAPSET_GFXSTREAM_GLES : Z;
  capset_numbers_range : Forall (λ n, 0 ≤ n < 64)
    [RUTABAGA_CAPSET_VIRGL; RUTABAGA_CAPSET_VIRGL2; RUTABAGA_CAPSET_GFXSTREAM_VULKAN;
     RUTABAGA_CAPSET_GFXSTREAM_GLES];
}.

(** [iter] and [from_bits] of the generated type: the named flags that a set contains,
    which together are the set, and the check that all bits are named. *)
Class CapsetBitflags : Type := {
  capset_iter : Z → list Z;
  capset_from_bits : Z → option Z;
  capset_iter_contained s c : c ∈ capset_iter s → Z.land s c = c;
  capset_iter_union s : foldr Z.lor 0 (capset_iter s) = s;
}.

Section capsets.
Context `{CapsetNumbers}.

(** [GpuCapset] *)
Definition VIRGL : Z := Z.shiftl 1 RUTABAGA_CAPSET_VIRGL.
Definition VIRGL2 : Z := Z.shiftl 1 RUTABAGA_CAPSET_VIRGL2.
Definition ALL_VIRGLRENDERER_CAPSETS : Z := Z.lor VIRGL VIRGL2.
Definition GFXSTREAM_VULKAN : Z := Z.shiftl 1 RUTABAGA_CAPSET_GFXSTREAM_VULKAN.
Definition GFXSTREAM_GLES : Z := Z.shiftl 1 RUTABAGA_CAPSET_GFXSTREAM_GLES.
Definition ALL_GFXSTREAM_CAPSETS : Z := Z.lor GFXSTREAM_VULKAN GFXSTREAM_GLES.

(** [Display] of a set: the names of its flags; a flag without a name is a panic. *)
Definition capset_flag_name {E} (capset : Z) : outcome E string :=
  if decide (capset = VIRGL) then Ret "virgl"%string
  else if decide (capset = VIRGL2) then Ret "virgl2"%string
  else if decide (capset = GFXSTREAM_VULKAN) then Ret "gfxstream-vulkan"%string
  else if decide (capset = GFXSTREAM_GLES) then Ret "gfxstream-gles"%string
  else Panic.

Fixpoint display_flags {E} (first : bool) (capsets : list Z) : outcome E string :=
  match capsets with
  | [] => Ret ""%string
  | capset :: capsets =>
      let separator := if first then ""%string else ", "%string in
      outcome_bind (capset_flag_name capset) (λ name,
        outcome_map (λ rest, separator ++ name ++ rest)%string (display_flags false capsets))
  end.

Definition display_capset {E} `{CapsetBitflags} (capset : Z) : outcome E string :=
  display_flags true (capset_iter capset).
End capsets.

Definition capset_contains (s c : Z) : bool := bool_decide (Z.land s c = c).

(** [u64::count_ones] *)
Fixpoint pos_count_ones (p : positive) : Z :=
  match p with
  | xH => 1
  | xO p => pos_count_ones p
  | xI p => 1 + pos_count_ones p
  end.
Definition count_ones (z : Z) : Z := match z with Zpos p => pos_count_ones p | _ => 0 end.

Definition num_capsets (capset : Z) : Z := count_ones capset.

Record GpuFlags : Type := MkGpuFlags {
  use_egl : bool; use_glx : bool; use_gles : bool; use_surfaceless : bool;
}.

Definition flags_new_default : GpuFlags := MkGpuFlags true false true true.

Record GpuConfig : Type := MkGpuConfig {
  gc_gpu_mode : GpuMode; gc_capset : Z; gc_flags : GpuFlags;
}.

Inductive GpuConfigError : Type :=
| CapsetUnsuportedByMode (gpu_mode : GpuMode) (capset : Z)
| GlesRequiredByGfxstream.

Definition display_config_error {E} `{CapsetNumbers} `{CapsetBitflags} (e : GpuConfigError) :
    outcome E string :=
  match e with
  | CapsetUnsuportedByMode mode capset =>
      outcome_map (λ capset, "The mode " ++ display_gpu_mode mode ++ " does not support " ++ capset ++ " capset")%string
        (display_capset capset)
  | GlesRequiredByGfxstream => Ret "Requested gfxstream-gles capset, but gles is disabled"%string
  end.

Section config.
Context `{CapsetNumbers} `{CapsetBitflags}.

Definition get_default_capset_for_mode (gpu_mode : GpuMode) : Z :=
  match gpu_mode with
  | VirglRenderer => ALL_VIRGLRENDERER_CAPSETS
  | Gfxstream => ALL_GFXSTREAM_CAPSETS
  end.

Definition supported_capset_mask (gpu_mode : GpuMode) : Z :=
  match gpu_mode with
  | VirglRenderer => ALL_VIRGLRENDERER_CAPSETS
  | Gfxstream => ALL_GFXSTREAM_CAPSETS
  end.

(** The loop of [validate_capset] over the flags of the set *)
Fixpoint validate_flags (gpu_mode : GpuMode) (capsets : list Z) : outcome GpuConfigError unit :=
  match capsets with
  | [] => Ret tt
  | capset :: capsets =>
      if negb (capset_contains (supported_capset_mask gpu_mode) capset)
      then Fail (CapsetUnsuportedByMode gpu_mode capset)
      else validate_flags gpu_mode capsets
  end.

Definition validate_capset (gpu_mode : GpuMode) (capset : Z) : outcome GpuConfigError unit :=
  validate_flags gpu_mode (capset_iter capset).

Definition gpu_config_new (gpu_mode : GpuMode) (capset : option Z) (flags : GpuFlags) :
    outcome GpuConfigError GpuConfig :=
  let capset := default (get_default_capset_for_mode gpu_mode) capset in
  outcome_bind (validate_capset gpu_mode capset) (λ _,
    if capset_contains capset GFXSTREAM_GLES && negb (use_gles flags)
    then Fail GlesRequiredByGfxstream
    else Ret (MkGpuConfig gpu_mode capset flags)).

(** ** The arguments of the program *)

Inductive CapsetName : Type := NameVirgl | NameVirgl2 | NameGfxstreamVulkan | NameGfxstreamGles.

(** [capset_name as u64] *)
Definition capset_name_bits (name : CapsetName) : Z :=
  match name with
  | NameVirgl => VIRGL
  | NameVirgl2 => VIRGL2
  | NameGfxstreamVulkan => GFXSTREAM_VULKAN
  | NameGfxstreamGles => GFXSTREAM_GLES
  end.

Definition capset_of_name {E} (name : CapsetName) : outcome E Z :=
  match capset_from_bits (capset_name_bits name) with Some c => Ret c | None => Panic end.

(** [map(CapsetName::into).fold(GpuCapset::empty(), GpuCapset::union)] *)
Fixpoint fold_capsets {E} (acc : Z) (names : list CapsetName) : outcome E Z :=
  match names with
  | [] => Ret acc
  | name :: names => outcome_bind (capset_of_name name) (λ c, fold_capsets (Z.lor acc c) names)
  end.

Definition capset_names_into_capset {E} (names : list CapsetName) : outcome E Z := fold_capsets 0 names.

(** The mode on the command line, [vhost_gpu::GpuMode] *)
Inductive CliGpuMode : Type := CliVirglRenderer | CliGfxstream.

Definition gpu_mode_into (mode : CliGpuMode) : GpuMode :=
  match mode with CliVirglRenderer => VirglRenderer | CliGfxstream => Gfxstream end.

Definition display_cli_mode (mode : CliGpuMode) : string :=
  match mode with CliVirglRenderer => "virglrenderer" | CliGfxstream => "gfxstream" end.

(** The flags of the command line, each of which may be given *)
Record GpuFlagsArgs : Type := MkGpuFlagsArgs {
  arg_use_egl : bool; arg_use_glx : bool; arg_use_gles : bool; arg_use_surfaceless : bool;
}.

Definition flags_args_parsed (egl glx gles surfaceless : option bool) : GpuFlagsArgs :=
  MkGpuFlagsArgs
    (default (use_egl flags_new_default) egl) (default (use_glx flags_new_default) glx)
    (default (use_gles flags_new_default) gles) (default (use_surfaceless flags_new_default) surfaceless).

Definition flags_into (args : GpuFlagsArgs) : GpuFlags :=
  MkGpuFlags (arg_use_egl args) (arg_use_glx args) (arg_use_gles args) (arg_use_surfaceless args).

(** [GpuArgs] after parsing *)
Record GpuArgs : Type := MkGpuArgs {
  ga_socket_path : string;
  ga_gpu_mode : CliGpuMode;
  ga_capset : option (list CapsetName);
  ga_flags : GpuFlagsArgs;
}.

Definition config_from_args (args : GpuArgs) : outcome GpuConfigError (string * GpuConfig) :=
  outcome_bind (match ga_capset args with
                | Some names => outcome_map Some (capset_names_into_capset names)
                | None => Ret None
                end) (λ capset,
    outcome_bind (gpu_config_new (gpu_mode_into (ga_gpu_mode args)) capset (flags_into (ga_flags args))) (λ config,
      Ret (ga_socket_path args, config))).
End config.

(** ** What is accepted *)

Section config_properties.
Context `{CapsetNumbers} `{CapsetBitflags}.

Lemma capset_contains_spec s c : capset_contains s c = true ↔ bits_subset c s.
Proof.
  unfold capset_contains. rewrite bool_decide_eq_true, bits_subset_testbit. split.
  - intros Hs i Hi. rewrite <-Hs, Z.land_spec in Hi. by apply andb_true_iff in Hi as [? _].
  - intros Hs. apply Z.bits_inj. intros i. rewrite Z.land_spec. specialize (Hs i).
    destruct (Z.testbit c i); [by rewrite Hs|apply andb_false_r].
Qed.

Lemma foldr_lor_subset l m : bits_subset (foldr Z.lor 0 l) m ↔ Forall (λ c, bits_subset c m) l.
Proof.
  setoid_rewrite bits_subset_testbit. induction l as [|c l IH]; simpl.
  - split; [constructor|]. intros _ i Hi. by rewrite Z.bits_0 in Hi.
  - rewrite Forall_cons, <-IH. setoid_rewrite Z.lor_spec. setoid_rewrite orb_true_iff. naive_solver.
Qed.

Lemma validate_flags_spec gpu_mode l :
  (Forall (λ c, bits_subset c (supported_capset_mask gpu_mode)) l ∧ validate_flags gpu_mode l = Ret tt) ∨
  (∃ c, c ∈ l ∧ ¬ bits_subset c (supported_capset_mask gpu_mode) ∧
    validate_flags gpu_mode l = Fail (CapsetUnsuportedByMode gpu_mode c)).
Proof.
  induction l as [|c l IH]; simpl; [left; by split|].
  destruct (capset_contains (supported_capset_mask gpu_mode) c) eqn:Hc; simpl.
  - apply capset_contains_spec in Hc. destruct IH as [[Hl ->]|(c' & Hc' & Hn & ->)].
    + left. split; [by constructor|done].
    + right. exists c'. split; [apply elem_of_cons; by right|done].
  - right. exists c. split; [apply elem_of_cons; by left|]. split; [|done].
    intros Hs. apply capset_contains_spec in Hs. congruence.
Qed.

(** [GpuConfig::new] accepts exactly the sets of capabilities that the mode
    supports, the default set of the mode when none is given, and among those that
    contain gfxstream's GLES only with the flag for GLES. The error of an unsupported
    set names a part of it that the mode does not support. *)
Theorem gpu_config_new_spec gpu_mode capset flags :
  let caps := default (get_default_capset_for_mode gpu_mode) capset in
  (bits_subset caps (supported_capset_mask gpu_mode) →
    gpu_config_new gpu_mode capset flags =
      if capset_contains caps GFXSTREAM_GLES && negb (use_gles flags)
      then Fail GlesRequiredByGfxstream else Ret (MkGpuConfig gpu_mode caps flags)) ∧
  (¬ bits_subset caps (supported_capset_mask gpu_mode) →
    ∃ c, c ∈ capset_iter caps ∧ Z.land caps c = c ∧ ¬ bits_subset c (supported_capset_mask gpu_mode) ∧
      gpu_config_new gpu_mode capset flags = Fail (CapsetUnsuportedByMode gpu_mode c)) ∧
  (capset = None → use_gles flags = true → ∃ config, gpu_config_new gpu_mode capset flags = Ret config).
Proof.
  intros caps. unfold gpu_config_new. fold caps. unfold validate_capset.
  destruct (validate_flags_spec gpu_mode (capset_iter caps)) as [[Hall ->]|(c & Hc & Hn & ->)]; simpl.
  - rewrite <-foldr_lor_subset, capset_iter_union in Hall.
    split; [done|]. split; [done|]. intros _ ->. rewrite andb_false_r. by eexists.
  - assert (¬ bits_subset caps (supported_capset_mask gpu_mode)) as Hno.
    { rewrite <-(capset_iter_union caps), foldr_lor_subset, Forall_forall. auto. }
    split; [done|]. split.
    + intros _. exists c. split; [done|]. split; [by apply capset_iter_contained|done].
    + intros -> _. destruct Hno. unfold bits_subset. destruct gpu_mode; apply Z.land_diag.
Qed.
End config_properties.

(** ** Numbers as rutabaga has them *)
Module ConfigExamples.

#[export] Instance numbers : CapsetNumbers.
Proof.
  refine {| RUTABAGA_CAPSET_VIRGL := 1; RUTABAGA_CAPSET_VIRGL2 := 2;
    RUTABAGA_CAPSET_GFXSTREAM_VULKAN := 3; RUTABAGA_CAPSET_GFXSTREAM_GLES := 8 |}.
  repeat constructor; done.
Defined.

Definition named : Z := Z.lor VIRGL (Z.lor VIRGL2 (Z.lor GFXSTREAM_VULKAN GFXSTREAM_GLES)).

(** The named flags of a set, then what is left of it. *)
Definition iter (s : Z) : list Z :=
  filter (λ c, c ≠ 0) [Z.land s VIRGL; Z.land s VIRGL2; Z.land s GFXSTREAM_VULKAN;
    Z.land s GFXSTREAM_GLES; Z.ldiff s named].

Lemma foldr_lor_nonzero l : foldr Z.lor 0 (filter (λ c, c ≠ 0) l) = foldr Z.lor 0 l.
Proof.
  induction l as [|c l IH]; [done|]. rewrite filter_cons. case_decide as Hc; simpl; rewrite IH; [done|].
  by subst.
Qed.

#[export] Instance bitflags : CapsetBitflags.
Proof.
  refine {| capset_iter := iter;
    capset_from_bits b := if bool_decide (Z.ldiff b named = 0) then Some b else None |}.
  - intros s c [_ Hc]%list_elem_of_filter. apply Z.bits_inj. intros i.
    repeat (apply elem_of_cons in Hc as [->|Hc];
      [rewrite ?Z.land_spec, ?Z.ldiff_spec; by destruct (Z.testbit s i)|]).
    by apply elem_of_nil in Hc.
  - intros s. unfold iter. rewrite foldr_lor_nonzero. apply Z.bits_inj. intros i. unfold named. simpl.
    rewrite !Z.lor_spec, !Z.land_spec, Z.ldiff_spec, Z.bits_0, !Z.lor_spec.
    generalize (Z.testbit VIRGL i), (Z.testbit VIRGL2 i), (Z.testbit GFXSTREAM_VULKAN i),
      (Z.testbit GFXSTREAM_GLES i), (Z.testbit s i). by intros [] [] [] [] [].
Defined.

Lemma gpu_config_new_spec_witness :
  (let caps := default (get_default_capset_for_mode Gfxstream) (Some 12) in
   bits_subset caps (supported_capset_mask Gfxstream) → False) ∧
  (config_from_args (MkGpuArgs "/tmp/gpu" CliGfxstream (Some [NameGfxstreamVulkan])
      (flags_args_parsed None None None None)) =
    Ret ("/tmp/gpu"%string, MkGpuConfig Gfxstream 8 flags_new_default)) ∧
  ∃ c, c ∈ capset_iter 12 ∧ Z.land 12 c = c ∧ ¬ bits_subset c (supported_capset_mask Gfxstream) ∧
    gpu_config_new Gfxstream (Some 12) flags_new_default = Fail (CapsetUnsuportedByMode Gfxstream c).
Proof.
  assert (¬ bits_subset 12 (supported_capset_mask Gfxstream)) as Hno by (by vm_compute).
  split; [exact Hno|]. split; [vm_compute; reflexivity|].
  exact (proj1 (proj2 (gpu_config_new_spec Gfxstream (Some 12) flags_new_default)) Hno).
Defined.
End ConfigExamples.
