(* ===== verification/GpuDevice.v ===== *)
(** * The GPU as a device: [device/virtio-gpu/src/device.rs] and its vhost-user backend,
    [device/vhost-gpu/src/lib.rs]

    [GpuDevice] answers for the configuration space and the features, and starts and
    stops the thread of the worker. Activating it runs the thread up to the message
    that its initialisation is over, which is what [activate] waits for; the worker's
    loop runs to its end when [stop] has raised the exit event and joins the thread. *)

From S2P Require Import Prelude EventToken Epoll EventManager VirtQueue Vring VhostBackend Codec.
From S2P Require Import GpuProtocol GpuResponse GpuFence VirtioGpu RutabagaGpu GpuWorker GpuConfig.

(** The feature bits of the [virtio_bindings] crate *)
Class GpuFeatureBits : Type := {
  VIRTIO_F_VERSION_1 : Z;
  VIRTIO_F_RING_RESET : Z;
  VIRTIO_F_NOTIFY_ON_EMPTY : Z;
  VIRTIO_RING_F_INDIRECT_DESC : Z;
  VIRTIO_RING_F_EVENT_IDX_BIT : Z;
  VIRTIO_GPU_F_VIRGL : Z;
  VIRTIO_GPU_F_EDID : Z;
  VIRTIO_GPU_F_RESOURCE_BLOB : Z;
  VIRTIO_GPU_F_CONTEXT_INIT : Z;
}.

(** ** The renderer of a configuration *)

Inductive RutabagaComponentType : Type := ComponentVirglRenderer | ComponentGfxstream.

(** [RutabagaBuilder] *)
Class RutabagaBuild (RB RG : Type) : Type := {
  builder_new : RutabagaComponentType → Z → RB;
  set_use_egl : bool → RB → RB;
  set_use_glx : bool → RB → RB;
  set_use_gles : bool → RB → RB;
  set_use_surfaceless : bool → RB → RB;
  set_use_external_blob : bool → RB → RB;
  builder_build : RB → outcome string RG;
}.

Definition configure_rutabaga_builder {RB RG : Type} `{RutabagaBuild RB RG} (gpu_config : GpuConfig) : RB :=
  let component :=
    match gc_gpu_mode gpu_config with
    | VirglRenderer => ComponentVirglRenderer
    | Gfxstream => ComponentGfxstream
    end in
  let flags := gc_flags gpu_config in
  set_use_external_blob true
    (set_use_surfaceless (use_surfaceless flags)
      (set_use_gles (use_gles flags)
        (set_use_glx (use_glx flags)
          (set_use_egl (use_egl flags) (builder_new component (gc_capset gpu_config)))))).

Definition build_rutabaga {RB RG : Type} `{RutabagaBuild RB RG} (gpu_config : GpuConfig) : outcome string RG :=
  builder_build (configure_rutabaga_builder gpu_config).

(** The thread that [activate] spawned: in the loop of its worker, or over. *)
Inductive worker_thread (K Mem G : Type) : Type :=
| ThreadRuns (w : GpuWorker) (control_queue cursor_queue : K) (gpu : G) (mem : Mem)
| ThreadReturned
| ThreadPanicked.
Arguments ThreadRuns {K Mem G}.
Arguments ThreadReturned {K Mem G}.
Arguments ThreadPanicked {K Mem G}.

Record GpuDevice (K Mem G GB : Type) : Type := MkGpuDevice {
  gd_virtio_cfg : VirtioGpuConfig;
  gd_acked_features : Z;
  gd_worker_thread : option (worker_thread K Mem G);
  gd_exit_event : Z;
  gd_gpu_backend : option GB;
  gd_gpu_config : GpuConfig;
}.
Arguments MkGpuDevice {K Mem G GB}.
Arguments gd_virtio_cfg {K Mem G GB}.
Arguments gd_acked_features {K Mem G GB}.
Arguments gd_worker_thread {K Mem G GB}.
Arguments gd_exit_event {K Mem G GB}.
Arguments gd_gpu_backend {K Mem G GB}.
Arguments gd_gpu_config {K Mem G GB}.

Section gpu_device.
(** [K] is the type of the queues that [activate] is given, handles of queues in the
    device world [S]. *)
Context {K S Q Mem Chain R Wr RG GB : Type} `{Rutabaga RG} `{GpuBackend GB} `{RutabagaConsts}
  `{GuestSlices Mem} `{QueueProc Q Mem Chain} `{!QueueConfig Q Mem} `{ReaderOps R} `{WriterOps Wr}
  `{ChainStreams Mem Chain R Wr} `{GpuCmdNumbers} `{GpuRespNumbers} `{EpollOps S} `{EventSetBits}
  `{EventFdOps S} `{EventFdMake S} `{GpuFeatureBits}.
Context (dq_of : K → DeviceQueue S Q) (arc_of : Z → EpollArc).
(** the renderer that the builder makes for a configuration *)
Context (rutabaga_build : GpuConfig → outcome string RG).
Context (checks : bool).

Local Notation G := (RutabagaVirtioGpu RG GB).
Local Notation GD := (GpuDevice K Mem G GB).

(** The device and the world that it shares with the rest of the process. *)
Definition GE : Type := GD * S.

Definition gpu_device_new (gpu_config : GpuConfig) : M S device_error GD :=
  let! exit_event := map_err (λ _, EventFdFailed) efd_new in
  ret (MkGpuDevice
    (Mk_VirtioGpuConfig 0 0 VIRTIO_GPU_MAX_SCANOUTS (num_capsets (gc_capset gpu_config)))
    0 None exit_event None gpu_config).

Definition set_gpu_backend (v : option GB) (d : GD) : GD :=
  MkGpuDevice (gd_virtio_cfg d) (gd_acked_features d) (gd_worker_thread d) (gd_exit_event d) v
    (gd_gpu_config d).
Definition set_gpu_worker_thread (v : option (worker_thread K Mem G)) (d : GD) : GD :=
  MkGpuDevice (gd_virtio_cfg d) (gd_acked_features d) v (gd_exit_event d) (gd_gpu_backend d)
    (gd_gpu_config d).
Definition set_gpu_acked_features (v : Z) (d : GD) : GD :=
  MkGpuDevice (gd_virtio_cfg d) v (gd_worker_thread d) (gd_exit_event d) (gd_gpu_backend d)
    (gd_gpu_config d).

Definition on_gd {E} (f : GD → GD) : M GE E unit := modify (λ s, (f s.1, s.2)).
Definition on_gpu_world {E A} (m : M S E A) : M GE E A := zoom snd (λ w s, (s.1, w)) m.

Definition device_set_gpu_socket {E} (gpu_backend : GB) : M GE E unit :=
  on_gd (set_gpu_backend (Some gpu_backend)).

Definition gpu_avail_features : Z :=
  foldr Z.lor 0 (Z.shiftl 1 <$> [VIRTIO_F_VERSION_1; VIRTIO_F_RING_RESET; VIRTIO_F_NOTIFY_ON_EMPTY;
    VIRTIO_RING_F_INDIRECT_DESC; VIRTIO_RING_F_EVENT_IDX_BIT; VIRTIO_GPU_F_VIRGL; VIRTIO_GPU_F_EDID;
    VIRTIO_GPU_F_RESOURCE_BLOB; VIRTIO_GPU_F_CONTEXT_INIT]).

Definition gpu_set_acked_features {E} (acked_features : Z) : M GE E unit :=
  on_gd (set_gpu_acked_features (Z.land acked_features gpu_avail_features)).

Definition gpu_queues : list QueueArgs := [MkQueueArgs 256; MkQueueArgs 256].

(** Slicing panics behind the end of the structure. *)
Definition gpu_read_config (offset : Z) (data : bytes) (s : GE) : outcome string bytes :=
  let cfg := as_slice (gd_virtio_cfg s.1) in
  if bool_decide (offset ≤ Z.of_nat (length cfg)) then
    let cfg_slice := drop (Z.to_nat offset) cfg in
    if bool_decide (length cfg_slice ≠ length data) then Fail "Invalid length"%string
    else Ret cfg_slice
  else Panic.

Definition gpu_write_config (offset : Z) (data : bytes) : M GE string unit :=
  fail "Not supported"%string.

(** The closure of the thread up to its message: what the thread has become, and what
    the channel delivers, nothing when the thread panics before. *)
Definition worker_thread_init (control_queue cursor_queue : K) (mem : Mem) (gpu_config : GpuConfig)
    (gpu_backend : GB) (exit_event : Z) (w : S) :
    worker_thread K Mem G * option (outcome worker_error unit) * S :=
  match rutabaga_build gpu_config with
  | Ret rutabaga =>
      let gpu := gpu_new rutabaga gpu_backend in
      let run := gpu_worker_new (H:=rutabaga_virtio_gpu checks)
        (dq_of control_queue) (dq_of cursor_queue) arc_of (MkEventFd exit_event)
        (MkWorkerEnv gpu w mem) in
      match run with
      | (Ret worker, s) =>
          (ThreadRuns worker control_queue cursor_queue (we_gpu s) (we_mem s), Some (Ret tt), we_device s)
      | (Fail e, s) => (ThreadReturned, Some (Fail e), we_device s)
      | (_, s) => (ThreadPanicked, None, we_device s)
      end
  | _ => (ThreadPanicked, None, w)
  end.

(** [rx.recv()?], the message of an error of the worker being left open *)
Definition received {E} (err : E) (msg : option (outcome worker_error unit)) : outcome E unit :=
  match msg with
  | Some (Ret tt) => Ret tt
  | _ => Fail err
  end.

Definition gpu_activate (mem : Mem) (queues : gmap nat K) : M GE string unit :=
  let! exit_event := gets (λ s, gd_exit_event s.1) in
  let! exit_event := map_err (λ _, "Clone exit event"%string) (on_gpu_world (efd_try_clone exit_event)) in
  let! control_queue := lift (ok_or (queues !! CONTROL_QUEUE) "Missing control queue"%string) in
  let! cursor_queue := lift (ok_or (queues !! CURSOR_QUEUE) "Missing control queue"%string) in
  let! backend := gets (λ s, gd_gpu_backend s.1) in
  do! on_gd (set_gpu_backend None) in
  match backend with
  | None => fail "Device cannot be activated because GpuBackend is missing"%string
  | Some gpu_backend =>
      let! gpu_config := gets (λ s, gd_gpu_config s.1) in
      let! world := gets snd in
      let '(thread, msg, world) :=
        worker_thread_init control_queue cursor_queue mem gpu_config gpu_backend exit_event world in
      do! on_gpu_world (put world) in
      do! on_gd (set_gpu_worker_thread (Some thread)) in
      lift (received "initialization failed"%string msg)
  end.

(** [worker_thread.join().unwrap()] *)
Definition join_worker (fuel : nat) (thread : worker_thread K Mem G) : M S string unit :=
  match thread with
  | ThreadReturned => ret tt
  | ThreadPanicked => panic
  | ThreadRuns worker control_queue cursor_queue gpu mem =>
      λ w,
        let '(o, s) := gpu_worker_run (H:=rutabaga_virtio_gpu checks) (R:=R) (Wr:=Wr)
          (dq_of control_queue) (dq_of cursor_queue) fuel worker (MkWorkerEnv gpu w mem) in
        (outcome_unwrap o, we_device s)
  end.

Definition gpu_stop (fuel : nat) : M GE string unit :=
  let! worker_thread := gets (λ s, gd_worker_thread s.1) in
  do! on_gd (set_gpu_worker_thread None) in
  match worker_thread with
  | None => ret tt
  | Some thread =>
      let! exit_event := gets (λ s, gd_exit_event s.1) in
      do! unwrap (on_gpu_world (efd_write exit_event 1)) in
      on_gpu_world (join_worker fuel thread)
  end.

#[export] Instance gpu_virtio_device (fuel : nat) : VirtioDevice GE Mem K := {|
  vd_device_type _ := Panic;
  vd_avail_features _ := gpu_avail_features;
  vd_acked_features s := gd_acked_features s.1;
  vd_set_acked_features := gpu_set_acked_features;
  vd_queues _ := gpu_queues;
  vd_read_config := gpu_read_config;
  vd_write_config := gpu_write_config;
  vd_activate := gpu_activate;
  vd_stop := gpu_stop fuel;
  vd_reset := default_reset (gpu_stop fuel);
|}.

(** ** [VhostUserGpuBackend], a wrapper of the device *)

Context `{VhostUserBits}.
(** [MQ | CONFIG | REPLY_ACK | BACKEND_SEND_FD] *)
Context (MQ CONFIG BACKEND_SEND_FD : Z).

Definition gpu_protocol_features (s : GE) : Z :=
  Z.lor (Z.lor (Z.lor MQ CONFIG) REPLY_ACK) BACKEND_SEND_FD.

Definition vhost_user_gpu_backend (fuel : nat) : VhostUserDevice GE Mem K GB :=
  implementer_device (H:=gpu_virtio_device fuel) id (λ d _, d) gpu_protocol_features
    device_set_gpu_socket.
End gpu_device.

(** ** Activation and configuration *)

Section gpu_device_properties.
Context {K S Q Mem Chain R Wr RG GB : Type} `{Rutabaga RG} `{GpuBackend GB} `{RutabagaConsts}
  `{GuestSlices Mem} `{QueueProc Q Mem Chain} `{!QueueConfig Q Mem} `{ReaderOps R} `{WriterOps Wr}
  `{ChainStreams Mem Chain R Wr} `{GpuCmdNumbers} `{GpuRespNumbers} `{EpollOps S} `{EventSetBits}
  `{EventFdOps S} `{EventFdMake S} `{GpuFeatureBits}.
Context (dq_of : K → DeviceQueue S Q) (arc_of : Z → EpollArc).
Context (rutabaga_build : GpuConfig → outcome string RG).
Context (checks : bool).

Local Notation G := (RutabagaVirtioGpu RG GB).
Local Notation GE := (GpuDevice K Mem G GB * S)%type.
Local Notation gpu_activate := (gpu_activate dq_of arc_of rutabaga_build checks).
Implicit Types s : GE.

(** The device keeps any set of features that it offers, as its trait asks. *)
Lemma gpu_stores_acked_features fuel s :
  stores_acked_features (H:=gpu_virtio_device (R:=R) (Wr:=Wr) dq_of arc_of rutabaga_build checks fuel) s.
Proof.
  intros f Hf. eexists. split; [reflexivity|]. simpl. exact Hf.
Qed.

Lemma activate_without_socket mem queues s :
  gd_gpu_backend s.1 = None → (gpu_activate mem queues s).1 ≠ Ret tt.
Proof.
  intros Hno. unfold GpuDevice.gpu_activate. erewrite bind_Ret by done.
  unfold bind at 1, map_err at 1, on_gpu_world at 1, zoom at 1.
  destruct (efd_try_clone (gd_exit_event s.1) s.2) as [[fd|e| |] w]; simpl; [|done..].
  unfold bind, lift, ok_or, gets. simpl.
  destruct (queues !! CONTROL_QUEUE); [|done]. destruct (queues !! CURSOR_QUEUE); [|done].
  by rewrite Hno.
Qed.

(** A successful activation has the worker's thread in its loop, with the
    control and the cursor queue that were given, and has used up the GPU socket: the
    device cannot be activated again before the front-end sends another one. *)
Theorem gpu_activate_once mem queues s s' :
  gpu_activate mem queues s = (Ret tt, s') →
  (∃ w control cursor gpu mem',
    gd_worker_thread s'.1 = Some (ThreadRuns w control cursor gpu mem') ∧
    queues !! CONTROL_QUEUE = Some control ∧ queues !! CURSOR_QUEUE = Some cursor) ∧
  gd_gpu_backend s'.1 = None ∧
  ∀ mem2 queues2, (gpu_activate mem2 queues2 s').1 ≠ Ret tt.
Proof.
  intros Hrun.
  assert ((∃ w control cursor gpu mem',
    gd_worker_thread s'.1 = Some (ThreadRuns w control cursor gpu mem') ∧
    queues !! CONTROL_QUEUE = Some control ∧ queues !! CURSOR_QUEUE = Some cursor) ∧
    gd_gpu_backend s'.1 = None) as [Hthread Hno].
  { unfold GpuDevice.gpu_activate in Hrun.
    apply bind_inv_Ret in Hrun as (fd0 & s0 & [= <- <-] & Hrun).
    apply bind_inv_Ret in Hrun as (fd & s1 & _ & Hrun).
    apply bind_inv_Ret in Hrun as (control & s2 & [= Hc <-] & Hrun). unfold ok_or in Hc.
    destruct (queues !! CONTROL_QUEUE) as [c|]; [|done]. injection Hc as ->.
    apply bind_inv_Ret in Hrun as (cursor & s3 & [= Hr <-] & Hrun). unfold ok_or in Hr.
    destruct (queues !! CURSOR_QUEUE) as [r|]; [|done]. injection Hr as ->.
    apply bind_inv_Ret in Hrun as (backend & s4 & [= <- <-] & Hrun).
    apply bind_inv_Ret in Hrun as ([] & s5 & [= <-] & Hrun).
    destruct (gd_gpu_backend s1.1) as [gb|]; [|done].
    apply bind_inv_Ret in Hrun as (config & s6 & [= <- <-] & Hrun).
    apply bind_inv_Ret in Hrun as (world & s7 & [= <- <-] & Hrun).
    destruct (worker_thread_init _ _ _ _ _ _ _ _ _ _ _) as [[thread msg] world'] eqn:Hinit.
    apply bind_inv_Ret in Hrun as ([] & s8 & [= <-] & Hrun).
    apply bind_inv_Ret in Hrun as ([] & s9 & [= <-] & [= Hmsg <-]). simpl.
    unfold worker_thread_init in Hinit. split; [|done].
    destruct (rutabaga_build _); simplify_eq/=.
    destruct (gpu_worker_new _ _ _ _ _) as [[w|e| |] s10]; simplify_eq/=.
    by eexists _, _, _, _, _. }
  split; [done|]. split; [done|]. intros mem2 queues2.
  by apply activate_without_socket.
Qed.

(** The configuration space can only be read up to its end: a read has to ask
    for exactly the bytes from its offset on, any other length is an error, and an
    offset behind the end is a panic. A read of all of it gives the configuration. *)
Theorem gpu_read_config_spec offset data s :
  valid (gd_virtio_cfg s.1) → 0 ≤ offset →
  gpu_read_config offset data s =
    (if bool_decide (16 < offset) then Panic
     else if bool_decide (Z.of_nat (length data) = 16 - offset)
     then Ret (drop (Z.to_nat offset) (as_slice (gd_virtio_cfg s.1)))
     else Fail "Invalid length"%string) ∧
  (length data = 16%nat →
    ∃ bs, gpu_read_config 0 data s = Ret bs ∧ from_slice bs = gd_virtio_cfg s.1).
Proof.
  intros Hv Hoff. assert (length (as_slice (gd_virtio_cfg s.1)) = 16%nat) as Hlen
    by (by rewrite length_as_slice).
  assert (∀ o, 0 ≤ o → gpu_read_config o data s =
    if bool_decide (16 < o) then Panic
    else if bool_decide (Z.of_nat (length data) = 16 - o)
    then Ret (drop (Z.to_nat o) (as_slice (gd_virtio_cfg s.1)))
    else Fail "Invalid length"%string) as Hspec.
  { intros o Ho. unfold gpu_read_config. rewrite Hlen, length_drop, Hlen.
    destruct (decide (16 < o)).
    - by rewrite (bool_decide_eq_true_2 (16 < o)), (bool_decide_eq_false_2 (o ≤ _)) by lia.
    - rewrite (bool_decide_eq_false_2 (16 < o)), (bool_decide_eq_true_2 (o ≤ _)) by lia.
      destruct (decide (Z.of_nat (length data) = 16 - o)).
      + by rewrite bool_decide_eq_false_2, bool_decide_eq_true_2 by lia.
      + by rewrite bool_decide_eq_true_2, bool_decide_eq_false_2 by lia. }
  split; [by apply Hspec|]. intros Hd. rewrite Hspec, Hd by done.
  eexists. split; [reflexivity|]. change (Z.to_nat 0) with 0%nat. rewrite drop_0.
  by apply from_as_slice.
Qed.
End gpu_device_properties.

(** ** A device on a concrete renderer and kernel *)
Module GpuDeviceExamples.
Import Epoll.Sim VringExamples ProtocolExamples ResponseExamples GpuExamples WorkerExamples.

#[export] Instance feature_bits : GpuFeatureBits := {|
  VIRTIO_F_VERSION_1 := 32; VIRTIO_F_RING_RESET := 40; VIRTIO_F_NOTIFY_ON_EMPTY := 24;
  VIRTIO_RING_F_INDIRECT_DESC := 28; VIRTIO_RING_F_EVENT_IDX_BIT := 29;
  VIRTIO_GPU_F_VIRGL := 0; VIRTIO_GPU_F_EDID := 1; VIRTIO_GPU_F_RESOURCE_BLOB := 3;
  VIRTIO_GPU_F_CONTEXT_INIT := 4;
|}.

#[export] Instance efd_make : EventFdMake world := {|
  efd_new := ret 50;
  efd_try_clone fd := ret (fd + 1);
|}.

(** A queue whose kicks arrive on a descriptor; it is not processed here. *)
Definition kick_on (fd : Z) : DeviceQueue world SimQueue.queue := {|
  dq_try_lock_queue _ := None;
  dq_store _ w := w;
  dq_signal_used_queue := ret tt;
  dq_kick_register arc token := epoll_ctl (arc_raw arc) CtlAdd fd (EpollEvent ES_IN token);
  dq_read_kick := ret false;
|}.

Definition config : GpuConfig := MkGpuConfig VirglRenderer 6 flags_new_default.
Definition device0 : GpuDevice Z SimQueue.mem G (list gpu_message) :=
  MkGpuDevice (Mk_VirtioGpuConfig 0 0 16 2) 0 None 50 (Some []) config.
Definition memory : SimQueue.mem := SimQueue.Mem [] None [].
Definition state0 : GpuDevice Z SimQueue.mem G (list gpu_message) * world := (device0, empty_world).
Definition activate queues s :=
  gpu_activate kick_on (λ ep, MkEpollArc ep ep) (λ _, Ret 0%nat) true memory queues s.
Definition two_queues : gmap nat Z := <[CONTROL_QUEUE := 60]> (<[CURSOR_QUEUE := 61]> ∅).
Definition state1 := (activate two_queues state0).2.

Lemma gpu_activate_once_witness :
  (activate two_queues state0).1 = Ret tt ∧
  (∃ w control cursor gpu mem',
    gd_worker_thread state1.1 = Some (ThreadRuns w control cursor gpu mem') ∧
    two_queues !! CONTROL_QUEUE = Some control ∧ two_queues !! CURSOR_QUEUE = Some cursor) ∧
  gd_gpu_backend state1.1 = None ∧
  ∀ mem2 queues2, (gpu_activate kick_on (λ ep, MkEpollArc ep ep) (λ _, Ret 0%nat) true mem2 queues2
    state1).1 ≠ Ret tt.
Proof.
  split; [vm_compute; reflexivity|].
  refine (gpu_activate_once kick_on (λ ep, MkEpollArc ep ep) (λ _, Ret 0%nat) true memory two_queues
    state0 state1 _).
  vm_compute. reflexivity.
Defined.

Lemma gpu_read_config_spec_witness :
  gpu_read_config 8 (replicate 4 0) state0 =
    (if bool_decide (16 < 8) then Panic
     else if bool_decide (Z.of_nat (length (replicate 4 0)) = 16 - 8)
     then Ret (drop (Z.to_nat 8) (as_slice (gd_virtio_cfg state0.1)))
     else Fail "Invalid length"%string) ∧
  gpu_read_config 8 (replicate 4 0) state0 = Fail "Invalid length"%string.
Proof.
  split; [|vm_compute; reflexivity].
  refine (proj1 (gpu_read_config_spec 8 (replicate 4 0) state0 _ _)); [|done].
  by repeat split.
Defined.
End GpuDeviceExamples.
