(* ===== verification/GpuProgram.v ===== *)
(** * The GPU program: [device/vhost-gpu/src/lib.rs] and [main.rs]

    [main] turns the arguments into a configuration, makes the device, wraps it in the
    backend and has a daemon serve its socket. What [clap] parsed is the input; the
    program ends with a status, or with a panic of the main thread. *)

From S2P Require Import Prelude EventToken Epoll EventManager VirtQueue Vring VhostBackend Bitmap.
From S2P Require Import VhostHandler VhostDaemon GpuProtocol GpuResponse GpuFence VirtioGpu RutabagaGpu.
From S2P Require Import GpuWorker GpuConfig GpuDevice.

(** How a process ends *)
Inductive process_end : Type := Exited (status : Z) | Aborted | StillRunning.

Inductive StartError : Type :=
| CouldNotCreateBackend (e : device_error)
| CouldNotCreateDaemon (e : VhostDaemon.Error)
| ServeFailed (e : VhostDaemon.Error).

Section gpu_program.
Context {S Q Mem Chain R Wr RG GB W Conn Listener : Type} `{Rutabaga RG} `{GpuBackend GB}
  `{RutabagaConsts} `{GuestSlices Mem} `{QueueProc Q Mem Chain} `{!QueueConfig Q Mem} `{ReaderOps R}
  `{WriterOps Wr} `{ChainStreams Mem Chain R Wr} `{GpuCmdNumbers} `{GpuRespNumbers} `{EpollOps S}
  `{EventSetBits} `{EventFdOps S} `{EventFdMake S} `{GpuFeatureBits} `{VhostUserBits}.
Context `{CapsetNumbers} `{CapsetBitflags}.
Context (dq_of : Vring Q → DeviceQueue S Q) (arc_of : Z → EpollArc).
Context {RB : Type} `{!RutabagaBuild RB RG} (checks : bool).
Context (MQ CONFIG BACKEND_SEND_FD : Z).

Local Notation D := (GpuDevice (Vring Q) Mem (RutabagaVirtioGpu RG GB) GB * S)%type.
Local Notation HD := (VhostUserHandler D Mem Q W ()).
Context `{VhostSockets HD Conn Listener}.

(** [VhostUserGpuBackend] *)
Definition gpu_backend_device (fuel : nat) : VhostUserDevice D Mem (Vring Q) GB :=
  vhost_user_gpu_backend (R:=R) (Wr:=Wr) dq_of arc_of (build_rutabaga (RB:=RB)) checks MQ CONFIG BACKEND_SEND_FD fuel.

(** [mem] is the empty guest memory that the daemon is made with, [w] and [env] are the
    worlds of the device and of the handler. *)
Definition start_backend (fuel : nat) (socket_path : string) (config : GpuConfig)
    (mem : GuestMem Mem ()) (env : Env W) (w : S) : outcome StartError unit :=
  let '(device, w) := gpu_device_new config w in
  outcome_bind (outcome_map_err CouldNotCreateBackend device) (λ device,
    let backend := (device, w) in
    let handler := handler_new (H4:=gpu_backend_device fuel) backend mem env in
    outcome_bind (outcome_map_err CouldNotCreateDaemon (daemon_new "vhost-gpu-backend" handler)) (λ daemon,
      outcome_map_err ServeFailed (serve fuel socket_path daemon).1)).

(** [error!("{e}"); exit(1)]: the message is made before the program ends. *)
Definition log_and_exit (e : GpuConfigError) : process_end :=
  match display_config_error (E:=()) e with
  | Ret message => Exited 1
  | _ => Aborted
  end.

(** The messages of the errors of the daemon are those of their crates. *)
Definition main (fuel : nat) (args : GpuArgs) (mem : GuestMem Mem ()) (env : Env W) (w : S) : process_end :=
  match config_from_args args with
  | Ret (socket_path, config) =>
      match start_backend fuel socket_path config mem env w with
      | Ret _ => Exited 0
      | Fail _ => Exited 1
      | Panic => Aborted
      | NoFuel => StillRunning
      end
  | Fail e => log_and_exit e
  | Panic => Aborted
  | NoFuel => StillRunning
  end.

(** ** How the program ends *)

(** The capabilities that the arguments ask for *)
Definition requested (args : GpuArgs) : Z :=
  default (get_default_capset_for_mode (gpu_mode_into (ga_gpu_mode args)))
    ((λ names, foldl Z.lor 0 (capset_name_bits <$> names)) <$> ga_capset args).

Definition accepted (args : GpuArgs) : Prop :=
  bits_subset (requested args) (supported_capset_mask (gpu_mode_into (ga_gpu_mode args))) ∧
  (capset_contains (requested args) GFXSTREAM_GLES = true → use_gles (flags_into (ga_flags args)) = true).

(** The status, from the way the conversation with the front-end ended *)
Definition status_of (o : outcome VhostUserError unit) : process_end :=
  match o with
  | Ret _ | Fail (SocketBroken _) | Fail Disconnected | Fail PartialMessage => Exited 0
  | Fail _ | Panic => Exited 1
  | NoFuel => StillRunning
  end.

(** How the program ends where its last stage ended with [o] *)
Definition end_of {E A} (o : outcome E A) : process_end :=
  match o with Ret _ => Exited 0 | Fail _ => Exited 1 | Panic => Aborted | NoFuel => StillRunning end.

(** The configuration that the arguments stand for *)
Definition config_of (args : GpuArgs) : GpuConfig :=
  MkGpuConfig (gpu_mode_into (ga_gpu_mode args)) (requested args) (flags_into (ga_flags args)).

Local Notation device_new :=
  (gpu_device_new (K:=Vring Q) (Mem:=Mem) (RG:=RG) (GB:=GB)).

(** The device and then the handler have been made: what the daemon serves with. *)
Inductive made (fuel : nat) (args : GpuArgs) (mem : GuestMem Mem ()) (env : Env W) (w : S) (h0 : HD) : Prop :=
| made_by device w1 :
    accepted args → device_new (config_of args) w = (Ret device, w1) →
    handler_new (H4:=gpu_backend_device fuel) (device, w1) mem env = Ret h0 → made fuel args mem env w h0.

(** The ends of the program, by the stage that it reached *)
Inductive program_ends (fuel : nat) (args : GpuArgs) (mem : GuestMem Mem ()) (env : Env W) (w : S) :
    process_end → Prop :=
| ends_arguments : ¬ accepted args → program_ends fuel args mem env w (Exited 1)
| ends_device :
    accepted args → stops (device_new (config_of args) w).1 →
    program_ends fuel args mem env w (end_of (device_new (config_of args) w).1)
| ends_handler device w1 :
    accepted args → device_new (config_of args) w = (Ret device, w1) →
    let handler := handler_new (H4:=gpu_backend_device fuel) (device, w1) mem env in
    stops handler → program_ends fuel args mem env w (end_of handler)
| ends_served h0 r :
    made fuel args mem env w h0 → served fuel (ga_socket_path args) "vhost-gpu-backend" h0 r →
    program_ends fuel args mem env w (end_of r).

(** The front-end hung up. *)
Definition hung_up (o : outcome VhostUserError unit) : Prop :=
  match o with Fail (SocketBroken _) | Fail Disconnected | Fail PartialMessage => True | _ => False end.

(** [from_bits] knows every named flag, and [iter] takes a set of them apart into single
    flags: the unions of two flags that are named as well come after their parts. *)
Definition single_flags : list Z := [VIRGL; VIRGL2; GFXSTREAM_VULKAN; GFXSTREAM_GLES].
Context (Hiter : ∀ s c, bits_subset s (foldr Z.lor 0 single_flags) → c ∈ capset_iter s → c ∈ single_flags).
Context (Hnames : ∀ name, capset_from_bits (capset_name_bits name) = Some (capset_name_bits name)).

Lemma fold_capsets_run {E} names acc :
  fold_capsets (E:=E) acc names = Ret (foldl Z.lor acc (capset_name_bits <$> names)).
Proof.
  revert acc. induction names as [|name names IH]; intros acc; [done|]. simpl.
  unfold capset_of_name. rewrite Hnames. apply IH.
Qed.

Lemma config_from_args_run args :
  config_from_args args =
    outcome_bind (gpu_config_new (gpu_mode_into (ga_gpu_mode args)) (Some (requested args)) (flags_into (ga_flags args))) (λ config,
      Ret (ga_socket_path args, config)).
Proof.
  unfold config_from_args, requested, capset_names_into_capset.
  destruct (ga_capset args) as [names|]; [|done]. by rewrite fold_capsets_run.
Qed.

Lemma config_accepted args :
  accepted args → config_from_args args = Ret (ga_socket_path args, config_of args).
Proof.
  unfold accepted. rewrite config_from_args_run. unfold config_of.
  generalize (gpu_mode_into (ga_gpu_mode args)), (flags_into (ga_flags args)). intros mode flags [Hsub Hgles].
  destruct (gpu_config_new_spec mode (Some (requested args)) flags) as [Hok _].
  simpl in Hok. rewrite Hok by done.
  destruct (capset_contains _ _); [by rewrite Hgles by done|done].
Qed.

(** The message about flags that have names *)
Lemma display_flags_run {E} first capsets :
  (∀ c, c ∈ capsets → c ∈ single_flags) → ∃ message, display_flags (E:=E) first capsets = Ret message.
Proof.
  revert first. induction capsets as [|c capsets IH]; intros first Hall; simpl; [by eexists|].
  assert (∃ name, capset_flag_name (E:=E) c = Ret name) as [name ->].
  { assert (c ∈ single_flags) as Hc by (apply Hall; by constructor).
    unfold capset_flag_name, single_flags in *. repeat case_decide; [by eexists..|]. set_solver. }
  simpl. destruct (IH false) as [rest ->]; [|by eexists]. intros c' Hc'. apply Hall. by constructor.
Qed.

Lemma requested_named args : bits_subset (requested args) (foldr Z.lor 0 single_flags).
Proof.
  unfold requested. destruct (ga_capset args) as [names|]; simpl.
  - assert (∀ acc, bits_subset acc (foldr Z.lor 0 single_flags) →
      bits_subset (foldl Z.lor acc (capset_name_bits <$> names)) (foldr Z.lor 0 single_flags)) as Hfold.
    { induction names as [|name names IH]; intros acc Hacc; [done|]. simpl. apply IH.
      apply bits_subset_testbit. intros i. rewrite Z.lor_spec. intros [Hi|Hi]%orb_true_iff.
      - revert i Hi. by apply bits_subset_testbit.
      - unfold single_flags. simpl. rewrite !Z.lor_spec. by destruct name; simpl in Hi; rewrite Hi, ?orb_true_r. }
    apply Hfold, bits_subset_testbit. intros i. by rewrite Z.bits_0.
  - apply bits_subset_testbit. intros i. unfold single_flags. simpl. rewrite !Z.lor_spec.
    destruct (ga_gpu_mode args); simpl; unfold ALL_VIRGLRENDERER_CAPSETS, ALL_GFXSTREAM_CAPSETS;
      rewrite Z.lor_spec; intros [->| ->]%orb_true_iff; by rewrite ?orb_true_r.
Qed.

(** Whatever is wrong with the arguments has a message. *)
Lemma config_rejected args :
  ¬ accepted args → ∃ e message, config_from_args args = Fail e ∧ display_config_error (E:=()) e = Ret message.
Proof.
  unfold accepted. rewrite config_from_args_run. pose proof (requested_named args) as Hnamed.
  generalize (gpu_mode_into (ga_gpu_mode args)), (flags_into (ga_flags args)). intros mode flags Hno.
  destruct (gpu_config_new_spec mode (Some (requested args)) flags) as (Hok & Hbad & _). simpl in *.
  destruct (decide (bits_subset (requested args) (supported_capset_mask mode))) as [Hsub|Hsub].
  - rewrite Hok by done. destruct (capset_contains _ _) eqn:Hc; [destruct (use_gles _) eqn:Hg|].
    + by destruct Hno; split.
    + by do 2 eexists.
    + destruct Hno. split; [done|congruence].
  - destruct (Hbad Hsub) as (c & Hc & Hcontained & _ & ->). simpl. unfold display_capset.
    destruct (display_flags_run (E:=()) true (capset_iter c)) as [message Hmessage].
    { intros c'. apply Hiter. apply bits_subset_testbit. intros i Hi.
      rewrite <-Hcontained, Z.land_spec in Hi. apply andb_true_iff in Hi as [Hi _].
      by apply (proj1 (bits_subset_testbit _ _) Hnamed). }
    do 2 eexists. split; [done|]. simpl. unfold display_capset. by rewrite Hmessage.
Qed.

(** The end that the stages determine is the one the program comes to. *)
Lemma main_ends fuel args mem env w e : program_ends fuel args mem env w e → main fuel args mem env w = e.
Proof.
  unfold main. intros [Hargs|Hargs Hdev|device w1 Hargs Hdev handler Hh|h0 r [device w1 Hargs Hdev Hh] Hr].
  - destruct (config_rejected args Hargs) as (err & message & -> & Hmessage).
    unfold log_and_exit. by rewrite Hmessage.
  - rewrite config_accepted by done. unfold start_backend.
    by destruct (device_new (config_of args) w) as [[] w1].
  - rewrite config_accepted by done. unfold start_backend. rewrite Hdev. simpl. unfold handler in *.
    by destruct (handler_new (device, w1) mem env).
  - rewrite config_accepted by done. unfold start_backend. rewrite Hdev. simpl. rewrite Hh. simpl.
    rewrite (serve_served fuel _ (MkVhostUserDaemon "vhost-gpu-backend" h0 None) r Hr). by destruct r.
Qed.

(** There is such an end, unless a call is still going on. *)
Lemma main_covered fuel args mem env w :
  main fuel args mem env w = StillRunning ∨ ∃ e, program_ends fuel args mem env w e.
Proof.
  destruct (decide (bits_subset (requested args) (supported_capset_mask (gpu_mode_into (ga_gpu_mode args))) ∧
    (capset_contains (requested args) GFXSTREAM_GLES = true → use_gles (flags_into (ga_flags args)) = true)))
    as [Hargs|Hargs]; [|right; eexists; by apply ends_arguments].
  destruct (device_new (config_of args) w) as [[device|e| |] w1] eqn:Hdev.
  2,3: right; eexists; apply ends_device; [done|]; by rewrite Hdev.
  2: left; unfold main; rewrite config_accepted by done; unfold start_backend; by rewrite Hdev.
  destruct (handler_new (H4:=gpu_backend_device fuel) (device, w1) mem env) as [h0|e| |] eqn:Hh.
  2,3: right; eexists; apply (ends_handler _ _ _ _ _ _ _ Hargs Hdev); by rewrite Hh.
  2: left; unfold main; rewrite config_accepted by done; unfold start_backend; rewrite Hdev; simpl; by rewrite Hh.
  destruct (serve_covered fuel (ga_socket_path args) (MkVhostUserDaemon "vhost-gpu-backend" h0 None))
    as [[r Hr]|Hrun].
  - right. exists (end_of r). eapply ends_served; [by econstructor|exact Hr].
  - left. unfold main. rewrite config_accepted by done. unfold start_backend. rewrite Hdev. simpl.
    rewrite Hh. simpl. by rewrite Hrun.
Qed.

(** Serving that ended well had a conversation that the front-end ended. *)
Lemma served_well fuel path name h0 r :
  served fuel path name h0 r → end_of r = Exited 0 →
  ∃ c h4 n o h5, connected fuel path name h0 c h4 ∧ conversation c n o h4 h5 ∧ (n < fuel)%nat ∧ hung_up o.
Proof.
  intros [Ho|l0 h1 _ Ho|l h2 k o _ Hk _|l h2 k c h3 _ _ _ Ho|c h4 n o h5 Hc Hconv Hn] Hend.
  - by destruct (listener_new path h0).1.
  - by destruct (backend_listener_new l0 h1).1.
  - assert (stops o) as Ho by (clear -Hk; by induction Hk). by destruct o.
  - by destruct (thread_spawn name h3).1.
  - exists c, h4, n, o, h5. split_and!; [done..|].
    assert (∀ a, o ≠ Ret a) as Hret by (clear -Hconv; induction Hconv; auto).
    destruct o as [a|err| |]; [by destruct (Hret a)|by destruct err|done..].
Qed.

End gpu_program.

(** ** The program with a front-end that claims the session *)
Module GpuProgramExamples.
Import Epoll.Sim SimQueue VringExamples BackendExamples HandlerExamples ProtocolExamples ResponseExamples GpuExamples WorkerExamples.
Import ConfigExamples GpuDeviceExamples.

Local Notation D := (GpuDevice (Vring SimQueue.queue) SimQueue.mem G (list gpu_message) * world)%type.
Local Notation HD := (VhostUserHandler D SimQueue.mem SimQueue.queue world ()).

(** The front-end claims the session once, and then breaks the connection [broken], or
    sends a request that makes the handler panic. *)
#[export] Instance one_owner : VhostSockets HD bool bool := {|
  backend_connect _ := ret true;
  listener_new path := if bool_decide (path = "/tmp/gpu"%string) then ret true else fail (OtherError 13);
  backend_listener_new := ret;
  backend_accept broken := ret (Some broken);
  handle_request (broken : bool) := λ h,
    if h_owned h then (if broken then Fail (SocketBroken 104) else Panic, h)
    else set_owner h;
  thread_spawn _ := ret tt;
|}.

(** A builder that keeps nothing *)
#[export] Instance plain_builder : RutabagaBuild () nat := {|
  builder_new _ _ := tt;
  set_use_egl _ b := b;
  set_use_glx _ b := b;
  set_use_gles _ b := b;
  set_use_surfaceless _ b := b;
  set_use_external_blob _ b := b;
  builder_build _ := Ret 0%nat;
|}.

Definition dq (v : Vring SimQueue.queue) : DeviceQueue world SimQueue.queue := kick_on 60.
Definition args : GpuArgs :=
  MkGpuArgs "/tmp/gpu" CliVirglRenderer (Some [NameVirgl2]) (flags_args_parsed None None None None).

Lemma known_names name : capset_from_bits (capset_name_bits name) = Some (capset_name_bits name).
Proof. by destruct name. Qed.

Lemma land_single s n : 0 ≤ n → Z.land s (2 ^ n) = 0 ∨ Z.land s (2 ^ n) = 2 ^ n.
Proof.
  intros Hn. destruct (Z.testbit s n) eqn:Hs; [right|left]; apply Z.bits_inj; intros i;
    rewrite Z.land_spec, ?Z.bits_0, Z.pow2_bits_eqb by done; destruct (Z.eqb_spec n i); subst;
    rewrite ?Hs; by rewrite ?andb_false_r.
Qed.

Lemma known_iter s c : bits_subset s (foldr Z.lor 0 single_flags) → c ∈ capset_iter s → c ∈ single_flags.
Proof.
  intros Hs [Hc Hin]%list_elem_of_filter.
  assert (Z.ldiff s named = 0) as Hrest by (apply land_ldiff_zero; exact Hs).
  rewrite Hrest in Hin. unfold single_flags.
  rewrite !elem_of_cons, elem_of_nil in *.
  pose proof (land_single s 1 ltac:(done)). pose proof (land_single s 2 ltac:(done)).
  pose proof (land_single s 3 ltac:(done)). pose proof (land_single s 8 ltac:(done)).
  unfold VIRGL, VIRGL2, GFXSTREAM_VULKAN, GFXSTREAM_GLES in *. simpl in *.
  rewrite !Z.shiftl_1_l in *. lia.
Qed.

(** The renderer's mode does not support gfxstream's sets. *)
Definition bad_args : GpuArgs :=
  MkGpuArgs "/tmp/gpu" CliVirglRenderer (Some [NameGfxstreamGles]) (flags_args_parsed None None (Some false) None).

Definition run (args : GpuArgs) : process_end :=
  main (R:=reader) (Wr:=writer) dq (λ ep, MkEpollArc ep ep) true 1 2 4 3 args
    (MkGuestMem memory ∅ []) env0 empty_world.

(** The arguments are refused, the path cannot be bound, and the front-end hangs up. *)
Definition other_path : GpuArgs :=
  MkGpuArgs "/root/gpu" CliVirglRenderer (Some [NameVirgl2]) (flags_args_parsed None None None None).

End GpuProgramExamples.

