(* ===== verification/PortQueueMapping.v ===== *)
(** * Which queue belongs to which port: [device/virtio-console/src/port_queue_mapping.rs]

    Port 0 has the queues 0 and 1, the two control queues come next, and every other
    port has a pair of queues behind them. Ports and queues are indices ([usize]) of
    vectors that exist, far from the end of the type, and are natural numbers here. *)

From S2P Require Import Prelude.

Inductive QueueDirection : Type := Rx | Tx.

#[export] Instance QueueDirection_eq_dec : EqDecision QueueDirection.
Proof. solve_decision. Defined.

Definition port_id_to_queue_idx (queue_direction : QueueDirection) (port_id : nat) : nat :=
  match queue_direction with
  | Rx => if bool_decide (port_id = 0%nat) then 0 else 2 + 2 * port_id
  | Tx => if bool_decide (port_id = 0%nat) then 1 else 2 + 2 * port_id + 1
  end.

Definition queue_idx_to_port_id (queue_index : nat) : outcome unit (QueueDirection * nat) :=
  let port_id :=
    match queue_index with
    | 0 | 1 => Ret 0%nat
    | 2 | 3 => Panic
    | _ => Ret (Nat.div queue_index 2 - 1)%nat
    end%nat in
  let direction := if bool_decide (Nat.modulo queue_index 2 = 0%nat) then Rx else Tx in
  outcome_map (pair direction) port_id.

Definition num_queues (num_ports : nat) : nat := 2 + 2 * num_ports.

(** The queues of one port, in both directions. *)
Lemma port_queues_ge port_id d :
  port_id ≠ 0%nat → port_id_to_queue_idx d port_id = (2 + 2 * port_id + (if decide (d = Tx) then 1 else 0))%nat.
Proof. intros. destruct d; simpl; rewrite bool_decide_eq_false_2 by done; lia. Qed.

Lemma port_id_to_queue_idx_inj d1 p1 d2 p2 :
  port_id_to_queue_idx d1 p1 = port_id_to_queue_idx d2 p2 → d1 = d2 ∧ p1 = p2.
Proof. destruct d1, d2; simpl; repeat case_bool_decide; intros; split; (done || lia). Qed.

Lemma port_id_to_queue_idx_control d p :
  port_id_to_queue_idx d p ≠ 2%nat ∧ port_id_to_queue_idx d p ≠ 3%nat.
Proof. destruct d; simpl; case_bool_decide; lia. Qed.

Lemma queue_idx_to_port_id_of d p : queue_idx_to_port_id (port_id_to_queue_idx d p) = Ret (d, p).
Proof.
  destruct (decide (p = 0%nat)) as [->|Hp]; [by destruct d|].
  rewrite port_queues_ge by done. unfold queue_idx_to_port_id.
  set (i := (2 + 2 * p + (if decide (d = Tx) then 1 else 0))%nat).
  assert (i / 2 = S p ∧ (i mod 2 = if decide (d = Tx) then 1 else 0))%nat as [Hdiv Hmod].
  { pose proof (Nat.div_mod_eq i 2). pose proof (Nat.mod_upper_bound i 2 ltac:(done)).
    unfold i in *. destruct d; simpl in *; split; lia. }
  assert (4 ≤ i)%nat as Hi by (unfold i; destruct d; simpl; lia).
  clearbody i. do 4 (destruct i as [|i]; [lia|]). rewrite Hdiv, Hmod.
  unfold outcome_map, outcome_bind. rewrite Nat.sub_succ, Nat.sub_0_r. by destruct d.
Qed.

Lemma port_id_to_queue_idx_bound d p n :
  (port_id_to_queue_idx d p < num_queues (S n))%nat ↔ (p < S n)%nat.
Proof. unfold num_queues. destruct d; simpl; case_bool_decide; lia. Qed.

Lemma queue_idx_of_port i : (∃ d p, i = port_id_to_queue_idx d p) ∨ i = 2%nat ∨ i = 3%nat.
Proof.
  destruct i as [|[|[|[|i]]]]; [left; by exists Rx, 0%nat|left; by exists Tx, 0%nat|auto|auto|left].
  destruct (Nat.Even_or_Odd i) as [[m ->]|[m ->]]; [exists Rx, (S m)|exists Tx, (S m)];
    rewrite port_queues_ge by done; simpl; lia.
Qed.

(** The mapping is a bijection between the two directions of the ports and the
    queues that are not control queues: each way undoes the other, the control queues 2
    and 3 belong to no port and asking for theirs panics, and with [S n] ports the device
    has exactly the queues of those ports and the control queues. *)
Theorem queue_mapping_bijection n :
  (∀ d p, queue_idx_to_port_id (port_id_to_queue_idx d p) = Ret (d, p)) ∧
  (∀ i, match queue_idx_to_port_id i with
        | Ret (d, p) => port_id_to_queue_idx d p = i
        | Panic => i = 2%nat ∨ i = 3%nat
        | _ => False
        end) ∧
  (∀ d p, (port_id_to_queue_idx d p < num_queues (S n))%nat ↔ (p < S n)%nat).
Proof.
  split; [apply queue_idx_to_port_id_of|]. split; [|intros; apply port_id_to_queue_idx_bound].
  intros i. unfold queue_idx_to_port_id.
  destruct i as [|[|[|[|i]]]]; [done|done|by left|by right|]. cbn [outcome_map outcome_bind].
  set (j := S (S (S (S i)))).
  pose proof (Nat.div_mod_eq j 2). pose proof (Nat.mod_upper_bound j 2 ltac:(done)).
  assert (j / 2 - 1 ≠ 0)%nat by (unfold j in *; lia).
  rewrite port_queues_ge by done. clearbody j.
  generalize dependent (Nat.div j 2). generalize dependent (Nat.modulo j 2). intros r Hr q Hq Hne.
  case_bool_decide; simpl; lia.
Qed.
