(* ===== verification/ConsoleControl.v ===== *)
(** * The messages of the console: [ConsoleControl] of [device/virtio-console/src/console_control.rs]

    The device tells the driver about its ports with messages in the control receive
    queue. [ConsoleControl] keeps the messages that have not been delivered; it is
    shared by the main worker and the threads of the ports, behind a lock that each
    operation holds for all of its step. The threads of a console run on a [ConsoleEnv]:
    the device world, guest memory and the shared messages. *)

From Stdlib Require Import Ascii.
From S2P Require Import Prelude Epoll VirtQueue Codec.

(** [control_event] of [device.rs] *)
Definition VIRTIO_CONSOLE_DEVICE_READY : Z := 0.
Definition VIRTIO_CONSOLE_PORT_ADD : Z := 1.
Definition VIRTIO_CONSOLE_PORT_REMOVE : Z := 2.
Definition VIRTIO_CONSOLE_PORT_READY : Z := 3.
Definition VIRTIO_CONSOLE_CONSOLE_PORT : Z := 4.
Definition VIRTIO_CONSOLE_RESIZE : Z := 5.
Definition VIRTIO_CONSOLE_PORT_OPEN : Z := 6.
Definition VIRTIO_CONSOLE_PORT_NAME : Z := 7.

Record VirtioConsoleControl : Type := MkVirtioConsoleControl {
  vcc_id : Z;
  vcc_event : Z;
  vcc_value : Z;
}.

Record VirtioConsoleResize : Type := MkVirtioConsoleResize { vcr_rows : Z; vcr_cols : Z }.

Definition le16 : codec Z := le_codec 2 ltac:(done).

#[export] Instance VirtioConsoleControl_layout : ByteValued VirtioConsoleControl :=
  layout (le32 ** le16 ** le16)
    (λ c, (vcc_id c, vcc_event c, vcc_value c))
    (λ '(id, event, value), MkVirtioConsoleControl id event value).

#[export] Instance VirtioConsoleResize_layout : ByteValued VirtioConsoleResize :=
  layout (le16 ** le16)
    (λ r, (vcr_rows r, vcr_cols r)) (λ '(rows, cols), MkVirtioConsoleResize rows cols).

Inductive Payload : Type :=
| PayloadConsoleControl (msg : VirtioConsoleControl)
| PayloadBytes (bs : bytes).

(** [Deref for Payload] *)
Definition payload_deref (p : Payload) : bytes :=
  match p with
  | PayloadConsoleControl b => as_slice b
  | PayloadBytes b => b
  end.

Record ConsoleControl : Type := MkConsoleControl {
  cc_queue : list Payload;
  cc_queue_evt : Z;
}.

(** The bytes of a string, [as_bytes] *)
Fixpoint string_bytes (s : string) : bytes :=
  match s with
  | EmptyString => []
  | String c s => Z.of_nat (nat_of_ascii c) :: string_bytes s
  end.

(** [as u16] of a [bool] *)
Definition bool_u16 (b : bool) : Z := if b then 1 else 0.

(** What the threads of a console run on. *)
Record ConsoleEnv (S Mem : Type) : Type := MkConsoleEnv {
  ce_world : S;
  ce_mem : Mem;
  ce_control : ConsoleControl;
}.
Arguments MkConsoleEnv {S Mem}.
Arguments ce_world {S Mem}.
Arguments ce_mem {S Mem}.
Arguments ce_control {S Mem}.

Section control.
Context {S Mem : Type} `{EventFdOps S} `{EventFdMake S}.

Local Notation CE := (ConsoleEnv S Mem).

Definition on_world {E A} : M S E A → M CE E A :=
  zoom ce_world (λ w s, MkConsoleEnv w (ce_mem s) (ce_control s)).

Definition set_queue (f : list Payload → list Payload) (s : CE) : CE :=
  MkConsoleEnv (ce_world s) (ce_mem s)
    (MkConsoleControl (f (cc_queue (ce_control s))) (cc_queue_evt (ce_control s))).

Definition console_control_new {E} : M S E ConsoleControl :=
  let! queue_evt := unwrap efd_new in
  ret (MkConsoleControl [] queue_evt).

(** Appending a payload and waking the main worker; an error of that is only logged. *)
Definition push_payload {E} (p : Payload) : M CE E unit :=
  do! modify (set_queue (λ queue, queue ++ [p])) in
  let! control := gets ce_control in
  do! attempt (on_world (efd_write (cc_queue_evt control) 1)) in
  ret tt.

Definition push_msg {E} (msg : VirtioConsoleControl) : M CE E unit :=
  push_payload (PayloadConsoleControl msg).

Definition push_vec {E} (buf : bytes) : M CE E unit := push_payload (PayloadBytes buf).

Definition mark_console_port {E} (port_id : Z) : M CE E unit :=
  push_msg (MkVirtioConsoleControl port_id VIRTIO_CONSOLE_CONSOLE_PORT 1).

Definition console_resize {E} (port_id : Z) (new_size : VirtioConsoleResize) : M CE E unit :=
  push_vec (as_slice (MkVirtioConsoleControl port_id VIRTIO_CONSOLE_RESIZE 0) ++ as_slice new_size).

Definition port_add {E} (port_id : Z) : M CE E unit :=
  push_msg (MkVirtioConsoleControl port_id VIRTIO_CONSOLE_PORT_ADD 0).

Definition port_open {E} (port_id : Z) (open : bool) : M CE E unit :=
  push_msg (MkVirtioConsoleControl port_id VIRTIO_CONSOLE_PORT_OPEN (bool_u16 open)).

Definition port_name {E} (port_id : Z) (name : string) : M CE E unit :=
  push_vec (as_slice (MkVirtioConsoleControl port_id VIRTIO_CONSOLE_PORT_NAME 1) ++ string_bytes name).

Definition queue_pop {E} : M CE E (option Payload) :=
  let! control := gets ce_control in
  match cc_queue control with
  | [] => ret None
  | p :: queue => do! modify (set_queue (λ _, queue)) in ret (Some p)
  end.

(** [get_win_size]: columns and rows *)
Definition get_win_size : Z * Z := (80, 24).
End control.

(** ** The queue of messages *)

Section control_properties.
Context {S Mem : Type} `{EpollOps S} `{EventFdOps S} `{!EventFdLaws S}.

Local Notation CE := (ConsoleEnv S Mem).
Implicit Types s : CE.

Definition messages s : list Payload := cc_queue (ce_control s).

(** A message is appended, whether or not the event can be written. *)
Lemma push_payload_run {E} p s :
  push_payload (E:=E) p s =
    (Ret tt, MkConsoleEnv (efd_write (cc_queue_evt (ce_control s)) 1 (ce_world s)).2 (ce_mem s)
      (MkConsoleControl (messages s ++ [p]) (cc_queue_evt (ce_control s)))).
Proof.
  unfold push_payload, bind, modify, gets, attempt, on_world, zoom. simpl.
  by destruct (efd_write_result (cc_queue_evt (ce_control s)) 1 (ce_world s))
    as [[w' ->]|(e & w' & ->)].
Qed.

(** The state after a message was appended *)
Definition pushed p s : CE :=
  MkConsoleEnv (efd_write (cc_queue_evt (ce_control s)) 1 (ce_world s)).2 (ce_mem s)
    (MkConsoleControl (messages s ++ [p]) (cc_queue_evt (ce_control s))).

Lemma push_payload_pushed {E} p s : push_payload (E:=E) p s = (Ret tt, pushed p s).
Proof. apply push_payload_run. Qed.

Lemma push_payload_bind {E A} p (k : unit → M CE E A) s : bind (push_payload p) k s = k tt (pushed p s).
Proof. unfold bind. by rewrite push_payload_run. Qed.

Lemma messages_pushed p s : messages (pushed p s) = messages s ++ [p].
Proof. done. Qed.

(** What is sent for a port, in the order of the calls, is what the driver gets. *)
Lemma push_payload_messages {E} p s :
  (push_payload (E:=E) p s).1 = Ret tt ∧
  messages (push_payload (E:=E) p s).2 = messages s ++ [p] ∧
  ce_mem (push_payload (E:=E) p s).2 = ce_mem s.
Proof. by rewrite push_payload_run. Qed.

Lemma queue_pop_run {E} s :
  queue_pop (E:=E) s = (Ret (head (messages s)), set_queue (λ _, tail (messages s)) s).
Proof.
  unfold queue_pop, bind, gets. unfold messages. destruct s as [w m [[|p q] evt]]; done.
Qed.
End control_properties.
