(* ===== verification/PortIo.v ===== *)
(** * Input and output of ports: [device/virtio-console/src/port_io.rs]

    A port reads into guest memory and writes from it through file descriptors. The
    guest memory of the [vm_memory] crate is an interface: slices of it, the dirty
    bitmap, and [try_access], which hands a callback the pieces of a range of guest
    memory, one after the other. The descriptors of a chain and the system calls are
    interfaces as well. *)

From S2P Require Import Prelude EventToken Epoll EventManager VirtQueue.

(** ** Guest memory *)

(** [GuestMemoryError], as far as it is seen here *)
Inductive GuestMemoryError : Type :=
| InvalidGuestAddress
| CallbackOutOfRange
| GmIOError (e : errno).

(** A [VolatileSlice]: a range of guest addresses inside one region *)
Record VolatileSlice : Type := MkSlice { vs_addr : Z; vs_len : Z }.

(** A [Descriptor] of the [virtio_queue] crate, and the two iterators over a chain *)
Record Descriptor : Type := MkDescriptor { desc_addr : Z; desc_len : Z }.

Class ChainDescs (Mem Chain : Type) : Type := {
  chain_readable_descs : Mem → Chain → list Descriptor;
  chain_writable_descs : Mem → Chain → list Descriptor;
}.

(** The length of a descriptor is a [u32]. *)
Class ChainDescsLaws (Mem Chain : Type) `{ChainDescs Mem Chain} : Prop := {
  readable_descs_len m c : Forall (λ d, 0 ≤ desc_len d) (chain_readable_descs m c);
  writable_descs_len m c : Forall (λ d, 0 ≤ desc_len d) (chain_writable_descs m c);
}.

Class GuestAccess (Mem : Type) : Type := {
  (* the bytes, which of them are mapped, and the dirty ones *)
  mem_byte : Mem → Z → Z;
  mem_mapped : Mem → Z → bool;
  mem_dirty : Mem → Z → bool;
  (* the slice lies inside one region *)
  mem_slice : Mem → VolatileSlice → Prop;
  (* filling a slice from its start, and [slice.bitmap().mark_dirty(offset, len)] *)
  mem_fill : VolatileSlice → bytes → Mem → Mem;
  mem_mark_dirty : VolatileSlice → Z → Z → Mem → Mem;
  (* [mem.try_access(count, addr, callback)] *)
  mem_try_access {St : Type} : Mem → Z → Z →
    (VolatileSlice → M St GuestMemoryError Z) → M St GuestMemoryError Z;
}.

(** A piece of a range, in one region, and empty only when nothing is left of the range *)
Definition piece {Mem} `{GuestAccess Mem} (m : Mem) (count addr total len : Z) : Prop :=
  mem_slice m (MkSlice (addr + total) len) ∧ (len = 0 → total = count).

(** [try_access]: the callback is called on the pieces of the range, each inside one
    region, from the first byte on; after it has handled [n > 0] bytes it is called
    again for the rest, and the number of bytes is returned when the range is done, the
    callback handles 0 bytes, or the rest is not mapped. An error of the callback is
    returned at once. *)
Inductive accessed {Mem St : Type} `{GuestAccess Mem} (m : Mem) (count addr : Z)
    (f : VolatileSlice → M St GuestMemoryError Z) :
    Z → St → outcome GuestMemoryError Z → St → Prop :=
| acc_unmapped total s :
    mem_mapped m (addr + total) = false →
    accessed m count addr f total s
      (if bool_decide (total = 0) then Fail InvalidGuestAddress else Ret total) s
| acc_stop total len s s' :
    0 ≤ len ≤ count - total → piece m count addr total len →
    f (MkSlice (addr + total) len) s = (Ret 0, s') →
    accessed m count addr f total s (Ret total) s'
| acc_end total len n s s' :
    0 < len ≤ count - total → piece m count addr total len →
    f (MkSlice (addr + total) len) s = (Ret n, s') → 0 < n → total + n = count →
    accessed m count addr f total s (Ret count) s'
| acc_more total len n s s1 o s' :
    0 < len ≤ count - total → piece m count addr total len →
    f (MkSlice (addr + total) len) s = (Ret n, s1) → 0 < n → total + n < count →
    accessed m count addr f (total + n) s1 o s' →
    accessed m count addr f total s o s'
| acc_range total len n s s' :
    0 ≤ len ≤ count - total → piece m count addr total len →
    f (MkSlice (addr + total) len) s = (Ret n, s') → 0 < n → count < total + n →
    accessed m count addr f total s (Fail CallbackOutOfRange) s'
| acc_fail total len o s s' :
    0 ≤ len ≤ count - total → piece m count addr total len →
    f (MkSlice (addr + total) len) s = (o, s') → (∀ n, o ≠ Ret n) →
    accessed m count addr f total s o s'.

(** The address of a byte of a slice *)
Definition in_slice (v : VolatileSlice) (a : Z) : Prop := vs_addr v ≤ a < vs_addr v + vs_len v.

#[export] Instance in_slice_dec v a : Decision (in_slice v a).
Proof. unfold in_slice. apply _. Defined.

Class GuestAccessLaws (Mem : Type) `{GuestAccess Mem} : Prop := {
  mem_fill_byte v bs m a : Z.of_nat (length bs) ≤ vs_len v →
    mem_byte (mem_fill v bs m) a =
      if bool_decide (vs_addr v ≤ a < vs_addr v + Z.of_nat (length bs))
      then default 0 (bs !! Z.to_nat (a - vs_addr v)) else mem_byte m a;
  mem_fill_dirty v bs m a : mem_dirty (mem_fill v bs m) a = mem_dirty m a;
  mem_fill_mapped v bs m a : mem_mapped (mem_fill v bs m) a = mem_mapped m a;
  mem_mark_byte v off len m a : mem_byte (mem_mark_dirty v off len m) a = mem_byte m a;
  mem_mark_mapped v off len m a : mem_mapped (mem_mark_dirty v off len m) a = mem_mapped m a;
  mem_fill_slice v bs m v' : mem_slice (mem_fill v bs m) v' ↔ mem_slice m v';
  mem_mark_slice v off len m v' : mem_slice (mem_mark_dirty v off len m) v' ↔ mem_slice m v';
  (* at least the range is marked, and nothing is unmarked *)
  mem_mark_dirty_at v off len m a : mem_slice m v → 0 ≤ off → off + len ≤ vs_len v →
    vs_addr v + off ≤ a < vs_addr v + off + len → mem_dirty (mem_mark_dirty v off len m) a = true;
  mem_mark_dirty_mono v off len m a : mem_slice m v → 0 ≤ off → 0 ≤ len → off + len ≤ vs_len v →
    mem_dirty m a = true → mem_dirty (mem_mark_dirty v off len m) a = true;
  mem_try_access_accessed {St} (m : Mem) count addr (f : VolatileSlice → M St GuestMemoryError Z) s :
    0 ≤ count → (∀ v s n s', 0 ≤ vs_len v → f v s = (Ret n, s') → 0 ≤ n) →
    accessed m count addr f 0 s (mem_try_access m count addr f s).1 (mem_try_access m count addr f s).2;
}.

(** Buffers are not part of the rings: writing to them does not change a queue. *)
Class GuestAccessQueue (Q Mem Chain : Type) `{QueueProc Q Mem Chain} `{GuestAccess Mem} : Prop := {
  mem_fill_views v bs q m :
    q_avail q (mem_fill v bs m) = q_avail q m ∧ q_used q (mem_fill v bs m) = q_used q m;
  mem_mark_views v off len q m :
    q_avail q (mem_mark_dirty v off len m) = q_avail q m ∧
    q_used q (mem_mark_dirty v off len m) = q_used q m;
}.

(** Nor are they part of the descriptor table. *)
Class GuestAccessDescs (Mem Chain : Type) `{ChainDescs Mem Chain} `{GuestAccess Mem} : Prop := {
  mem_fill_descs v bs m c :
    chain_readable_descs (mem_fill v bs m) c = chain_readable_descs m c ∧
    chain_writable_descs (mem_fill v bs m) c = chain_writable_descs m c;
  mem_mark_descs v off len m c :
    chain_readable_descs (mem_mark_dirty v off len m) c = chain_readable_descs m c ∧
    chain_writable_descs (mem_mark_dirty v off len m) c = chain_writable_descs m c;
}.

(** The used ring: where it is in guest memory. Only its addresses are written when an
    entry is added, and the descriptor table is somewhere else. *)
Class UsedRing (Q : Type) : Type := used_area : Q → Z → Prop.

Class UsedRingLaws (Q Mem Chain : Type) `{UsedRing Q} `{QueueProc Q Mem Chain}
    `{ChainDescs Mem Chain} `{GuestAccess Mem} : Prop := {
  used_area_pop m q a : used_area (q_pop_descriptor_chain m q).2 a ↔ used_area q a;
  used_area_back q a : used_area (q_go_to_previous_position q) a ↔ used_area q a;
  used_area_add head len q (m : Mem) o q' m' a :
    q_add_used head len (q, m) = (o, (q', m')) → used_area q' a ↔ used_area q a;
  q_add_used_outside head len q (m : Mem) o q' m' a :
    q_add_used head len (q, m) = (o, (q', m')) → ¬ used_area q a → mem_byte m' a = mem_byte m a;
  q_add_used_mapped head len q (m : Mem) o q' m' a :
    q_add_used head len (q, m) = (o, (q', m')) → mem_mapped m' a = mem_mapped m a;
  q_add_used_descs head len q (m : Mem) o q' m' c :
    q_add_used head len (q, m) = (o, (q', m')) →
    chain_readable_descs m' c = chain_readable_descs m c ∧
    chain_writable_descs m' c = chain_writable_descs m c;
}.

(** A buffer that the used ring is no part of *)
Definition desc_apart {Q} `{UsedRing Q} (q : Q) (d : Descriptor) : Prop :=
  ∀ a, desc_addr d ≤ a < desc_addr d + desc_len d → ¬ used_area q a.

Lemma desc_apart_area {Q} `{UsedRing Q} (q q' : Q) d :
  (∀ a, used_area q' a ↔ used_area q a) → desc_apart q d → desc_apart q' d.
Proof. intros Ha Hd a Hin Hu. by apply (Hd a Hin), Ha. Qed.

(** The bytes of a range of guest memory *)
Definition mem_bytes {Mem} `{GuestAccess Mem} (m : Mem) (addr len : Z) : bytes :=
  mem_byte m <$> seqZ addr len.

(** ** System calls on file descriptors *)

Inductive VolatileMemoryError : Type := VmIOError (e : errno) | VmOther.

Class FdOps (S : Type) : Type := {
  (* libc::read: what was put in the buffer, and an error, if there was one *)
  sys_read : Z → Z → S → bytes * option errno * S;
  (* vm_memory's [write_volatile] of a descriptor *)
  sys_write_volatile : Z → bytes → M S VolatileMemoryError Z;
  sys_poll_out : Z → M S errno unit;
  sys_dup : Z → M S errno Z;
  sys_getfl : Z → M S errno Z;
  sys_setfl : Z → Z → M S errno unit;
  sys_close : Z → S → S;   (* dropping an [OwnedFd] *)
}.

(** The flag and the kinds of error of [libc] and [std::io] *)
Class FdConsts : Type := { O_NONBLOCK : Z; EKIND_OTHER : Z }.

Definition STDIN_FILENO : Z := 0.
Definition STDOUT_FILENO : Z := 1.
Definition STDERR_FILENO : Z := 2.

(** ** [port_io.rs] *)

Record PortEvent : Type := MkPortEvent { pe_fd : Z; pe_events : Z }.

(** The traits [PortInput] and [PortOutput]. Writing only reads guest memory. *)
Class PortInput (S Mem In : Type) : Type := {
  pi_read_volatile : In → VolatileSlice → M (S * Mem) errno Z;
  pi_ready_event : In → PortEvent;
}.

Class PortOutput (S Mem Out : Type) : Type := {
  po_write_volatile : Out → VolatileSlice → Mem → M S errno Z;
  po_ready_event : Out → PortEvent;
  po_wait_until_writable : Out → M S errno unit;
}.

Record PortInputFd : Type := MkPortInputFd { pif_fd : Z }.
Record PortOutputFd : Type := MkPortOutputFd { pof_fd : Z }.

Section port_io.
Context {S Mem : Type} `{EpollOps S} `{EventSetBits} `{FdOps S} `{FdConsts} `{GuestAccess Mem}.

Definition port_event_register_self (src : PortEvent) (epoll token : Z) : M S errno unit :=
  epoll_ctl epoll CtlAdd (pe_fd src) (EpollEvent (pe_events src) token).

Definition port_event_unregister_self (src : PortEvent) (epoll : Z) : M S errno unit :=
  epoll_ctl epoll CtlDelete (pe_fd src) (EpollEvent (pe_events src) 0).

#[export] Instance port_event_source : EventSource S PortEvent := {|
  register_self := port_event_register_self;
  unregister_self := port_event_unregister_self;
|}.

(** [PortInputFd::read_volatile]. An error other than EWOULDBLOCK may come after part
    of the buffer was filled. *)
Definition fd_read_volatile (self : PortInputFd) (buf : VolatileSlice) : M (S * Mem) errno Z :=
  λ '(w, m),
    let '(data, err, w) := sys_read (pif_fd self) (vs_len buf) w in
    let m := mem_fill buf data m in
    match err with
    | Some e =>
        (Fail e, (w, if bool_decide (e ≠ EAGAIN) then mem_mark_dirty buf 0 (vs_len buf) m else m))
    | None =>
        let bytes_read := Z.of_nat (length data) in
        (Ret bytes_read, (w, mem_mark_dirty buf 0 bytes_read m))
    end.

#[export] Instance port_input_fd : PortInput S Mem PortInputFd := {|
  pi_read_volatile := fd_read_volatile;
  pi_ready_event self := MkPortEvent (pif_fd self) (Z.lor ES_IN ES_EDGE_TRIGGERED);
|}.

Definition fd_write_volatile (self : PortOutputFd) (buf : VolatileSlice) (m : Mem) : M S errno Z :=
  map_err (λ e, match e with VmIOError e => e | VmOther => EOTHER EKIND_OTHER end)
    (sys_write_volatile (pof_fd self) (mem_bytes m (vs_addr buf) (vs_len buf))).

Definition fd_wait_until_writable {E} (self : PortOutputFd) : M S E unit :=
  unwrap (sys_poll_out (pof_fd self)).

#[export] Instance port_output_fd : PortOutput S Mem PortOutputFd := {|
  po_write_volatile := fd_write_volatile;
  po_ready_event self := MkPortEvent (pof_fd self) (Z.lor ES_OUT ES_EDGE_TRIGGERED);
  po_wait_until_writable := fd_wait_until_writable;
|}.

Definition dup_raw_fd_into_owned (raw_fd : Z) : M S errno Z := sys_dup raw_fd.

Definition make_non_blocking (fd : Z) : M S errno unit :=
  let! flags := sys_getfl fd in
  sys_setfl fd (Z.lor flags O_NONBLOCK).

(** [make_non_blocking(&fd)?], which drops the descriptor when it fails *)
Definition owned_non_blocking (fd : Z) : M S errno unit :=
  let! r := attempt (make_non_blocking fd) in
  match r with
  | inr _ => ret tt
  | inl e => do! modify (sys_close fd) in fail e
  end.

Definition stdin : M S errno PortInputFd :=
  let! fd := dup_raw_fd_into_owned STDIN_FILENO in
  do! owned_non_blocking fd in
  ret (MkPortInputFd fd).

Definition output_to_raw_fd_dup (fd : Z) : M S errno PortOutputFd :=
  let! fd := dup_raw_fd_into_owned fd in
  do! owned_non_blocking fd in
  ret (MkPortOutputFd fd).

Definition stdout : M S errno PortOutputFd := output_to_raw_fd_dup STDOUT_FILENO.
Definition stderr : M S errno PortOutputFd := output_to_raw_fd_dup STDERR_FILENO.
End port_io.

(** ** Reading and writing guest memory *)

(** What the ports promise to those who use them. The observations: every byte that an
    input has delivered, and every byte that an output has taken. *)
Class PortStreams (S : Type) (In Out : Type) : Type := {
  pi_received : In → S → bytes;
  po_sent : Out → S → bytes;
}.

Class PortInputLaws (S Mem In Out : Type) `{GuestAccess Mem} `{PortInput S Mem In}
    `{PortStreams S In Out} : Prop := {
  (* what is read is at the start of the slice, and nothing else has changed *)
  pi_read_ok i v w m n w' m' : 0 ≤ vs_len v →
    pi_read_volatile i v (w, m) = (Ret n, (w', m')) →
    ∃ data, n = Z.of_nat (length data) ∧ n ≤ vs_len v ∧
      pi_received i w' = pi_received i w ++ data ∧
      m' = mem_mark_dirty v 0 n (mem_fill v data m);
  pi_read_fail i v w m e w' m' : 0 ≤ vs_len v →
    pi_read_volatile i v (w, m) = (Fail e, (w', m')) →
    pi_received i w' = pi_received i w ∧
    ∃ data, Z.of_nat (length data) ≤ vs_len v ∧
      m' = (if bool_decide (e = EAGAIN) then mem_fill v [] m
            else mem_mark_dirty v 0 (vs_len v) (mem_fill v data m));
  pi_read_result i v s :
    (∃ n s', pi_read_volatile i v s = (Ret n, s')) ∨ (∃ e s', pi_read_volatile i v s = (Fail e, s'));
}.

Class PortOutputLaws (S Mem In Out : Type) `{GuestAccess Mem} `{PortOutput S Mem Out}
    `{PortStreams S In Out} : Prop := {
  po_write_ok o v m w n w' : 0 ≤ vs_len v → po_write_volatile o v m w = (Ret n, w') →
    0 ≤ n ≤ vs_len v ∧
    po_sent o w' = po_sent o w ++ take (Z.to_nat n) (mem_bytes m (vs_addr v) (vs_len v));
  po_write_fail o v m w e w' : po_write_volatile o v m w = (Fail e, w') → po_sent o w' = po_sent o w;
  po_write_result o v m w :
    (∃ n w', po_write_volatile o v m w = (Ret n, w')) ∨ (∃ e w', po_write_volatile o v m w = (Fail e, w'));
  po_wait_sent o w : po_sent o (po_wait_until_writable o w).2 = po_sent o w;
}.

(** What read(2) promises: at most as many bytes as there is room for; the bytes are
    received when it succeeds; when it fails nothing is, but the buffer may have been
    filled in part, unless the descriptor would have blocked. *)
Class FdReadLaws (S Out : Type) `{FdOps S} `{PortStreams S PortInputFd Out} : Prop := {
  sys_read_length fd n w data err w' :
    0 ≤ n → sys_read fd n w = (data, err, w') → Z.of_nat (length data) ≤ n;
  sys_read_received i n w data w' :
    sys_read (pif_fd i) n w = (data, None, w') → pi_received i w' = pi_received i w ++ data;
  sys_read_failed i n w data e w' :
    sys_read (pif_fd i) n w = (data, Some e, w') →
    pi_received i w' = pi_received i w ∧ (e = EAGAIN → data = []);
}.

(** An input of a port keeps what ports promise: it marks what was read, and when an
    error may have left something in the buffer, all of it. *)
#[export] Instance fd_input_laws {S Mem Out : Type} `{EventSetBits} `{FdOps S} `{PortStreams S PortInputFd Out}
  `{GuestAccess Mem} `{!FdReadLaws S Out} : PortInputLaws S Mem PortInputFd Out.
Proof.
  split; simpl; unfold fd_read_volatile.
  - intros i v w m n w' m' Hlen Hrun. destruct (sys_read (pif_fd i) (vs_len v) w) as [[data [e|]] w1] eqn:Hread;
      simplify_eq. exists data. split; [done|]. split; [by eapply sys_read_length|].
    split; [by eapply sys_read_received|done].
  - intros i v w m e w' m' Hlen Hrun. destruct (sys_read (pif_fd i) (vs_len v) w) as [[data [e'|]] w1] eqn:Hread;
      simplify_eq. destruct (sys_read_failed _ _ _ _ _ _ Hread) as [Hr Hagain]. split; [done|].
    exists data. split; [by eapply sys_read_length|]. case_bool_decide as He; case_bool_decide as He'; try done.
    by rewrite Hagain.
  - intros i v [w m]. destruct (sys_read (pif_fd i) (vs_len v) w) as [[data [e|]] w1]; eauto.
Qed.

(** Event descriptors are no input. *)
Class StreamsEventFd (S In Out : Type) `{PortStreams S In Out} `{EventFdOps S} : Prop := {
  efd_write_received i fd n w : pi_received i (efd_write fd n w).2 = pi_received i w;
}.

(** What an output has been sent is its own: no other descriptor changes it. *)
Class OutputsApart (S Mem In Out : Type) `{PortInput S Mem In} `{PortOutput S Mem Out}
    `{PortStreams S In Out} `{EpollOps S} `{EventFdOps S} : Prop := {
  epoll_ctl_sent (o : Out) ep op fd ev w : po_sent o (epoll_ctl ep op fd ev w).2 = po_sent o w;
  efd_read_sent (o : Out) fd w : po_sent o (efd_read fd w).2 = po_sent o w;
  efd_write_sent (o : Out) fd n w : po_sent o (efd_write fd n w).2 = po_sent o w;
  pi_read_sent (o : Out) (i : In) v w (m : Mem) : po_sent o (pi_read_volatile i v (w, m)).2.1 = po_sent o w;
  po_write_other (o o' : Out) v (m : Mem) w : o' ≠ o → po_sent o (po_write_volatile o' v m w).2 = po_sent o w;
  po_wait_other (o o' : Out) w : o' ≠ o → po_sent o (po_wait_until_writable (Mem:=Mem) o' w).2 = po_sent o w;
}.

Section access.
Context {Mem : Type} `{GuestAccessLaws Mem}.

(** A property of the state, and of the number of bytes handled so far, that every call
    of the callback on the next piece keeps, holds when [try_access] returns. *)
Lemma accessed_ind_ret {St} (m : Mem) count addr (f : VolatileSlice → M St GuestMemoryError Z)
    (I : Z → St → Prop) total s o s' :
  (∀ total len n s s', 0 ≤ total → 0 ≤ len ≤ count - total → I total s →
    f (MkSlice (addr + total) len) s = (Ret n, s') → 0 ≤ n → I (total + n) s') →
  0 ≤ total → I total s → accessed m count addr f total s o s' →
  ∀ n, o = Ret n → I n s' ∧ 0 ≤ n.
Proof.
  intros Hf Htot Hs Hacc. induction Hacc as [total s Hun|total len s s' Hlen Hp Hcall
    |total len n s s' Hlen Hp Hcall Hn Hend|total len n s s1 o s' Hlen Hp Hcall Hn Hlt Hacc IH
    |total len n s s' Hlen Hp Hcall Hn Hover|total len o s s' Hlen Hp Hcall Ho]; intros k Hk.
  - case_bool_decide; by simplify_eq.
  - simplify_eq. split; [|done]. rewrite <-(Z.add_0_r k). by eapply Hf.
  - simplify_eq. split; [|lia]. eapply Hf; [done| |done|done|lia]. lia.
  - apply IH; [lia| |done]. eapply Hf; [done| |done|done|lia]. lia.
  - done.
  - by specialize (Ho k).
Qed.

(** The same for any outcome, with a property of the state alone. *)
Lemma accessed_preserves {St} (m : Mem) count addr (f : VolatileSlice → M St GuestMemoryError Z)
    (I : St → Prop) total s o s' :
  (∀ v s, 0 ≤ vs_len v → mem_slice m v → I s → I (f v s).2) →
  I s → accessed m count addr f total s o s' → I s'.
Proof.
  intros Hf Hs Hacc.
  assert (∀ total len s o s', 0 ≤ len → piece m count addr total len →
    f (MkSlice (addr + total) len) s = (o, s') → I s → I s') as Hf'.
  { intros t len s0 o0 s0' Hlen [Hp _] Hcall Hs0. specialize (Hf (MkSlice _ len) s0 Hlen Hp Hs0).
    by rewrite Hcall in Hf. }
  induction Hacc; [done|..]; try match goal with IH : _ → I _ |- _ => apply IH end;
    match goal with Hc : f _ _ = _ |- _ => eapply Hf'; [|done|exact Hc|done] end; lia.
Qed.

(** [try_access] returns, fails, or ends like a call of the callback. *)
Lemma accessed_outcome {St} (P : outcome GuestMemoryError Z → Prop) (m : Mem) count addr
    (f : VolatileSlice → M St GuestMemoryError Z) total s o s' :
  (∀ n, P (Ret n)) → (∀ e, P (Fail e)) → (∀ v s, 0 ≤ vs_len v → P (f v s).1) →
  accessed m count addr f total s o s' → P o.
Proof.
  intros Hr Hf Hcall Hacc. induction Hacc as [| | | | |total len o s s' Hlen Hp Hc Ho]; try done.
  - by case_bool_decide.
  - specialize (Hcall (MkSlice (addr + total) len) s). rewrite Hc in Hcall. apply Hcall. simpl. lia.
Qed.

(** A callback that handles something of every piece is given the whole of a range that
    is mapped. *)
Lemma accessed_all {St} (m : Mem) count addr (f : VolatileSlice → M St GuestMemoryError Z) total s o s' :
  (∀ v s, 0 < vs_len v → ∃ n s', f v s = (Ret n, s') ∧ 0 < n ≤ vs_len v) →
  (∀ a, addr ≤ a < addr + count → mem_mapped m a = true) →
  0 ≤ total < count → accessed m count addr f total s o s' → o = Ret count.
Proof.
  intros Hf Hmap Ht Hacc.
  assert (∀ total len s o s', 0 ≤ len ≤ count - total → (len = 0 → total = count) → total < count →
    f (MkSlice (addr + total) len) s = (o, s') → ∃ n, o = Ret n ∧ 0 < n ≤ len) as Hcallback.
  { intros t len s0 o0 s1 Hl Hz Htc Hcall.
    destruct (Hf (MkSlice (addr + t) len) s0) as (n & s2 & Hrun & Hn); [simpl; lia|].
    rewrite Hcall in Hrun. simplify_eq. eauto. }
  induction Hacc as [total s Hun|total len s s' Hlen Hp Hcall|total len n s s' Hlen Hp Hcall Hn Hend
    |total len n s s1 o s' Hlen Hp Hcall Hn Hlt Hacc IH|total len n s s' Hlen Hp Hcall Hn Hover
    |total len o s s' Hlen Hp Hcall Ho]; [|..|apply IH; lia| |].
  - by rewrite Hmap in Hun by lia.
  - destruct (Hcallback _ _ _ _ _ Hlen (proj2 Hp) (proj2 Ht) Hcall) as (n & [= <-] & Hn). lia.
  - done.
  - destruct (Hcallback _ _ _ _ _ Hlen (proj2 Hp) (proj2 Ht) Hcall) as (k & [= <-] & Hk). lia.
  - destruct (Hcallback _ _ _ _ _ Hlen (proj2 Hp) (proj2 Ht) Hcall) as (n & -> & _). by destruct (Ho n).
Qed.

Lemma mem_bytes_app (m : Mem) addr n k : 0 ≤ n → 0 ≤ k →
  mem_bytes m addr (n + k) = mem_bytes m addr n ++ mem_bytes m (addr + n) k.
Proof.
  intros. unfold mem_bytes. rewrite <-fmap_app. f_equal. by rewrite seqZ_app.
Qed.

Lemma take_mem_bytes (m : Mem) addr n k : 0 ≤ n ≤ k →
  take (Z.to_nat n) (mem_bytes m addr k) = mem_bytes m addr n.
Proof.
  intros. replace k with (n + (k - n)) by lia. rewrite mem_bytes_app by lia.
  apply take_app_length'. unfold mem_bytes. by rewrite length_fmap, length_seqZ.
Qed.
End access.
