(* ===== verification/EventSources.v ===== *)
(** * The sources of events: [vhost-user/src/vring.rs] and [virtio-console/src/port_io.rs]

    A port's readiness and a ring's kick register themselves with the event manager of a worker.
    They keep the promise of [EventSource]. A ring also keeps what it was registered with in a
    list, and changes what those instances watch when the front-end starts or stops it or gives it
    another kick; it then uses the tokens of its list and no others. *)

From S2P Require Import Prelude EventToken Epoll EventManager VirtQueue Vring Bitmap PortIo.

(** ** Ports *)

#[export] Instance port_event_source_laws {S : Type} `{EpollLaws S} `{!HeldTokens S, !HeldTokensLaws S} :
  EventSourceLaws S PortEvent.
Proof.
  split.
  - intros src ep token w.
    destruct (source_change_ctl ep CtlAdd (pe_fd src) (EpollEvent (pe_events src) token) w ep) as [Hw Hh].
    split; naive_solver.
  - intros src ep w.
    destruct (source_change_ctl ep CtlDelete (pe_fd src) (EpollEvent (pe_events src) 0) w ep) as [Hw Hh].
    split; naive_solver.
Qed.

(** ** Kicks *)

(** [VhostKickEvent]: the reference to its ring *)
Inductive VhostKickEvent : Type := KickEvent.

Section kicks.
Context {W Q Mem : Type} `{EpollLaws W} `{EventSetBits} `{!EventFdOps W} `{!QueueConfig Q Mem}.
Implicit Types (s : VE W Q) (w : W).

(** The calls of epoll, in the world of a ring *)
#[export] Instance ring_epoll : EpollOps (VE W Q) := {|
  epoll_create := on_world epoll_create;
  epoll_ctl ep op fd ev := on_world (epoll_ctl ep op fd ev);
  epoll_wait ep timeout slots := on_world (epoll_wait ep timeout slots);
  watched s ep fd := watched (env_world s.2) ep fd;
|}.

#[export] Instance ring_epoll_laws : EpollLaws (VE W Q).
Proof.
  split; unfold epoll_ctl, epoll_wait, epoll_create, watched_set, same_watched, watched, ring_epoll,
    on_world, zoom; simpl.
  - intros ep fd ev s s'. destruct (epoll_ctl ep CtlAdd fd ev (env_world s.2)) as [o w'] eqn:Hc.
    intros ?; simplify_eq. apply (ctl_add_ok _ _ _ _ _ Hc).
  - intros ep fd ev s s'. destruct (epoll_ctl ep CtlModify fd ev (env_world s.2)) as [o w'] eqn:Hc.
    intros ?; simplify_eq. apply (ctl_modify_ok _ _ _ _ _ Hc).
  - intros ep fd ev s s'. destruct (epoll_ctl ep CtlDelete fd ev (env_world s.2)) as [o w'] eqn:Hc.
    intros ?; simplify_eq. apply (ctl_delete_ok _ _ _ _ _ Hc).
  - intros ep op fd ev s e s'. destruct (epoll_ctl ep op fd ev (env_world s.2)) as [o w'] eqn:Hc.
    intros ?; simplify_eq. apply (ctl_fail _ _ _ _ _ _ _ Hc).
  - intros ep op fd ev s.
    destruct (ctl_result ep op fd ev (env_world s.2)) as [(w' & ->)|(e & w' & ->)]; eauto.
  - intros ep timeout slots s evs s'. destruct (epoll_wait ep timeout slots (env_world s.2)) as [o w'] eqn:Hc.
    intros ?; simplify_eq. apply (wait_ok _ _ _ _ _ _ Hc).
  - intros ep timeout slots s. pose proof (wait_watched ep timeout slots (env_world s.2)) as Hw.
    by destruct (epoll_wait ep timeout slots (env_world s.2)).
  - intros ep timeout slots s.
    destruct (wait_result ep timeout slots (env_world s.2)) as [(evs & w' & ->)|(e & w' & ->)]; eauto.
  - intros s ep s'. destruct (epoll_create (env_world s.2)) as [o w'] eqn:Hc.
    intros ?; simplify_eq. apply (create_ok _ _ _ Hc).
Qed.

(** The list of the ring *)
#[export] Instance ring_tokens : HeldTokens (VE W Q) := λ s ep t,
  ∃ e, (e, t) ∈ live_epolls s ∧ arc_raw e = ep.

#[export] Instance ring_tokens_laws : HeldTokensLaws (VE W Q).
Proof.
  split; unfold token_held, ring_tokens, epoll_ctl, epoll_wait, ring_epoll, on_world, zoom.
  - intros ep op fd ev s ep' t. by destruct (epoll_ctl _ _ _ _ _).
  - intros ep timeout slots s ep' t. by destruct (epoll_wait _ _ _ _).
Qed.

(** [arc_of]: the [Arc] whose instance has the descriptor *)
Definition kick_event_source (arc_of : Z → EpollArc) : EventSource (VE W Q) VhostKickEvent := {|
  register_self _ epoll token := kick_register_self (arc_of epoll) token;
  unregister_self _ epoll := kick_unregister_self (arc_of epoll);
|}.

(** What the kernel's calls of a ring's method brought: nothing but tokens of the list, or [new] ones. *)
Definition brought (ep : Z) (new : Z → Prop) s (w : W) : Prop :=
  ∀ fd ev, watched w ep fd = Some ev →
    watched (env_world s.2) ep fd = Some ev ∨ token_held s ep (ev_data ev) ∨ new (ev_data ev).

Lemma ctl_brought ep new s ep' op fd ev :
  (op ≠ CtlDelete → ep = ep' → token_held s ep (ev_data ev) ∨ new (ev_data ev)) →
  preserves (brought ep new s) (epoll_ctl ep' op fd ev).
Proof.
  intros Hev w Hw fd' ev' Hev'.
  destruct (source_change_ctl (HeldTokens0:=no_held_tokens) (HeldTokensLaws0:=no_held_tokens_laws) ep' op fd ev w ep)
    as [Hc _].
  destruct (Hc fd' ev' Hev') as [?|[[]|(Hop & Hep & ->)]]; eauto.
Qed.

Lemma update_one_brought ep s old new et :
  et ∈ live_epolls s → preserves (brought ep nothing_new s) (update_one old new et).
Proof.
  intros Hin. unfold update_one. apply preserves_bind.
  - destruct old; [|apply preserves_ret]. by apply ctl_brought.
  - intros _. destruct new; [|apply preserves_ret]. apply ctl_brought. intros _ ->. left.
    destruct et as [e t]. by exists e.
Qed.

Lemma update_epolls_change ep old new s :
  source_change ep nothing_new s (update_epolls old new s).2.
Proof.
  assert (brought ep nothing_new s
    (for_each (live_epolls s) (update_one old new) (env_world s.2)).2) as Hb.
  { apply preserves_for_each_in; [|by left]. intros et. apply update_one_brought. }
  unfold update_epolls, bind, gets, on_world, zoom.
  destruct (for_each (live_epolls s) (update_one old new) (env_world s.2)) as [o w]. split; [exact Hb|by left].
Qed.

(** The methods of the front-end, whatever their outcome *)
Lemma vring_stop_change ep s : source_change ep nothing_new s (vring_stop s).2.
Proof.
  unfold vring_stop, bind, gets, modify. destruct (kick_of s) as [k|]; [|by split; [intros ??|]; auto].
  pose proof (update_epolls_change ep (Some k) None s) as Hc.
  by destruct (update_epolls (Some k) None s) as [[] s1].
Qed.

Lemma vring_start_change ep s : source_change ep nothing_new s (vring_start s).2.
Proof.
  unfold vring_start, bind, gets, modify. simpl.
  exact (update_epolls_change ep None (kick_of s) (on_queue (q_set_ready true) s)).
Qed.

Lemma set_kick_change ep file s : source_change ep nothing_new s (set_kick file s).2.
Proof.
  unfold set_kick, bind, gets, modify. simpl. destruct (is_started _); [|by split; auto].
  exact (update_epolls_change ep (kick_of s) file _).
Qed.

(** A worker's registration puts the token that was given on the list, for the instance that was given. *)
Lemma add_epoll_change (arc : EpollArc) token s s1 :
  s1.1 = s.1 → env_live s1.2 = env_live s.2 →
  brought (arc_raw arc) (λ t, t = token) s (env_world s1.2) →
  source_change (arc_raw arc) (λ t, t = token) s (add_epoll (E:=errno) arc token s1).2 ∧
  source_change (arc_raw arc) (λ t, t = token) s s1.
Proof.
  intros Hvr Hlive Hb.
  assert (∀ t, token_held s1 (arc_raw arc) t → token_held s (arc_raw arc) t) as Hheld.
  { intros t (e & He & Hraw). exists e. split; [|done]. revert He. unfold live_epolls. by rewrite Hvr, Hlive. }
  split; [|by split; [|left; auto]]. split; [exact Hb|]. intros t (e & He & Hraw).
  unfold live_epolls in He. simpl in He. apply list_elem_of_filter in He as [Hl He]. simpl in Hl.
  apply elem_of_app in He as [He|He].
  - left. apply Hheld. exists e. split; [|done]. apply list_elem_of_filter in He as [_ He].
    by apply list_elem_of_filter.
  - right. apply list_elem_of_singleton in He. by simplify_eq.
Qed.

Lemma kick_register_change (arc : EpollArc) token s :
  source_change (arc_raw arc) (λ t, t = token) s (kick_register_self arc token s).2.
Proof.
  unfold kick_register_self, bind, gets. destruct (kick_of s) as [k|].
  2: { apply (add_epoll_change arc token s s); [done..|by left]. }
  pose proof (ctl_brought (arc_raw arc) (λ t, t = token) s (arc_raw arc) CtlAdd k (EpollEvent ES_IN token)
    ltac:(by right) (env_world s.2) ltac:(by left)) as Hb.
  unfold on_world, zoom, register_kick. destruct (epoll_ctl _ _ _ _ _) as [o w].
  destruct (add_epoll_change arc token s (s.1, MkEnv (env_live s.2) w)) as [Hadd Hnot]; [done..|].
  by destruct o as [[]|e| |].
Qed.

Lemma kick_unregister_change (arc : EpollArc) s :
  source_change (arc_raw arc) nothing_new s (kick_unregister_self arc s).2.
Proof.
  unfold kick_unregister_self, remove_epoll, bind, modify, gets. set (s1 := set_epolls _ s).
  assert (source_change (arc_raw arc) nothing_new s s1) as Hc.
  { split; [by left|]. intros t (e & He & Hraw). left. exists e. split; [|done].
    unfold live_epolls, s1 in *. simpl in *. apply list_elem_of_filter in He as [Hl He].
    apply list_elem_of_filter in He as [_ He]. by apply list_elem_of_filter. }
  destruct (kick_of s1) as [k|]; [|exact Hc]. eapply source_change_trans; [exact Hc|].
  destruct (source_change_ctl (W:=VE W Q) (arc_raw arc) CtlDelete k (EpollEvent ES_IN 0) s1 (arc_raw arc))
    as [Hw Hh].
  unfold unregister_kick. split; naive_solver.
Qed.

Lemma kick_event_source_laws (arc_of : Z → EpollArc) :
  (∀ ep, arc_raw (arc_of ep) = ep) →
  EventSourceLaws (VE W Q) VhostKickEvent (EventSource0:=kick_event_source arc_of).
Proof.
  intros Harc. split; intros src ep *; simpl; rewrite <-(Harc ep) at 1.
  - apply kick_register_change.
  - apply kick_unregister_change.
Qed.
End kicks.

(** ** A worker that watches a ring, a port and an event descriptor *)
Module EventSourceExamples.
Import Sim SimQueue VringExamples.

Inductive Tok : Type := TokKick | TokPort | TokStop.
#[local] Instance Tok_eq_dec : EqDecision Tok.
Proof. solve_decision. Defined.
#[local] Instance Tok_token : EventToken Tok := derive_unit_enum [TokKick; TokPort; TokStop].

(** Instance 70 belongs to the allocation that is alive. The kick is ready, and two waits will be
    interrupted. *)
Definition arc_of (ep : Z) : EpollArc := MkEpollArc (ep - 69) ep.
#[local] Instance kick_source : EventSource (VE world SimQueue.queue) VhostKickEvent := kick_event_source arc_of.
#[local] Instance kick_laws : EventSourceLaws (VE world SimQueue.queue) VhostKickEvent :=
  kick_event_source_laws arc_of (λ ep, eq_refl).

Definition em : EventManager := MkEventManager 70.
Definition r0 : VE world SimQueue.queue := (v0, MkEnv {[1]} (World ∅ [40; 11] 2 100)).

(** The kick is registered while the ring has none; the ring gets it later on, and is started. *)
Definition r1 := (em_add em KickEvent TokKick r0).2.
Definition r2 := (em_add em (MkPortEvent 11 ES_IN) TokPort r1).2.
Definition r3 := (em_add em (MkEventFd 12) TokStop r2).2.
Definition r4 := (set_kick (Some 40) r3).2.
Definition r5 := (vring_start r4).2.

Lemma r5_reached : rtc (em_step (T:=Tok) em) r0 r5.
Proof.
  assert (∀ t : Tok, token_valid t) as Hv by (intros []; repeat constructor).
  eapply rtc_l; [exact (step_add em _ _ _ KickEvent TokKick r0 (Hv _))|].
  eapply rtc_l; [exact (step_add em _ _ _ (MkPortEvent 11 ES_IN) TokPort r1 (Hv _))|].
  eapply rtc_l; [exact (step_add em _ _ _ (MkEventFd 12) TokStop r2 (Hv _))|].
  eapply rtc_l; [exact (step_sources em r3 r4 (set_kick_change _ _ _))|].
  apply rtc_once. exact (step_sources em r4 r5 (vring_start_change _ _)).
Qed.

Definition waited : outcome errno (list (TriggeredEvent Tok)) :=
  Ret [MkTriggeredEvent TokKick true false false; MkTriggeredEvent TokPort true false false].

Lemma em_wait_tokens_witness :
  (em_wait_timeout (T:=Tok) 3 em (Some 10) r5).1 = waited ∧
  (waited = NoFuel ∨ (∃ e, waited = Fail e ∧ e ≠ EINTR) ∨
   ∃ tes, waited = Ret tes ∧ (length tes ≤ 16)%nat ∧
    ∀ te, te ∈ tes → token_valid (te_token te) ∧
      ∃ fd ev, watched r5 (em_epoll em) fd = Some ev ∧ ev_data ev = token_as_raw (te_token te)).
Proof.
  split; [vm_compute; reflexivity|].
  apply (em_wait_tokens (T:=Tok) 3 em (Some 10) r0 r5 _ (em_wait_timeout (T:=Tok) 3 em (Some 10) r5).2);
    [|exact r5_reached|vm_compute; reflexivity].
  split; [by intros fd|]. intros r (e & He & _). by apply elem_of_nil in He.
Defined.
End EventSourceExamples.
