(* ===== verification/GuestRegions.v ===== *)
(** * Guest memory made of regions

    The algorithm of [try_access] of the [vm_memory] crate on a memory that is made of
    regions, as a reference for the instances of [GuestAccess]: [room] says how many bytes
    an address has to the end of its region, if it is mapped. *)

From S2P Require Import Prelude EventToken Epoll EventManager VirtQueue PortIo.

Section regions.
Context (room : Z → option Z).

Fixpoint try_access {St} (fuel : nat) (count addr : Z) (f : VolatileSlice → M St GuestMemoryError Z)
    (total : Z) : M St GuestMemoryError Z :=
  match fuel with
  | O => no_fuel
  | S fuel =>
      let cur := addr + total in
      match room cur with
      | Some cap =>
          let! n := f (MkSlice cur (Z.min (count - total) cap)) in
          if bool_decide (n = 0) then ret total
          else if bool_decide (total + n < count) then try_access fuel count addr f (total + n)
          else if bool_decide (total + n = count) then ret count
          else fail CallbackOutOfRange
      | None => if bool_decide (total = 0) then fail InvalidGuestAddress else ret total
      end
  end.

(** One more than the length of the range is enough fuel. *)
Definition range_access {St} (count addr : Z) (f : VolatileSlice → M St GuestMemoryError Z) :
    M St GuestMemoryError Z :=
  try_access (S (Z.to_nat count)) count addr f 0.

Context {Mem : Type} `{GuestAccess Mem} (m : Mem).
Hypothesis room_unmapped : ∀ a, room a = None → mem_mapped m a = false.
Hypothesis room_pos : ∀ a cap, room a = Some cap → 0 < cap.
Hypothesis room_slice : ∀ a cap len, room a = Some cap → 0 ≤ len ≤ cap → mem_slice m (MkSlice a len).

Lemma try_access_accessed {St} fuel count addr (f : VolatileSlice → M St GuestMemoryError Z) total s :
  (∀ v s n s', 0 ≤ vs_len v → f v s = (Ret n, s') → 0 ≤ n) →
  0 ≤ total ≤ count → (Z.to_nat (count - total) < fuel)%nat →
  accessed m count addr f total s (try_access fuel count addr f total s).1
    (try_access fuel count addr f total s).2.
Proof.
  intros Hf. revert total s. induction fuel as [|fuel IH]; intros total s Ht Hfuel; [lia|]. simpl.
  destruct (room (addr + total)) as [cap|] eqn:Hm.
  2: { apply room_unmapped in Hm. pose proof (acc_unmapped m count addr f total s Hm) as Hacc.
    by case_bool_decide. }
  pose proof (room_pos _ _ Hm). set (len := Z.min _ _).
  assert (0 ≤ len ≤ count - total) as Hlen by lia.
  assert (piece m count addr total len) as Hp.
  { split; [eapply room_slice; [done|lia]|lia]. }
  unfold bind. destruct (f (MkSlice (addr + total) len) s) as [[n|e| |] s1] eqn:Hcall;
    [|by eapply acc_fail; [exact Hlen|exact Hp|exact Hcall|]..].
  assert (0 ≤ n) as Hn by (by eapply (Hf (MkSlice (addr + total) len)); [|exact Hcall]; simpl; lia).
  case_bool_decide as Hz; [subst n; by eapply acc_stop|]. case_bool_decide as Hlt.
  { assert (0 < len) as Hpos by (destruct Hp as [_ Hp]; lia).
    eapply acc_more; [|exact Hp|exact Hcall|lia|done|apply IH; lia]. lia. }
  case_bool_decide as Heq.
  - destruct (decide (len = 0)) as [Hl0|].
    + destruct Hp as [_ Hp]. specialize (Hp Hl0). lia.
    + eapply acc_end; [|exact Hp|exact Hcall|lia|done]. lia.
  - eapply acc_range; [exact Hlen|exact Hp|exact Hcall|lia|lia].
Qed.

Lemma range_access_accessed {St} count addr (f : VolatileSlice → M St GuestMemoryError Z) s :
  0 ≤ count → (∀ v s n s', 0 ≤ vs_len v → f v s = (Ret n, s') → 0 ≤ n) →
  accessed m count addr f 0 s (range_access count addr f s).1 (range_access count addr f s).2.
Proof. intros Hc Hf. apply try_access_accessed; [done|lia..]. Qed.
End regions.
