(* ===== verification/LoggedMemory.v ===== *)
(** * Guest memory with a dirty log

    Guest memory whose regions have the bitmaps of [vhost-user/src/bitmap.rs], all in the
    log that the front-end shares during a migration: an instance of the interface that
    the ports of the console use. The interface asks that what is marked through a slice
    is dirty; here a byte is dirty when the log has the bit of its page, as the front-end
    reads it. That the laws hold is what [bitmap.rs] promises, for regions that consist of
    whole pages. *)

From S2P Require Import Prelude EventToken Epoll EventManager VirtQueue Bitmap PortIo GuestRegions.

(** The regions with the bitmaps that [new] made for them on a log of [log_size] bytes *)
Class WholePages (regions : list (MemRegion * AtomicBitmapMmap)) (log_size : nat) : Prop :=
  whole_pages : Forall (λ rb,
    bitmap_new rb.1 (replicate log_size 0) = Ret rb.2 ∧
    mr_start_addr rb.1 `mod` LOG_PAGE_SIZE = 0 ∧ mr_len rb.1 `mod` LOG_PAGE_SIZE = 0) regions.

Record lmem (regions : list (MemRegion * AtomicBitmapMmap)) (log_size : nat) : Type := LMem {
  lm_byte : Z → Z;
  lm_log : bytes;
  lm_size : length lm_log = log_size;
}.
Arguments LMem {regions log_size}.
Arguments lm_byte {regions log_size}.
Arguments lm_log {regions log_size}.
Arguments lm_size {regions log_size}.

Lemma mark_pages_length {E} bm pages log :
  length (mark_pages (E:=E) bm pages log).2 = length log.
Proof.
  revert log. induction pages as [|p pages IH]; intros log; [done|]. simpl.
  case_bool_decide; [done|]. unfold bind at 1, log_fetch_or, bind, log_index, modify.
  case_bool_decide; [|done]. by rewrite IH, length_insert.
Qed.

Lemma bitmap_mark_dirty_length {E} bm offset len log :
  length (bitmap_mark_dirty (E:=E) bm offset len log).2 = length log.
Proof. unfold bitmap_mark_dirty. case_bool_decide; [done|]. apply mark_pages_length. Qed.

Section logged.
Context (regions : list (MemRegion * AtomicBitmapMmap)) (log_size : nat).
Local Notation lmem := (lmem regions log_size).
Implicit Types (m : lmem) (v : VolatileSlice).

(** [GuestMemory::find_region] *)
Definition in_region (a : Z) (rb : MemRegion * AtomicBitmapMmap) : Prop :=
  mr_start_addr rb.1 ≤ a < mr_start_addr rb.1 + mr_len rb.1.
#[local] Instance in_region_dec a rb : Decision (in_region a rb).
Proof. unfold in_region. apply _. Defined.

Definition find_region (a : Z) : option (MemRegion * AtomicBitmapMmap) :=
  snd <$> list_find (in_region a) regions.

Definition room (a : Z) : option Z :=
  (λ rb : MemRegion * AtomicBitmapMmap, mr_start_addr rb.1 + mr_len rb.1 - a) <$> find_region a.

(** [slice.bitmap().mark_dirty(off, len)]: the bitmap of the slice is that of its region,
    seen from the start of the slice. *)
Definition slice_mark v (off len : Z) (log : bytes) : bytes :=
  match find_region (vs_addr v) with
  | Some (region, bitmap) =>
      let br := region_slice_at (MkBitmapMmapRegion 0) (vs_addr v - mr_start_addr region) in
      rb_log (region_mark_dirty (E:=io_error) br off len (MkRegionBitmap (Some bitmap) log)).2
  | None => log
  end.

Lemma slice_mark_length v off len log : length (slice_mark v off len log) = length log.
Proof.
  unfold slice_mark. destruct (find_region _) as [[region bitmap]|]; [|done].
  unfold region_mark_dirty, bind, gets. simpl. destruct (checked_add _ _ _) as [z|]; [|done].
  unfold rb_on_log, zoom. simpl. pose proof (bitmap_mark_dirty_length (E:=io_error) bitmap z len log) as Hl.
  by destruct (bitmap_mark_dirty bitmap z len log).
Qed.

Definition lm_mark v (off len : Z) m : lmem :=
  LMem (lm_byte m) (slice_mark v off len (lm_log m))
    (eq_trans (slice_mark_length v off len (lm_log m)) (lm_size m)).

Definition lm_fill v (bs : bytes) m : lmem :=
  LMem (λ a, if bool_decide (vs_addr v ≤ a < vs_addr v + Z.of_nat (length bs))
             then default 0 (bs !! Z.to_nat (a - vs_addr v)) else lm_byte m a)
    (lm_log m) (lm_size m).

#[export] Instance logged_access : GuestAccess lmem := {|
  mem_byte := lm_byte;
  mem_mapped _ a := bool_decide (is_Some (find_region a));
  mem_dirty m a := bool_decide (0 ≤ a) && log_dirty (lm_log m) (page_number a);
  mem_slice _ v := ∃ cap, room (vs_addr v) = Some cap ∧ 0 ≤ vs_len v ≤ cap;
  mem_fill := lm_fill;
  mem_mark_dirty := lm_mark;
  mem_try_access St _ := range_access room;
|}.

Lemma find_region_Some a rb : find_region a = Some rb → rb ∈ regions ∧ in_region a rb.
Proof.
  unfold find_region. intros ([i rb'] & Hf & ->)%fmap_Some. simpl.
  apply list_find_Some in Hf as (Hi & Hin & _). split; [by eapply list_elem_of_lookup_2|done].
Qed.

Lemma lm_room_pos a cap : room a = Some cap → 0 < cap.
Proof.
  unfold room. intros (rb & [_ Hin]%find_region_Some & ->)%fmap_Some. unfold in_region in Hin. lia.
Qed.

Lemma lm_room_unmapped a : room a = None → bool_decide (is_Some (find_region a)) = false.
Proof.
  unfold room. intros Hr%fmap_None. rewrite Hr. apply bool_decide_eq_false. by intros [? ?].
Qed.

(** ** The laws *)

Lemma bitmap_new_range region log bm :
  bitmap_new region log = Ret bm →
  0 ≤ mr_start_addr region ∧ 0 < mr_len region < 2 ^ 64 ∧
  mr_start_addr region + mr_len region ≤ 2 ^ 64.
Proof.
  unfold bitmap_new, io_try_into, try_into, outcome_bind, ok_or, in_width.
  case_bool_decide as Hs; [|done]. case_bool_decide as Hl; [|done]. case_bool_decide as Hz; [done|].
  destruct (checked_add _ _ _) as [e|] eqn:He; [|done].
  apply checked_add_Some in He as [-> He]. unfold in_width in He. lia.
Qed.

(** A bitmap only depends on the length of the log it was made on. *)
Lemma bitmap_new_length region log log' :
  length log = length log' → bitmap_new region log = bitmap_new region log'.
Proof. intros Hl. unfold bitmap_new, log_len. by rewrite Hl. Qed.

(** Pages are counted from the start of a region that begins on a page. *)
Lemma page_number_offset start a :
  start `mod` LOG_PAGE_SIZE = 0 → page_number (a - start) = page_number a - page_number start.
Proof.
  unfold page_number, LOG_PAGE_SIZE. intros Hmod.
  rewrite (Z_div_exact_full_2 start 4096) at 1 by done.
  replace (a - 4096 * (start / 4096)) with (a + (- (start / 4096)) * 4096) by lia.
  rewrite Z.div_add by done. lia.
Qed.

Context `{!WholePages regions log_size}.

Lemma page_number_last len : len `mod` LOG_PAGE_SIZE = 0 → page_number (len - 1) < page_number len.
Proof.
  unfold page_number, LOG_PAGE_SIZE. intros Hmod.
  pose proof (Z_div_exact_full_2 len 4096 ltac:(done) Hmod).
  apply Z.div_lt_upper_bound; lia.
Qed.

(** Marking a part of a slice turns on exactly the bits of its pages. *)
Lemma slice_mark_pages v off len log cap page :
  length log = log_size → room (vs_addr v) = Some cap → vs_len v ≤ cap →
  0 ≤ off → 0 ≤ len → off + len ≤ vs_len v → 0 ≤ page →
  log_dirty (slice_mark v off len log) page =
    log_dirty log page ||
    bool_decide (len ≠ 0 ∧ page_number (vs_addr v + off) ≤ page ≤ page_number (vs_addr v + off + len - 1)).
Proof.
  unfold room. intros Hlog ([region bitmap] & Hfind & ->)%fmap_Some Hcap Hoff Hlen Hend Hpage.
  unfold slice_mark. rewrite Hfind. apply find_region_Some in Hfind as [Hin Hregion].
  unfold in_region in Hregion. cbn [fst snd] in *.
  pose proof whole_pages as Hwp. rewrite Forall_forall in Hwp.
  destruct (Hwp _ Hin) as (Hnew & Hstart & Hlr). cbn [fst snd] in *.
  rewrite (bitmap_new_length _ _ log) in Hnew by (by rewrite length_replicate).
  destruct (bitmap_new_range _ _ _ Hnew) as (Hs0 & Hl0 & Hend64).
  rewrite slice_mark_dirty by (simpl; lia).
  unfold region_mark_dirty, bind, gets. cbn [rb_inner br_base_address].
  replace (checked_add 64 0 (vs_addr v - mr_start_addr region + off))
    with (Some (vs_addr v - mr_start_addr region + off)).
  2: { unfold checked_add, in_width. by rewrite bool_decide_eq_true_2 by lia. }
  unfold rb_on_log, zoom. cbn [rb_log].
  destruct (mark_dirty_bits (E:=io_error) region log bitmap (vs_addr v - mr_start_addr region + off) len Hnew)
    as (log' & Hrun & _ & Hbits); [lia..|]. rewrite Hrun. cbn [snd rb_log]. rewrite Hbits by done.
  f_equal. apply bool_decide_ext.
  replace (saturating_add 64 _ (len - 1)) with (vs_addr v + off + len - 1 - mr_start_addr region)
    by (unfold saturating_add; lia).
  replace (vs_addr v - mr_start_addr region + off) with (vs_addr v + off - mr_start_addr region) by lia.
  rewrite !page_number_offset by done. pose proof (page_number_last _ Hlr) as Hlast.
  assert (page_number (vs_addr v + off + len - 1 - mr_start_addr region) ≤ page_number (mr_len region - 1)) as Hle
    by (apply page_number_mono; lia).
  rewrite page_number_offset in Hle by done. lia.
Qed.

Lemma slice_ok v m : mem_slice m v → ∃ cap, room (vs_addr v) = Some cap ∧ 0 ≤ vs_len v ≤ cap.
Proof. done. Qed.

Lemma page_number_nonneg a : 0 ≤ a → 0 ≤ page_number a.
Proof. intros. by apply Z.div_pos. Qed.

Lemma room_addr a cap : room a = Some cap → 0 ≤ a.
Proof.
  unfold room. intros ([region bitmap] & [Hin Hr]%find_region_Some & _)%fmap_Some.
  pose proof whole_pages as Hwp. rewrite Forall_forall in Hwp. destruct (Hwp _ Hin) as (Hnew & _).
  apply bitmap_new_range in Hnew. unfold in_region in Hr. cbn [fst] in *. lia.
Qed.

#[export] Instance logged_access_laws : GuestAccessLaws lmem.
Proof.
  split; try done.
  - intros v off len m a (cap & Hroom & Hcap) Hoff Hend Ha. pose proof (room_addr _ _ Hroom).
    pose proof (page_number_nonneg a ltac:(lia)). simpl.
    rewrite (slice_mark_pages v off len _ cap); [|apply lm_size|done|lia..].
    rewrite bool_decide_eq_true_2 by lia. apply orb_true_iff. right. apply bool_decide_eq_true.
    split; [lia|]. split; apply page_number_mono; lia.
  - intros v off len m a (cap & Hroom & Hcap) Hoff Hlen Hend. simpl.
    intros [Ha Hd]%andb_true_iff. rewrite Ha. apply bool_decide_eq_true in Ha.
    pose proof (page_number_nonneg a Ha).
    rewrite (slice_mark_pages v off len _ cap); [|apply lm_size|done|lia..]. by rewrite Hd.
  - intros St m count addr f s Hc Hf. apply range_access_accessed; [|exact lm_room_pos| |done..].
    + intros a Ha. by apply lm_room_unmapped.
    + intros a cap len Hr Hl. simpl. by exists cap.
Qed.
End logged.
