(* ===== verification/ProcessRx.v ===== *)
(** * From a port to the driver: [device/virtio-console/src/process_rx.rs]

    The thread that fills the buffers of a port's receive queue with what its input
    delivers. The local variables of [process_rx] that outlive a chain are part of the
    state it runs on. The iterator over a chain's descriptors is the list of them. *)

From S2P Require Import Prelude EventToken Epoll EventManager VirtQueue Codec.
From S2P Require Import ConsoleControl PortIo.

Inductive WorkerToken : Type := ProcessQueue | IO | Stop.

#[export] Instance WorkerToken_eq_dec : EqDecision WorkerToken.
Proof. solve_decision. Defined.

#[export] Instance WorkerToken_token : EventToken WorkerToken :=
  derive_unit_enum [ProcessQueue; IO; Stop].

(** The state of the thread, with the variables [eof] and [signal_used_queue]. *)
Record RxEnv (S Mem : Type) : Type := MkRxEnv {
  rx_env : ConsoleEnv S Mem;
  rx_eof : bool;
  rx_signal : bool;
}.
Arguments MkRxEnv {S Mem}.
Arguments rx_env {S Mem}.
Arguments rx_eof {S Mem}.
Arguments rx_signal {S Mem}.

(** How the [while let] loop over the chains is left: the queue has no more of them, or
    by [continue 'event_loop], or by [break 'event_loop]. *)
Inductive chains_end : Type := QueueEmpty | ContinueEvents | BreakEvents.

Section process_rx.
Context {S Q Mem Chain In : Type} `{QueueProc Q Mem Chain} `{ChainDescs Mem Chain}
  `{GuestAccess Mem} `{PortInput S Mem In} `{EpollOps S} `{EventSetBits} `{EventFdOps S}.

Local Notation CE := (ConsoleEnv S Mem).
Local Notation RE := (RxEnv S Mem).

Definition on_rx_env {E A} : M CE E A → M RE E A :=
  zoom rx_env (λ e s, MkRxEnv e (rx_eof s) (rx_signal s)).

Definition set_eof (b : bool) (s : RE) : RE := MkRxEnv (rx_env s) b (rx_signal s).
Definition set_signal (b : bool) (s : RE) : RE := MkRxEnv (rx_env s) (rx_eof s) b.

(** A method that reads or writes the device world and guest memory *)
Definition on_io {E A} : M (S * Mem) E A → M CE E A :=
  zoom (λ s, (ce_world s, ce_mem s)) (λ wm s, MkConsoleEnv wm.1 wm.2 (ce_control s)).

(** The closure of [read_to_desc] *)
Definition read_piece (input : In) (target : VolatileSlice) : M RE GuestMemoryError Z :=
  let! r := attempt (on_rx_env (on_io (pi_read_volatile input target))) in
  match r with
  | inr n => do! (if bool_decide (n = 0) then modify (set_eof true) else ret tt) in ret n
  | inl e => if bool_decide (e = EAGAIN) then ret 0 else fail (GmIOError e)
  end.

Definition read_to_desc (input : In) (desc : Descriptor) : M RE GuestMemoryError Z :=
  let! mem := gets (λ s, ce_mem (rx_env s)) in
  mem_try_access mem (desc_len desc) (desc_addr desc) (read_piece input).

(** The loop over the writable descriptors of a chain, with [bytes_read]. *)
Fixpoint read_descs (input : In) (descs : list Descriptor) (bytes_read : Z) : M RE errno Z :=
  match descs with
  | [] => ret bytes_read
  | desc :: descs =>
      let! r := attempt (read_to_desc input desc) in
      match r with
      | inr len =>
          if bool_decide (len = 0) then ret bytes_read
          else
            do! modify (set_signal true) in
            read_descs input descs (bytes_read + len)
      | inl _ => read_descs input descs bytes_read
      end
  end.

(** ** With the lock of the queue *)

Definition on_rx {E A} : M RE E A → M (RE * Q) E A := zoom fst (λ e s, (e, s.2)).

Definition rx_pop {E} : M (RE * Q) E (option Chain) :=
  λ s,
    let '(chain, q) := q_pop_descriptor_chain (ce_mem (rx_env s.1)) s.2 in
    (Ret chain, (s.1, q)).

Definition rx_add_used (head_index len : Z) : M (RE * Q) vq_error unit :=
  zoom (λ s, (s.2, ce_mem (rx_env s.1)))
    (λ qm s, (MkRxEnv (MkConsoleEnv (ce_world (rx_env s.1)) qm.2 (ce_control (rx_env s.1)))
                (rx_eof s.1) (rx_signal s.1), qm.1))
    (q_add_used head_index len).

Fixpoint rx_chains (fuel : nat) (input : In) (port_id : Z) : M (RE * Q) errno chains_end :=
  match fuel with
  | O => no_fuel
  | Datatypes.S fuel =>
      let! next := rx_pop in
      match next with
      | None => ret QueueEmpty
      | Some chain =>
          let head_index := chain_head_index chain in
          let! mem := gets (λ s, ce_mem (rx_env s.1)) in
          let! bytes_read := on_rx (read_descs input (chain_writable_descs mem chain) 0) in
          if bool_decide (bytes_read = 0) then
            do! modify (λ s, (s.1, q_go_to_previous_position s.2)) in
            ret ContinueEvents
          else
            do! attempt (rx_add_used head_index (wrap 32 bytes_read)) in
            let! eof := gets (λ s, rx_eof s.1) in
            if eof : bool then
              do! on_rx (on_rx_env (port_open port_id false)) in
              ret BreakEvents
            else rx_chains fuel input port_id
      end
  end.

(** ** The thread *)

Context {DQ : DeviceQueue S Q}.

Definition rx_world {E A} (m : M S E A) : M RE E A := on_rx_env (on_world m).

(** Holding the guard of the queue while [m] runs *)
Definition rx_locked {E A} (queue : Q) (m : M (RE * Q) E A) : M RE E A :=
  λ s,
    let '(o, (s, q)) := m (s, queue) in
    (o, MkRxEnv (MkConsoleEnv (dq_store q (ce_world (rx_env s))) (ce_mem (rx_env s))
          (ce_control (rx_env s))) (rx_eof s) (rx_signal s)).

(** What the driver is owed from the last round *)
Definition rx_notify : M RE errno unit :=
  let! signal := gets rx_signal in
  if signal : bool then
    do! unwrap (rx_world dq_signal_used_queue) in modify (set_signal false)
  else ret tt.

(** The chains, and how the loop goes on after them *)
Definition rx_drain (fuel : nat) (input : In) (port_id : Z) : M (RE * Q) errno (option unit) :=
  let! next := rx_chains fuel input port_id in
  match next with
  | QueueEmpty =>
      let! signal := gets (λ s, rx_signal s.1) in
      do! (if signal : bool then unwrap (on_rx (rx_world dq_signal_used_queue)) else ret tt) in
      ret None
  | ContinueEvents => ret None
  | BreakEvents => ret (Some tt)
  end.

(** The section of a round that holds the lock of the queue, when it can be had *)
Definition rx_section (fuel : nat) (input : In) (port_id : Z) : M RE errno (option unit) :=
  let! world := gets (λ s, ce_world (rx_env s)) in
  match dq_try_lock_queue world with
  | None => ret None
  | Some queue => rx_locked queue (rx_drain fuel input port_id)
  end.

(** One round of the event loop: [Some] to leave it. *)
Definition rx_turn (fuel : nat) (event_manager : EventManager) (input : In) (port_id : Z) :
    M RE errno (option unit) :=
  do! rx_notify in
  let! event := unwrap (rx_world (em_wait_one fuel event_manager)) in
  match te_token event with
  | Stop => ret (Some tt)
  | ProcessQueue | IO =>
      let! enabled := unwrap (rx_world dq_read_kick) in
      if negb enabled then ret None else rx_section fuel input port_id
  end.

Context (arc_of : Z → EpollArc).

Definition process_rx (fuel : nat) (input : In) (port_id stopfd : Z) : M CE errno unit :=
  let! event_manager := unwrap (on_world em_new) in
  do! unwrap (on_world (em_add event_manager (MkEventFd stopfd) Stop)) in
  do! unwrap (on_world
        (dq_kick_register (arc_of (em_epoll event_manager)) (token_as_raw ProcessQueue))) in
  do! unwrap (on_world (em_add event_manager (pi_ready_event input) IO)) in
  zoom (λ s, MkRxEnv s false false) (λ s _, rx_env s)
    (loop fuel (rx_turn fuel event_manager input port_id)).
End process_rx.

(** ** What is received is what the driver gets *)

Section rx_properties.
Context {S Q Mem Chain In Out : Type} `{QueueProcLaws Q Mem Chain} `{ChainDescs Mem Chain}
  `{GuestAccess Mem} `{!GuestAccessLaws Mem} `{!GuestAccessQueue Q Mem Chain}
  `{PortInput S Mem In} `{PortStreams S In Out} `{!PortInputLaws S Mem In Out}
  `{EpollOps S} `{EventSetBits} `{EventFdOps S}.
Implicit Types s : RxEnv S Mem.

Definition rx_mem s : Mem := ce_mem (rx_env s).
Definition rx_received (input : In) s : bytes := pi_received (Out:=Out) input (ce_world (rx_env s)).

(** The call of the input in [read_piece], with its error. *)
Definition input_call (input : In) (v : VolatileSlice) s : (errno + Z) * RxEnv S Mem :=
  match pi_read_volatile input v (ce_world (rx_env s), rx_mem s) with
  | (Ret n, (w, m)) => (inr n, MkRxEnv (MkConsoleEnv w m (ce_control (rx_env s))) (rx_eof s) (rx_signal s))
  | (Fail e, (w, m)) => (inl e, MkRxEnv (MkConsoleEnv w m (ce_control (rx_env s))) (rx_eof s) (rx_signal s))
  | (_, (w, m)) => (inr 0, s)
  end.

Lemma read_piece_run input v s :
  read_piece input v s =
    match input_call input v s with
    | (inr n, s') => (Ret n, if bool_decide (n = 0) then set_eof true s' else s')
    | (inl e, s') => (if bool_decide (e = EAGAIN) then Ret 0 else Fail (GmIOError e), s')
    end.
Proof.
  unfold read_piece, input_call, bind, attempt, on_rx_env, on_io, zoom, rx_mem.
  destruct (pi_read_result (Out:=Out) input v (ce_world (rx_env s), ce_mem (rx_env s)))
    as [(n & [w m] & ->)|(e & [w m] & ->)]; case_bool_decide; done.
Qed.

(** What a call of the input does to a state, for either result. *)
Lemma input_call_spec input v s :
  0 ≤ vs_len v →
  match input_call input v s with
  | (inr n, s') => ∃ data, n = Z.of_nat (length data) ∧ n ≤ vs_len v ∧
      rx_received input s' = rx_received input s ++ data ∧
      rx_mem s' = mem_mark_dirty v 0 n (mem_fill v data (rx_mem s)) ∧
      ce_control (rx_env s') = ce_control (rx_env s)
  | (inl e, s') => rx_received input s' = rx_received input s ∧
      (∃ data, Z.of_nat (length data) ≤ vs_len v ∧
        rx_mem s' = (if bool_decide (e = EAGAIN) then mem_fill v [] (rx_mem s)
                     else mem_mark_dirty v 0 (vs_len v) (mem_fill v data (rx_mem s)))) ∧
      ce_control (rx_env s') = ce_control (rx_env s)
  end.
Proof.
  intros Hlen. unfold input_call.
  destruct (pi_read_result (Out:=Out) input v (ce_world (rx_env s), rx_mem s))
    as [(n & [w m] & Hr)|(e & [w m] & Hr)]; rewrite Hr; unfold rx_received, rx_mem in *; simpl.
  - destruct (pi_read_ok (Out:=Out) _ _ _ _ _ _ _ Hlen Hr) as (data & ? & ? & ? & ->). by exists data.
  - destruct (pi_read_fail (Out:=Out) _ _ _ _ _ _ _ Hlen Hr) as (? & data & ? & ->).
    split; [done|]. split; [|done]. by exists data.
Qed.

Lemma read_piece_nonneg input v s n s' :
  0 ≤ vs_len v → read_piece input v s = (Ret n, s') → 0 ≤ n.
Proof.
  intros Hlen. rewrite read_piece_run. pose proof (input_call_spec input v s Hlen) as Hc.
  destruct (input_call input v s) as [[e|k] s1]; [case_bool_decide; intros; by simplify_eq|].
  destruct Hc as (data & -> & _). intros; simplify_eq. lia.
Qed.

(** The state after the call, whatever its result: what it may have changed. *)
Lemma read_piece_preserves (I : RxEnv S Mem → Prop) input v :
  (∀ s s', I s → rx_env s' = rx_env s → rx_signal s' = rx_signal s → I s') →
  (∀ s s', 0 ≤ vs_len v → I s → ce_control (rx_env s') = ce_control (rx_env s) →
    (rx_mem s' = mem_fill v [] (rx_mem s) ∨ ∃ data n, Z.of_nat (length data) ≤ n ≤ vs_len v ∧
      rx_mem s' = mem_mark_dirty v 0 n (mem_fill v data (rx_mem s))) → I s') →
  ∀ s, 0 ≤ vs_len v → I s → I (read_piece input v s).2.
Proof.
  intros Heof Hcall s Hlen Hs. rewrite read_piece_run.
  pose proof (input_call_spec input v s Hlen) as Hc.
  destruct (input_call input v s) as [[e|k] s1]; simpl.
  - destruct Hc as (_ & (data & Hd & Hm) & Hctl). apply (Hcall s); [done..|].
    case_bool_decide; [by left|]. right. exists data, (vs_len v). split; [lia|done].
  - destruct Hc as (data & -> & Hn & _ & Hm & Hctl).
    assert (I s1) by (apply (Hcall s); [done..|]; right; exists data, (Z.of_nat (length data)); split; [lia|done]).
    case_bool_decide; [by eapply Heof|done].
Qed.

(** Every byte of guest memory that was changed since [m0] is marked as dirty. *)
Definition changes_logged (m0 : Mem) s : Prop :=
  (∀ a, mem_byte (rx_mem s) a ≠ mem_byte m0 a → mem_dirty (rx_mem s) a = true) ∧
  ∀ v, mem_slice (rx_mem s) v ↔ mem_slice m0 v.

Lemma changes_logged_write m0 (m : Mem) v data n a :
  Z.of_nat (length data) ≤ n ≤ vs_len v → mem_slice m v →
  (mem_byte m a ≠ mem_byte m0 a → mem_dirty m a = true) →
  mem_byte (mem_mark_dirty v 0 n (mem_fill v data m)) a ≠ mem_byte m0 a →
  mem_dirty (mem_mark_dirty v 0 n (mem_fill v data m)) a = true.
Proof.
  intros Hn Hv Hm. rewrite mem_mark_byte, mem_fill_byte by lia. case_bool_decide as Hin.
  - intros _. apply mem_mark_dirty_at; [by apply mem_fill_slice|lia..].
  - intros Hne. apply mem_mark_dirty_mono; [by apply mem_fill_slice|lia..|]. rewrite mem_fill_dirty. by apply Hm.
Qed.

Lemma read_to_desc_accessed input desc s :
  0 ≤ desc_len desc →
  accessed (rx_mem s) (desc_len desc) (desc_addr desc) (read_piece input) 0 s
    (read_to_desc input desc s).1 (read_to_desc input desc s).2.
Proof.
  intros Hlen. unfold read_to_desc. erewrite bind_Ret by done.
  apply mem_try_access_accessed; [done|]. intros v s0 n s0' Hv. by apply read_piece_nonneg.
Qed.

Lemma read_to_desc_logged m0 input desc s :
  0 ≤ desc_len desc → changes_logged m0 s → changes_logged m0 (read_to_desc input desc s).2.
Proof.
  intros Hlen Hs. pose proof Hs as [_ Hv0]. eapply accessed_preserves; [|exact Hs|by apply read_to_desc_accessed].
  intros v s0 Hl Hv Hs0. apply read_piece_preserves; [| |done|done].
  - intros s1 s2 Hs1 He _. unfold changes_logged, rx_mem. by rewrite He.
  - intros s1 s2 _ [Hd1 Hv1] _ Hmem. apply Hv0, Hv1 in Hv. unfold changes_logged.
    destruct Hmem as [Hm|(data & n & Hn & Hm)]; rewrite Hm; split.
    + intros b. rewrite mem_fill_byte, mem_fill_dirty by (simpl; lia).
      rewrite bool_decide_eq_false_2 by (simpl; lia). apply Hd1.
    + intros v'. by rewrite mem_fill_slice.
    + intros b. apply changes_logged_write; [done|done|]. apply Hd1.
    + intros v'. by rewrite mem_mark_slice, mem_fill_slice.
Qed.

Lemma read_descs_logged m0 input descs bytes_read s :
  Forall (λ d, 0 ≤ desc_len d) descs →
  changes_logged m0 s → changes_logged m0 (read_descs input descs bytes_read s).2.
Proof.
  intros Hdescs. revert bytes_read s. induction Hdescs as [|d descs Hd _ IH]; intros bytes_read s Hs; [done|].
  simpl. unfold bind at 1, attempt. pose proof (read_to_desc_logged m0 input d s Hd Hs) as Hd'.
  destruct (read_to_desc input d s) as [[n|e| |] s1]; simpl in *; [|by apply IH|done..].
  case_bool_decide; [done|]. apply IH. exact Hd'.
Qed.

(** The data of a run: what was received, and where it is in guest memory. *)
Definition stored (addr : Z) (data : bytes) (m m' : Mem) : Prop :=
  ∀ a, mem_byte m' a =
    if bool_decide (addr ≤ a < addr + Z.of_nat (length data))
    then default 0 (data !! Z.to_nat (a - addr)) else mem_byte m a.

Lemma stored_nil addr m : stored addr [] m m.
Proof. intros a. simpl. by rewrite bool_decide_eq_false_2 by lia. Qed.

Lemma stored_app addr d1 d2 (m m1 m2 : Mem) :
  stored addr d1 m m1 → stored (addr + Z.of_nat (length d1)) d2 m1 m2 →
  stored addr (d1 ++ d2) m m2.
Proof.
  intros H1' H2' a. rewrite H2', length_app, Nat2Z.inj_add. case_bool_decide.
  - rewrite bool_decide_eq_true_2, lookup_app_r by lia. do 2 f_equal. lia.
  - rewrite H1'. case_bool_decide.
    + rewrite bool_decide_eq_true_2, lookup_app_l by lia. done.
    + by rewrite bool_decide_eq_false_2 by lia.
Qed.

Lemma stored_bytes addr data (m m' : Mem) :
  stored addr data m m' → mem_bytes m' addr (Z.of_nat (length data)) = data.
Proof.
  intros Hs. unfold mem_bytes. apply list_eq. intros i. rewrite list_lookup_fmap.
  destruct (data !! i) as [x|] eqn:Hi.
  - apply lookup_lt_Some in Hi as Hlt. rewrite lookup_seqZ_lt by lia. simpl. f_equal.
    rewrite Hs, bool_decide_eq_true_2 by lia. replace (Z.to_nat _) with i by lia. by rewrite Hi.
  - apply lookup_ge_None in Hi. rewrite lookup_seqZ_ge by lia. done.
Qed.

Lemma read_piece_data input v s n s' :
  0 ≤ vs_len v → read_piece input v s = (Ret n, s') →
  ∃ data, n = Z.of_nat (length data) ∧ n ≤ vs_len v ∧
    rx_received input s' = rx_received input s ++ data ∧ stored (vs_addr v) data (rx_mem s) (rx_mem s').
Proof.
  intros Hlen. rewrite read_piece_run. pose proof (input_call_spec input v s Hlen) as Hc.
  destruct (input_call input v s) as [[e|k] s1].
  - destruct Hc as (Hr & (data & _ & Hm) & _). case_bool_decide; intros; simplify_eq.
    exists []. rewrite app_nil_r, Hm. split_and!; [done|lia|done|].
    intros a. rewrite mem_fill_byte by (simpl; lia). done.
  - destruct Hc as (data & -> & Hn & Hr & Hm & _). intros; simplify_eq. exists data.
    assert (stored (vs_addr v) data (rx_mem s) (rx_mem s1)) as Hst.
    { intros a. rewrite Hm, mem_mark_byte. by apply mem_fill_byte. }
    split; [done|]. split; [done|]. by case_bool_decide.
Qed.

Lemma read_to_desc_data input desc s n s' :
  0 ≤ desc_len desc → read_to_desc input desc s = (Ret n, s') →
  ∃ data, n = Z.of_nat (length data) ∧ n ≤ desc_len desc ∧
    rx_received input s' = rx_received input s ++ data ∧
    stored (desc_addr desc) data (rx_mem s) (rx_mem s').
Proof.
  intros Hlen Hrun. pose proof (read_to_desc_accessed input desc s Hlen) as Hacc.
  rewrite Hrun in Hacc. simpl in Hacc.
  refine (proj1 (accessed_ind_ret _ _ _ _ (λ total s1, ∃ data, total = Z.of_nat (length data) ∧
    total ≤ desc_len desc ∧ rx_received input s1 = rx_received input s ++ data ∧
    stored (desc_addr desc) data (rx_mem s) (rx_mem s1)) _ _ _ _ _ _ _ Hacc n eq_refl)); [|done|].
  - intros total len k s1 s2 Ht Hl (data & -> & Hle & Hr & Hst) Hcall Hk.
    destruct (read_piece_data input (MkSlice _ len) _ _ _ (proj1 Hl) Hcall) as (data2 & -> & Hle2 & Hr2 & Hst2).
    exists (data ++ data2). rewrite length_app, Nat2Z.inj_add, Hr2, Hr, app_assoc. simpl in Hle2.
    split_and!; [done|lia|done|]. by eapply stored_app.
  - exists []. rewrite app_nil_r. split_and!; [done|lia|done|apply stored_nil].
Qed.

(** The input is never in an error but for having nothing to read. *)
Definition reliable (input : In) : Prop :=
  ∀ v (w : S) (m : Mem) e wm, pi_read_volatile input v (w, m) = (Fail e, wm) → e = EAGAIN.

Lemma read_piece_fail input v s e s' : reliable input → read_piece input v s ≠ (Fail e, s').
Proof.
  intros Hrel. rewrite read_piece_run. unfold input_call.
  destruct (pi_read_volatile input v _) as [[k|e'| |] [w m]] eqn:Hr; [done| |done..].
  by rewrite (Hrel _ _ _ _ _ Hr).
Qed.

(** A descriptor that does not begin in guest memory is left alone. *)
Lemma read_to_desc_fail input desc s e s' :
  reliable input → 0 ≤ desc_len desc → read_to_desc input desc s = (Fail e, s') → s' = s.
Proof.
  intros Hrel Hlen Hrun. pose proof (read_to_desc_accessed input desc s Hlen) as Hacc.
  rewrite Hrun in Hacc. simpl in Hacc.
  cut (∀ total s o s', accessed (rx_mem s) (desc_len desc) (desc_addr desc) (read_piece input) total s o s' →
    o = Fail e → 0 ≤ total → total = 0 ∧ s' = s).
  { intros Hcut. by destruct (Hcut _ _ _ _ Hacc eq_refl ltac:(done)). }
  clear s s' Hrun Hacc. intros total s. generalize (rx_mem s). intros m0 o s' Hacc.
  induction Hacc as [total s Hun| | |total len n s s1 o s' Hlen' _ Hcall Hn Hlt Hacc IH
    |total len n s s' Hl _ Hcall Hn Hover|total len o s s' Hl _ Hcall Ho]; intros Hk Htot; try done.
  - case_bool_decide; by simplify_eq.
  - destruct (IH Hk); lia.
  - destruct (read_piece_data input (MkSlice _ len) _ _ _ (proj1 Hl) Hcall) as (data & _ & Hle & _). simpl in Hle. lia.
  - subst. by destruct (read_piece_fail input _ _ _ _ Hrel Hcall).
Qed.

(** The addresses of a descriptor's buffer *)
Definition desc_range (d : Descriptor) : list Z := seqZ (desc_addr d) (desc_len d).

Lemma elem_of_desc_range d a : a ∈ desc_range d ↔ desc_addr d ≤ a < desc_addr d + desc_len d.
Proof. unfold desc_range. rewrite elem_of_seqZ. lia. Qed.

(** The parts of a chain that were filled: descriptors with the bytes at their start. *)
Definition filled (m : Mem) (parts : list (Descriptor * bytes)) : Prop :=
  Forall (λ p, Z.of_nat (length p.2) ≤ desc_len p.1 ∧
    mem_bytes m (desc_addr p.1) (Z.of_nat (length p.2)) = p.2) parts.

Lemma mem_bytes_ext (m m' : Mem) addr len :
  (∀ a, addr ≤ a < addr + len → mem_byte m' a = mem_byte m a) →
  mem_bytes m' addr len = mem_bytes m addr len.
Proof.
  intros Heq. unfold mem_bytes. apply list_fmap_ext. intros i a Ha.
  apply lookup_seqZ in Ha as [-> ?]. apply Heq. lia.
Qed.

(** Filling the buffers of a chain: when the input only ever fails for having
    nothing to read and the buffers do not overlap, the bytes received from it are, in
    order and without a gap in the stream, the contents of the starts of some of the
    chain's buffers, guest memory outside the buffers is unchanged, and the length that
    is returned is the number of bytes received. *)
Theorem rx_chain_filled input descs bytes_read s n s' :
  reliable input → Forall (λ d, 0 ≤ desc_len d) descs → NoDup (descs ≫= desc_range) →
  read_descs input descs bytes_read s = (Ret n, s') →
  ∃ parts, sublist parts.*1 descs ∧ filled (rx_mem s') parts ∧
    rx_received input s' = rx_received input s ++ concat parts.*2 ∧
    n = bytes_read + Z.of_nat (length (concat parts.*2)) ∧
    ∀ a, a ∉ descs ≫= desc_range → mem_byte (rx_mem s') a = mem_byte (rx_mem s) a.
Proof.
  intros Hrel Hdescs. revert bytes_read s. induction Hdescs as [|d descs Hd Hdescs IH];
    intros bytes_read s Hdup Hrun; simpl in Hrun.
  { unfold ret in Hrun. simplify_eq. exists []. rewrite app_nil_r. split_and!; try done.
    - constructor.
    - simpl. lia. }
  rewrite bind_cons in Hdup. apply NoDup_app in Hdup as (_ & Hsep & Hdup).
  assert (∀ a, a ∉ (d :: descs) ≫= desc_range → a ∉ desc_range d ∧ a ∉ descs ≫= desc_range) as Hout.
  { intros a. rewrite bind_cons, elem_of_app. tauto. }
  unfold bind, attempt in Hrun. destruct (read_to_desc input d s) as [[k|e| |] s1] eqn:Hk; [| |done..].
  - destruct (read_to_desc_data input d s k s1 Hd Hk) as (data & -> & Hle & Hr & Hst).
    assert (∀ a, a ∉ desc_range d → mem_byte (rx_mem s1) a = mem_byte (rx_mem s) a) as Hframe.
    { intros a. rewrite elem_of_desc_range. intros Ha. rewrite Hst.
      by rewrite bool_decide_eq_false_2 by lia. }
    case_bool_decide as Hz.
    + unfold ret in Hrun. simplify_eq. exists []. simpl. rewrite app_nil_r.
      assert (data = []) as -> by (apply nil_length_inv; lia).
      split_and!; [apply sublist_nil_l|constructor|by rewrite Hr, app_nil_r|lia|].
      intros a Ha. apply Hframe. by apply Hout.
    + unfold modify in Hrun.
      destruct (IH (bytes_read + Z.of_nat (length data)) _ Hdup Hrun) as (parts & Hsub & Hfill & Hr' & Hn & Hfr).
      exists ((d, data) :: parts). split_and!.
      * by apply sublist_skip.
      * constructor; [|done]. simpl. split; [done|].
        rewrite (mem_bytes_ext (rx_mem s1)); [by apply stored_bytes with (m:=rx_mem s)|].
        intros a Ha. apply Hfr. apply Hsep, elem_of_desc_range. lia.
      * rewrite Hr'. change (rx_received input (set_signal true s1)) with (rx_received input s1).
        by rewrite Hr, <-app_assoc.
      * rewrite Hn, fmap_cons. cbn [concat snd]. rewrite length_app. lia.
      * intros a Ha. rewrite Hfr by (by apply Hout). apply Hframe. by apply Hout.
  - rewrite (read_to_desc_fail input d s e s1 Hrel Hd Hk) in Hrun.
    destruct (IH bytes_read s Hdup Hrun) as (parts & Hsub & Hfill & Hr' & Hn & Hfr).
    exists parts. split_and!; [by apply sublist_cons|done..|]. intros a Ha. apply Hfr. by apply Hout.
Qed.

(** ** Every chain is answered or put back *)

(** The descriptors are always worked off: an error of one of them is only logged. *)
Lemma read_descs_Ret input descs bytes_read s :
  Forall (λ d, 0 ≤ desc_len d) descs →
  ∃ n s', read_descs input descs bytes_read s = (Ret n, s') ∧
    (reliable input → ∃ data, rx_received input s' = rx_received input s ++ data ∧
      n = bytes_read + Z.of_nat (length data)).
Proof.
  intros Hdescs. revert bytes_read s. induction Hdescs as [|d descs Hd _ IH]; intros bytes_read s; simpl.
  { exists bytes_read, s. split; [done|]. intros _. exists []. rewrite app_nil_r. split; [done|]. simpl. lia. }
  unfold bind, attempt. pose proof (read_to_desc_accessed input d s Hd) as Hacc.
  apply (accessed_outcome (λ o, (∃ n, o = Ret n) ∨ (∃ e, o = Fail e))) in Hacc; [|by eauto..|].
  2: { intros v s0 _. rewrite read_piece_run. destruct (input_call input v s0) as [[e|n] s1];
    [case_bool_decide|]; eauto. }
  destruct (read_to_desc input d s) as [o s1] eqn:Hk. simpl in Hacc. destruct Hacc as [[k ->]|[e ->]].
  - destruct (read_to_desc_data input d s k s1 Hd Hk) as (data & -> & _ & Hr & _).
    case_bool_decide as Hz.
    + exists bytes_read, s1. split; [done|]. intros _. exists data. split; [done|]. lia.
    + destruct (IH (bytes_read + Z.of_nat (length data)) (set_signal true s1)) as (n & s' & Hrun & Hdata).
      exists n, s'. split; [done|]. intros Hrel. destruct (Hdata Hrel) as (data2 & Hr2 & ->).
      exists (data ++ data2). rewrite Hr2, app_assoc, <-Hr, length_app. split; [done|]. lia.
  - destruct (IH bytes_read s1) as (n & s' & Hrun & Hdata). exists n, s'. split; [done|].
    intros Hrel. by rewrite (read_to_desc_fail input d s e s1 Hrel Hd Hk) in Hdata; auto.
Qed.

(** What the rings and the control messages look like. *)
Definition same_rings (m0 : Mem) (c0 : ConsoleControl) s : Prop :=
  ce_control (rx_env s) = c0 ∧
  ∀ q, q_avail q (rx_mem s) = q_avail q m0 ∧ q_used q (rx_mem s) = q_used q m0.

(** The proof rule of the loop over the descriptors, for what is said of the environment *)
Lemma read_descs_preserves (I : RxEnv S Mem → Prop) input descs bytes_read s :
  (∀ s s', I s → rx_env s' = rx_env s → I s') →
  (∀ v s s', 0 ≤ vs_len v → I s → ce_control (rx_env s') = ce_control (rx_env s) →
    (rx_mem s' = mem_fill v [] (rx_mem s) ∨ ∃ data n, Z.of_nat (length data) ≤ n ≤ vs_len v ∧
      rx_mem s' = mem_mark_dirty v 0 n (mem_fill v data (rx_mem s))) → I s') →
  Forall (λ d, 0 ≤ desc_len d) descs → I s → I (read_descs input descs bytes_read s).2.
Proof.
  intros Henv Hcall Hdescs. revert bytes_read s.
  induction Hdescs as [|d descs Hd _ IH]; intros bytes_read s Hs; [done|].
  simpl. unfold bind at 1, attempt.
  assert (I (read_to_desc input d s).2) as Hd'.
  { eapply accessed_preserves; [|exact Hs|by apply read_to_desc_accessed].
    intros v s0 Hl _ Hs0. apply read_piece_preserves; eauto. }
  destruct (read_to_desc input d s) as [[n|e| |] s1]; simpl in *; [|by apply IH|done..].
  case_bool_decide; [done|]. apply IH. by eapply Henv.
Qed.

Lemma read_descs_rings m0 c0 input descs bytes_read s :
  Forall (λ d, 0 ≤ desc_len d) descs → same_rings m0 c0 s →
  same_rings m0 c0 (read_descs input descs bytes_read s).2.
Proof.
  intros Hdescs. apply read_descs_preserves; [| |done].
  - intros s1 s2 [Hc1 Hq1] He. unfold same_rings, rx_mem. by rewrite He.
  - intros v s1 s2 Hv [Hc1 Hq1] Hc [Hm|(data & n & Hn & Hm)]; (split; [congruence|]); intros q.
    + destruct (mem_fill_views v [] q (rx_mem s1)) as [Ha Hu]. rewrite Hm, Ha, Hu. apply Hq1.
    + destruct (mem_mark_views v 0 n q (mem_fill v data (rx_mem s1))) as [Ha Hu].
      destruct (mem_fill_views v data q (rx_mem s1)) as [Ha' Hu'].
      rewrite Hm, Ha, Hu, Ha', Hu'. apply Hq1.
Qed.

Context `{!ChainDescsLaws Mem Chain}.
Context `{!EventFdLaws S} `{!StreamsEventFd S In Out}.
Implicit Types t : RxEnv S Mem * Q.

Definition rx_heads t : list Z := chain_head_index <$> q_avail t.2 (rx_mem t.1).
Definition rx_used t : list (Z * Z) := q_used t.2 (rx_mem t.1).
Definition rx_messages t : list Payload := messages (rx_env t.1).

(** The chains that a run has answered: the head, the number of bytes read for it, and
    whether it could be put in the used ring. *)
Definition used_of (rs : list (Z * Z * bool)) : list (Z * Z) :=
  (λ r, (r.1.1, wrap 32 r.1.2)) <$> filter (λ r, r.2 = true) rs.
Definition total_read (rs : list (Z * Z * bool)) : Z := foldr Z.add 0 rs.*1.*2.

Definition chains_outcome (input : In) (port_id : Z) t (run : outcome errno chains_end * (RxEnv S Mem * Q)) : Prop :=
  ∃ next rs, run.1 = Ret next ∧
    rx_heads t = rs.*1.*1 ++ rx_heads run.2 ∧
    rx_used run.2 = rx_used t ++ used_of rs ∧
    Forall (λ r, r.1.2 ≠ 0) rs ∧
    (reliable input → ∃ data, rx_received input run.2.1 = rx_received input t.1 ++ data ∧
      Z.of_nat (length data) = total_read rs) ∧
    match next with
    | QueueEmpty => rx_messages run.2 = rx_messages t ∧
        ∃ q, q_pop_descriptor_chain (rx_mem run.2.1) q = (None, run.2.2)
    | ContinueEvents => rx_messages run.2 = rx_messages t ∧ rx_heads run.2 ≠ []
    | BreakEvents => rx_eof run.2.1 = true ∧
        rx_messages run.2 = rx_messages t ++
          [PayloadConsoleControl (MkVirtioConsoleControl port_id VIRTIO_CONSOLE_PORT_OPEN 0)]
    end.

(** One chain was answered before the rest of the run. *)
Lemma chains_outcome_cons input port_id t t1 run r :
  rx_heads t = r.1.1 :: rx_heads t1 → r.1.2 ≠ 0 →
  rx_used t1 = rx_used t ++ used_of [r] →
  (reliable input → ∃ data, rx_received input t1.1 = rx_received input t.1 ++ data ∧
    Z.of_nat (length data) = r.1.2) →
  rx_messages t1 = rx_messages t →
  chains_outcome input port_id t1 run → chains_outcome input port_id t run.
Proof.
  intros Hh Hz Hu Hd Hm (next & rs & Ho & Hh' & Hu' & Hnz & Hd' & Hnext).
  exists next, (r :: rs). split; [done|]. split; [by rewrite Hh, Hh'|]. split.
  { rewrite Hu', Hu, <-app_assoc. f_equal. unfold used_of. rewrite <-fmap_app, <-filter_app. done. }
  split; [by constructor|]. split.
  - intros Hrel. destruct (Hd Hrel) as (d1 & Hr1 & Hl1). destruct (Hd' Hrel) as (d2 & Hr2 & Hl2).
    exists (d1 ++ d2). rewrite Hr2, Hr1, app_assoc, length_app. split; [done|].
    change (total_read (r :: rs)) with (r.1.2 + total_read rs). lia.
  - by rewrite <-Hm.
Qed.

(** The used ring after a chain that was read into. *)
Lemma rx_add_used_run head len t :
  ∃ u (ok : bool) t', attempt (E':=errno) (rx_add_used head len) t = (Ret u, t') ∧
    rx_env t'.1 = MkConsoleEnv (ce_world (rx_env t.1)) (rx_mem t'.1) (ce_control (rx_env t.1)) ∧
    rx_eof t'.1 = rx_eof t.1 ∧ rx_heads t' = rx_heads t ∧
    rx_used t' = rx_used t ++ (if ok then [(head, len)] else []).
Proof.
  unfold attempt, rx_add_used, zoom. destruct t as [[[w m c] eof signal] q].
  destruct (q_add_used_result head len (q, m)) as [[[q' m'] Hr]|(e & [q' m'] & Hr)]; simpl; rewrite Hr.
  - destruct (q_add_used_ok _ _ _ _ _ _ Hr) as [Hu Ha]. exists (inr tt), true. eexists. split; [done|].
    unfold rx_heads, rx_used, rx_mem. simpl. by rewrite Ha, Hu.
  - destruct (q_add_used_fail _ _ _ _ _ _ _ Hr) as [Hu Ha]. exists (inl e), false. eexists. split; [done|].
    unfold rx_heads, rx_used, rx_mem. simpl. by rewrite Ha, Hu, app_nil_r.
Qed.

Lemma rx_chains_outcome fuel input port_id t :
  (length (q_avail t.2 (rx_mem t.1)) < fuel)%nat →
  chains_outcome input port_id t (rx_chains fuel input port_id t).
Proof.
  revert t. induction fuel as [|fuel IH]; intros [s q] Hfuel; [lia|]. simpl in Hfuel |- *.
  unfold bind at 1, rx_pop. cbn [fst snd]. change (ce_mem (rx_env s)) with (rx_mem s).
  destruct (q_pop_descriptor_chain (rx_mem s) q) as [[c|] q1] eqn:Hpop.
  2: { destruct (q_pop_None _ _ _ Hpop) as [Ha Hu]. exists QueueEmpty, [].
    unfold rx_heads, rx_used, used_of, ret. simpl. rewrite Ha, Hu, app_nil_r.
    split_and!; [done..| |done|by exists q]. intros _. exists []. by rewrite app_nil_r. }
  destruct (q_pop_Some _ _ _ _ Hpop) as (Ha & Hu & Hback & Hbacku).
  erewrite bind_Ret by done. cbn [fst snd].
  pose proof (writable_descs_len (ce_mem (rx_env s)) c) as Hdescs.
  destruct (read_descs_Ret input (chain_writable_descs (ce_mem (rx_env s)) c) 0 s Hdescs)
    as (n & s1 & Hrun & Hdata).
  destruct (read_descs_rings (rx_mem s) (ce_control (rx_env s)) input _ 0 s Hdescs ltac:(done))
    as [Hctl Hrings]. rewrite Hrun in Hctl, Hrings. simpl in Hctl, Hrings.
  erewrite (bind_Ret _ _ _ n (s1, q1)) by (unfold on_rx, zoom; simpl; by rewrite Hrun).
  case_bool_decide as Hn.
  { exists ContinueEvents, []. unfold rx_heads, rx_used, rx_messages, used_of, messages, ret. simpl.
    destruct (Hrings (q_go_to_previous_position q1)) as [-> ->].
    rewrite Hback, Hbacku, app_nil_r, Hctl. split_and!; [done..| |done|].
    - intros Hrel. destruct (Hdata Hrel) as (data & -> & Hlen). exists data. split; [done|].
      change (total_read []) with 0. lia.
    - rewrite Ha. done. }
  destruct (rx_add_used_run (chain_head_index c) (wrap 32 n) (s1, q1))
    as (u & ok & [s2 q2] & Hadd & Henv & Heof & Hh2 & Hu2).
  erewrite bind_Ret by exact Hadd. erewrite bind_Ret by done. cbn [fst snd] in *.
  assert (ce_control (rx_env s2) = ce_control (rx_env s)) as Hctl2 by (rewrite Henv; exact Hctl).
  apply (chains_outcome_cons input port_id (s, q) (s2, q2) _
    (chain_head_index c, n, ok)); simpl; [|done| | | |].
  - rewrite Hh2. unfold rx_heads. simpl. destruct (Hrings q1) as [-> _]. by rewrite Ha.
  - rewrite Hu2. unfold rx_used at 1 2. simpl. destruct (Hrings q1) as [_ ->]. rewrite Hu. f_equal.
    by destruct ok.
  - intros Hrel. destruct (Hdata Hrel) as (data & Hr & Hlen). exists data. unfold rx_received in *.
    rewrite Henv. split; [exact Hr|]. lia.
  - unfold rx_messages, messages. simpl. by rewrite Hctl2.
  - destruct (rx_eof s2) eqn:Heof2.
    + unfold bind, on_rx, on_rx_env, zoom, port_open, push_msg. simpl.
      rewrite (push_payload_run (E:=errno)). exists BreakEvents, []. simpl.
      unfold rx_heads, rx_used, rx_received, rx_messages, used_of, rx_mem, ret. simpl. rewrite app_nil_r.
      split_and!; try done. intros _. exists []. rewrite app_nil_r. split; [|done].
      apply efd_write_received.
    + apply IH. simpl. unfold rx_heads in Hh2. apply (f_equal length) in Hh2.
      rewrite !length_fmap in Hh2. simpl in Hh2. rewrite Hh2. destruct (Hrings q1) as [-> _].
      rewrite Ha in Hfuel. simpl in Hfuel. lia.
Qed.

(** One run over the receive queue never panics and ends. The available chains
    are taken in order; each is answered with the number of bytes that were read for it,
    which is not zero, and none is lost: what is left is still available, the chain that
    nothing could be read for included, which is put back. Only a failure to write the
    used ring itself loses a chain. When the input only ever fails for having nothing to
    read, the bytes it delivered in this run are exactly those that the chains were
    answered with. The driver is told that the port is closed exactly when the run ends
    because the input has. More fuel than there are chains is enough. *)
Theorem rx_conserves fuel input port_id t :
  (length (q_avail t.2 (rx_mem t.1)) < fuel)%nat →
  let run := rx_chains fuel input port_id t in
  ∃ next rs, run.1 = Ret next ∧
    rx_heads t = rs.*1.*1 ++ rx_heads run.2 ∧
    rx_used run.2 = rx_used t ++ used_of rs ∧
    Forall (λ r, r.1.2 ≠ 0) rs ∧
    (reliable input → ∃ data, rx_received input run.2.1 = rx_received input t.1 ++ data ∧
      Z.of_nat (length data) = total_read rs) ∧
    match next with
    | QueueEmpty => rx_messages run.2 = rx_messages t ∧
        ∃ q, q_pop_descriptor_chain (rx_mem run.2.1) q = (None, run.2.2)
    | ContinueEvents => rx_messages run.2 = rx_messages t ∧ rx_heads run.2 ≠ []
    | BreakEvents => rx_eof run.2.1 = true ∧
        rx_messages run.2 = rx_messages t ++
          [PayloadConsoleControl (MkVirtioConsoleControl port_id VIRTIO_CONSOLE_PORT_OPEN 0)]
    end.
Proof. intros Hfuel. exact (rx_chains_outcome fuel input port_id t Hfuel). Qed.

(** The end of the input goes unnoticed when it is met at the start of a
    chain: although [eof] is set, the run puts the chain back and goes on waiting for
    events, without a message to the driver and with the port still open. *)
Theorem rx_eof_unnoticed fuel input port_id t c q1 s1 :
  q_pop_descriptor_chain (rx_mem t.1) t.2 = (Some c, q1) →
  read_descs input (chain_writable_descs (rx_mem t.1) c) 0 t.1 = (Ret 0, s1) →
  rx_eof s1 = true →
  rx_chains (Datatypes.S fuel) input port_id t = (Ret ContinueEvents, (s1, q_go_to_previous_position q1)) ∧
  ce_control (rx_env s1) = ce_control (rx_env t.1).
Proof.
  intros Hpop Hrun _. destruct t as [s q]. cbn [fst snd] in *. split.
  - simpl. unfold rx_mem in Hpop. erewrite (bind_Ret _ _ _ (Some c) (s, q1)).
    2: { unfold rx_pop. simpl. by rewrite Hpop. }
    erewrite bind_Ret by done. cbn [fst snd].
    by erewrite (bind_Ret _ _ _ 0 (s1, q1)) by (unfold on_rx, zoom; simpl; unfold rx_mem in Hrun; by rewrite Hrun).
  - destruct (read_descs_rings (rx_mem s) (ce_control (rx_env s)) input
      (chain_writable_descs (rx_mem s) c) 0 s (writable_descs_len _ _) ltac:(done)) as [Hctl _].
    by rewrite Hrun in Hctl.
Qed.
End rx_properties.
