(* ===== verification/RxStream.v ===== *)
(** * What the receiving thread does to guest memory

    [ProcessRx] follows the bytes and chains of one run over the receive queue. This file
    is about the guest memory that a port's thread leaves. Every byte that it has changed
    is in the dirty log, from the start of the thread to any later moment
    ([rx_thread_logged]); on the memory of [LoggedMemory], whose bitmaps are those of
    [bitmap.rs], that is the log which the front-end reads during a migration
    ([rx_writes_in_log]). And what the driver finds in its buffers after a run is what the
    input has delivered ([rx_delivers]). *)

From S2P Require Import Prelude EventToken Epoll EventManager VirtQueue Bitmap Codec ConsoleControl PortIo.
From S2P Require Import GuestRegions LoggedMemory ProcessRx.

(** The [virtio_queue] crate writes the used ring through [vm_memory], which marks what it
    writes. *)
Class UsedRingLogged (Q Mem Chain : Type) `{QueueProc Q Mem Chain} `{GuestAccess Mem} : Prop := {
  q_add_used_logged head len q (m : Mem) o q' m' a :
    q_add_used head len (q, m) = (o, (q', m')) → mem_byte m' a ≠ mem_byte m a → mem_dirty m' a = true;
  q_add_used_dirty head len q (m : Mem) o q' m' a :
    q_add_used head len (q, m) = (o, (q', m')) → mem_dirty m a = true → mem_dirty m' a = true;
  q_add_used_slices head len q (m : Mem) o q' m' v :
    q_add_used head len (q, m) = (o, (q', m')) → mem_slice m' v ↔ mem_slice m v;
}.

Section logged.
Context {S Q Mem Chain In Out : Type} `{QueueProc Q Mem Chain} `{ChainDescs Mem Chain}
  `{!ChainDescsLaws Mem Chain} `{GuestAccess Mem} `{!GuestAccessLaws Mem} `{!UsedRingLogged Q Mem Chain}
  `{PortInput S Mem In} `{PortStreams S In Out} `{!PortInputLaws S Mem In Out}
  `{EpollOps S} `{EventSetBits} `{EventFdOps S} `{DQ : DeviceQueue S Q}.
Implicit Types (s : RxEnv S Mem) (t : RxEnv S Mem * Q).

(** What has changed since [m0] is in the log of [m]. *)
Definition logged (m0 m : Mem) : Prop :=
  (∀ a, mem_byte m a ≠ mem_byte m0 a → mem_dirty m a = true) ∧
  ∀ v, mem_slice m v ↔ mem_slice m0 v.

Lemma logged_refl m : logged m m.
Proof. by split. Qed.

Lemma add_used_logged m0 head len t :
  logged m0 (rx_mem t.1) → logged m0 (rx_mem (rx_add_used head len t).2.1).
Proof.
  intros [Hd Hv]. unfold rx_add_used, zoom. destruct t as [s q]. cbn [fst snd].
  change (ce_mem (rx_env s)) with (rx_mem s).
  destruct (q_add_used head len (q, rx_mem s)) as [o [q' m']] eqn:Hadd. split; simpl.
  - intros a Ha. destruct (decide (mem_byte m' a = mem_byte (rx_mem s) a)) as [Heq|Hne].
    + eapply q_add_used_dirty; [exact Hadd|]. apply Hd. intros Hsame. apply Ha. etrans; [exact Heq|exact Hsame].
    + by eapply q_add_used_logged.
  - intros v. by rewrite (q_add_used_slices _ _ _ _ _ _ _ _ Hadd).
Qed.

(** ** The thread *)

Local Notation CE := (ConsoleEnv S Mem).

Section since.
Context (m0 : Mem).

Definition env_logged (e : CE) : Prop := logged m0 (ce_mem e).
Definition rx_logged s : Prop := logged m0 (rx_mem s).
Definition queue_logged t : Prop := logged m0 (rx_mem t.1).

Lemma logged_on_world {E A} (m : M S E A) : preserves env_logged (on_world m).
Proof. intros e He. unfold on_world, zoom. by destruct (m (ce_world e)). Qed.

Lemma logged_rx_world {E A} (m : M S E A) : preserves rx_logged (rx_world m).
Proof. intros s Hs. unfold rx_world, on_rx_env, on_world, zoom. by destruct (m _). Qed.

Lemma logged_on_rx {E A} (m : M (RxEnv S Mem) E A) :
  preserves rx_logged m → preserves queue_logged (on_rx (Q:=Q) m).
Proof. intros Hm. by eapply (preserves_zoom queue_logged rx_logged). Qed.

Lemma logged_port_open {E} port_id b : preserves (E:=E) rx_logged (on_rx_env (port_open port_id b)).
Proof.
  apply (preserves_zoom _ env_logged); [done|done|]. unfold port_open, push_msg, push_payload.
  apply preserves_bind; [by apply preserves_modify|intros _].
  apply preserves_bind; [apply preserves_gets|intros control].
  apply preserves_bind; [apply preserves_attempt, logged_on_world|intros r; apply preserves_ret].
Qed.

Lemma logged_rx_chains fuel input port_id : preserves queue_logged (rx_chains (Q:=Q) fuel input port_id).
Proof.
  induction fuel as [|fuel IH]; simpl; [by intros t|].
  apply preserves_bind; [|intros [chain|]; [|apply preserves_ret]].
  { intros [s q] Ht. unfold rx_pop. simpl. by destruct (q_pop_descriptor_chain _ _). }
  apply preserves_bind; [apply preserves_gets|intros mem].
  apply preserves_bind; [|intros bytes_read; apply preserves_if].
  - apply logged_on_rx. intros s Hs.
    exact (read_descs_logged (Out:=Out) m0 input _ 0 s (writable_descs_len mem chain) Hs).
  - apply preserves_bind; [by apply preserves_modify|auto with preserves].
  - apply preserves_bind; [apply preserves_attempt|intros r].
    { intros t Ht. by apply add_used_logged. }
    apply preserves_bind; [apply preserves_gets|intros eof]. apply preserves_if; [|exact IH].
    apply preserves_bind; [apply logged_on_rx, logged_port_open|auto with preserves].
Qed.

Lemma logged_rx_section fuel input port_id : preserves rx_logged (rx_section (Q:=Q) fuel input port_id).
Proof.
  unfold rx_section. apply preserves_bind; [apply preserves_gets|intros world].
  destruct (dq_try_lock_queue world) as [queue|]; [|apply preserves_ret].
  intros s Hs. unfold rx_locked.
  assert (preserves queue_logged (rx_drain (Q:=Q) fuel input port_id)) as Hdrain.
  { unfold rx_drain. apply preserves_bind; [apply logged_rx_chains|].
    intros [| |]; try apply preserves_ret. apply preserves_bind; [apply preserves_gets|intros signal].
    apply preserves_bind; [|auto with preserves]. apply preserves_if; [|apply preserves_ret].
    apply preserves_unwrap, logged_on_rx, logged_rx_world. }
  specialize (Hdrain (s, queue) Hs). by destruct (rx_drain fuel input port_id (s, queue)) as [o [s' q']].
Qed.

Lemma logged_rx_turn fuel event_manager input port_id :
  preserves rx_logged (rx_turn (Q:=Q) fuel event_manager input port_id).
Proof.
  unfold rx_turn. apply preserves_bind; [|intros _; apply preserves_bind; [|intros event]].
  - unfold rx_notify. apply preserves_bind; [apply preserves_gets|intros signal].
    apply preserves_if; [|apply preserves_ret]. apply preserves_bind; [|intros _; by apply preserves_modify].
    apply preserves_unwrap, logged_rx_world.
  - apply preserves_unwrap, logged_rx_world.
  - destruct (te_token event); try apply preserves_ret;
      (apply preserves_bind; [apply preserves_unwrap, logged_rx_world|intros enabled]);
      (apply preserves_if; [apply preserves_ret|apply logged_rx_section]).
Qed.

Lemma logged_process_rx arc_of fuel input port_id stopfd :
  preserves env_logged (process_rx (Q:=Q) (Chain:=Chain) arc_of fuel input port_id stopfd).
Proof.
  unfold process_rx. do 4 (apply preserves_bind; [apply preserves_unwrap, logged_on_world|intros ?]).
  apply (preserves_zoom _ rx_logged); [done|done|]. apply preserves_loop, logged_rx_turn.
Qed.
End since.

(** Whatever happens while a port's thread runs, short reads, errors, ends of the input,
    the driver's requests: every byte of guest memory that has changed is marked in the
    dirty bitmap. *)
Theorem rx_thread_logged arc_of fuel input port_id stopfd (e : CE) a :
  mem_byte (ce_mem (process_rx (Q:=Q) (Chain:=Chain) arc_of fuel input port_id stopfd e).2) a ≠
    mem_byte (ce_mem e) a →
  mem_dirty (ce_mem (process_rx (Q:=Q) (Chain:=Chain) arc_of fuel input port_id stopfd e).2) a = true.
Proof. apply (logged_process_rx (ce_mem e) arc_of fuel input port_id stopfd e), logged_refl. Qed.
End logged.

(** ** What the driver finds in its buffers *)

Section delivered.
Context {S Q Mem Chain In Out : Type} `{QueueProcLaws Q Mem Chain} `{!ChainDescs Mem Chain}
  `{!ChainDescsLaws Mem Chain} `{GuestAccess Mem} `{!GuestAccessLaws Mem}
  `{!GuestAccessQueue Q Mem Chain} `{!GuestAccessDescs Mem Chain} `{!UsedRing Q, !UsedRingLaws Q Mem Chain}
  `{PortInput S Mem In} `{PortStreams S In Out} `{!PortInputLaws S Mem In Out}
  `{EpollOps S} `{EventSetBits} `{!EventFdOps S, !EventFdLaws S} `{!StreamsEventFd S In Out}.
Implicit Types (s : RxEnv S Mem) (t : RxEnv S Mem * Q) (c : Chain).

Definition rx_avail t : list Chain := q_avail t.2 (rx_mem t.1).

(** The buffers of a chain, and that those of some chains do not overlap each other or
    the used ring *)
Definition buffers (m : Mem) c : list Z := chain_writable_descs m c ≫= desc_range.
Definition receivable (q : Q) (m : Mem) (cs : list Chain) : Prop :=
  NoDup (cs ≫= buffers m) ∧ ∀ c a, c ∈ cs → a ∈ buffers m c → ¬ used_area q a.

Lemma buffers_ext (m m' : Mem) :
  (∀ c, chain_writable_descs m' c = chain_writable_descs m c) → ∀ c, buffers m' c = buffers m c.
Proof. intros Hd c. unfold buffers. by rewrite Hd. Qed.

Lemma bind_buffers_ext (m m' : Mem) cs :
  (∀ c, chain_writable_descs m' c = chain_writable_descs m c) →
  cs ≫= buffers m' = cs ≫= buffers m.
Proof. intros Hd. apply list_bind_ext; [|done]. by apply buffers_ext. Qed.

(** A chain that was answered: its filled parts, and whether it is in the used ring *)
Definition answer : Type := Chain * list (Descriptor * bytes) * bool.
Definition said (r : answer) : bytes := concat r.1.2.*2.
Definition rx_entries (rs : list answer) : list (Z * Z) :=
  (λ r : answer, (chain_head_index r.1.1, wrap 32 (Z.of_nat (length (said r))))) <$>
    filter (λ r, r.2 = true) rs.

Lemma filled_frame (m m' : Mem) (descs : list Descriptor) parts :
  sublist parts.*1 descs → (∀ a, a ∈ descs ≫= desc_range → mem_byte m' a = mem_byte m a) →
  filled m parts → filled m' parts.
Proof.
  intros Hsub Heq Hf. unfold filled in *. rewrite Forall_forall in Hf |- *. intros p Hp.
  destruct (Hf p Hp) as [Hle Hb]. split; [done|]. rewrite <-Hb at 2. apply mem_bytes_ext.
  intros a Ha. apply Heq. apply list_elem_of_bind. exists p.1. split; [apply elem_of_desc_range; lia|].
  eapply elem_of_sublist; [|done]. by apply list_elem_of_fmap_2.
Qed.

(** *** One chain *)

Lemma read_descs_descs input descs bytes_read s :
  Forall (λ d, 0 ≤ desc_len d) descs → ∀ c,
  chain_writable_descs (rx_mem (read_descs input descs bytes_read s).2) c =
    chain_writable_descs (rx_mem s) c.
Proof.
  intros Hdescs. pattern (read_descs input descs bytes_read s).2.
  apply (read_descs_preserves (Out:=Out)); [| |done|done].
  - intros s1 s2 Hs1 He c. unfold rx_mem. rewrite He. apply Hs1.
  - intros v s1 s2 _ Hs1 _ [Hm|(data & n & _ & Hm)] c; rewrite Hm.
    + rewrite (proj2 (mem_fill_descs _ _ _ _)). apply Hs1.
    + rewrite (proj2 (mem_mark_descs _ _ _ _ _)), (proj2 (mem_fill_descs _ _ _ _)). apply Hs1.
Qed.

(** The buffers of a chain take what the input delivers. *)
Lemma read_chain input (m : Mem) c s :
  reliable (S:=S) (Mem:=Mem) input → rx_mem s = m → NoDup (buffers m c) →
  ∃ parts s', read_descs input (chain_writable_descs m c) 0 s =
      (Ret (Z.of_nat (length (concat parts.*2))), s') ∧
    sublist parts.*1 (chain_writable_descs m c) ∧ filled (rx_mem s') parts ∧
    rx_received (Out:=Out) input s' = rx_received (Out:=Out) input s ++ concat parts.*2 ∧
    (∀ a, a ∉ buffers m c → mem_byte (rx_mem s') a = mem_byte m a) ∧
    same_rings (Q:=Q) (Chain:=Chain) m (ce_control (rx_env s)) s' ∧
    ∀ c', chain_writable_descs (rx_mem s') c' = chain_writable_descs m c'.
Proof.
  intros Hrel Hm Hdup. subst m. pose proof (writable_descs_len (rx_mem s) c) as Hdescs.
  destruct (read_descs_Ret (Out:=Out) input _ 0 s Hdescs) as (n & s' & Hrun & _).
  destruct (rx_chain_filled (Out:=Out) input _ 0 s n s' Hrel Hdescs Hdup Hrun)
    as (parts & Hsub & Hfilled & Hrecv & -> & Hframe).
  pose proof (read_descs_rings (Q:=Q) (Chain:=Chain) (Out:=Out) (rx_mem s) (ce_control (rx_env s))
    input _ 0 s Hdescs ltac:(done)) as Hrings.
  pose proof (read_descs_descs input _ 0 s Hdescs) as Hsame. rewrite Hrun in Hrings, Hsame.
  exists parts, s'. split_and!; done.
Qed.

(** An entry of the used ring leaves the buffers alone. *)
Lemma rx_add_used_mem head len t :
  (∀ a, ¬ used_area t.2 a →
    mem_byte (rx_mem (rx_add_used head len t).2.1) a = mem_byte (rx_mem t.1) a) ∧
  (∀ c, chain_writable_descs (rx_mem (rx_add_used head len t).2.1) c =
    chain_writable_descs (rx_mem t.1) c) ∧
  rx_avail (rx_add_used head len t).2 = rx_avail t ∧
  ∀ a, used_area (rx_add_used head len t).2.2 a ↔ used_area t.2 a.
Proof.
  unfold rx_add_used, zoom. destruct t as [s q]. cbn [fst snd].
  change (ce_mem (rx_env s)) with (rx_mem s).
  destruct (q_add_used head len (q, rx_mem s)) as [o [q' m']] eqn:Hadd. split_and!; simpl.
  - intros a Ha. by eapply q_add_used_outside.
  - intros c. by apply (q_add_used_descs _ _ _ _ _ _ _ _ Hadd).
  - unfold rx_avail, rx_mem. simpl.
    destruct (q_add_used_result head len (q, rx_mem s)) as [[[q2 m2] Hr]|(e & [q2 m2] & Hr)];
      rewrite Hr in Hadd; simplify_eq; [by apply q_add_used_ok in Hr as [_ ->]|].
    by apply q_add_used_fail in Hr as [_ ->].
  - intros a. by eapply used_area_add.
Qed.

Lemma attempt_state {St E E' A} (m : M St E A) st o st' :
  attempt (E':=E') m st = (o, st') → st' = (m st).2.
Proof. unfold attempt. destruct (m st) as [[]]; intros; by simplify_eq. Qed.

(** *** The run *)

Definition delivered input t (run : outcome errno chains_end * (RxEnv S Mem * Q)) : Prop :=
  ∃ next (rs : list answer), run.1 = Ret next ∧
    rx_avail t = rs.*1.*1 ++ rx_avail run.2 ∧
    Forall (λ r, sublist r.1.2.*1 (chain_writable_descs (rx_mem t.1) r.1.1) ∧
      filled (rx_mem run.2.1) r.1.2) rs ∧
    rx_received (Out:=Out) input run.2.1 = rx_received (Out:=Out) input t.1 ++ concat (said <$> rs) ∧
    rx_used run.2 = rx_used t ++ rx_entries rs ∧
    ∀ a, ¬ used_area t.2 a → a ∉ rx_avail t ≫= buffers (rx_mem t.1) →
      mem_byte (rx_mem run.2.1) a = mem_byte (rx_mem t.1) a.

(** Nothing more is taken from the queue. *)
Lemma delivered_nil input t next s' q' :
  rx_avail (s', q') = rx_avail t → rx_used (s', q') = rx_used t →
  rx_received (Out:=Out) input s' = rx_received (Out:=Out) input t.1 →
  (∀ a, a ∉ rx_avail t ≫= buffers (rx_mem t.1) → mem_byte (rx_mem s') a = mem_byte (rx_mem t.1) a) →
  delivered input t (Ret next, (s', q')).
Proof.
  intros Ha Hu Hr Hm. exists next, []. cbn [fst snd]. rewrite Hr, !app_nil_r.
  split_and!; try done. intros a _. apply Hm.
Qed.

(** A chain is answered, and then the run goes on. *)
Lemma delivered_cons input t t1 run c parts (ok : bool) :
  rx_avail t = c :: rx_avail t1 → receivable t.2 (rx_mem t.1) (rx_avail t) →
  (∀ a, used_area t1.2 a ↔ used_area t.2 a) →
  (∀ c', chain_writable_descs (rx_mem t1.1) c' = chain_writable_descs (rx_mem t.1) c') →
  (∀ a, ¬ used_area t.2 a → a ∉ buffers (rx_mem t.1) c →
    mem_byte (rx_mem t1.1) a = mem_byte (rx_mem t.1) a) →
  sublist parts.*1 (chain_writable_descs (rx_mem t.1) c) → filled (rx_mem t1.1) parts →
  rx_received (Out:=Out) input t1.1 = rx_received (Out:=Out) input t.1 ++ concat parts.*2 →
  rx_used t1 = rx_used t ++ rx_entries [(c, parts, ok)] →
  delivered input t1 run → delivered input t run.
Proof.
  intros Ha [Hdup Hap] Harea Hdescs Hframe Hsub Hfilled Hrecv Hused
    (next & rs & Hrun & Ha' & Hrs & Hrecv' & Hused' & Hframe').
  rewrite (bind_buffers_ext _ _ _ Hdescs) in Hframe'. rewrite Ha, bind_cons in Hdup. apply NoDup_app in Hdup as (_ & Hsep & _).
  exists next, ((c, parts, ok) :: rs). split; [done|]. split; [by rewrite Ha, Ha'|]. split_and!.
  - apply Forall_cons. split; [split; [done|]|].
    + apply (filled_frame (rx_mem t1.1) _ (chain_writable_descs (rx_mem t.1) c)); [done| |done].
      intros a Hin. apply Hframe'; [|by apply Hsep]. rewrite Harea. apply (Hap c); [|done].
      rewrite Ha. by constructor.
    + eapply Forall_impl; [exact Hrs|]. intros r. cbn beta. by rewrite Hdescs.
  - rewrite Hrecv', Hrecv, fmap_cons. cbn [concat]. by rewrite <-app_assoc.
  - rewrite Hused', Hused, <-app_assoc. f_equal. unfold rx_entries. rewrite <-fmap_app, <-filter_app. done.
  - intros a Hu Hout. rewrite Ha, bind_cons in Hout.
    apply not_elem_of_app in Hout as [Hout1 Hout2]. rewrite Hframe'; [by apply Hframe| |done].
    by rewrite Harea.
Qed.

Lemma receivable_rest q q' (m m' : Mem) c cs :
  (∀ a, used_area q' a ↔ used_area q a) →
  (∀ c', chain_writable_descs m' c' = chain_writable_descs m c') →
  receivable q m (c :: cs) → receivable q' m' cs.
Proof.
  intros Ha Hd [Hdup Hap]. unfold receivable. rewrite (bind_buffers_ext _ _ _ Hd). split.
  - rewrite bind_cons in Hdup. by apply NoDup_app in Hdup as (_ & _ & Hdup).
  - intros c' a Hc' Hin Hu. apply (Hap c' a); [by constructor|by rewrite <-(buffers_ext _ _ Hd)|by apply Ha].
Qed.

Lemma rx_chains_delivered fuel input port_id t :
  reliable (S:=S) (Mem:=Mem) input → (length (rx_avail t) < fuel)%nat →
  receivable t.2 (rx_mem t.1) (rx_avail t) →
  delivered input t (rx_chains fuel input port_id t).
Proof.
  intros Hrel. revert t. induction fuel as [|fuel IH]; intros [s q] Hfuel Hok; [lia|].
  unfold rx_avail in Hfuel, Hok. cbn [fst snd] in Hfuel, Hok. simpl.
  unfold bind at 1, rx_pop. cbn [fst snd]. change (ce_mem (rx_env s)) with (rx_mem s).
  destruct (q_pop_descriptor_chain (rx_mem s) q) as [[c|] q1] eqn:Hpop.
  2: { destruct (q_pop_None _ _ _ Hpop) as [Ha Hu]. by apply delivered_nil. }
  destruct (q_pop_Some _ _ _ _ Hpop) as (Ha & Hu & Hback & Hbacku).
  assert (∀ a, used_area q1 a ↔ used_area q a) as Harea1.
  { intros a. by rewrite <-(used_area_pop (rx_mem s) q), Hpop. }
  erewrite bind_Ret by done. cbn [fst snd]. change (ce_mem (rx_env s)) with (rx_mem s).
  pose proof Hok as [Hdup _]. rewrite Ha, bind_cons in Hdup. apply NoDup_app in Hdup as (Hdup & _ & _).
  destruct (read_chain input (rx_mem s) c s Hrel eq_refl Hdup)
    as (parts & s1 & Hrun & Hsub & Hfilled & Hrecv & Hframe & [Hctl Hrings] & Hdescs).
  erewrite (bind_Ret _ _ _ _ (s1, q1)) by (unfold on_rx, zoom; simpl; by rewrite Hrun).
  case_bool_decide as Hn.
  { assert (concat parts.*2 = []) as Hnil by (apply nil_length_inv; lia).
    apply delivered_nil; unfold rx_avail, rx_used; cbn [fst snd].
    - by rewrite (proj1 (Hrings _)).
    - by rewrite (proj2 (Hrings _)).
    - by rewrite Hrecv, Hnil, app_nil_r.
    - intros a Hout. apply Hframe. rewrite Ha, bind_cons in Hout. by apply not_elem_of_app in Hout as []. }
  set (len := Z.of_nat (length (concat parts.*2))) in *.
  destruct (rx_add_used_run (chain_head_index c) (wrap 32 len) (s1, q1))
    as (u & ok & t2 & Hadd & Henv & Heof & _ & Hu2).
  destruct (rx_add_used_mem (chain_head_index c) (wrap 32 len) (s1, q1)) as (Hm2 & Hd2 & Ha2 & Har2).
  rewrite <-(attempt_state _ _ _ _ Hadd) in Hm2, Hd2, Ha2, Har2. cbn [fst snd] in *.
  assert (rx_avail (s1, q1) = q_avail q1 (rx_mem s)) as Ha1 by apply Hrings.
  assert (∀ a, used_area t2.2 a ↔ used_area q a) as Harea2 by (intros a; by rewrite Har2).
  assert (∀ c', chain_writable_descs (rx_mem t2.1) c' = chain_writable_descs (rx_mem s) c') as Hdescs2
    by (intros c'; by rewrite Hd2).
  assert (∀ a, ¬ used_area q a → a ∉ buffers (rx_mem s) c →
    mem_byte (rx_mem t2.1) a = mem_byte (rx_mem s) a) as Hframe2.
  { intros a Hua Hout. rewrite Hm2 by (by rewrite Harea1). by apply Hframe. }
  assert (filled (rx_mem t2.1) parts) as Hfilled2.
  { apply (filled_frame (rx_mem s1) _ (chain_writable_descs (rx_mem s) c)); [done| |done].
    intros a Hin. apply Hm2. rewrite Harea1. apply (proj2 Hok c); [rewrite Ha; by constructor|done]. }
  erewrite bind_Ret by exact Hadd. erewrite bind_Ret by done.
  apply (delivered_cons input (s, q) t2 _ c parts ok);
    [by rewrite Ha2, Ha1|done|done|done|done|done|done| | |].
  - unfold rx_received in *. by rewrite Henv.
  - rewrite Hu2. unfold rx_used at 1 2. cbn [fst snd]. rewrite (proj2 (Hrings q1)), Hu. f_equal.
    by destruct ok.
  - destruct (rx_eof t2.1).
    + destruct t2 as [s2 q2]. unfold bind, on_rx, on_rx_env, zoom, port_open, push_msg. cbn [fst snd].
      rewrite (push_payload_run (E:=errno)). apply delivered_nil; try done.
      unfold rx_received. apply efd_write_received.
    + apply IH.
      * rewrite Ha2, Ha1. rewrite Ha in Hfuel. simpl in Hfuel. lia.
      * rewrite Ha2, Ha1. rewrite Ha in Hok. by apply (receivable_rest q _ (rx_mem s) _ c).
Qed.

(** Claim C25. A run over the receive queue, for a driver whose buffers overlap neither
    each other nor the used ring, and an input that only ever fails for having nothing to
    read. It ends, and the chains that it has taken, in order, have been filled: cut into
    pieces, the bytes that the input has delivered in this run are, in order and without a
    gap, what the driver finds at the start of some of the buffers of these chains when the
    run is over, and the entries of the used ring say how many bytes each chain holds, as
    far as they can be written. Guest memory outside the buffers and the used ring is
    unchanged. *)
Theorem rx_delivers fuel input port_id t :
  reliable (S:=S) (Mem:=Mem) input → (length (rx_avail t) < fuel)%nat →
  receivable t.2 (rx_mem t.1) (rx_avail t) →
  let run := rx_chains fuel input port_id t in
  ∃ next (rs : list answer), run.1 = Ret next ∧
    rx_avail t = rs.*1.*1 ++ rx_avail run.2 ∧
    Forall (λ r, sublist r.1.2.*1 (chain_writable_descs (rx_mem t.1) r.1.1) ∧
      filled (rx_mem run.2.1) r.1.2) rs ∧
    rx_received (Out:=Out) input run.2.1 = rx_received (Out:=Out) input t.1 ++ concat (said <$> rs) ∧
    rx_used run.2 = rx_used t ++ rx_entries rs ∧
    ∀ a, ¬ used_area t.2 a → a ∉ rx_avail t ≫= buffers (rx_mem t.1) →
      mem_byte (rx_mem run.2.1) a = mem_byte (rx_mem t.1) a.
Proof. intros Hrel Hfuel Hok. exact (rx_chains_delivered fuel input port_id t Hrel Hfuel Hok). Qed.
End delivered.

(** ** The log of a migration *)

Section in_log.
Context {S Q Chain Out : Type} (regions : list (MemRegion * AtomicBitmapMmap)) (log_size : nat).
Context `{!WholePages regions log_size}.
Local Notation Mem := (lmem regions log_size).
Context `{EventSetBits} `{FdOps S} `{PortStreams S PortInputFd Out} `{!FdReadLaws S Out}
  `{QueueProc Q Mem Chain} `{!ChainDescs Mem Chain} `{!ChainDescsLaws Mem Chain}
  `{!UsedRingLogged Q Mem Chain} `{EpollOps S} `{EventFdOps S} `{DQ : DeviceQueue S Q}.

(** Each byte that differs is on a page whose bit is set in the log. *)
Definition in_log (m0 m : Mem) : Prop :=
  ∀ a, lm_byte m a ≠ lm_byte m0 a → log_dirty (lm_log m) (page_number a) = true.

(** Claim C17. During a migration no write of a port's thread is missed. Guest memory
    consists of regions of whole pages, with the bitmaps that [new] made for them on the
    log of the front-end, and the crate marks what it writes in the used ring; of read(2)
    only what its manual says is assumed. Whatever happens while the thread receives from
    a file descriptor, short reads, errors after a part of a buffer was filled, ends of the
    input, requests of the driver and of the front-end, and wherever the buffers of the
    driver lie: each byte of guest memory that has changed since the thread started is on
    a page whose bit is set in the log. *)
Theorem rx_writes_in_log arc_of fuel (input : PortInputFd) port_id stopfd (e : ConsoleEnv S Mem) :
  in_log (ce_mem e) (ce_mem (process_rx (Q:=Q) (Chain:=Chain) arc_of fuel input port_id stopfd e).2).
Proof.
  intros a Ha. destruct (logged_process_rx (Q:=Q) (Chain:=Chain) (Out:=Out) (ce_mem e)
    arc_of fuel input port_id stopfd e (logged_refl _)) as [Hlogged _].
  specialize (Hlogged a Ha). by apply andb_true_iff in Hlogged as [_ Hdirty].
Qed.
End in_log.
