(* ===== verification/ProcessTx.v ===== *)
(** * From the driver to a port: [device/virtio-console/src/process_tx.rs]

    The thread that hands the contents of the buffers of a port's transmit queue to the
    port's output. It differs from the receiving thread in its inner loop, which waits
    for the output to take more, and in its assertion that a buffer was taken whole. *)

From S2P Require Import Prelude EventToken Epoll EventManager VirtQueue Codec.
From S2P Require Import ConsoleControl PortIo.

Inductive WorkerToken : Type := Stop | ProcessQueue | IO.

#[export] Instance WorkerToken_eq_dec : EqDecision WorkerToken.
Proof. solve_decision. Defined.

#[export] Instance WorkerToken_token : EventToken WorkerToken :=
  derive_unit_enum [Stop; ProcessQueue; IO].

(** The state of the thread, with the variable [signal_used_queue]. *)
Record TxEnv (S Mem : Type) : Type := MkTxEnv { tx_world : S; tx_mem : Mem; tx_signal : bool }.
Arguments MkTxEnv {S Mem}.
Arguments tx_world {S Mem}.
Arguments tx_mem {S Mem}.
Arguments tx_signal {S Mem}.

Section process_tx.
Context {S Q Mem Chain Out : Type} `{QueueProc Q Mem Chain} `{ChainDescs Mem Chain}
  `{GuestAccess Mem} `{PortOutput S Mem Out} `{EpollOps S} `{EventSetBits}.

Local Notation TE := (TxEnv S Mem).

Definition on_tx_world {E A} : M S E A → M TE E A :=
  zoom tx_world (λ w s, MkTxEnv w (tx_mem s) (tx_signal s)).

Definition set_tx_signal (b : bool) (s : TE) : TE := MkTxEnv (tx_world s) (tx_mem s) b.

(** One turn of the loop in the closure of [write_desc_to_output]: [Some] to leave it. *)
Definition write_turn (output : Out) (src : VolatileSlice) : M TE GuestMemoryError (option Z) :=
  let! mem := gets tx_mem in
  let! r := attempt (on_tx_world (po_write_volatile output src mem)) in
  match r with
  | inr n => ret (Some n)
  | inl e =>
      if bool_decide (e = EAGAIN) then
        do! unwrap (on_tx_world (po_wait_until_writable output)) in
        ret None
      else fail (GmIOError e)
  end.

Definition write_piece (fuel : nat) (output : Out) (src : VolatileSlice) : M TE GuestMemoryError Z :=
  loop fuel (write_turn output src).

Definition write_desc_to_output (fuel : nat) (output : Out) (desc : Descriptor) :
    M TE GuestMemoryError Z :=
  let! mem := gets tx_mem in
  mem_try_access mem (desc_len desc) (desc_addr desc) (write_piece fuel output).

(** The loop over the readable descriptors of a chain, with [bytes_written]. *)
Fixpoint write_descs (fuel : nat) (output : Out) (descs : list Descriptor) (bytes_written : Z) :
    M TE errno Z :=
  match descs with
  | [] => ret bytes_written
  | desc :: descs =>
      let desc_len := desc_len desc in
      let! r := attempt (write_desc_to_output fuel output desc) in
      match r with
      | inr n =>
          if bool_decide (n = 0) then ret bytes_written
          else
            do! assert (bool_decide (n = desc_len)) in
            do! modify (set_tx_signal true) in
            write_descs fuel output descs (bytes_written + n)
      | inl _ => write_descs fuel output descs bytes_written
      end
  end.

(** ** With the lock of the queue *)

Definition on_tx {E A} : M TE E A → M (TE * Q) E A := zoom fst (λ e s, (e, s.2)).

Definition tx_pop {E} : M (TE * Q) E (option Chain) :=
  λ s,
    let '(chain, q) := q_pop_descriptor_chain (tx_mem s.1) s.2 in
    (Ret chain, (s.1, q)).

Definition tx_add_used (head_index len : Z) : M (TE * Q) vq_error unit :=
  zoom (λ s, (s.2, tx_mem s.1))
    (λ qm s, (MkTxEnv (tx_world s.1) qm.2 (tx_signal s.1), qm.1))
    (q_add_used head_index len).

Fixpoint tx_chains (fuel : nat) (output : Out) : M (TE * Q) errno unit :=
  match fuel with
  | O => no_fuel
  | Datatypes.S fuel' =>
      let! next := tx_pop in
      match next with
      | None => ret tt
      | Some chain =>
          let head_index := chain_head_index chain in
          let! mem := gets (λ s, tx_mem s.1) in
          let! bytes_written := on_tx (write_descs fuel output (chain_readable_descs mem chain) 0) in
          if bool_decide (bytes_written = 0) then
            modify (λ s, (s.1, q_go_to_previous_position s.2))
          else
            do! attempt (tx_add_used head_index (wrap 32 bytes_written)) in
            tx_chains fuel' output
      end
  end.

(** ** The thread *)

Context {DQ : DeviceQueue S Q}.

(** Holding the guard of the queue while [m] runs *)
Definition tx_locked {E A} (queue : Q) (m : M (TE * Q) E A) : M TE E A :=
  λ s,
    let '(o, (s, q)) := m (s, queue) in
    (o, MkTxEnv (dq_store q (tx_world s)) (tx_mem s) (tx_signal s)).

(** What the driver is owed from the last round *)
Definition tx_notify : M TE errno unit :=
  let! signal := gets tx_signal in
  if signal : bool then
    do! unwrap (on_tx_world dq_signal_used_queue) in modify (set_tx_signal false)
  else ret tt.

(** The section of a round that holds the lock of the queue, when it can be had *)
Definition tx_section (fuel : nat) (output : Out) : M TE errno (option unit) :=
  let! world := gets tx_world in
  match dq_try_lock_queue world with
  | None => ret None
  | Some queue => do! tx_locked queue (tx_chains fuel output) in ret None
  end.

(** One round of the event loop: [Some] to leave it. *)
Definition tx_turn (fuel : nat) (event_manager : EventManager) (output : Out) :
    M TE errno (option unit) :=
  do! tx_notify in
  let! event := unwrap (on_tx_world (em_wait_one fuel event_manager)) in
  match te_token event with
  | Stop => ret (Some tt)
  | ProcessQueue | IO =>
      let! enabled := unwrap (on_tx_world dq_read_kick) in
      if negb enabled then ret None else tx_section fuel output
  end.

Context (arc_of : Z → EpollArc).

Definition process_tx (fuel : nat) (output : Out) (stopfd : Z) : M (ConsoleEnv S Mem) errno unit :=
  let! event_manager := unwrap (on_world em_new) in
  do! unwrap (on_world (em_add event_manager (MkEventFd stopfd) Stop)) in
  do! unwrap (on_world
        (dq_kick_register (arc_of (em_epoll event_manager)) (token_as_raw ProcessQueue))) in
  do! unwrap (on_world (em_add event_manager (po_ready_event output) IO)) in
  zoom (λ s, MkTxEnv (ce_world s) (ce_mem s) false)
    (λ s e, MkConsoleEnv (tx_world s) (tx_mem s) (ce_control e))
    (loop fuel (tx_turn fuel event_manager output)).
End process_tx.

(** ** What the driver gives away is what the output gets *)

Section tx_properties.
Context {S Q Mem Chain In Out : Type} `{QueueProcLaws Q Mem Chain} `{ChainDescs Mem Chain}
  `{!ChainDescsLaws Mem Chain} `{GuestAccess Mem} `{!GuestAccessLaws Mem}
  `{PortOutput S Mem Out} `{PortStreams S In Out} `{!PortOutputLaws S Mem In Out}
  `{EpollOps S} `{EventSetBits}.
Implicit Types s : TxEnv S Mem.

Definition tx_sent (output : Out) s : bytes := po_sent (In:=In) output (tx_world s).

(** The bytes of a descriptor's buffer *)
Definition desc_bytes (m : Mem) (d : Descriptor) : bytes := mem_bytes m (desc_addr d) (desc_len d).

(** The output is never in an error but for having no room. *)
Definition reliable (output : Out) : Prop :=
  ∀ v (m : Mem) w e w', po_write_volatile output v m w = (Fail e, w') → e = EAGAIN.

(** A turn hands on the start of the slice, or waits and hands on nothing. *)
Lemma write_turn_spec output v s o s' :
  0 ≤ vs_len v → write_turn output v s = (o, s') →
  tx_mem s' = tx_mem s ∧
  match o with
  | Ret (Some n) => 0 ≤ n ≤ vs_len v ∧
      tx_sent output s' = tx_sent output s ++ mem_bytes (tx_mem s) (vs_addr v) n
  | _ => tx_sent output s' = tx_sent output s
  end.
Proof.
  intros Hlen. unfold write_turn. erewrite bind_Ret by done.
  unfold bind, attempt, on_tx_world, zoom, unwrap, ret, fail, tx_sent.
  destruct (po_write_result (In:=In) output v (tx_mem s) (tx_world s)) as [(n & w' & Hw)|(e & w' & Hw)]; rewrite Hw.
  - intros ?; simplify_eq. destruct (po_write_ok (In:=In) _ _ _ _ _ _ Hlen Hw) as [Hn Hs]. simpl.
    split; [done|]. split; [done|]. by rewrite Hs, take_mem_bytes.
  - pose proof (po_write_fail (In:=In) _ _ _ _ _ _ Hw) as Hs. case_bool_decide; simpl.
    + pose proof (po_wait_sent (In:=In) output w') as Hwait.
      destruct (po_wait_until_writable output w') as [[[]|e'| |] w2]; intros Hrun; simpl in Hrun; simplify_eq; simpl in *;
        first [discriminate | split; [done|congruence]].
    + intros Hrun. simplify_eq. by split.
Qed.

Lemma write_piece_spec fuel output v s o s' :
  0 ≤ vs_len v → write_piece fuel output v s = (o, s') →
  tx_mem s' = tx_mem s ∧
  match o with
  | Ret n => 0 ≤ n ≤ vs_len v ∧
      tx_sent output s' = tx_sent output s ++ mem_bytes (tx_mem s) (vs_addr v) n
  | _ => tx_sent output s' = tx_sent output s
  end.
Proof.
  intros Hlen. unfold write_piece. revert s. induction fuel as [|fuel IH]; intros s; simpl.
  { unfold no_fuel. intros; by simplify_eq. }
  unfold bind. destruct (write_turn output v s) as [o1 s1] eqn:Ht.
  destruct (write_turn_spec _ _ _ _ _ Hlen Ht) as [Hm Hs].
  destruct o1 as [[n|]|e| |]; unfold ret; try (intros; by simplify_eq).
  intros Hl. destruct (IH s1 Hl) as [Hm' Hs']. rewrite Hm, Hs in *. done.
Qed.

(** A descriptor: when nothing goes wrong, the start of its buffer was sent. *)
Lemma write_desc_accessed fuel output desc s :
  0 ≤ desc_len desc →
  accessed (tx_mem s) (desc_len desc) (desc_addr desc) (write_piece fuel output) 0 s
    (write_desc_to_output fuel output desc s).1 (write_desc_to_output fuel output desc s).2.
Proof.
  intros Hlen. unfold write_desc_to_output. erewrite bind_Ret by done.
  apply mem_try_access_accessed; [done|]. intros v s0 n s0' Hv Hrun.
  by destruct (write_piece_spec _ _ _ _ _ _ Hv Hrun) as [_ [[? _] _]].
Qed.

Lemma write_desc_sent fuel output desc s n s' :
  0 ≤ desc_len desc → write_desc_to_output fuel output desc s = (Ret n, s') →
  0 ≤ n ≤ desc_len desc ∧ tx_mem s' = tx_mem s ∧
  tx_sent output s' = tx_sent output s ++ mem_bytes (tx_mem s) (desc_addr desc) n.
Proof.
  intros Hlen Hrun. pose proof (write_desc_accessed fuel output desc s Hlen) as Hacc.
  rewrite Hrun in Hacc. simpl in Hacc.
  refine (proj1 (accessed_ind_ret _ _ _ _ (λ total s1, 0 ≤ total ≤ desc_len desc ∧
    tx_mem s1 = tx_mem s ∧
    tx_sent output s1 = tx_sent output s ++ mem_bytes (tx_mem s) (desc_addr desc) total)
    _ _ _ _ _ _ _ Hacc n eq_refl)); [|done|].
  - intros total len k s1 s2 Ht Hl (Hle & Hm & Hs) Hcall Hk.
    destruct (write_piece_spec fuel output (MkSlice _ len) _ _ _ (proj1 Hl) Hcall) as (Hm2 & Hk2 & Hs2).
    simpl in *. split_and!; [lia|lia|congruence|].
    by rewrite Hs2, Hs, Hm, <-app_assoc, <-mem_bytes_app by lia.
  - split_and!; [lia|lia|done|]. unfold mem_bytes. simpl. by rewrite app_nil_r.
Qed.

(** The descriptors of a chain: when the run over them returns, and no
    descriptor has failed, the output has been sent, in order, exactly the contents of a
    run of buffers from the first one on, and the length that is returned is theirs. The
    run stops before the end of the chain only at a buffer of which nothing was sent. *)
Theorem tx_chain_sent fuel output descs bytes_written s n s' :
  Forall (λ d, 0 ≤ desc_len d) descs →
  Forall (λ d, ∀ s1 e s2, tx_mem s1 = tx_mem s →
    write_desc_to_output fuel output d s1 ≠ (Fail e, s2)) descs →
  write_descs fuel output descs bytes_written s = (Ret n, s') →
  ∃ sent rest, descs = sent ++ rest ∧
    tx_mem s' = tx_mem s ∧
    tx_sent output s' = tx_sent output s ++ concat (desc_bytes (tx_mem s) <$> sent) ∧
    n = bytes_written + foldr Z.add 0 (desc_len <$> sent) ∧
    match rest with
    | [] => True
    | d :: _ => ∃ s1, write_desc_to_output fuel output d s1 = (Ret 0, s')
    end.
Proof.
  intros Hdescs. revert bytes_written s. induction Hdescs as [|d descs Hd _ IH];
    intros bytes_written s Hok Hrun; simpl in Hrun.
  { unfold ret in Hrun. simplify_eq. exists [], []. simpl. rewrite app_nil_r. split_and!; try done. lia. }
  apply Forall_cons in Hok as [Hokd Hok]. unfold bind at 1, attempt in Hrun.
  destruct (write_desc_to_output fuel output d s) as [[k|e| |] s1] eqn:Hk; [|by destruct (Hokd s e s1)|done..].
  destruct (write_desc_sent _ _ _ _ _ _ Hd Hk) as (Hle & Hm & Hs). case_bool_decide as Hz.
  - unfold ret in Hrun. simplify_eq. exists [], (d :: descs). simpl. rewrite app_nil_r.
    unfold mem_bytes in Hs. simpl in Hs. rewrite app_nil_r in Hs. split_and!; try done; [lia|by exists s].
  - unfold assert in Hrun. case_bool_decide as Heq; [|done]. unfold bind, ret, modify in Hrun. subst k.
    rewrite <-Hm in Hok. destruct (IH _ (set_tx_signal true s1) Hok Hrun) as (sent & rest & -> & Hm' & Hs' & -> & Hrest).
    exists (d :: sent), rest. cbn [tx_mem set_tx_signal] in *. split; [done|]. split; [congruence|]. split.
    + rewrite Hs'. change (tx_sent output (set_tx_signal true s1)) with (tx_sent output s1).
      rewrite Hs, Hm, <-app_assoc. done.
    + rewrite fmap_cons. cbn [foldr]. split; [lia|done].
Qed.

(** A descriptor of which only a part can be handed to the output, because it
    extends behind the guest memory, fails the assertion that it was sent whole: a driver
    can make the thread of a port panic. *)
Theorem tx_partial_descriptor_panics fuel output d descs bytes_written s n s' :
  write_desc_to_output fuel output d s = (Ret n, s') → 0 < n → n < desc_len d →
  write_descs fuel output (d :: descs) bytes_written s = (Panic, s').
Proof.
  intros Hk Hn Hlt. simpl. unfold bind at 1, attempt. rewrite Hk.
  rewrite bool_decide_eq_false_2 by lia. unfold assert.
  by rewrite bool_decide_eq_false_2 by lia.
Qed.
End tx_properties.

(** ** Chains that block the queue *)

Section tx_blocked.
Context {S Q Mem Chain Out : Type} `{QueueProcLaws Q Mem Chain} `{ChainDescs Mem Chain}
  `{GuestAccess Mem} `{PortOutput S Mem Out} `{EpollOps S} `{EventSetBits}.

(** A chain without anything to read, which a driver can send, is put back
    and ends the run: it stays the first of the queue, so that no run ever gets behind
    it and the port sends nothing any more. *)
Theorem tx_empty_chain_blocks fuel (output : Out) (t : TxEnv S Mem * Q) c q1 :
  q_pop_descriptor_chain (tx_mem t.1) t.2 = (Some c, q1) →
  chain_readable_descs (tx_mem t.1) c = [] →
  let run := tx_chains (Datatypes.S fuel) output t in
  run = (Ret tt, (t.1, q_go_to_previous_position q1)) ∧
  q_avail run.2.2 (tx_mem run.2.1) = q_avail t.2 (tx_mem t.1) ∧
  q_used run.2.2 (tx_mem run.2.1) = q_used t.2 (tx_mem t.1) ∧
  head (q_avail run.2.2 (tx_mem run.2.1)) = Some c.
Proof.
  intros Hpop Hempty. destruct t as [s q]. cbn [fst snd] in *.
  destruct (q_pop_Some _ _ _ _ Hpop) as (Ha & Hu & Hback & Hbacku).
  assert (tx_chains (Datatypes.S fuel) output (s, q) =
    (Ret tt, (s, q_go_to_previous_position q1))) as ->.
  { simpl. erewrite (bind_Ret _ _ _ (Some c) (s, q1)) by (unfold tx_pop; simpl; by rewrite Hpop).
    erewrite bind_Ret by done. cbn [fst snd]. rewrite Hempty.
    by erewrite (bind_Ret _ _ _ 0 (s, q1)) by done. }
  simpl. rewrite Hback, Hbacku, Ha. done.
Qed.
End tx_blocked.
