(* ===== verification/TxStream.v ===== *)
(** * A run over the transmit queue sends what the driver has queued

    [ProcessTx] shows what happens to one chain. Here a whole run of [tx_chains] is
    followed, for a driver whose buffers are in guest memory and an output that takes
    something of every buffer before long: it ends, and every byte that the driver has
    queued reaches the output, in order. The run waits for the output while it holds the
    lock of the queue; how often is a parameter. *)

From S2P Require Import Prelude EventToken Epoll EventManager VirtQueue Codec ConsoleControl PortIo ProcessTx.

Section tx_stream.
Context {S Q Mem Chain In Out : Type} `{QueueProcLaws Q Mem Chain} `{ChainDescs Mem Chain}
  `{!ChainDescsLaws Mem Chain} `{GuestAccess Mem} `{!GuestAccessLaws Mem} `{!UsedRing Q, !UsedRingLaws Q Mem Chain}
  `{PortOutput S Mem Out} `{PortStreams S In Out} `{!PortOutputLaws S Mem In Out}.
Implicit Types (s : TxEnv S Mem) (t : TxEnv S Mem * Q) (c : Chain).

(** ** Outputs and chains *)

(** The output takes something of a slice after at most [k] waits. *)
Fixpoint takes (k : nat) (output : Out) (v : VolatileSlice) (m : Mem) (w : S) : Prop :=
  match po_write_volatile output v m w with
  | (Ret n, _) => 0 < n
  | (Fail e, w1) =>
      e = EAGAIN ∧
      match k with
      | O => False
      | Datatypes.S k =>
          match po_wait_until_writable output w1 with
          | (Ret _, w2) => takes k output v m w2
          | _ => False
          end
      end
  | _ => False
  end.

Definition prompt (k : nat) (output : Out) : Prop := ∀ v m w, 0 < vs_len v → takes k output v m w.

(** A buffer that is in guest memory, and a chain of such buffers, apart from the used ring *)
Definition mapped_desc (m : Mem) (d : Descriptor) : Prop :=
  0 < desc_len d ∧ ∀ a, desc_addr d ≤ a < desc_addr d + desc_len d → mem_mapped m a = true.
Definition sendable (q : Q) (m : Mem) c : Prop :=
  chain_readable_descs m c ≠ [] ∧ Forall (mapped_desc m) (chain_readable_descs m c) ∧
  Forall (desc_apart q) (chain_readable_descs m c).

(** What a chain says *)
Definition chain_bytes (m : Mem) c : bytes := concat (desc_bytes m <$> chain_readable_descs m c).

Lemma desc_bytes_length (m : Mem) d : length (desc_bytes m d) = Z.to_nat (desc_len d).
Proof. unfold desc_bytes, mem_bytes. by rewrite length_fmap, length_seqZ. Qed.

(** ** One chain *)

Lemma write_piece_takes fuel k output v s :
  (k < fuel)%nat → takes k output v (tx_mem s) (tx_world s) →
  ∃ n s', write_piece fuel output v s = (Ret n, s') ∧ 0 < n ∧ tx_signal s' = tx_signal s.
Proof.
  unfold write_piece. revert fuel s. induction k as [|k IH]; intros [|fuel] s Hfuel Htakes; try lia;
    simpl in Htakes |- *; unfold bind at 1, write_turn; erewrite bind_Ret by done;
    unfold bind, attempt, on_tx_world, zoom, unwrap;
    destruct (po_write_volatile output v (tx_mem s) (tx_world s)) as [[n|e| |] w1]; try done;
    [by eauto|by destruct Htakes|by eauto|].
  destruct Htakes as [-> Htakes]. rewrite bool_decide_eq_true_2 by done. simpl.
  destruct (po_wait_until_writable output w1) as [[[]|e| |] w2]; try done. simpl.
  destruct (IH fuel (MkTxEnv w2 (tx_mem s) (tx_signal s)) ltac:(lia) Htakes) as (n & s' & Hrun & Hn).
  eauto.
Qed.

Lemma write_desc_all fuel k output d s :
  (k < fuel)%nat → prompt k output → mapped_desc (tx_mem s) d →
  ∃ s', write_desc_to_output fuel output d s = (Ret (desc_len d), s') ∧ tx_mem s' = tx_mem s ∧
    tx_sent (In:=In) output s' = tx_sent (In:=In) output s ++ desc_bytes (tx_mem s) d.
Proof.
  intros Hfuel Hprompt [Hlen Hmap].
  pose proof (write_desc_accessed (In:=In) fuel output d s ltac:(lia)) as Hacc.
  apply accessed_all in Hacc; [|..|done|lia].
  2: { intros v s1 Hv.
    destruct (write_piece_takes fuel k output v s1 Hfuel (Hprompt _ _ _ Hv)) as (n & s2 & Hrun & Hn & _).
    destruct (write_piece_spec (In:=In) fuel output v s1 _ _ ltac:(lia) Hrun) as [_ [Hle _]].
    exists n, s2. split; [done|lia]. }
  destruct (write_desc_to_output fuel output d s) as [o s'] eqn:Hrun. simpl in Hacc. subst o.
  exists s'. split; [done|].
  by destruct (write_desc_sent (In:=In) fuel output d s _ _ ltac:(lia) Hrun) as (_ & Hm & Hs).
Qed.

Lemma write_descs_all fuel k output descs bytes_written s :
  (k < fuel)%nat → prompt k output → Forall (mapped_desc (tx_mem s)) descs →
  ∃ s', write_descs fuel output descs bytes_written s =
      (Ret (bytes_written + Z.of_nat (length (concat (desc_bytes (tx_mem s) <$> descs)))), s') ∧
    tx_mem s' = tx_mem s ∧
    tx_sent (In:=In) output s' =
      tx_sent (In:=In) output s ++ concat (desc_bytes (tx_mem s) <$> descs).
Proof.
  intros Hfuel Hprompt. revert bytes_written s. induction descs as [|d descs IH];
    intros bytes_written s Hok.
  { exists s. simpl. rewrite app_nil_r. unfold ret. split; [do 2 f_equal; simpl; lia|done]. }
  apply Forall_cons in Hok as [Hd Hok].
  rewrite fmap_cons. cbn [concat write_descs].
  destruct (write_desc_all fuel k output d s Hfuel Hprompt Hd) as (s1 & Hrun & Hm & Hs).
  pose proof (proj1 Hd) as Hlen. unfold bind at 1, attempt. rewrite Hrun.
  rewrite bool_decide_eq_false_2 by lia. unfold assert. rewrite bool_decide_eq_true_2 by done.
  unfold bind, ret, modify.
  destruct (IH (bytes_written + desc_len d) (set_tx_signal true s1)) as (s' & Hrest & Hm' & Hs').
  { simpl. by rewrite Hm. }
  simpl in Hrest, Hm', Hs'. rewrite Hm in Hrest, Hm', Hs'. exists s'. split; [|split; [done|]].
  - rewrite Hrest. do 2 f_equal. rewrite length_app, desc_bytes_length. lia.
  - rewrite Hs', app_assoc. f_equal. exact Hs.
Qed.

(** A sendable chain has something to say. *)
Lemma sendable_bytes q m c : sendable q m c → chain_bytes m c ≠ [].
Proof.
  intros (Hne & Hok & _). unfold chain_bytes.
  destruct (chain_readable_descs m c) as [|d descs]; [done|].
  apply Forall_cons in Hok as [[Hlen _] _]. simpl. intros Hnil%(f_equal length).
  rewrite length_app, desc_bytes_length in Hnil. simpl in Hnil. lia.
Qed.

(** ** The used ring *)

(** An entry of the used ring, written or not, leaves a chain as it is. *)
Lemma add_used_sendable head len q (m : Mem) o q' m' c :
  q_add_used head len (q, m) = (o, (q', m')) → sendable q m c →
  sendable q' m' c ∧ chain_bytes m' c = chain_bytes m c.
Proof.
  intros Hadd (Hne & Hok & Hap). unfold sendable, chain_bytes.
  rewrite (proj1 (q_add_used_descs _ _ _ _ _ _ _ c Hadd)). rewrite Forall_forall in Hok, Hap.
  split; [split; [done|split; apply Forall_forall; intros d Hd]|].
  - destruct (Hok d Hd) as [Hlen Hmap]. split; [done|]. intros a Ha.
    rewrite <-(Hmap a Ha). by eapply q_add_used_mapped.
  - eapply desc_apart_area; [|by apply Hap]. intros a. by eapply used_area_add.
  - f_equal. apply list_fmap_ext. intros i d Hd%list_elem_of_lookup_2. unfold desc_bytes, mem_bytes.
    apply list_fmap_ext. intros j a Ha. apply lookup_seqZ in Ha as [-> Hj].
    eapply q_add_used_outside; [exact Hadd|]. apply (Hap d Hd). lia.
Qed.

Lemma pop_sendable q (m : Mem) o q' c :
  q_pop_descriptor_chain m q = (o, q') → sendable q m c → sendable q' m c.
Proof.
  intros Hpop (Hne & Hok & Hap). split_and!; [done..|]. eapply Forall_impl; [done|]. intros d.
  apply desc_apart_area. intros a. by rewrite <-(used_area_pop m q), Hpop.
Qed.

Lemma tx_add_used_run head len t :
  ∃ u (ok : bool) t', attempt (E':=errno) (tx_add_used head len) t = (Ret u, t') ∧
    tx_world t'.1 = tx_world t.1 ∧
    q_avail t'.2 (tx_mem t'.1) = q_avail t.2 (tx_mem t.1) ∧
    q_used t'.2 (tx_mem t'.1) = q_used t.2 (tx_mem t.1) ++ (if ok then [(head, len)] else []) ∧
    ∀ c, sendable t.2 (tx_mem t.1) c →
      sendable t'.2 (tx_mem t'.1) c ∧ chain_bytes (tx_mem t'.1) c = chain_bytes (tx_mem t.1) c.
Proof.
  unfold attempt, tx_add_used, zoom. destruct t as [[w m signal] q]. simpl.
  destruct (q_add_used_result head len (q, m)) as [[[q' m'] Hr]|(e & [q' m'] & Hr)]; rewrite Hr;
    [destruct (q_add_used_ok _ _ _ _ _ _ Hr) as [Hu Ha]; exists (inr tt), true
    |destruct (q_add_used_fail _ _ _ _ _ _ _ Hr) as [Hu Ha]; exists (inl e), false];
    (eexists; split; [done|]; simpl; rewrite Hu, Ha, ?app_nil_r; split_and!; try done;
     intros c; by eapply add_used_sendable).
Qed.

(** ** The run *)

Definition tx_avail t : list Chain := q_avail t.2 (tx_mem t.1).
Definition tx_used t : list (Z * Z) := q_used t.2 (tx_mem t.1).

(** The chains that were sent, with whether they could be put in the used ring *)
Definition tx_entries (m : Mem) (rs : list (Chain * bool)) : list (Z * Z) :=
  (λ r, (chain_head_index r.1, wrap 32 (Z.of_nat (length (chain_bytes m r.1))))) <$>
    filter (λ r, r.2 = true) rs.

Lemma tx_entries_cons m c (ok : bool) rs :
  tx_entries m ((c, ok) :: rs) =
    (if ok then [(chain_head_index c, wrap 32 (Z.of_nat (length (chain_bytes m c))))] else []) ++
    tx_entries m rs.
Proof. unfold tx_entries. rewrite filter_cons. by destruct ok. Qed.

Lemma tx_entries_ext m m' rs :
  (∀ r, r ∈ rs → chain_bytes m' r.1 = chain_bytes m r.1) → tx_entries m' rs = tx_entries m rs.
Proof.
  intros Hrs. unfold tx_entries. apply list_fmap_ext. intros i r Hr%list_elem_of_lookup_2.
  apply list_elem_of_filter in Hr as [_ Hr]. by rewrite Hrs.
Qed.

Definition tx_outcome (output : Out) t (run : outcome errno unit * (TxEnv S Mem * Q)) : Prop :=
  ∃ rs : list (Chain * bool), run.1 = Ret tt ∧
    tx_avail t = rs.*1 ++ tx_avail run.2 ∧
    tx_sent (In:=In) output run.2.1 =
      tx_sent (In:=In) output t.1 ++ concat (chain_bytes (tx_mem t.1) <$> rs.*1) ∧
    tx_used run.2 = tx_used t ++ tx_entries (tx_mem t.1) rs ∧
    (∃ q, q_pop_descriptor_chain (tx_mem run.2.1) q = (None, run.2.2)) ∧
    ∀ c, sendable t.2 (tx_mem t.1) c → chain_bytes (tx_mem run.2.1) c = chain_bytes (tx_mem t.1) c.

Lemma tx_chains_outcome fuel k output t :
  prompt k output → (k + length (tx_avail t) < fuel)%nat →
  Forall (sendable t.2 (tx_mem t.1)) (tx_avail t) → tx_outcome output t (tx_chains fuel output t).
Proof.
  intros Hprompt. revert t. induction fuel as [|fuel IH]; intros [s q] Hfuel Hok; [lia|].
  unfold tx_avail in Hfuel, Hok. cbn [fst snd] in Hfuel, Hok. simpl.
  unfold bind at 1, tx_pop. cbn [fst snd].
  destruct (q_pop_descriptor_chain (tx_mem s) q) as [[c|] q1] eqn:Hpop.
  2: { destruct (q_pop_None _ _ _ Hpop) as [Ha Hu]. exists []. unfold ret, tx_avail, tx_used. simpl.
    rewrite Ha, Hu, !app_nil_r. split_and!; try done; by exists q. }
  destruct (q_pop_Some _ _ _ _ Hpop) as (Ha & Hu & _ & _). rewrite Ha in Hfuel, Hok. simpl in Hfuel.
  apply Forall_cons in Hok as [Hc Hok]. erewrite bind_Ret by done. cbn [fst snd].
  destruct (write_descs_all (Datatypes.S fuel) k output _ 0 s ltac:(lia) Hprompt (proj1 (proj2 Hc)))
    as (s1 & Hrun & Hm & Hs). fold (chain_bytes (tx_mem s) c) in Hrun, Hs.
  erewrite (bind_Ret _ _ _ (0 + Z.of_nat (length (chain_bytes (tx_mem s) c))) (s1, q1))
    by (unfold on_tx, zoom; simpl; by rewrite Hrun).
  pose proof (sendable_bytes _ _ _ Hc) as Hbytes. rewrite bool_decide_eq_false_2.
  2: { intros Hz. apply Hbytes, nil_length_inv. lia. }
  destruct (tx_add_used_run (chain_head_index c)
    (wrap 32 (0 + Z.of_nat (length (chain_bytes (tx_mem s) c)))) (s1, q1))
    as (u & ok & t2 & Hadd & Hw2 & Ha2 & Hu2 & Hsame). cbn [fst snd] in *.
  erewrite bind_Ret by exact Hadd. rewrite Hm in Ha2, Hu2, Hsame. rewrite Forall_forall in Hok.
  assert (∀ c', c' ∈ q_avail q1 (tx_mem s) → sendable q1 (tx_mem s) c') as Hok1
    by (intros c' Hc'; by eapply pop_sendable, Hok).
  destruct (IH t2) as (rs & Hret & Hav & Hsent & Hused & Hend & Hstay).
  { unfold tx_avail. rewrite Ha2. lia. }
  { unfold tx_avail. rewrite Ha2, Forall_forall. intros c' Hc'. by apply Hsame, Hok1. }
  unfold tx_avail, tx_used in *. rewrite Ha2 in Hav. rewrite Hu2 in Hused.
  assert (∀ r, r ∈ rs → chain_bytes (tx_mem t2.1) r.1 = chain_bytes (tx_mem s) r.1) as Hrs.
  { intros r Hr. apply Hsame, Hok1. rewrite Hav. apply elem_of_app. left. by apply list_elem_of_fmap_2. }
  exists ((c, ok) :: rs). unfold tx_avail, tx_used. cbn [fst snd].
  split; [done|]. split; [by rewrite Ha, Hav|]. split; [|split; [|split; [done|]]].
  - unfold tx_sent in *. rewrite Hsent, Hw2, Hs, !fmap_cons. cbn [concat]. rewrite <-app_assoc.
    do 3 f_equal. rewrite <-!list_fmap_compose. apply list_fmap_ext.
    intros i r Hr%list_elem_of_lookup_2. by apply Hrs.
  - rewrite Hused, Hu, <-app_assoc, tx_entries_cons, (tx_entries_ext _ _ _ Hrs). done.
  - intros c' Hc'. destruct (Hsame c') as [Hs2 Hb2]; [by eapply pop_sendable|]. by rewrite Hstay, Hb2.
Qed.

(** Claim C24. A run over the transmit queue, for a driver whose buffers are not empty and
    lie in guest memory, and an output that takes something of every slice after at most
    [k] waits: it ends, without a panic or an error. The available chains are taken in
    order until the queue shows no more of them; what the output has been sent is exactly
    what these chains say, every byte once and in order, however much of it the output
    takes at a time and however the buffers lie in the regions of guest memory. Each chain
    gets an entry in the used ring with its length, as far as the entry can be written.
    Fuel for the chains and the waits is enough. *)
Theorem tx_conserves fuel k output t :
  prompt k output → (k + length (tx_avail t) < fuel)%nat →
  Forall (sendable t.2 (tx_mem t.1)) (tx_avail t) →
  let run := tx_chains fuel output t in
  ∃ rs : list (Chain * bool), run.1 = Ret tt ∧
    tx_avail t = rs.*1 ++ tx_avail run.2 ∧
    tx_sent (In:=In) output run.2.1 =
      tx_sent (In:=In) output t.1 ++ concat (chain_bytes (tx_mem t.1) <$> rs.*1) ∧
    tx_used run.2 = tx_used t ++ tx_entries (tx_mem t.1) rs ∧
    ∃ q, q_pop_descriptor_chain (tx_mem run.2.1) q = (None, run.2.2).
Proof.
  intros Hprompt Hfuel Hok.
  destruct (tx_chains_outcome fuel k output t Hprompt Hfuel Hok) as (rs & Hr & Ha & Hs & Hu & Hq & _).
  by exists rs.
Qed.
End tx_stream.
