(* ===== verification/ConsolePort.v ===== *)
(** * The ports of a console: [device/virtio-console/src/port.rs]

    A port has an input, an output or both, and while it is active a thread for each.
    A spawned thread is kept with what its closure captured, and runs to its end when it
    is joined. Spawning a thread succeeds. *)

From S2P Require Import Prelude EventToken Epoll EventManager VirtQueue Codec.
From S2P Require Import ConsoleControl PortIo ProcessRx ProcessTx.

Inductive PortDescription (In Out : Type) : Type :=
| Console (input : option In) (output : option Out)
| InputPipe (name : string) (input : In)
| OutputPipe (name : string) (output : Out).
Arguments Console {In Out}.
Arguments InputPipe {In Out}.
Arguments OutputPipe {In Out}.

(** The closures that run [process_rx] and [process_tx] *)
Record RxThread (K In : Type) : Type := MkRxThread {
  rt_queue : K; rt_input : In; rt_port_id : Z; rt_stopfd : Z;
}.
Arguments MkRxThread {K In}.
Arguments rt_queue {K In}.
Arguments rt_input {K In}.
Arguments rt_port_id {K In}.
Arguments rt_stopfd {K In}.

Record TxThread (K Out : Type) : Type := MkTxThread {
  tt_queue : K; tt_output : Out; tt_stopfd : Z;
}.
Arguments MkTxThread {K Out}.
Arguments tt_queue {K Out}.
Arguments tt_output {K Out}.
Arguments tt_stopfd {K Out}.

Inductive PortState (K In Out : Type) : Type :=
| Inactive
| Active (stopfd : Z) (rx_thread : option (RxThread K In)) (tx_thread : option (TxThread K Out)).
Arguments Inactive {K In Out}.
Arguments Active {K In Out}.

Record Port (K In Out : Type) : Type := MkPort {
  p_port_id : Z;
  p_name : string;
  p_represents_console : bool;
  p_state : PortState K In Out;
  p_input : option In;
  p_output : option Out;
}.
Arguments MkPort {K In Out}.
Arguments p_port_id {K In Out}.
Arguments p_name {K In Out}.
Arguments p_represents_console {K In Out}.
Arguments p_state {K In Out}.
Arguments p_input {K In Out}.
Arguments p_output {K In Out}.

(** [thread.join()], whose error is only logged *)
Definition join_thread {St E E'} (thread : M St E unit) : M St E' unit :=
  λ s,
    match thread s with
    | (NoFuel, s') => (NoFuel, s')
    | (_, s') => (Ret tt, s')
    end.

Section port.
Context {K S Q Mem Chain In Out : Type} `{QueueProc Q Mem Chain} `{ChainDescs Mem Chain}
  `{GuestAccess Mem} `{PortInput S Mem In} `{PortOutput S Mem Out} `{EpollOps S}
  `{EventSetBits} `{EventFdOps S} `{EventFdMake S}.
Context (dq_of : K → DeviceQueue S Q) (arc_of : Z → EpollArc).

Local Notation CE := (ConsoleEnv S Mem).
Local Notation P := (Port K In Out).

Definition port_new (port_id : Z) (description : PortDescription In Out) : outcome errno P :=
  match description with
  | Console (Some input) (Some output) =>
      Ret (MkPort port_id "" true Inactive (Some input) (Some output))
  | Console _ _ => Panic
  | InputPipe name input => Ret (MkPort port_id name false Inactive (Some input) None)
  | OutputPipe name output => Ret (MkPort port_id name false Inactive None (Some output))
  end.

Definition set_port_state (v : PortState K In Out) (p : P) : P :=
  MkPort (p_port_id p) (p_name p) (p_represents_console p) v (p_input p) (p_output p).

Definition run_rx_thread (fuel : nat) (t : RxThread K In) : M CE errno unit :=
  process_rx (DQ:=dq_of (rt_queue t)) arc_of fuel (rt_input t) (rt_port_id t) (rt_stopfd t).

Definition run_tx_thread (fuel : nat) (t : TxThread K Out) : M CE errno unit :=
  process_tx (DQ:=dq_of (tt_queue t)) arc_of fuel (tt_output t) (tt_stopfd t).

Definition join_option {A} (run : A → M CE errno unit) (thread : option A) : M CE errno unit :=
  match thread with
  | Some thread => join_thread (run thread)
  | None => ret tt
  end.

(** The port after the call *)
Definition port_shutdown (fuel : nat) (p : P) : M CE errno P :=
  match p_state p with
  | Active stopfd rx_thread tx_thread =>
      do! unwrap (on_world (efd_write stopfd 1)) in
      do! join_option (run_tx_thread fuel) tx_thread in
      do! join_option (run_rx_thread fuel) rx_thread in
      ret (set_port_state (Active stopfd None None) p)
  | Inactive => ret p
  end.

Definition port_start (fuel : nat) (rx_queue tx_queue : K) (stopfd : Z) (p : P) : M CE errno P :=
  let! p := match p_state p with Active _ _ _ => port_shutdown fuel p | Inactive => ret p end in
  let! rx_thread :=
    match p_input p with
    | Some input =>
        let! stopfd := unwrap (on_world (efd_try_clone stopfd)) in
        ret (Some (MkRxThread rx_queue input (p_port_id p) stopfd))
    | None => ret None
    end in
  let! tx_thread :=
    match p_output p with
    | Some output =>
        let! stopfd := unwrap (on_world (efd_try_clone stopfd)) in
        ret (Some (MkTxThread tx_queue output stopfd))
    | None => ret None
    end in
  ret (set_port_state (Active stopfd rx_thread tx_thread) p).

(** A port runs with the queues that it was given: a thread for each direction it has. *)
Definition runs_with (rx_queue tx_queue : K) (p p' : P) : Prop :=
  p_port_id p' = p_port_id p ∧ p_name p' = p_name p ∧
  p_represents_console p' = p_represents_console p ∧
  p_input p' = p_input p ∧ p_output p' = p_output p ∧
  ∃ stopfd rx tx, p_state p' = Active stopfd rx tx ∧
    (λ t, (rt_queue t, rt_input t, rt_port_id t)) <$> rx =
      (λ input, (rx_queue, input, p_port_id p)) <$> p_input p ∧
    (λ t, (tt_queue t, tt_output t)) <$> tx = (λ output, (tx_queue, output)) <$> p_output p.

Lemma port_start_runs fuel rx_queue tx_queue stopfd p s p' s' :
  p_state p = Inactive →
  port_start fuel rx_queue tx_queue stopfd p s = (Ret p', s') → runs_with rx_queue tx_queue p p'.
Proof.
  intros Hst Hrun. unfold port_start in Hrun. rewrite Hst in Hrun.
  apply bind_inv_Ret in Hrun as (p0 & s0 & [= <- <-] & Hrun).
  apply bind_inv_Ret in Hrun as (rx & s1 & Hrx & Hrun).
  apply bind_inv_Ret in Hrun as (tx & s2 & Htx & [= <- <-]).
  repeat (split; [done|]). exists stopfd, rx, tx. split; [done|]. split.
  - destruct (p_input p) as [input|]; [|by injection Hrx as <- <-].
    by apply bind_inv_Ret in Hrx as (fd & s3 & _ & [= <- <-]).
  - destruct (p_output p) as [output|]; [|by injection Htx as <- <-].
    by apply bind_inv_Ret in Htx as (fd & s3 & _ & [= <- <-]).
Qed.
End port.
