(* ===== verification/ConsoleWorker.v ===== *)
(** * The main worker of a console: [MainWorker] of [device/virtio-console/src/console_control.rs]

    It starts the ports and then serves the control queues: messages to the driver go
    into the buffers of the receive queue, commands of the driver come from the transmit
    queue. [process_tx] also fills a vector [ports_to_start] that is never read; it is
    left out. *)

From S2P Require Import Prelude EventToken Epoll EventManager VirtQueue Codec.
From S2P Require Import PortQueueMapping ConsoleControl PortIo ProcessRx ProcessTx ConsolePort.

(** Indices of [device.rs] *)
Definition CONTROL_RXQ_INDEX : nat := 2.
Definition CONTROL_TXQ_INDEX : nat := 3.

Inductive WorkerToken : Type := ControlRxq | ControlTxq | Quit.

#[export] Instance WorkerToken_eq_dec : EqDecision WorkerToken.
Proof. solve_decision. Defined.

#[export] Instance WorkerToken_token : EventToken WorkerToken :=
  derive_unit_enum [ControlRxq; ControlTxq; Quit].

Record MainWorker (K In Out : Type) : Type := MkMainWorker {
  mw_control_rxq : K;
  mw_control_txq : K;
  mw_port_queues : gmap nat K;
  mw_ports : list (Port K In Out);
  mw_stopfd : Z;
}.
Arguments MkMainWorker {K In Out}.
Arguments mw_control_rxq {K In Out}.
Arguments mw_control_txq {K In Out}.
Arguments mw_port_queues {K In Out}.
Arguments mw_ports {K In Out}.
Arguments mw_stopfd {K In Out}.

Section main_worker.
Context {K S Q Mem Chain R Wr In Out : Type} `{QueueProc Q Mem Chain} `{ChainDescs Mem Chain}
  `{GuestAccess Mem} `{PortInput S Mem In} `{PortOutput S Mem Out} `{ReaderOps R} `{WriterOps Wr}
  `{ChainStreams Mem Chain R Wr} `{EpollOps S} `{EventSetBits} `{EventFdOps S} `{EventFdMake S}.
Context (dq_of : K → DeviceQueue S Q) (arc_of : Z → EpollArc).

Local Notation CE := (ConsoleEnv S Mem).
Local Notation MW := (MainWorker K In Out).

(** ** Starting *)

Definition set_port_queues (v : gmap nat K) (w : MW) : MW :=
  MkMainWorker (mw_control_rxq w) (mw_control_txq w) v (mw_ports w) (mw_stopfd w).
Definition set_ports (v : list (Port K In Out)) (w : MW) : MW :=
  MkMainWorker (mw_control_rxq w) (mw_control_txq w) (mw_port_queues w) v (mw_stopfd w).

(** [self.port_queues.remove(&port_id_to_queue_idx(..)).expect(..)] *)
Definition take_port_queue (d : QueueDirection) (port_id : nat) : M (MW * CE) errno K :=
  let! queues := gets (λ s, mw_port_queues s.1) in
  let idx := port_id_to_queue_idx d port_id in
  do! modify (λ s, (set_port_queues (delete idx queues) s.1, s.2)) in
  unwrap_opt (queues !! idx).

Definition on_ce {E A} : M CE E A → M (MW * CE) E A := zoom snd (λ e s, (s.1, e)).

Definition start_port (fuel : nat) (port_id : nat) : M (MW * CE) errno unit :=
  let! ports := gets (λ s, mw_ports s.1) in
  let! port := unwrap_opt (ports !! port_id) in
  let! rx_queue := take_port_queue Rx port_id in
  let! tx_queue := take_port_queue Tx port_id in
  let! stopfd := gets (λ s, mw_stopfd s.1) in
  let! stopfd := unwrap (on_ce (on_world (efd_try_clone stopfd))) in
  let! port := on_ce (port_start dq_of arc_of fuel rx_queue tx_queue stopfd port) in
  modify (λ s, (set_ports (<[port_id := port]> ports) s.1, s.2)).

Definition start_ports (fuel : nat) : M (MW * CE) errno unit :=
  let! ports := gets (λ s, mw_ports s.1) in
  for_each (seq 0 (length ports)) (start_port fuel).

(** The control messages begin with those of the new worker. *)
Definition main_worker_new (fuel : nat) (queues : gmap nat K) (ports : list (Port K In Out))
    (stopfd : Z) : M CE errno MW :=
  let! control_rxq := unwrap_opt (queues !! CONTROL_RXQ_INDEX) in
  let queues := delete CONTROL_RXQ_INDEX queues in
  let! control_txq := unwrap_opt (queues !! CONTROL_TXQ_INDEX) in
  let queues := delete CONTROL_TXQ_INDEX queues in
  let! control := on_world console_control_new in
  do! modify (λ s, MkConsoleEnv (ce_world s) (ce_mem s) control) in
  λ s,
    let '(o, (w, s)) :=
      start_ports fuel (MkMainWorker control_rxq control_txq queues ports stopfd, s) in
    (outcome_map (λ _, w) o, s).

(** ** With the lock of a control queue *)

Definition on_console {E A} : M CE E A → M (CE * Q) E A := zoom fst (λ e s, (e, s.2)).

Definition ctl_pop {E} : M (CE * Q) E (option Chain) :=
  λ s,
    let '(chain, q) := q_pop_descriptor_chain (ce_mem s.1) s.2 in
    (Ret chain, (s.1, q)).

Definition ctl_add_used (head_index len : Z) : M (CE * Q) vq_error unit :=
  zoom (λ s, (s.2, ce_mem s.1))
    (λ qm s, (MkConsoleEnv (ce_world s.1) qm.2 (ce_control s.1), qm.1))
    (q_add_used head_index len).

(** [writer.write(&buf)], whose bytes end up in guest memory *)
Definition ctl_write (buf : bytes) (writer : Wr) : M (CE * Q) unit Z :=
  λ s,
    let '(o, w) := w_write buf writer in
    (o, (MkConsoleEnv (ce_world s.1) (chain_commit w (ce_mem s.1)) (ce_control s.1), s.2)).

(** Holding the guard of a queue while [m] runs *)
Definition ctl_locked {DQ : DeviceQueue S Q} {E A} (queue : Q) (m : M (CE * Q) E A) : M CE E A :=
  λ s,
    let '(o, (s, q)) := m (s, queue) in
    (o, MkConsoleEnv (dq_store q (ce_world s)) (ce_mem s) (ce_control s)).

(** ** Messages to the driver *)

(** The loop of [process_rx], with [raise_irq]. *)
Fixpoint deliver (fuel : nat) (raise_irq : bool) : M (CE * Q) errno bool :=
  match fuel with
  | O => no_fuel
  | Datatypes.S fuel =>
      let! next := ctl_pop in
      match next with
      | None => ret raise_irq
      | Some head =>
          let! buf := on_console queue_pop in
          match buf with
          | None =>
              do! modify (λ s, (s.1, q_go_to_previous_position s.2)) in
              ret raise_irq
          | Some buf =>
              let head_index := chain_head_index head in
              let! mem := gets (λ s, ce_mem s.1) in
              let! writer := lift (outcome_unwrap (chain_writer mem head)) in
              let buf := payload_deref buf in
              let! r := attempt (ctl_write buf writer) in
              match r with
              | inr n =>
                  if bool_decide (n ≠ Z.of_nat (length buf)) then deliver fuel raise_irq
                  else
                    do! attempt (ctl_add_used head_index (wrap 32 n)) in
                    deliver fuel true
              | inl _ => deliver fuel raise_irq
              end
          end
      end
  end.

(** The part of [process_rx] that holds the lock of the queue, when it can be had *)
Definition control_rx_section {DQ : DeviceQueue S Q} (fuel : nat) : M CE errno unit :=
  let! world := gets ce_world in
  match dq_try_lock_queue world with
  | None => ret tt
  | Some queue =>
      ctl_locked queue
        (let! raise_irq := deliver fuel false in
         if raise_irq : bool then unwrap (on_console (on_world dq_signal_used_queue)) else ret tt)
  end.

Definition process_rx (fuel : nat) (w : MW) : M CE errno unit :=
  let dq := dq_of (mw_control_rxq w) in
  let! kick := unwrap (on_world dq_read_kick) in
  if negb kick then ret tt
  else
    let! control := gets ce_control in
    do! attempt (on_world (efd_read (cc_queue_evt control))) in
    control_rx_section fuel.

(** ** Commands of the driver *)

(** [self.ports[cmd.id as usize]] *)
Definition port_of (ports : list (Port K In Out)) (id : Z) : M CE errno (Port K In Out) :=
  unwrap_opt (ports !! Z.to_nat id).

Definition port_ready (ports : list (Port K In Out)) (id : Z) : M CE errno unit :=
  let! port := port_of ports id in
  do! (if p_represents_console port then
         do! mark_console_port id in
         do! port_open id true in
         let '(cols, rows) := get_win_size in
         console_resize id (MkVirtioConsoleResize rows cols)
       else port_open id true) in
  let! port := port_of ports id in
  if bool_decide (p_name port ≠ ""%string) then port_name id (p_name port) else ret tt.

(** The [match] on a command; every arm goes on with the next chain. *)
Definition handle_command (ports : list (Port K In Out)) (cmd : VirtioConsoleControl) :
    M CE errno unit :=
  if bool_decide (vcc_event cmd = VIRTIO_CONSOLE_DEVICE_READY) then
    for_each (seq 0 (length ports)) (λ port_id, port_add (wrap 32 (Z.of_nat port_id)))
  else if bool_decide (vcc_event cmd = VIRTIO_CONSOLE_PORT_READY) then
    if bool_decide (vcc_value cmd ≠ 1) then ret tt
    else port_ready ports (vcc_id cmd)
  else ret tt.

(** The loop of [process_tx], with [raise_irq]. *)
Fixpoint commands (fuel : nat) (ports : list (Port K In Out)) (raise_irq : bool) :
    M (CE * Q) errno bool :=
  match fuel with
  | O => no_fuel
  | Datatypes.S fuel =>
      let! next := ctl_pop in
      match next with
      | None => ret raise_irq
      | Some head =>
          let! mem := gets (λ s, ce_mem s.1) in
          let! reader := lift (outcome_unwrap (chain_reader mem head)) in
          let head_index := 0 in
          match (read_obj (A:=VirtioConsoleControl) reader).1 with
          | Ret cmd =>
              do! attempt (ctl_add_used head_index (Z.of_nat (size_of VirtioConsoleControl))) in
              do! on_console (handle_command ports cmd) in
              commands fuel ports true
          | Fail _ => commands fuel ports true
          | Panic => panic
          | NoFuel => no_fuel
          end
      end
  end.

(** The part of [process_tx] that holds the lock of the queue, when it can be had *)
Definition control_tx_section {DQ : DeviceQueue S Q} (fuel : nat) (ports : list (Port K In Out)) :
    M CE errno unit :=
  let! world := gets ce_world in
  match dq_try_lock_queue world with
  | None => ret tt
  | Some queue =>
      ctl_locked queue
        (let! raise_irq := commands fuel ports false in
         if raise_irq : bool then unwrap (on_console (on_world dq_signal_used_queue)) else ret tt)
  end.

Definition process_tx (fuel : nat) (w : MW) : M CE errno unit :=
  let dq := dq_of (mw_control_txq w) in
  let! kick := unwrap (on_world dq_read_kick) in
  if negb kick then ret tt else control_tx_section fuel (mw_ports w).

(** ** The thread *)

(** The [for] loop over the events of one wait, which [Quit] leaves. *)
Fixpoint handle_events (fuel : nat) (w : MW) (events : list (TriggeredEvent WorkerToken)) :
    M CE errno unit :=
  match events with
  | [] => ret tt
  | event :: events =>
      let! control := gets ce_control in
      do! unwrap (on_world (efd_write (cc_queue_evt control) 1)) in
      match te_token event with
      | ControlRxq => do! process_rx fuel w in handle_events fuel w events
      | ControlTxq => do! process_tx fuel w in handle_events fuel w events
      | Quit => ret tt
      end
  end.

(** The body of the outer loop, which nothing leaves. *)
Definition run_turn (fuel : nat) (w : MW) (events_manager : EventManager) : M CE errno (option unit) :=
  let! events := unwrap (on_world (em_wait fuel events_manager)) in
  do! handle_events fuel w events in
  ret None.

Definition add_kick (em : EventManager) (queue : K) (token : WorkerToken) : M CE errno unit :=
  unwrap (on_world (dq_kick_register (DeviceQueue:=dq_of queue) (arc_of (em_epoll em)) (token_as_raw token))).

Definition main_worker_run (fuel : nat) (w : MW) : M CE errno unit :=
  let! events_manager := unwrap (on_world em_new) in
  do! add_kick events_manager (mw_control_rxq w) ControlRxq in
  do! add_kick events_manager (mw_control_txq w) ControlTxq in
  let! control := gets ce_control in
  do! unwrap (on_world (em_add events_manager (MkEventFd (cc_queue_evt control)) ControlRxq)) in
  do! unwrap (on_world (em_add events_manager (MkEventFd (mw_stopfd w)) Quit)) in
  loop fuel (run_turn fuel w events_manager).
End main_worker.

(** ** Starting takes every queue once *)

#[local] Arguments port_id_to_queue_idx : simpl never.

Section starting.
Context {K S Q Mem Chain In Out : Type} `{QueueProc Q Mem Chain} `{ChainDescs Mem Chain}
  `{GuestAccess Mem} `{PortInput S Mem In} `{PortOutput S Mem Out} `{EpollOps S} `{EventSetBits}
  `{EventFdOps S} `{EventFdMake S}.
Context (dq_of : K → DeviceQueue S Q) (arc_of : Z → EpollArc).
(** there are file descriptors left *)
Context (efd_try_clone_ok : ∀ fd (w : S), ∃ fd' w', efd_try_clone fd w = (Ret fd', w')).
Context (efd_new_ok : ∀ w : S, ∃ fd w', efd_new w = (Ret fd, w')).

Local Notation CE := (ConsoleEnv S Mem).
Local Notation MW := (MainWorker K In Out).

Lemma port_start_ok fuel rx_queue tx_queue stopfd (p : Port K In Out) (s : CE) :
  p_state p = Inactive →
  ∃ p' s', port_start dq_of arc_of fuel rx_queue tx_queue stopfd p s = (Ret p', s') ∧
    runs_with rx_queue tx_queue p p'.
Proof.
  intros Hst. cut (∃ p' s', port_start dq_of arc_of fuel rx_queue tx_queue stopfd p s = (Ret p', s')).
  { intros (p' & s' & Hrun). exists p', s'. split; [done|]. by eapply port_start_runs. }
  unfold port_start. rewrite Hst. erewrite bind_Ret by done.
  assert (∀ s : CE, ∃ fd s', unwrap (E':=errno) (on_world (efd_try_clone stopfd)) s = (Ret fd, s')) as Hclone.
  { intros s0. destruct (efd_try_clone_ok stopfd (ce_world s0)) as (fd & w' & Hc).
    unfold unwrap, on_world, zoom. rewrite Hc. eauto. }
  destruct (p_input p), (p_output p); unfold bind, ret; repeat
    match goal with
    | |- context [unwrap (on_world (efd_try_clone stopfd)) ?s0] =>
        let fd := fresh "fd" in let s' := fresh "s" in let Hc := fresh "Hc" in
        destruct (Hclone s0) as (fd & s' & Hc); rewrite Hc
    end; eauto.
Qed.

(** The ports below [i] have been started, with their own queues, which are taken. *)
Definition started (ports : list (Port K In Out)) (queues : gmap nat K) (i : nat) (w : MW) : Prop :=
  length (mw_ports w) = length ports ∧
  (∀ j p, ports !! j = Some p →
    if decide (j < i)%nat
    then ∃ rx tx p', queues !! port_id_to_queue_idx Rx j = Some rx ∧
      queues !! port_id_to_queue_idx Tx j = Some tx ∧
      mw_ports w !! j = Some p' ∧ runs_with rx tx p p'
    else mw_ports w !! j = Some p) ∧
  (∀ d j, (j < i)%nat → mw_port_queues w !! port_id_to_queue_idx d j = None) ∧
  (∀ k, (∀ d j, (j < i)%nat → k ≠ port_id_to_queue_idx d j) →
    mw_port_queues w !! k = queues !! k).

Lemma take_port_queue_run d i (w : MW) (s : CE) q :
  mw_port_queues w !! port_id_to_queue_idx d i = Some q →
  take_port_queue d i (w, s) =
    (Ret q, (set_port_queues (delete (port_id_to_queue_idx d i) (mw_port_queues w)) w, s)).
Proof. intros Hq. unfold take_port_queue, bind, gets, modify. simpl. by rewrite Hq. Qed.

Lemma start_port_started fuel ports queues i p (w : MW) (s : CE) :
  ports !! i = Some p → p_state p = Inactive →
  is_Some (queues !! port_id_to_queue_idx Rx i) → is_Some (queues !! port_id_to_queue_idx Tx i) →
  started ports queues i w →
  ∃ w' s', start_port dq_of arc_of fuel i (w, s) = (Ret tt, (w', s')) ∧
    started ports queues (Datatypes.S i) w' ∧
    mw_control_rxq w' = mw_control_rxq w ∧ mw_control_txq w' = mw_control_txq w.
Proof.
  intros Hp Hst [rx Hrx] [tx Htx] (Hlen & Hports & Htaken & Hleft).
  assert (mw_ports w !! i = Some p) as Hpi.
  { specialize (Hports i p Hp). by rewrite decide_False in Hports by lia. }
  assert (∀ d j, (j < i)%nat → ∀ d', port_id_to_queue_idx d' i ≠ port_id_to_queue_idx d j) as Hne.
  { intros d j Hj d' [_ ->]%port_id_to_queue_idx_inj. lia. }
  unfold start_port. erewrite bind_Ret by done. cbn [fst]. rewrite Hpi. erewrite bind_Ret by done.
  erewrite bind_Ret.
  2: { apply take_port_queue_run. rewrite Hleft; [done|]. intros d j Hj. by apply Hne. }
  erewrite bind_Ret.
  2: { apply take_port_queue_run. cbn [mw_port_queues set_port_queues].
    rewrite lookup_delete_ne by (by intros [? _]%port_id_to_queue_idx_inj).
    rewrite Hleft; [done|]. intros d j Hj. by apply Hne. }
  erewrite bind_Ret by done. cbn [fst mw_stopfd set_port_queues].
  destruct (efd_try_clone_ok (mw_stopfd w) (ce_world s)) as (fd & w1 & Hclone).
  erewrite bind_Ret; [|unfold unwrap, on_ce, on_world, zoom; simpl; by rewrite Hclone].
  destruct (port_start_ok fuel rx tx fd p (MkConsoleEnv w1 (ce_mem s) (ce_control s)) Hst)
    as (p' & s' & Hrun & Hruns).
  erewrite bind_Ret; [|unfold on_ce, zoom; simpl; by rewrite Hrun].
  eexists _, _. split; [reflexivity|]. split; [|done].
  split; [|split; [|split]]; cbn [fst mw_ports mw_port_queues set_ports set_port_queues].
  - by rewrite length_insert.
  - intros j pj Hj. destruct (decide (j = i)) as [->|Hji].
    + rewrite decide_True by lia. simplify_eq. exists rx, tx, p'.
      rewrite list_lookup_insert_eq by (by eapply lookup_lt_Some). done.
    + specialize (Hports j pj Hj). rewrite list_lookup_insert_ne by done.
      destruct (decide (j < i)%nat); [by rewrite decide_True by lia|by rewrite decide_False by lia].
  - intros d j Hj. destruct (decide (j = i)) as [->|Hji].
    + destruct d; [|by rewrite lookup_delete_eq].
      rewrite lookup_delete_ne by (by intros [? _]%port_id_to_queue_idx_inj). by rewrite lookup_delete_eq.
    + rewrite !lookup_delete_ne by (apply Hne; lia). apply Htaken. lia.
  - intros k Hk. rewrite !lookup_delete_ne by (apply not_eq_sym, Hk; lia).
    apply Hleft. intros d j Hj. apply Hk. lia.
Qed.

Lemma start_ports_started fuel ports queues k i (w : MW) (s : CE) :
  (i + k = length ports)%nat → Forall (λ p, p_state p = Inactive) ports →
  (∀ d j, (j < length ports)%nat → is_Some (queues !! port_id_to_queue_idx d j)) →
  started ports queues i w →
  ∃ w' s', for_each (seq i k) (start_port dq_of arc_of fuel) (w, s) = (Ret tt, (w', s')) ∧
    started ports queues (length ports) w' ∧
    mw_control_rxq w' = mw_control_rxq w ∧ mw_control_txq w' = mw_control_txq w.
Proof.
  intros Hik Hinactive Hqueues. revert i w s Hik. induction k as [|k IH]; intros i w s Hik Hs; simpl.
  { exists w, s. by replace (length ports) with i by lia. }
  destruct (lookup_lt_is_Some_2 ports i) as [p Hp]; [lia|].
  destruct (start_port_started fuel ports queues i p w s Hp) as (w1 & s1 & Hrun & Hs1 & Hrx & Htx);
    [by apply (Forall_lookup_1 _ _ _ _ Hinactive Hp)|apply Hqueues; lia..|done|].
  erewrite bind_Ret by exact Hrun.
  destruct (IH (Datatypes.S i) w1 s1) as (w2 & s2 & Hrun2 & Hs2 & Hrx2 & Htx2); [lia|done|].
  exists w2, s2. split; [done|]. split; [done|]. split; congruence.
Qed.

Lemma main_worker_new_run fuel (queues : gmap nat K) (ports : list (Port K In Out)) stopfd (s : CE) n :
  length ports = Datatypes.S n → Forall (λ p, p_state p = Inactive) ports →
  (∀ k, is_Some (queues !! k) ↔ (k < num_queues (length ports))%nat) →
  ∃ w s', main_worker_new dq_of arc_of fuel queues ports stopfd s = (Ret w, s') ∧
    queues !! CONTROL_RXQ_INDEX = Some (mw_control_rxq w) ∧
    queues !! CONTROL_TXQ_INDEX = Some (mw_control_txq w) ∧
    mw_port_queues w = ∅ ∧
    (∀ i p, ports !! i = Some p → ∃ rx tx p',
      queues !! port_id_to_queue_idx Rx i = Some rx ∧ queues !! port_id_to_queue_idx Tx i = Some tx ∧
      mw_ports w !! i = Some p' ∧ runs_with rx tx p p').
Proof.
  intros Hn Hinactive Hdom. unfold main_worker_new.
  destruct (proj2 (Hdom CONTROL_RXQ_INDEX)) as [rxq Hrxq]; [rewrite Hn; unfold num_queues, CONTROL_RXQ_INDEX; lia|].
  destruct (proj2 (Hdom CONTROL_TXQ_INDEX)) as [txq Htxq]; [rewrite Hn; unfold num_queues, CONTROL_TXQ_INDEX; lia|].
  rewrite Hrxq. erewrite bind_Ret by done. rewrite lookup_delete_ne by done. rewrite Htxq.
  erewrite bind_Ret by done.
  destruct (efd_new_ok (ce_world s)) as (evt & w1 & Hnew).
  erewrite bind_Ret; [|unfold on_world, zoom, console_control_new, bind, unwrap; rewrite Hnew; reflexivity].
  erewrite bind_Ret by done. cbn [ce_world ce_mem ce_control].
  set (queues' := delete CONTROL_TXQ_INDEX (delete CONTROL_RXQ_INDEX queues)).
  set (w0 := MkMainWorker rxq txq queues' ports stopfd).
  assert (∀ d j, queues' !! port_id_to_queue_idx d j = queues !! port_id_to_queue_idx d j) as Hq'.
  { intros d j. destruct (port_id_to_queue_idx_control d j). unfold queues'.
    by rewrite !lookup_delete_ne by (unfold CONTROL_RXQ_INDEX, CONTROL_TXQ_INDEX; congruence). }
  unfold start_ports, bind at 1, gets. cbn [fst mw_ports].
  destruct (start_ports_started fuel ports queues' (length ports) 0 w0
    (MkConsoleEnv w1 (ce_mem s) (MkConsoleControl [] evt))) as (w & s' & Hrun & Hs & Hrx & Htx);
    [done|done| |by split_and!; [|intros ? ?; rewrite decide_False by lia|intros; lia|]|].
  { intros d j Hj. rewrite Hq'. apply Hdom. rewrite Hn in Hj |- *. by apply port_id_to_queue_idx_bound. }
  change (mw_ports w0) with ports. rewrite Hrun. cbn [outcome_map outcome_bind]. exists w, s'. split; [done|].
  rewrite Hrx, Htx. split; [done|]. split; [done|]. destruct Hs as (_ & Hports & Htaken & Hleft). split.
  - apply map_eq. intros k. rewrite lookup_empty.
    destruct (decide (k < num_queues (length ports))%nat) as [Hlt|Hge].
    + destruct (queue_idx_of_port k) as [(d & j & ->)|Hctl].
      * apply Htaken. rewrite Hn in Hlt |- *. by apply port_id_to_queue_idx_bound in Hlt.
      * rewrite Hleft; [|intros d j _ ->; destruct (port_id_to_queue_idx_control d j); by destruct Hctl].
        unfold queues', CONTROL_RXQ_INDEX, CONTROL_TXQ_INDEX. destruct Hctl as [-> | ->];
          [rewrite lookup_delete_ne by done|]; apply lookup_delete_eq.
    + rewrite Hleft.
      * apply eq_None_not_Some. unfold queues'. rewrite !lookup_delete_is_Some. intros (_ & _ & ?%Hdom). done.
      * intros d j Hj ->. apply Hge. rewrite Hn in Hj |- *. by apply port_id_to_queue_idx_bound.
  - intros i p Hp. specialize (Hports i p Hp). apply lookup_lt_Some in Hp.
    rewrite decide_True in Hports by done. rewrite !Hq' in Hports. exact Hports.
Qed.

(** Claim C34. With the queues that a device with these ports asks for, the main worker
    starts: it keeps the two control queues for itself, every port runs with a thread for
    each direction it has, on the receive and transmit queue of its own number, and no
    queue is used twice or left over. *)
Theorem main_worker_new_starts fuel (queues : gmap nat K) (ports : list (Port K In Out)) stopfd (s : CE) n :
  length ports = Datatypes.S n → Forall (λ p, p_state p = Inactive) ports →
  (∀ k, is_Some (queues !! k) ↔ (k < num_queues (length ports))%nat) →
  ∃ w s', main_worker_new dq_of arc_of fuel queues ports stopfd s = (Ret w, s') ∧
    queues !! CONTROL_RXQ_INDEX = Some (mw_control_rxq w) ∧
    queues !! CONTROL_TXQ_INDEX = Some (mw_control_txq w) ∧
    mw_port_queues w = ∅ ∧
    (∀ i p, ports !! i = Some p → ∃ rx tx p',
      queues !! port_id_to_queue_idx Rx i = Some rx ∧ queues !! port_id_to_queue_idx Tx i = Some tx ∧
      mw_ports w !! i = Some p' ∧ runs_with rx tx p p').
Proof. apply main_worker_new_run. Qed.
End starting.

(** ** Messages reach the driver in order *)

Section control_queues.
Context {S Q Mem Chain R Wr In Out K : Type} `{QueueProcLaws Q Mem Chain} `{ReaderLaws R}
  `{WriterLaws Wr} `{!ChainStreams Mem Chain R Wr} `{!ChainStreamsLaws Q Mem Chain R Wr}
  `{EpollOps S} `{!EventFdOps S} `{!EventFdLaws S}.

Local Notation CE := (ConsoleEnv S Mem).
Implicit Types t : CE * Q.

Definition ctl_used t : list (Z * Z) := q_used t.2 (ce_mem t.1).

Definition ctl_chains t : list Chain := q_avail t.2 (ce_mem t.1).

(** What has been done with a message: the chain taken for it, and whether the driver
    gets it. *)
Definition delivery : Type := Chain * Payload * bool.
Definition delivered (rs : list delivery) : list (Z * Z) :=
  (λ r, (chain_head_index r.1.1, wrap 32 (Z.of_nat (length (payload_deref r.1.2))))) <$>
    filter (λ r, r.2 = true) rs.

(** A turn of the loop takes a chain and a message and opens the chain for writing. *)
Definition opened c p (w : Wr) t t' : Prop :=
  ∃ t1, ctl_pop (E:=errno) t = (Ret (Some c), t1) ∧
    on_console (queue_pop (E:=errno)) t1 = (Ret (Some p), t') ∧ chain_writer (ce_mem t'.1) c = Ret w.

(** What can come of it: the message is written and the chain is put in the used ring; or
    the message cannot be written to this chain, the chain is too small for it, or cannot
    be put in the used ring. *)
Inductive turn : delivery → CE * Q → CE * Q → Prop :=
| turn_delivered c p w t t1 t2 t' :
    opened c p w t t1 → ctl_write (payload_deref p) w t1 = (Ret (Z.of_nat (length (payload_deref p))), t2) →
    ctl_add_used (chain_head_index c) (wrap 32 (Z.of_nat (length (payload_deref p)))) t2 = (Ret tt, t') → turn (c, p, true) t t'
| turn_not_written c p w t t1 t' :
    opened c p w t t1 → ctl_write (payload_deref p) w t1 = (Fail tt, t') → turn (c, p, false) t t'
| turn_too_small c p w t t1 t' :
    opened c p w t t1 → w_available_bytes w < Z.of_nat (length (payload_deref p)) →
    ctl_write (payload_deref p) w t1 = (Ret (w_available_bytes w), t') → turn (c, p, false) t t'
| turn_not_returned c p w e t t1 t2 t' :
    opened c p w t t1 → ctl_write (payload_deref p) w t1 = (Ret (Z.of_nat (length (payload_deref p))), t2) →
    ctl_add_used (chain_head_index c) (wrap 32 (Z.of_nat (length (payload_deref p)))) t2 = (Fail e, t') → turn (c, p, false) t t'.

(** The last turn finds no chain, or puts the chain back when there is no message. *)
Definition last_turn t t' : Prop :=
  ctl_pop (E:=errno) t = (Ret None, t') ∨
  ∃ c t1 t2, ctl_pop (E:=errno) t = (Ret (Some c), t1) ∧
    on_console (queue_pop (E:=errno)) t1 = (Ret None, t2) ∧ t' = (t2.1, q_go_to_previous_position t2.2).

Definition deliver_outcome t (run : outcome errno bool * (CE * Q)) : Prop :=
  match run.1 with
  | Ret _ => ∃ rs t1, runs turn rs t t1 ∧ last_turn t1 run.2
  | Panic => ∃ (m : Mem) (c : Chain) e, chain_writer m c = Fail e
  | _ => False
  end.

Lemma deliver_outcome_cons r t t1 run : turn r t t1 → deliver_outcome t1 run → deliver_outcome t run.
Proof.
  intros Hr Hrun. unfold deliver_outcome in *. destruct run.1; [|done..].
  destruct Hrun as (rs & t2 & Hrs & Hlast). exists (r :: rs), t2. split; [by eapply runs_cons|done].
Qed.

(** *** What a turn does to the queue and the messages *)

Lemma ctl_pop_run {E} t o t' :
  ctl_pop (E:=E) (Chain:=Chain) t = (o, t') →
  t'.1 = t.1 ∧ ctl_used t' = ctl_used t ∧
  ∃ c, o = Ret c ∧ match c with
    | Some c => ctl_chains t = c :: ctl_chains t' ∧ ctl_chains (t'.1, q_go_to_previous_position t'.2) = ctl_chains t ∧
        ctl_used (t'.1, q_go_to_previous_position t'.2) = ctl_used t
    | None => ctl_chains t' = ctl_chains t
    end.
Proof.
  unfold ctl_pop, ctl_chains, ctl_used. destruct (q_pop_descriptor_chain (ce_mem t.1) t.2) as [[c|] q] eqn:Hpop;
    intros ?; simplify_eq/=.
  - destruct (q_pop_Some _ _ _ _ Hpop) as (Ha & Hu & Hback & Hbacku). split; [done|]. split; [done|]. by exists (Some c).
  - destruct (q_pop_None _ _ _ Hpop) as [Ha Hu]. split; [done|]. split; [done|]. by exists None.
Qed.

Lemma on_queue_pop_run {E} t :
  on_console (queue_pop (E:=E)) t = (Ret (head (messages t.1)), (set_queue (λ _, tail (messages t.1)) t.1, t.2)).
Proof. unfold on_console, zoom. by rewrite queue_pop_run. Qed.

Lemma opened_views c p w t t' :
  opened c p w t t' → ctl_chains t = c :: ctl_chains t' ∧ messages t.1 = p :: messages t'.1 ∧ ctl_used t' = ctl_used t.
Proof.
  intros (t1 & Hpop & Hmsg & _). destruct (ctl_pop_run _ _ _ Hpop) as (Hs & Hu & c' & [= <-] & Hc & _).
  rewrite on_queue_pop_run in Hmsg. injection Hmsg as Hhead <-. unfold ctl_chains, ctl_used, messages in *. simpl.
  rewrite Hs in *. split; [done|]. split; [|done].
  destruct (cc_queue (ce_control t.1)); simpl in Hhead; by simplify_eq.
Qed.

Lemma ctl_write_views bs (w : Wr) t o t' :
  ctl_write bs w t = (o, t') →
  ce_control t'.1 = ce_control t.1 ∧ ctl_chains t' = ctl_chains t ∧ ctl_used t' = ctl_used t.
Proof.
  unfold ctl_write, ctl_chains, ctl_used. destruct (w_write bs w) as [o' w']. intros ?; simplify_eq/=.
  by destruct (chain_commit_views w' t.2 (ce_mem t.1)) as [-> ->].
Qed.

Lemma ctl_add_used_views head len t o t' :
  ctl_add_used head len t = (o, t') →
  ce_control t'.1 = ce_control t.1 ∧ ctl_chains t' = ctl_chains t ∧
  ctl_used t' = ctl_used t ++ (match o with Ret _ => [(head, len)] | _ => [] end).
Proof.
  unfold ctl_add_used, zoom, ctl_chains, ctl_used. destruct t as [[wd m c] q]. simpl.
  destruct (q_add_used_result head len (q, m)) as [[[q' m'] Hr]|(e & [q' m'] & Hr)]; rewrite Hr; simpl;
    intros ?; simplify_eq/=.
  - by destruct (q_add_used_ok _ _ _ _ _ _ Hr) as [-> ->].
  - destruct (q_add_used_fail _ _ _ _ _ _ _ Hr) as [-> ->]. by rewrite app_nil_r.
Qed.

Lemma turn_views r t t' :
  turn r t t' → ctl_chains t = r.1.1 :: ctl_chains t' ∧ messages t.1 = r.1.2 :: messages t'.1 ∧
    ctl_used t' = ctl_used t ++ delivered [r].
Proof.
  intros Hr. destruct Hr as [c p w t t1 t2 t' Ho Hw Ha|c p w t t1 t' Ho Hw|c p w t t1 t' Ho Hlt Hw|c p w e t t1 t2 t' Ho Hw Ha];
    destruct (opened_views _ _ _ _ _ Ho) as (Hc & Hm & Hu); apply ctl_write_views in Hw as (Hmw & Hcw & Huw);
    try apply ctl_add_used_views in Ha as (Hma & Hca & Hua); unfold messages, delivered in *; simpl;
    (split; [congruence|]; split; [congruence|]); rewrite ?app_nil_r in *; congruence.
Qed.

(** A run of turns takes chains and messages from the front, each once. *)
Lemma turns_views rs t t' :
  runs turn rs t t' → ctl_chains t = rs.*1.*1 ++ ctl_chains t' ∧ messages t.1 = rs.*1.*2 ++ messages t'.1 ∧
    ctl_used t' = ctl_used t ++ delivered rs.
Proof.
  induction 1 as [t|r rs t t1 t' Hr _ (Hc & Hm & Hu)]; [by rewrite app_nil_r|].
  destruct (turn_views _ _ _ Hr) as (Hc1 & Hm1 & Hu1). rewrite Hc1, Hc, Hm1, Hm, Hu, Hu1, <-app_assoc.
  split; [done|]. split; [done|]. f_equal. unfold delivered. by rewrite <-fmap_app, <-filter_app.
Qed.

Lemma last_turn_views t t' :
  last_turn t t' → ctl_chains t' = ctl_chains t ∧ messages t'.1 = messages t.1 ∧ ctl_used t' = ctl_used t ∧
    (messages t'.1 = [] ∨ ∃ q, q_pop_descriptor_chain (ce_mem t'.1) q = (None, t'.2)).
Proof.
  intros [Hpop|(c & t1 & t2 & Hpop & Hmsg & ->)];
    pose proof (ctl_pop_run _ _ _ Hpop) as (Hs & Hu & c' & [= <-] & Hc).
  - rewrite Hs. split_and!; [done..|]. right. exists t.2. unfold ctl_pop in Hpop.
    destruct (q_pop_descriptor_chain (ce_mem t.1) t.2) as [[]]; by simplify_eq/=.
  - rewrite on_queue_pop_run in Hmsg. injection Hmsg as Hhead <-. rewrite Hs in *.
    destruct Hc as (_ & Hback & Hbacku). unfold ctl_chains, ctl_used, messages in *. simpl.
    split; [done|]. destruct (cc_queue (ce_control t.1)); simpl in Hhead; [|done]. split_and!; auto.
Qed.

Lemma ctl_add_used_result head len t :
  (∃ t', ctl_add_used head len t = (Ret tt, t')) ∨ (∃ e t', ctl_add_used head len t = (Fail e, t')).
Proof.
  unfold ctl_add_used, zoom. destruct (q_add_used_result head len (t.2, ce_mem t.1)) as [[s' ->]|(e & s' & ->)]; eauto.
Qed.

Lemma ctl_write_result bs (w : Wr) t :
  (∃ n t', ctl_write bs w t = (Ret n, t') ∧ n = Z.min (Z.of_nat (length bs)) (w_available_bytes w)) ∨
  (∃ t', ctl_write bs w t = (Fail tt, t')).
Proof.
  unfold ctl_write. destruct (w_write_result bs w) as [(n & w' & Hr)|(w' & Hr)]; rewrite Hr; [left|by eauto].
  destruct (w_write_ok _ _ _ _ Hr) as [-> _]. by eauto.
Qed.

Lemma deliver_run fuel irq t :
  (length (ctl_chains t) < fuel)%nat → deliver_outcome t (deliver (R:=R) (Wr:=Wr) fuel irq t).
Proof.
  revert irq t. induction fuel as [|fuel IH]; intros irq t Hfuel; [lia|]. simpl. unfold bind at 1.
  destruct (ctl_pop t) as [o t1] eqn:Hpop.
  pose proof (ctl_pop_run _ _ _ Hpop) as (Hs & _ & [c|] & -> & Hc).
  2: { exists [], t. split; [apply runs_nil|]. by left. }
  unfold bind at 1. destruct (on_console queue_pop t1) as [om t2] eqn:Hmsg.
  pose proof Hmsg as Hmsg'. rewrite on_queue_pop_run in Hmsg'. injection Hmsg' as <- _.
  destruct (head (messages t1.1)) as [p|] eqn:Hhead.
  2: { exists [], t. split; [apply runs_nil|]. right. by exists c, t1, t2. }
  erewrite bind_Ret by done.
  destruct (chain_writer_result (ce_mem t2.1) c) as [[w Hw]|[e Hw]]; rewrite Hw.
  2: { erewrite bind_Panic by done. by exists (ce_mem t2.1), c, e. }
  erewrite bind_Ret by done.
  assert (opened c p w t t2) as Hopen by (by exists t1).
  assert (length (ctl_chains t2) < fuel)%nat as Hfuel2.
  { destruct (opened_views _ _ _ _ _ Hopen) as (Hc2 & _). rewrite Hc2 in Hfuel. simpl in Hfuel. lia. }
  unfold bind at 1, attempt at 1. destruct (ctl_write (payload_deref p) w t2) as [ow t3] eqn:Hwr.
  pose proof (ctl_write_views _ _ _ _ _ Hwr) as (_ & Hc3 & _).
  destruct (ctl_write_result (payload_deref p) w t2) as [(n & t3' & Hr & Hn)|(t3' & Hr)];
    rewrite Hwr in Hr; simplify_eq.
  2: { eapply deliver_outcome_cons; [by eapply turn_not_written|]. apply IH. by rewrite Hc3. }
  case_bool_decide as Hlen.
  { eapply deliver_outcome_cons; [|apply IH; by rewrite Hc3].
    eapply turn_too_small; [exact Hopen|lia|]. rewrite Hwr. do 2 f_equal. lia. }
  assert (Z.min (Z.of_nat (length (payload_deref p))) (w_available_bytes w) =
    Z.of_nat (length (payload_deref p))) as Hfull by lia.
  clear Hlen. rewrite Hfull in *.
  unfold bind, attempt. destruct (ctl_add_used _ _ t3') as [oa t4] eqn:Hadd.
  pose proof (ctl_add_used_views _ _ _ _ _ Hadd) as (_ & Hc4 & _).
  assert (deliver_outcome t4 (deliver (R:=R) (Wr:=Wr) fuel true t4)) as Hrest
    by (apply IH; by rewrite Hc4, Hc3).
  destruct (ctl_add_used_result (chain_head_index c) (wrap 32 (Z.of_nat (length (payload_deref p)))) t3')
    as [[t4' Hr]|(e & t4' & Hr)]; rewrite Hadd in Hr; simplify_eq.
  - eapply deliver_outcome_cons; [by eapply turn_delivered|exact Hrest].
  - eapply deliver_outcome_cons; [by eapply turn_not_returned|exact Hrest].
Qed.

(** One run over the control receive queue takes the waiting messages in the
    order in which they were sent, each into the next chain, and ends when there are no
    messages or no chains left; a chain without a message is put back. Each message is in
    the used ring with its own chain and its full length, unless the chain is too small
    for it, cannot be written or cannot be returned: then the message is lost, and its
    chain with it. The run can only panic when the crate cannot open a chain for writing.
    More fuel than there are chains is enough. *)
Theorem control_messages_in_order fuel irq t :
  (length (ctl_chains t) < fuel)%nat →
  let run := deliver (R:=R) (Wr:=Wr) fuel irq t in
  match run.1 with
  | Ret _ => ∃ rs t1,
      runs turn rs t t1 ∧ last_turn t1 run.2 ∧
      ctl_chains t = rs.*1.*1 ++ ctl_chains run.2 ∧
      messages t.1 = rs.*1.*2 ++ messages run.2.1 ∧
      ctl_used run.2 = ctl_used t ++ delivered rs ∧
      (messages run.2.1 = [] ∨ ∃ q, q_pop_descriptor_chain (ce_mem run.2.1) q = (None, run.2.2))
  | Panic => ∃ (m : Mem) (c : Chain) e, chain_writer m c = Fail e
  | _ => False
  end.
Proof.
  intros Hfuel run. pose proof (deliver_run fuel irq t Hfuel) as Hrun. unfold deliver_outcome in Hrun. fold run in Hrun.
  destruct run.1; [|done..]. destruct Hrun as (rs & t1 & Hrs & Hlast). exists rs, t1.
  destruct (turns_views _ _ _ Hrs) as (Hc & Hm & Hu), (last_turn_views _ _ Hlast) as (Hcl & Hml & Hul & Hend).
  by rewrite Hc, Hm, Hul, Hu, Hcl, Hml in *.
Qed.

(** ** Commands of the driver *)

Lemma push_payload_keeps_mem {E} p : keeps (E:=E) (ce_mem (S:=S)) (push_payload (Mem:=Mem) p).
Proof. intros s. rewrite push_payload_run. done. Qed.

#[local] Hint Resolve push_payload_keeps_mem : keeps.

Lemma handle_command_keeps_mem (ports : list (Port K In Out)) cmd :
  keeps (ce_mem (S:=S)) (handle_command (Mem:=Mem) ports cmd).
Proof.
  unfold handle_command, port_add, push_msg. apply keeps_if; [auto with keeps|].
  apply keeps_if; [|apply keeps_ret]. apply keeps_if; [apply keeps_ret|].
  unfold port_ready, port_of, mark_console_port, port_open, console_resize, port_name, push_msg, push_vec.
  apply keeps_bind; [auto with keeps|intros port]. apply keeps_bind; [|intros _].
  - apply keeps_if; cbn [get_win_size]; auto with keeps.
  - apply keeps_bind; [auto with keeps|intros port']. apply keeps_if; auto with keeps.
Qed.

(** Whatever chains the driver puts in the control transmit queue, everything
    that a run over them adds to the used ring carries the head 0 and the length 8 of a
    command: a chain with another head is never returned to the driver, and chain 0 is
    returned although the driver may not have given it away. *)
Theorem control_commands_answer_head_zero fuel (ports : list (Port K In Out)) irq t :
  ∃ k, ctl_used (commands (R:=R) fuel ports irq t).2 = ctl_used t ++ replicate k (0, 8).
Proof.
  revert irq t. induction fuel as [|fuel IH]; intros irq [s q]; simpl.
  { exists 0%nat. by rewrite app_nil_r. }
  unfold bind at 1, ctl_pop. cbn [fst snd].
  destruct (q_pop_descriptor_chain (ce_mem s) q) as [[c|] q1] eqn:Hpop.
  2: { destruct (q_pop_None _ _ _ Hpop) as [_ Hu]. exists 0%nat. unfold ctl_used. simpl.
    by rewrite Hu, app_nil_r. }
  destruct (q_pop_Some _ _ _ _ Hpop) as (_ & Hu & _).
  assert (ctl_used (s, q1) = ctl_used (s, q)) as Hu1 by exact Hu.
  erewrite bind_Ret by done. cbn [fst]. unfold bind at 1, lift.
  destruct (chain_reader (ce_mem s) c) as [r|e| |]; cbn [outcome_unwrap];
    [|exists 0%nat; by rewrite app_nil_r, <-Hu1..].
  destruct (read_obj r).1 as [cmd|e| |]; [|by rewrite <-Hu1; apply IH|exists 0%nat; by rewrite app_nil_r, <-Hu1..].
  destruct (ctl_add_used 0 (Z.of_nat (size_of VirtioConsoleControl)) (s, q1)) as [o [s2 q2]] eqn:Hadd.
  assert (∃ r, attempt (E':=errno) (ctl_add_used 0 (Z.of_nat (size_of VirtioConsoleControl))) (s, q1) = (Ret r, (s2, q2)))
    as [r' Hatt].
  { unfold attempt. destruct (ctl_add_used_result 0 (Z.of_nat (size_of VirtioConsoleControl)) (s, q1))
      as [[t' Hr]|(e & t' & Hr)]; rewrite Hadd in Hr; simplify_eq; rewrite Hadd; eauto. }
  assert (∃ k, ctl_used (s2, q2) = ctl_used (s, q) ++ replicate k (0, 8)) as [k Hk].
  { destruct (ctl_add_used_views _ _ _ _ _ Hadd) as (_ & _ & ->). rewrite Hu1.
    destruct o; [by exists 1%nat|by exists 0%nat..]. }
  erewrite bind_Ret by exact Hatt. unfold bind, on_console, zoom. cbn [fst snd].
  destruct (handle_command_keeps_mem ports cmd s2) as [Hm _].
  assert (∀ s3, ce_mem s3 = ce_mem s2 → ctl_used (s3, q2) = ctl_used (s2, q2)) as Hsame.
  { intros s3 Heq. unfold ctl_used. simpl. by rewrite Heq. }
  destruct (handle_command ports cmd s2) as [[[]|e| |] s3]; simpl in Hm;
    [|exists k; cbn [snd]; by rewrite Hsame, Hk..].
  destruct (IH true (s3, q2)) as [k' ->]. exists (k + k')%nat.
  by rewrite Hsame, Hk, <-app_assoc, replicate_add.
Qed.

Definition control_msg (id event value : Z) : Payload :=
  PayloadConsoleControl (MkVirtioConsoleControl id event value).

(** A driver that reports that it is ready is told of every port of the
    device, once and in the order of their numbers. *)
Theorem device_ready_adds_ports (ports : list (Port K In Out)) cmd (s : CE) :
  vcc_event cmd = VIRTIO_CONSOLE_DEVICE_READY → in_width 32 (Z.of_nat (length ports)) →
  ∃ s', handle_command ports cmd s = (Ret tt, s') ∧
    messages s' = messages s ++
      ((λ i, control_msg (Z.of_nat i) VIRTIO_CONSOLE_PORT_ADD 0) <$> seq 0 (length ports)).
Proof.
  intros Hev Hwidth. unfold handle_command. rewrite bool_decide_eq_true_2 by done.
  assert (∀ k i (s : CE), (i + k ≤ length ports)%nat → ∃ s',
    for_each (seq i k) (λ port_id, port_add (E:=errno) (wrap 32 (Z.of_nat port_id))) s = (Ret tt, s') ∧
    messages s' = messages s ++ ((λ i, control_msg (Z.of_nat i) VIRTIO_CONSOLE_PORT_ADD 0) <$> seq i k))
    as Hall; [|by apply (Hall (length ports) 0%nat s)].
  induction k as [|k IH]; intros i s0 Hle; simpl.
  { exists s0. by rewrite app_nil_r. }
  unfold port_add, push_msg. rewrite push_payload_bind.
  set (p := PayloadConsoleControl _).
  destruct (IH (Datatypes.S i) (pushed p s0)) as (s' & Hrun & Hm); [lia|].
  exists s'. split; [exact Hrun|]. rewrite Hm, messages_pushed, <-app_assoc. simpl. unfold p, control_msg.
  rewrite wrap_small; [done|]. unfold in_width in *. lia.
Qed.

(** What a driver is told about a port that it is ready to use. *)
Definition port_messages (id : Z) (p : Port K In Out) : list Payload :=
  (if p_represents_console p then
     [control_msg id VIRTIO_CONSOLE_CONSOLE_PORT 1; control_msg id VIRTIO_CONSOLE_PORT_OPEN 1;
      PayloadBytes (as_slice (MkVirtioConsoleControl id VIRTIO_CONSOLE_RESIZE 0) ++
                    as_slice (MkVirtioConsoleResize 24 80))]
   else [control_msg id VIRTIO_CONSOLE_PORT_OPEN 1]) ++
  (if decide (p_name p = ""%string) then []
   else [PayloadBytes (as_slice (MkVirtioConsoleControl id VIRTIO_CONSOLE_PORT_NAME 1) ++
                       string_bytes (p_name p))]).

(** A driver that reports a port as ready is told, in this order, that it is a
    console, that it is open, and the size of the terminal, or only that it is open when
    it is not a console, and then its name if it has one. But when the device has no
    port of that number, the main worker panics: nothing checks the number the driver
    has sent. *)
Theorem port_ready_announces (ports : list (Port K In Out)) cmd (s : CE) :
  vcc_event cmd = VIRTIO_CONSOLE_PORT_READY → vcc_value cmd = 1 →
  match ports !! Z.to_nat (vcc_id cmd) with
  | Some p => ∃ s', handle_command ports cmd s = (Ret tt, s') ∧
      messages s' = messages s ++ port_messages (vcc_id cmd) p
  | None => handle_command ports cmd s = (Panic, s)
  end.
Proof.
  intros Hev Hval. unfold handle_command. rewrite Hev, Hval.
  change (bool_decide (VIRTIO_CONSOLE_PORT_READY = VIRTIO_CONSOLE_DEVICE_READY)) with false.
  rewrite !bool_decide_eq_true_2, bool_decide_eq_false_2 by naive_solver. cbv iota.
  unfold port_ready, port_of. destruct (ports !! Z.to_nat (vcc_id cmd)) as [p|] eqn:Hp; [|done].
  erewrite bind_Ret by done. unfold port_messages.
  unfold mark_console_port, port_open, console_resize, port_name, push_msg, push_vec.
  assert (∀ s1 : CE, ∃ s', (let! port := unwrap_opt (Some p) in
      if bool_decide (p_name port ≠ ""%string)
      then push_payload (E:=errno) (PayloadBytes (as_slice
        (MkVirtioConsoleControl (vcc_id cmd) VIRTIO_CONSOLE_PORT_NAME 1) ++ string_bytes (p_name port)))
      else ret tt) s1 = (Ret tt, s') ∧
    messages s' = messages s1 ++ (if decide (p_name p = ""%string) then []
      else [PayloadBytes (as_slice (MkVirtioConsoleControl (vcc_id cmd) VIRTIO_CONSOLE_PORT_NAME 1) ++
                          string_bytes (p_name p))])) as Hname.
  { intros s1. erewrite bind_Ret by done. case_bool_decide as Hn; case_decide; try done.
    - eexists. split; [apply push_payload_pushed|]. apply messages_pushed.
    - exists s1. by rewrite app_nil_r. }
  destruct (p_represents_console p); cbn [get_win_size].
  - set (p1 := PayloadConsoleControl _). set (p2 := PayloadConsoleControl _). set (p3 := PayloadBytes _).
    destruct (Hname (pushed p3 (pushed p2 (pushed p1 s)))) as (s' & Hrun & Hm). exists s'.
    rewrite !bind_assoc, push_payload_bind, bind_assoc, push_payload_bind, push_payload_bind.
    split; [exact Hrun|]. rewrite Hm, !messages_pushed, <-!app_assoc. done.
  - set (p1 := PayloadConsoleControl _).
    destruct (Hname (pushed p1 s)) as (s' & Hrun & Hm). exists s'.
    rewrite push_payload_bind. split; [exact Hrun|]. rewrite Hm, messages_pushed, <-app_assoc. done.
Qed.
End control_queues.

(** ** The thread never ends *)

Section never_returns.
Context {K S Q Mem Chain R Wr In Out : Type} `{QueueProc Q Mem Chain} `{ChainDescs Mem Chain}
  `{GuestAccess Mem} `{PortInput S Mem In} `{PortOutput S Mem Out} `{ReaderOps R} `{WriterOps Wr}
  `{ChainStreams Mem Chain R Wr} `{EpollOps S} `{EventSetBits} `{EventFdOps S} `{EventFdMake S}.
Context (dq_of : K → DeviceQueue S Q) (arc_of : Z → EpollArc).

(** [Quit] only leaves the loop over the events of one wait. *)
Lemma main_worker_never_returns fuel (w : MainWorker K In Out) (s : ConsoleEnv S Mem) :
  (main_worker_run (R:=R) (Wr:=Wr) dq_of arc_of fuel w s).1 ≠ Ret tt.
Proof.
  assert (∀ {St A} (m : M St errno A) s0 v, (m s0).1 = Ret v → ∃ s', m s0 = (Ret v, s')) as Hfst.
  { intros St A m s0 v Hv. exists (m s0).2. by destruct (m s0); simpl in *; subst. }
  intros [s' Hr]%Hfst. unfold main_worker_run in Hr.
  repeat (apply bind_inv_Ret in Hr as (? & ? & _ & Hr)).
  match type of Hr with loop _ ?body ?s0 = _ =>
    apply (loop_never_returns fuel body s0 tt); [|by rewrite Hr] end.
  clear -Hfst. intros s v [s' Hr]%Hfst. unfold run_turn in Hr.
  apply bind_inv_Ret in Hr as (? & ? & _ & Hr). by apply bind_inv_Ret in Hr as (? & ? & _ & [=]).
Qed.
End never_returns.
