(* ===== verification/ConsoleDevice.v ===== *)
(** * The console as a device: [device/virtio-console/src/device.rs] and its vhost-user
    backend, [device/vhost-console/src/main.rs]

    [Console] answers for the features and the configuration space, and starts and stops
    the thread of the main worker. The thread is kept with what its closure captured; it
    runs when it is joined. Errors of [anyhow] are their messages. *)

From S2P Require Import Prelude EventToken Epoll EventManager VirtQueue VhostBackend Codec.
From S2P Require Import PortQueueMapping ConsoleControl PortIo ConsolePort ConsoleWorker.

Record VirtioConsoleConfig : Type := MkVirtioConsoleConfig {
  vcfg_cols : Z;
  vcfg_rows : Z;
  vcfg_max_nr_ports : Z;
  vcfg_emerg_wr : Z;
}.

#[export] Instance VirtioConsoleConfig_layout : ByteValued VirtioConsoleConfig :=
  layout (le16 ** le16 ** le32 ** le32)
    (λ c, (vcfg_cols c, vcfg_rows c, vcfg_max_nr_ports c, vcfg_emerg_wr c))
    (λ '(cols, rows, max_nr_ports, emerg_wr), MkVirtioConsoleConfig cols rows max_nr_ports emerg_wr).

Definition console_config_new (cols rows max_nr_ports : Z) : VirtioConsoleConfig :=
  MkVirtioConsoleConfig cols rows max_nr_ports 0.

Definition VIRTIO_CONSOLE_F_SIZE : Z := 0.
Definition VIRTIO_CONSOLE_F_MULTIPORT : Z := 1.
Definition VIRTIO_F_VERSION_1 : Z := 32.
Definition VIRTIO_ID_CONSOLE : Z := 3.

Definition AVAIL_FEATURES : Z :=
  Z.lor (Z.lor (Z.shiftl 1 VIRTIO_CONSOLE_F_SIZE) (Z.shiftl 1 VIRTIO_CONSOLE_F_MULTIPORT))
    (Z.shiftl 1 VIRTIO_F_VERSION_1).

Definition QUEUE_SIZE : Z := 256.

(** The closure that runs the main worker *)
Record ConsoleThread (K Mem In Out : Type) : Type := MkConsoleThread {
  ct_worker : MainWorker K In Out;
  ct_mem : Mem;
  ct_control : ConsoleControl;
}.
Arguments MkConsoleThread {K Mem In Out}.
Arguments ct_worker {K Mem In Out}.
Arguments ct_mem {K Mem In Out}.
Arguments ct_control {K Mem In Out}.

Record Console (K Mem In Out : Type) : Type := MkConsole {
  c_ports : list (Port K In Out);
  c_queues : list QueueArgs;
  c_worker_thread : option (ConsoleThread K Mem In Out);
  c_stopfd : Z;
  c_avail_features : Z;
  c_acked_features : Z;
  c_config : VirtioConsoleConfig;
}.
Arguments MkConsole {K Mem In Out}.
Arguments c_ports {K Mem In Out}.
Arguments c_queues {K Mem In Out}.
Arguments c_worker_thread {K Mem In Out}.
Arguments c_stopfd {K Mem In Out}.
Arguments c_avail_features {K Mem In Out}.
Arguments c_acked_features {K Mem In Out}.
Arguments c_config {K Mem In Out}.

Section console.
Context {K S Q Mem Chain R Wr In Out : Type} `{QueueProc Q Mem Chain} `{ChainDescs Mem Chain}
  `{GuestAccess Mem} `{PortInput S Mem In} `{PortOutput S Mem Out} `{ReaderOps R} `{WriterOps Wr}
  `{ChainStreams Mem Chain R Wr} `{EpollOps S} `{EventSetBits} `{EventFdOps S} `{EventFdMake S}.
Context (dq_of : K → DeviceQueue S Q) (arc_of : Z → EpollArc).

Local Notation C := (Console K Mem In Out).

(** The device and the world that it shares with the rest of the process. *)
Local Notation CS := (C * S)%type.

Definition is_console_description (d : PortDescription In Out) : bool :=
  match d with ConsolePort.Console _ _ => true | _ => false end.

(** [zip(0u32.., ports).map(..).collect()] *)
Fixpoint new_ports (port_id : Z) (ports : list (PortDescription In Out)) :
    outcome errno (list (Port K In Out)) :=
  match ports with
  | [] => Ret []
  | description :: ports =>
      outcome_bind (port_new port_id description) (λ port,
        outcome_map (cons port) (new_ports (port_id + 1) ports))
  end.

Definition console_new (ports : list (PortDescription In Out)) : M S errno C :=
  do! assert (negb (bool_decide (ports = []))) in
  let! first := unwrap_opt (head ports) in
  do! assert (is_console_description first) in
  let num_queues := num_queues (length ports) in
  let queues := replicate num_queues (MkQueueArgs QUEUE_SIZE) in
  let! ports := lift (new_ports 0 ports) in
  let config := console_config_new 80 24 (wrap 32 (Z.of_nat (length ports))) in
  let! stopfd := unwrap efd_new in
  ret (MkConsole ports queues None stopfd AVAIL_FEATURES 0 config).

Definition set_c_ports (v : list (Port K In Out)) (c : C) : C :=
  MkConsole v (c_queues c) (c_worker_thread c) (c_stopfd c) (c_avail_features c)
    (c_acked_features c) (c_config c).
Definition set_c_worker_thread (v : option (ConsoleThread K Mem In Out)) (c : C) : C :=
  MkConsole (c_ports c) (c_queues c) v (c_stopfd c) (c_avail_features c) (c_acked_features c)
    (c_config c).
Definition set_c_acked_features (v : Z) (c : C) : C :=
  MkConsole (c_ports c) (c_queues c) (c_worker_thread c) (c_stopfd c) (c_avail_features c) v
    (c_config c).

Definition on_c {E} (f : C → C) : M CS E unit := modify (λ s, (f s.1, s.2)).
Definition on_c_world {E A} (m : M S E A) : M CS E A := zoom snd (λ w s, (s.1, w)) m.

Definition console_set_acked_features {E} (acked_features : Z) : M CS E unit :=
  on_c (set_c_acked_features (Z.land AVAIL_FEATURES acked_features)).

(** The contents of [data] after the call *)
Definition console_read_config (offset : Z) (data : bytes) (s : CS) : outcome string bytes :=
  let config_slice := as_slice (c_config s.1) in
  let config_len := Z.of_nat (length config_slice) in
  if bool_decide (config_len ≤ offset) then Fail "Invalid offset"%string
  else
    match checked_add 64 offset (Z.of_nat (length data)) with
    | Some end_ =>
        let part := take (Z.to_nat (Z.min end_ config_len - offset)) (drop (Z.to_nat offset) config_slice) in
        Ret (part ++ drop (length part) data)
    | None => Ret data
    end.

Definition console_write_config (offset : Z) (data : bytes) : M CS string unit :=
  fail "Config write unsupported"%string.

(** [MainWorker::new], on the world of the device, and the thread that runs it *)
Definition spawn_worker (fuel : nat) (mem : Mem) (queues : gmap nat K) (ports : list (Port K In Out))
    (stopfd : Z) : M S errno (ConsoleThread K Mem In Out) :=
  λ w,
    let '(o, s) := main_worker_new dq_of arc_of fuel queues ports stopfd
      (MkConsoleEnv w mem (MkConsoleControl [] 0)) in
    (outcome_map (λ worker, MkConsoleThread worker (ce_mem s) (ce_control s)) o, ce_world s).

Definition console_activate (fuel : nat) (mem : Mem) (queues : gmap nat K) : M CS string unit :=
  let! ports := gets (λ s, c_ports s.1) in
  do! assert (negb (bool_decide (length ports = 0%nat))) in
  do! on_c (set_c_ports []) in
  let! stopfd := gets (λ s, c_stopfd s.1) in
  let! stopfd := map_err (λ _, "Clone stop event"%string) (on_c_world (efd_try_clone stopfd)) in
  let! thread := unwrap (on_c_world (spawn_worker fuel mem queues ports stopfd)) in
  on_c (set_c_worker_thread (Some thread)).

(** [worker_thread.join().unwrap()] *)
Definition join_console_thread (fuel : nat) (t : ConsoleThread K Mem In Out) : M S string unit :=
  λ w,
    let '(o, s) := main_worker_run (R:=R) (Wr:=Wr) dq_of arc_of fuel (ct_worker t)
      (MkConsoleEnv w (ct_mem t) (ct_control t)) in
    (outcome_unwrap o, ce_world s).

Definition console_stop (fuel : nat) : M CS string unit :=
  let! stopfd := gets (λ s, c_stopfd s.1) in
  do! unwrap (on_c_world (efd_write stopfd 1)) in
  let! worker_thread := gets (λ s, c_worker_thread s.1) in
  do! on_c (set_c_worker_thread None) in
  match worker_thread with
  | Some worker_thread => on_c_world (join_console_thread fuel worker_thread)
  | None => ret tt
  end.

Definition console_reset (fuel : nat) : M CS string bool :=
  do! console_stop fuel in
  ret true.

#[export] Instance console_virtio_device (fuel : nat) : VirtioDevice CS Mem K := {|
  vd_device_type _ := Ret VIRTIO_ID_CONSOLE;
  vd_avail_features s := c_avail_features s.1;
  vd_acked_features s := c_acked_features s.1;
  vd_set_acked_features := console_set_acked_features;
  vd_queues s := c_queues s.1;
  vd_read_config := console_read_config;
  vd_write_config := console_write_config;
  vd_activate := console_activate fuel;
  vd_stop := console_stop fuel;
  vd_reset := console_reset fuel;
|}.

(** ** [VhostUserConsole] *)

Context `{VhostUserBits}.
(** [MQ | CONFIG | REPLY_ACK] *)
Context (MQ CONFIG : Z).

Definition console_protocol_features (s : CS) : Z := Z.lor (Z.lor MQ CONFIG) REPLY_ACK.

Definition vhost_user_console {GB : Type} (fuel : nat) : VhostUserDevice CS Mem K GB :=
  implementer_device (H:=console_virtio_device fuel) id (λ d _, d) console_protocol_features
    default_set_gpu_socket.
End console.

(** ** Activation, configuration and stopping *)

Section console_properties.
Context {K S Q Mem Chain R Wr In Out : Type} `{QueueProc Q Mem Chain} `{ChainDescs Mem Chain}
  `{GuestAccess Mem} `{PortInput S Mem In} `{PortOutput S Mem Out} `{ReaderOps R} `{WriterOps Wr}
  `{ChainStreams Mem Chain R Wr} `{EpollOps S} `{EventSetBits} `{EventFdOps S} `{EventFdMake S}.
Context (dq_of : K → DeviceQueue S Q) (arc_of : Z → EpollArc).

Local Notation CS := (Console K Mem In Out * S)%type.
Implicit Types s : CS.

(** The device keeps any set of features that it offers, as its trait asks. *)
Lemma console_stores_acked_features fuel s :
  c_avail_features s.1 = AVAIL_FEATURES →
  stores_acked_features (H:=console_virtio_device (R:=R) (Wr:=Wr) dq_of arc_of fuel) s.
Proof.
  intros Havail f Hf. eexists. split; [reflexivity|]. simpl in *. rewrite Havail in Hf.
  by rewrite Z.land_comm.
Qed.

(** Reading the configuration space: an offset at or behind its end is an
    error; any other read fills the start of the buffer with the configuration from the
    offset on, as far as both go, and leaves the rest of the buffer as it was. *)
Theorem console_read_config_spec offset data s :
  valid (c_config s.1) → in_width 64 offset → in_width 64 (offset + Z.of_nat (length data)) →
  match console_read_config offset data s with
  | Ret bs => offset < 12 ∧ length bs = length data ∧
      ∀ i : nat, (i < length data)%nat →
        bs !! i = if decide (offset + Z.of_nat i < 12)
                  then as_slice (c_config s.1) !! (Z.to_nat offset + i)%nat else data !! i
  | Fail e => 12 ≤ offset ∧ e = "Invalid offset"%string
  | _ => False
  end.
Proof.
  intros Hv Hoff Hend. assert (length (as_slice (c_config s.1)) = 12%nat) as Hlen
    by (by rewrite length_as_slice).
  unfold console_read_config. rewrite Hlen. case_bool_decide as Hlt; [done|].
  unfold checked_add. rewrite bool_decide_eq_true_2 by done. apply in_width_nonneg in Hoff.
  set (n := Z.to_nat (Z.min (offset + Z.of_nat (length data)) (Z.of_nat 12) - offset)).
  set (part := take n (drop (Z.to_nat offset) (as_slice (c_config s.1)))).
  assert (length part = n) as Hpart
    by (unfold part; rewrite length_take, length_drop, Hlen; unfold n; lia).
  rewrite length_app, length_drop, Hpart. split; [lia|]. split; [unfold n; lia|].
  intros i Hi. case_decide.
  - rewrite lookup_app_l by (rewrite Hpart; unfold n; lia). unfold part.
    rewrite lookup_take_lt by (unfold n; lia). by rewrite lookup_drop.
  - rewrite lookup_app_r by (rewrite Hpart; unfold n; lia). rewrite lookup_drop. f_equal.
    rewrite Hpart. unfold n. lia.
Qed.

(** Claim C40. Once the thread of the main worker runs, stopping the device, and
    resetting it, never returns, however long one waits: [Quit] leaves only the loop over
    the events of one wait, so that the thread that is joined never ends. *)
Theorem console_stop_never_returns fuel s thread :
  c_worker_thread s.1 = Some thread →
  (console_stop (R:=R) (Wr:=Wr) dq_of arc_of fuel s).1 ≠ Ret tt ∧
  ∀ b, (console_reset (R:=R) (Wr:=Wr) dq_of arc_of fuel s).1 ≠ Ret b.
Proof.
  intros Hthread.
  assert ((console_stop (R:=R) (Wr:=Wr) dq_of arc_of fuel s).1 ≠ Ret tt) as Hstop.
  { unfold console_stop. erewrite bind_Ret by done. unfold bind at 1, unwrap at 1, on_c_world at 1, zoom at 1.
    destruct (efd_write (c_stopfd s.1) 1 s.2) as [[[]|e| |] w]; cbn [outcome_unwrap]; [|done..].
    erewrite bind_Ret by done. erewrite bind_Ret by done. cbn [fst]. rewrite Hthread.
    unfold on_c_world, zoom, join_console_thread. cbn [fst snd].
    pose proof (main_worker_never_returns (R:=R) (Wr:=Wr) dq_of arc_of fuel (ct_worker thread)
      (MkConsoleEnv w (ct_mem thread) (ct_control thread))) as Hnever.
    destruct (main_worker_run _ _ _ _ _) as [[[]|e| |] s']; done. }
  split; [done|]. intros b. unfold console_reset, bind.
  destruct (console_stop _ _ _ s) as [[[]|e| |] s']; done.
Qed.

(** there are file descriptors left *)
Context (efd_try_clone_ok : ∀ fd (w : S), ∃ fd' w', efd_try_clone fd w = (Ret fd', w')).
Context (efd_new_ok : ∀ w : S, ∃ fd w', efd_new w = (Ret fd, w')).

(** Every console among the ports has an input and an output. *)
Definition complete (d : PortDescription In Out) : Prop :=
  match d with
  | ConsolePort.Console input output => is_Some input ∧ is_Some output
  | _ => True
  end.

Lemma new_ports_ok id (ds : list (PortDescription In Out)) :
  Forall complete ds →
  ∃ ports, new_ports (K:=K) id ds = Ret ports ∧ length ports = length ds ∧
    Forall (λ p, p_state p = Inactive) ports.
Proof.
  intros Hds. revert id. induction Hds as [|d ds Hd _ IH]; intros id; simpl; [by exists []|].
  destruct (IH (id + 1)) as (ports & -> & Hlen & Hall).
  assert (∃ p, port_new (K:=K) id d = Ret p ∧ p_state p = Inactive) as (p & -> & Hp).
  { destruct d as [[i|] [o|]| |]; simpl in *; try (by eexists); destruct Hd as [Hi Ho];
      (by destruct Hi) || by destruct Ho. }
  exists (p :: ports). simpl. split; [done|]. split; [congruence|by constructor].
Qed.

Lemma console_activate_again fuel mem queues s :
  c_ports s.1 = [] → (console_activate dq_of arc_of fuel mem queues s).1 = Panic.
Proof. intros Hno. unfold console_activate. erewrite bind_Ret by done. by rewrite Hno. Qed.

(** A new console whose first port is a console, and whose consoles have an
    input and an output, asks for a queue in each direction for every port and for the
    two control queues, of 256 entries; activated with exactly the queues it asked for it
    has its main worker's thread, whose ports are all started. But it can be activated
    only once: the ports have moved to the worker, and every further activation fails an
    assertion. *)
Theorem console_activates_once fuel mem (ds : list (PortDescription In Out)) w d ds' queues :
  ds = d :: ds' → is_console_description d = true → Forall complete ds →
  (∀ k, is_Some (queues !! k) ↔ (k < 2 + 2 * length ds)%nat) →
  ∃ c w1, console_new ds w = (Ret c, w1) ∧
    c_queues c = replicate (2 + 2 * length ds) (MkQueueArgs 256) ∧
    ∃ c' w2 thread, console_activate dq_of arc_of fuel mem queues (c, w1) = (Ret tt, (c', w2)) ∧
      c_worker_thread c' = Some thread ∧ mw_port_queues (ct_worker thread) = ∅ ∧
      ∀ fuel' mem' queues' w3,
        (console_activate dq_of arc_of fuel' mem' queues' (c', w3)).1 = Panic.
Proof.
  intros -> Hd Hall Hdom. destruct (new_ports_ok 0 (d :: ds') Hall) as (ports & Hports & Hlen & Hin).
  destruct (efd_new_ok w) as (stopfd & w1 & Hnew).
  eexists _, w1. split.
  { unfold console_new. erewrite bind_Ret by (by rewrite bool_decide_eq_false_2 by done).
    erewrite bind_Ret by done. rewrite Hd. erewrite bind_Ret by done. rewrite Hports.
    erewrite bind_Ret by done. erewrite bind_Ret by (unfold unwrap; by rewrite Hnew). reflexivity. }
  split; [done|]. unfold console_activate at 1. erewrite bind_Ret by done. cbn [fst c_ports].
  erewrite bind_Ret by (rewrite bool_decide_eq_false_2; [done|by rewrite Hlen]).
  erewrite bind_Ret by done. erewrite bind_Ret by done. cbn [fst snd c_stopfd set_c_ports].
  destruct (efd_try_clone_ok stopfd w1) as (fd & w2 & Hclone).
  erewrite bind_Ret; [|unfold map_err, on_c_world, zoom; simpl; by rewrite Hclone].
  destruct (main_worker_new_run dq_of arc_of efd_try_clone_ok efd_new_ok fuel queues ports fd
    (MkConsoleEnv w2 mem (MkConsoleControl [] 0)) (length ds')) as (worker & s' & Hrun & _ & _ & Hq & _);
    [by rewrite Hlen|done|by rewrite Hlen|].
  erewrite bind_Ret; [|unfold unwrap, on_c_world, zoom, spawn_worker; simpl; by rewrite Hrun].
  eexists _, _, _. split; [reflexivity|]. split; [done|]. split; [exact Hq|].
  intros fuel' mem' queues' w3. by apply console_activate_again.
Qed.
End console_properties.
