(* ===== verification/ConsoleProgram.v ===== *)
(** * The console program: [device/vhost-console/src/main.rs]

    [main] puts the terminal into raw mode, makes a console whose one port is the
    standard input and output, and has a daemon serve it at a fixed path. Every error is
    unwrapped. Settings of a terminal are what the [nix] crate reads and writes. *)

From S2P Require Import Prelude EventToken Epoll EventManager VirtQueue Vring VhostBackend Bitmap.
From S2P Require Import VhostHandler VhostDaemon PortQueueMapping ConsoleControl PortIo ProcessRx ProcessTx.
From S2P Require Import ConsolePort ConsoleWorker ConsoleDevice.

(** The settings of a terminal: its local flags, and the rest *)
Record Termios (T : Type) : Type := MkTermios { local_flags : Z; other_settings : T }.
Arguments MkTermios {T}.
Arguments local_flags {T}.
Arguments other_settings {T}.

Class TermiosOps (S T : Type) : Type := {
  ECHO : Z;
  ICANON : Z;
  all_local_flags : Z; (* every flag that [LocalFlags] names *)
  tcgetattr : Z → M S errno (Termios T);
  tcsetattr : Z → Termios T → M S errno unit; (* with [TCSANOW] *)
}.

(** [!] of a set of flags: the named flags that are not in it *)
Definition flags_not {S T : Type} `{TermiosOps S T} (flags : Z) : Z := Z.ldiff all_local_flags flags.

Definition set_raw_mode {S T : Type} `{TermiosOps S T} (term : Z) : M S errno unit :=
  let! termios := tcgetattr term in
  let termios :=
    MkTermios (Z.land (local_flags termios) (flags_not (Z.lor ECHO ICANON))) (other_settings termios) in
  tcsetattr term termios.

Definition SOCKET_PATH : string := "/tmp/console".

Section console_program.
Context {S T Q Mem Chain R Wr W GB Conn Listener : Type} `{QueueProc Q Mem Chain} `{!QueueConfig Q Mem}
  `{ChainDescs Mem Chain} `{GuestAccess Mem} `{FdOps S} `{FdConsts} `{ReaderOps R} `{WriterOps Wr}
  `{ChainStreams Mem Chain R Wr} `{EpollOps S} `{EventSetBits} `{EventFdOps S} `{EventFdMake S}
  `{VhostUserBits} `{!TermiosOps S T}.
Context (dq_of : Vring Q → DeviceQueue S Q) (arc_of : Z → EpollArc).
Context (MQ CONFIG : Z).

Local Notation D := (ConsoleDevice.Console (Vring Q) Mem PortInputFd PortOutputFd * S)%type.
Local Notation HD := (VhostUserHandler D Mem Q W ()).
Context `{VhostSockets HD Conn Listener}.

(** [VhostUserConsole] *)
Definition console_backend_device (fuel : nat) : VhostUserDevice D Mem (Vring Q) GB :=
  vhost_user_console (R:=R) (Wr:=Wr) dq_of arc_of MQ CONFIG fuel.

(** The part of [main] that the world of the device takes part in *)
Definition make_console : M S errno (ConsoleDevice.Console (Vring Q) Mem PortInputFd PortOutputFd) :=
  do! unwrap (set_raw_mode STDIN_FILENO) in
  let! input := unwrap PortIo.stdin in
  let! output := unwrap PortIo.stdout in
  unwrap (console_new [ConsolePort.Console (Some input) (Some output)]).

(** What [main] has made of the daemon when it returns, and its world up to the daemon *)
Definition main (fuel : nat) (mem : GuestMem Mem ()) (env : Env W) (w : S) :
    outcome VhostDaemon.Error unit * S :=
  let '(console, w) := make_console w in
  (outcome_bind (outcome_unwrap console) (λ console,
    let vhost_console := (console, w) in
    let handler := handler_new (H4:=console_backend_device fuel) vhost_console mem env in
    outcome_bind (outcome_unwrap (daemon_new "vhost-user-console" handler)) (λ backend,
      outcome_unwrap (serve fuel SOCKET_PATH backend).1)), w).

(** ** What the program does *)

(** Raw mode: neither [ECHO] nor [ICANON], and no other flag that is named has changed. *)
Lemma set_raw_mode_flags term t w w1 :
  tcgetattr term w = (Ret t, w1) →
  ∃ t', set_raw_mode term w = tcsetattr term t' w1 ∧ other_settings t' = other_settings t ∧
    ∀ i, Z.testbit (local_flags t') i =
      Z.testbit (local_flags t) i && Z.testbit all_local_flags i &&
      negb (Z.testbit ECHO i || Z.testbit ICANON i).
Proof.
  intros Hget. unfold set_raw_mode. erewrite bind_Ret by done. eexists. split; [reflexivity|].
  split; [done|]. intros i. simpl. unfold flags_not.
  by rewrite Z.land_spec, Z.ldiff_spec, Z.lor_spec, andb_assoc.
Qed.

(** The console has one port, the terminal, and the four queues that it needs. *)
Lemma make_console_run w w1 input w2 output w3 fd w4 :
  set_raw_mode STDIN_FILENO w = (Ret tt, w1) → PortIo.stdin w1 = (Ret input, w2) →
  PortIo.stdout w2 = (Ret output, w3) → efd_new w3 = (Ret fd, w4) →
  ∃ port, port_new 0 (ConsolePort.Console (Some input) (Some output)) = Ret (E:=errno) port ∧
    make_console w = (Ret (MkConsole [port] (replicate 4 (MkQueueArgs 256)) None fd AVAIL_FEATURES 0
      (console_config_new 80 24 1)), w4).
Proof.
  intros Hraw Hin Hout Hefd. unfold make_console.
  eexists. split; [reflexivity|].
  erewrite bind_Ret by (unfold unwrap; by rewrite Hraw).
  erewrite bind_Ret by (unfold unwrap; by rewrite Hin).
  erewrite bind_Ret by (unfold unwrap; by rewrite Hout).
  unfold console_new, bind, unwrap. simpl. by rewrite Hefd.
Qed.

(** A program that could make its console and its daemon returns when the front-end
    hangs up; every other end of the conversation is a panic of the main thread. *)
Lemma console_main_ends mem env w console w1 h0 l0 l h1 h2 k c h3 h4 n o h5 fuel :
  make_console w = (Ret console, w1) →
  handler_new (H4:=console_backend_device fuel) (console, w1) mem env = Ret h0 →
  listener_new SOCKET_PATH h0 = (Ret l0, h1) → backend_listener_new l0 h1 = (Ret l, h2) →
  accepts l k c h2 h3 → thread_spawn "vhost-user-console" h3 = (Ret tt, h4) →
  conversation c n o h4 h5 → (k < fuel)%nat → (n < fuel)%nat →
  main fuel mem env w = (outcome_unwrap (serve_result o), w1).
Proof.
  intros Hmake Hnew Hl Hbl Hacc Hspawn Hconv Hk Hn. unfold main. rewrite Hmake. simpl.
  rewrite Hnew. simpl.
  by rewrite (serve_run _ (MkVhostUserDaemon "vhost-user-console" h0 None) _ _ _ _ _ _ _ _ _ _ _ _
    Hl Hbl Hacc Hspawn Hconv Hk Hn).
Qed.
End console_program.
