(* ===== verification/ConsoleSim.v ===== *)
(** * A console on a concrete machine

    Instances of the interfaces of the console: guest memory in two regions, with bytes
    and dirty marks, queues of chains of descriptors, and a world with scripted inputs,
    recorded outputs and the reference epoll. They satisfy the laws, and the module
    [ConsoleExamples] runs the console's threads on them. *)

From S2P Require Import Prelude EventToken Epoll EventManager VirtQueue Bitmap Vring Codec.
From S2P Require Import PortQueueMapping ConsoleControl PortIo GuestRegions LoggedMemory.
From S2P Require Import ProcessRx RxStream ProcessTx TxStream.
From S2P Require Import ConsolePort ConsoleWorker ConsoleDevice.

Module ConsoleSim.
Import Epoll.Sim SimQueue VringExamples.

(** ** Guest memory: the regions [0, 4096) and [4096, 8192) *)

Record mem : Type := Mem {
  m_byte : Z → Z; m_dirty : Z → bool; m_used : list (Z * Z); m_written : list bytes;
}.

Definition mapped (a : Z) : bool := bool_decide (0 ≤ a < 8192).
Definition region_end (a : Z) : Z := if bool_decide (a < 4096) then 4096 else 8192.

Definition fill_bytes (v : VolatileSlice) (bs : bytes) (m : mem) : mem :=
  Mem (λ a, if bool_decide (vs_addr v ≤ a < vs_addr v + Z.of_nat (length bs))
            then default 0 (bs !! Z.to_nat (a - vs_addr v)) else m_byte m a)
    (m_dirty m) (m_used m) (m_written m).

Definition mark (v : VolatileSlice) (off len : Z) (m : mem) : mem :=
  Mem (m_byte m) (λ a, m_dirty m a || bool_decide (vs_addr v + off ≤ a < vs_addr v + off + len))
    (m_used m) (m_written m).

Definition room (a : Z) : option Z := if mapped a then Some (region_end a - a) else None.
Definition in_region (v : VolatileSlice) : Prop := ∃ cap, room (vs_addr v) = Some cap ∧ vs_len v ≤ cap.

Lemma room_pos a cap : room a = Some cap → 0 < cap.
Proof.
  unfold room, mapped, region_end. repeat case_bool_decide; intros; simplify_eq; lia.
Qed.

Lemma room_unmapped a : room a = None → mapped a = false.
Proof. unfold room. by destruct (mapped a). Qed.

Lemma room_slice a cap len : room a = Some cap → 0 ≤ len ≤ cap → in_region (MkSlice a len).
Proof. intros Hr Hl. exists cap. split; [done|simpl; lia]. Qed.

#[export] Instance access : GuestAccess mem := {|
  mem_byte := m_byte;
  mem_mapped _ := mapped;
  mem_dirty := m_dirty;
  mem_fill := fill_bytes;
  mem_mark_dirty := mark;
  mem_slice _ := in_region;
  mem_try_access St _ := range_access room;
|}.

#[export] Instance access_laws : GuestAccessLaws mem.
Proof.
  split; try done.
  - intros v off len m a _ _ _ Ha. apply orb_true_iff. right. by apply bool_decide_eq_true.
  - intros v off len m a _ _ _ _ Ha. apply orb_true_iff. by left.
  - intros St m count addr f s Hc Hf.
    apply range_access_accessed; [exact room_unmapped|exact room_pos|exact room_slice|done..].
Qed.

(** ** Queues *)

Record chain : Type := Chain { c_head : Z; c_readable : list Descriptor; c_writable : list Descriptor }.

Record queue : Type := Queue { q_size : Z; q_chains : list chain; q_popped : list chain }.

(** Lengths are 32 bits wide. *)
Definition desc32 (d : Descriptor) : Descriptor := MkDescriptor (desc_addr d) (wrap 32 (desc_len d)).

#[export] Instance descs : ChainDescs mem chain := {|
  chain_readable_descs _ c := desc32 <$> c_readable c;
  chain_writable_descs _ c := desc32 <$> c_writable c;
|}.

#[export] Instance descs_laws : ChainDescsLaws mem chain.
Proof.
  split; intros m c; apply Forall_fmap, Forall_true; intros d; simpl; by apply in_width_wrap.
Qed.

#[export] Instance proc : QueueProc queue mem chain := {|
  q_pop_descriptor_chain _ q :=
    match q_chains q with
    | [] => (None, q)
    | c :: cs => (Some c, Queue (q_size q) cs (c :: q_popped q))
    end;
  q_go_to_previous_position q :=
    match q_popped q with
    | [] => q
    | c :: cs => Queue (q_size q) (c :: q_chains q) cs
    end;
  q_add_used head len := λ '(q, m),
    if bool_decide (0 ≤ head < q_size q)
    then (Ret tt, (q, Mem (m_byte m) (m_dirty m) (m_used m ++ [(head, len)]) (m_written m)))
    else (Fail (VqError 4), (q, m));
  q_disable_notification := ret tt;
  q_enable_notification := gets (λ s, negb (bool_decide (length (q_chains s.1) = 0%nat)));
  chain_head_index := c_head;
  q_avail q _ := q_chains q;
  q_used _ m := m_used m;
|}.

#[export] Instance proc_laws : QueueProcLaws queue mem chain.
Proof.
  split; simpl.
  - intros m q c q'. destruct q as [n [|c' cs] po]; simpl; intros; by simplify_eq.
  - intros m q q'. destruct q as [n [|c' cs] po]; simpl; intros; by simplify_eq.
  - intros head len q m q' m'. case_bool_decide; intros; by simplify_eq.
  - intros head len q m e q' m'. case_bool_decide; intros; by simplify_eq.
  - intros head len [q m]. simpl. case_bool_decide; eauto.
  - intros q m q' m' o [=]; by subst.
  - intros q m q' m' o [=]; by subst.
Qed.

#[export] Instance access_descs : GuestAccessDescs mem chain.
Proof. by split. Qed.

#[export] Instance access_queue : GuestAccessQueue queue mem chain.
Proof. by split. Qed.

(** The used ring is kept beside the bytes. *)
#[export] Instance used_ring : UsedRing queue := λ _ _, False.

#[export] Instance used_ring_laws : UsedRingLaws queue mem chain.
Proof.
  split; simpl; try done; intros *; case_bool_decide; intros; by simplify_eq.
Qed.

#[export] Instance streams : ChainStreams mem chain SimQueue.reader SimQueue.writer := {|
  chain_reader m c :=
    Ret (SimQueue.mk_reader (concat ((λ d, mem_bytes m (desc_addr d) (desc_len d)) <$> c_readable c)));
  chain_writer _ c := Ret (SimQueue.Writer (Z.to_nat (foldr Z.add 0 (desc_len <$> c_writable c))) []);
  chain_commit w m := Mem (m_byte m) (m_dirty m) (m_used m) (m_written m ++ [SimQueue.wr_written w]);
|}.

#[export] Instance streams_laws : ChainStreamsLaws queue mem chain SimQueue.reader SimQueue.writer.
Proof. split; [by eauto..|done]. Qed.

(** ** The world *)

(** What each descriptor will deliver, read by read (an empty read is the end of the
    input), what it has delivered, what was written to it, and the queues. *)
Record world : Type := World {
  w_epoll : Epoll.Sim.world;
  w_script : Z → list bytes;
  w_received : Z → bytes;
  w_sent : Z → bytes;
  w_queues : Z → option queue;
  w_next_fd : Z;
}.

Definition upd {A} (k : Z) (v : A) (f : Z → A) : Z → A := λ k', if bool_decide (k' = k) then v else f k'.

Lemma upd_eq {A} k (v : A) f : upd k v f k = v.
Proof. unfold upd. by rewrite bool_decide_eq_true_2. Qed.

Lemma upd_ne {A} k k' (v : A) f : k' ≠ k → upd k v f k' = f k'.
Proof. intros Hne. unfold upd. by rewrite bool_decide_eq_false_2. Qed.

Definition on_epoll {E A} : M Epoll.Sim.world E A → M world E A :=
  zoom w_epoll (λ ep w, World ep (w_script w) (w_received w) (w_sent w) (w_queues w) (w_next_fd w)).

#[export] Instance epoll_ops : EpollOps world := {|
  epoll_create := on_epoll epoll_create;
  epoll_ctl ep op fd ev := on_epoll (epoll_ctl ep op fd ev);
  epoll_wait ep timeout slots := on_epoll (epoll_wait ep timeout slots);
  watched w := watched (w_epoll w);
|}.

Lemma on_epoll_run {E A} (m : M Epoll.Sim.world E A) w o w' :
  on_epoll m w = (o, w') → m (w_epoll w) = (o, w_epoll w').
Proof. unfold on_epoll, zoom. destruct (m (w_epoll w)). by intros [= <- <-]. Qed.

#[export] Instance epoll_laws : EpollLaws world.
Proof.
  split; simpl.
  - intros ep fd ev w w' Hr%on_epoll_run. exact (ctl_add_ok _ _ _ _ _ Hr).
  - intros ep fd ev w w' Hr%on_epoll_run. exact (ctl_modify_ok _ _ _ _ _ Hr).
  - intros ep fd ev w w' Hr%on_epoll_run. exact (ctl_delete_ok _ _ _ _ _ Hr).
  - intros ep op fd ev w e w' Hr%on_epoll_run. exact (ctl_fail _ _ _ _ _ _ _ Hr).
  - intros ep op fd ev w. unfold on_epoll, zoom.
    destruct (ctl_result ep op fd ev (w_epoll w)) as [(w' & Hr)|(e & w' & Hr)]; simpl in Hr; rewrite Hr; eauto.
  - intros ep timeout slots w evs w' Hr%on_epoll_run. exact (wait_ok _ _ _ _ _ _ Hr).
  - intros ep timeout slots w. pose proof (wait_watched ep timeout slots (w_epoll w)) as Hw.
    unfold on_epoll, zoom. simpl in Hw. by destruct (wait ep timeout slots _).
  - intros ep timeout slots w. unfold on_epoll, zoom.
    destruct (wait_result ep timeout slots (w_epoll w)) as [(evs & w' & Hr)|(e & w' & Hr)]; simpl in Hr; rewrite Hr; eauto.
  - intros w ep w' Hr%on_epoll_run. exact (create_ok _ _ _ Hr).
Qed.

#[export] Instance efd_ops : EventFdOps world := {|
  efd_read fd := on_epoll (efd_read fd);
  efd_write fd n := on_epoll (efd_write fd n);
|}.

#[export] Instance efd_laws : EventFdLaws world.
Proof.
  split.
  - intros fd w. pose proof (efd_read_watched fd (w_epoll w)) as Hw.
    cbn [efd_read efd_ops]. unfold on_epoll, zoom.
    destruct (efd_read fd (w_epoll w)) as [o ep]. exact Hw.
  - intros fd n w. exact (efd_write_watched fd n (w_epoll w)).
  - intros fd w. cbn [efd_read efd_ops]. unfold on_epoll, zoom.
    destruct (efd_read_result fd (w_epoll w)) as [(n & w' & ->)|(e & w' & ->)]; eauto.
  - intros fd n w. simpl. unfold on_epoll, zoom. eauto.
Qed.

#[export] Instance efd_make : EventFdMake world := {|
  efd_new := λ w, (Ret (w_next_fd w), World (w_epoll w) (w_script w) (w_received w) (w_sent w)
    (w_queues w) (w_next_fd w + 1));
  efd_try_clone _ := λ w, (Ret (w_next_fd w), World (w_epoll w) (w_script w) (w_received w) (w_sent w)
    (w_queues w) (w_next_fd w + 1));
|}.

(** A descriptor on which every read fails with an I/O error, with a part of the buffer filled *)
Definition FAULTY_FD : Z := 9.
Definition EIO : errno := EOTHER 5.

(** A read takes what fits of the next delivery and leaves the rest. *)
Definition read_fd (fd len : Z) (w : world) : bytes * option errno * world :=
  if bool_decide (fd = FAULTY_FD) then (take (Z.to_nat len) [1; 2; 3], Some EIO, w) else
  match w_script w fd with
  | [] => ([], Some EAGAIN, w)
  | bs :: rest =>
      let data := take (Z.to_nat len) bs in
      let rest := if bool_decide (bs = []) then bs :: rest
                  else match drop (Z.to_nat len) bs with [] => rest | bs => bs :: rest end in
      (data, None, World (w_epoll w) (upd fd rest (w_script w))
        (upd fd (w_received w fd ++ data) (w_received w)) (w_sent w) (w_queues w) (w_next_fd w))
  end.

#[export] Instance fd_ops : FdOps world := {|
  sys_read := read_fd;
  sys_write_volatile fd bs := λ w,
    (Ret (Z.of_nat (length bs)), World (w_epoll w) (w_script w) (w_received w)
      (upd fd (w_sent w fd ++ bs) (w_sent w)) (w_queues w) (w_next_fd w));
  sys_poll_out _ := ret tt;
  sys_dup fd := ret (fd + 100);
  sys_getfl _ := ret 2;
  sys_setfl _ _ := ret tt;
  sys_close _ w := w;
|}.

#[export] Instance consts : FdConsts := {| O_NONBLOCK := 2048; EKIND_OTHER := 39 |}.

#[export] Instance port_streams : PortStreams world PortInputFd PortOutputFd := {|
  pi_received i w := w_received w (pif_fd i);
  po_sent o w := w_sent w (pof_fd o);
|}.

#[export] Instance read_laws : FdReadLaws world PortOutputFd.
Proof.
  split; simpl; unfold read_fd.
  - intros fd n w data err w' Hn. case_bool_decide; [|destruct (w_script w fd)];
      intros ?; simplify_eq; rewrite ?length_take; simpl; lia.
  - intros i n w data w'. case_bool_decide; [done|]. destruct (w_script w (pif_fd i)) as [|bs rest]; [done|].
    intros ?; simplify_eq. simpl. by rewrite upd_eq.
  - intros i n w data e w'. case_bool_decide; [by intros ?; simplify_eq|].
    destruct (w_script w (pif_fd i)); intros ?; by simplify_eq.
Qed.

#[export] Instance output_laws {Mem} `{GuestAccess Mem} : PortOutputLaws world Mem PortInputFd PortOutputFd.
Proof.
  split; simpl; unfold fd_write_volatile, map_err.
  - intros o v m w n w' Hlen. simpl. intros Hrun. simplify_eq.
    assert (length (mem_bytes m (vs_addr v) (vs_len v)) = Z.to_nat (vs_len v)) as Hl
      by (unfold mem_bytes; by rewrite length_fmap, length_seqZ).
    rewrite Hl. split; [lia|]. simpl. rewrite upd_eq, take_ge by lia. done.
  - done.
  - eauto.
  - done.
Qed.

#[export] Instance event_fd : StreamsEventFd world PortInputFd PortOutputFd.
Proof. by split. Qed.

#[export] Instance outputs_apart {Mem} `{GuestAccess Mem} : OutputsApart world Mem PortInputFd PortOutputFd.
Proof.
  split.
  - intros o ep op fd ev w. simpl. unfold on_epoll, zoom. by destruct (ctl ep op fd ev (w_epoll w)).
  - intros o fd w. cbn [efd_read efd_ops]. unfold on_epoll, zoom. by destruct (efd_read fd (w_epoll w)).
  - done.
  - intros o i v w m. simpl. unfold fd_read_volatile. simpl. unfold read_fd.
    case_bool_decide; [done|]. by destruct (w_script w (pif_fd i)).
  - intros [fd] [fd'] v m w Hne. simpl. apply upd_ne. intros ->. by apply Hne.
  - done.
Qed.

(** A queue of the world, whose kicks arrive on descriptor [200 + k]. *)
Definition dq_of (k : Z) : DeviceQueue world queue := {|
  dq_try_lock_queue w := w_queues w k;
  dq_store q w := World (w_epoll w) (w_script w) (w_received w) (w_sent w)
    (upd k (Some q) (w_queues w)) (w_next_fd w);
  dq_signal_used_queue := ret tt;
  dq_kick_register arc token := epoll_ctl (arc_raw arc) CtlAdd (200 + k) (EpollEvent ES_IN token);
  dq_read_kick := ret true;
|}.

Definition arc_of (ep : Z) : EpollArc := MkEpollArc ep ep.
End ConsoleSim.

(** ** Runs of the console *)
Module ConsoleExamples.
Import Epoll.Sim SimQueue VringExamples ConsoleSim.

Definition input : PortInputFd := MkPortInputFd 0.
Definition output : PortOutputFd := MkPortOutputFd 1.
Definition memory : mem := Mem (λ a, a `mod` 256) (λ _, false) [] [].
Definition world_of (script : list bytes) (queues : Z → option queue) : world :=
  World empty_world (λ fd, if bool_decide (fd = 0) then script else []) (λ _, []) (λ _, []) queues 10.
Definition env_of (script : list bytes) : ConsoleEnv world mem :=
  MkConsoleEnv (world_of script (λ _, None)) memory (MkConsoleControl [] 5).
Definition rx_of (script : list bytes) : RxEnv world mem := MkRxEnv (env_of script) false false.

Lemma run_pair {A B} (p : A * B) a : p.1 = a → p = (a, p.2).
Proof. destruct p. by intros <-. Defined.

Lemma fd_reliable : ProcessRx.reliable (S:=world) (Mem:=mem) input.
Proof.
  intros v w m e wm. simpl. unfold fd_read_volatile. simpl. unfold read_fd. simpl.
  destruct (w_script w 0); [|done]. intros ?; by simplify_eq.
Qed.

(** Five bytes go into two buffers of four. *)
Definition buffers : list Descriptor := [MkDescriptor 100 4; MkDescriptor 200 4].
Definition line : bytes := [104; 101; 108; 108; 111].
Definition rx_chain : chain := Chain 3 [] buffers.
Definition rx_state : RxEnv world mem * queue := (rx_of [line], Queue 16 [rx_chain; Chain 4 [] buffers] []).

Lemma buffers_len : Forall (λ d, 0 ≤ desc_len d) buffers.
Proof. repeat constructor; done. Qed.

(** Three deliveries, of which the first two fill a chain; the third chain has nothing to
    take. *)
Definition rx_lines : RxEnv world mem * queue :=
  (rx_of [line; [119; 111; 119]; [104; 105; 33]],
   Queue 16 [rx_chain; Chain 4 [] [MkDescriptor 4094 8]; Chain 5 [] [MkDescriptor 300 4]] []).
Definition rx_lines_run : outcome errno chains_end * (RxEnv world mem * queue) :=
  rx_chains 4 input 7 rx_lines.

Lemma rx_lines_receivable : receivable rx_lines.2 (rx_mem rx_lines.1) (rx_avail rx_lines).
Proof. split; [apply (bool_decide_unpack _); vm_compute; exact I|by intros c a _ _ []]. Qed.

Lemma rx_delivers_witness :
  mem_bytes (rx_mem rx_lines_run.2.1) 100 4 = [104; 101; 108; 108] ∧
  mem_bytes (rx_mem rx_lines_run.2.1) 4094 3 = [104; 105; 33] ∧
  rx_used (Q:=queue) rx_lines_run.2 = [(3, 8); (4, 3)] ∧
  ∃ next (rs : list answer), rx_lines_run.1 = Ret next ∧
    rx_avail rx_lines = rs.*1.*1 ++ rx_avail rx_lines_run.2 ∧
    Forall (λ r, sublist r.1.2.*1 (chain_writable_descs (rx_mem rx_lines.1) r.1.1) ∧
      filled (rx_mem rx_lines_run.2.1) r.1.2) rs ∧
    rx_received (Out:=PortOutputFd) input rx_lines_run.2.1 =
      rx_received (Out:=PortOutputFd) input rx_lines.1 ++ concat (said <$> rs) ∧
    rx_used rx_lines_run.2 = rx_used rx_lines ++ rx_entries rs ∧
    ∀ a, ¬ used_area rx_lines.2 a → a ∉ rx_avail rx_lines ≫= RxStream.buffers (rx_mem rx_lines.1) →
      mem_byte (rx_mem rx_lines_run.2.1) a = mem_byte (rx_mem rx_lines.1) a.
Proof.
  split; [vm_compute; reflexivity|]. split; [vm_compute; reflexivity|]. split; [vm_compute; reflexivity|].
  exact (rx_delivers (Out:=PortOutputFd) 4 input 7 rx_lines fd_reliable
    ltac:(apply Nat.ltb_lt; vm_compute; reflexivity) rx_lines_receivable).
Defined.

Lemma rx_conserves_witness :
  let run := rx_chains 3 input 7 rx_state in
  rx_used (Q:=queue) run.2 = [(3, 5)] ∧
  ∃ next rs, run.1 = Ret next ∧
    rx_heads rx_state = rs.*1.*1 ++ rx_heads run.2 ∧
    rx_used run.2 = rx_used rx_state ++ used_of rs ∧
    Forall (λ r, r.1.2 ≠ 0) rs ∧
    (ProcessRx.reliable (S:=world) (Mem:=mem) input → ∃ data,
      rx_received (Out:=PortOutputFd) input run.2.1 = rx_received (Out:=PortOutputFd) input rx_state.1 ++ data ∧
      Z.of_nat (length data) = total_read rs) ∧
    match next with
    | QueueEmpty => rx_messages run.2 = rx_messages rx_state ∧
        ∃ q, q_pop_descriptor_chain (rx_mem run.2.1) q = (None, run.2.2)
    | ContinueEvents => rx_messages run.2 = rx_messages rx_state ∧ rx_heads run.2 ≠ []
    | BreakEvents => rx_eof run.2.1 = true ∧
        rx_messages run.2 = rx_messages rx_state ++
          [PayloadConsoleControl (MkVirtioConsoleControl 7 VIRTIO_CONSOLE_PORT_OPEN 0)]
    end.
Proof.
  split; [vm_compute; reflexivity|].
  exact (rx_conserves (Out:=PortOutputFd) 3 input 7 rx_state ltac:(apply Nat.ltb_lt; vm_compute; reflexivity)).
Defined.

(** The input ends before the first chain. *)
Definition rx_ended : RxEnv world mem * queue := (rx_of [[]], Queue 16 [rx_chain] []).
Definition after_end : RxEnv world mem := (read_descs input (chain_writable_descs memory rx_chain) 0 rx_ended.1).2.

Lemma rx_eof_unnoticed_witness :
  rx_chains 1 input 7 rx_ended =
    (Ret ContinueEvents, (after_end, q_go_to_previous_position (Queue 16 [] [rx_chain]))) ∧
  ce_control (rx_env after_end) = ce_control (rx_env rx_ended.1).
Proof.
  refine (rx_eof_unnoticed (Out:=PortOutputFd) 0 input 7 rx_ended rx_chain (Queue 16 [] [rx_chain]) after_end
    eq_refl _ _).
  - apply run_pair. vm_compute. reflexivity.
  - vm_compute. reflexivity.
Defined.

(** ** Sending *)

Definition tx_of : TxEnv world mem := MkTxEnv (world_of [] (λ _, None)) memory false.
Definition out_descs : list Descriptor := [MkDescriptor 65 2; MkDescriptor 97 1].

Lemma tx_chain_sent_witness :
  tx_sent (In:=PortInputFd) output (write_descs 1 output out_descs 0 tx_of).2 = [65; 66; 97] ∧
  ∃ sent rest, out_descs = sent ++ rest ∧
    tx_mem (write_descs 1 output out_descs 0 tx_of).2 = memory ∧
    tx_sent (In:=PortInputFd) output (write_descs 1 output out_descs 0 tx_of).2 =
      [] ++ concat (desc_bytes memory <$> sent) ∧
    3 = 0 + foldr Z.add 0 (desc_len <$> sent) ∧
    match rest with
    | [] => True
    | d :: _ => ∃ s1, write_desc_to_output 1 output d s1 = (Ret 0, (write_descs 1 output out_descs 0 tx_of).2)
    end.
Proof.
  split; [vm_compute; reflexivity|].
  refine (tx_chain_sent (In:=PortInputFd) 1 output out_descs 0 tx_of 3 _
    ltac:(repeat constructor; done) _ _).
  - repeat constructor; intros [[] [] b] e s2 _; vm_compute; discriminate.
  - apply run_pair. vm_compute. reflexivity.
Defined.

(** Two chains; the second buffer of the first one lies across two regions. *)
Definition tx_state : TxEnv world mem * queue :=
  (tx_of, Queue 16 [Chain 3 [MkDescriptor 65 2; MkDescriptor 4095 3] []; Chain 5 [MkDescriptor 97 1] []] []).

Lemma sim_prompt : prompt (S:=world) (Mem:=mem) 0 output.
Proof.
  intros v m w Hv. simpl. unfold mem_bytes. rewrite length_fmap, length_seqZ. lia.
Qed.

Lemma tx_state_sendable : Forall (sendable tx_state.2 (tx_mem tx_state.1)) (tx_avail tx_state).
Proof.
  assert (∀ a l, 0 < l → 0 ≤ a → a + l ≤ 8192 → mapped_desc memory (MkDescriptor a l)) as Hd.
  { intros a l Hl Ha Hal. split; [done|]. simpl. intros b Hb. apply bool_decide_eq_true. lia. }
  assert (∀ c, Forall (mapped_desc memory) (chain_readable_descs memory c) →
    chain_readable_descs memory c ≠ [] → sendable tx_state.2 memory c) as Hc.
  { intros c Hm Hne. split_and!; [done..|]. apply Forall_true. intros d a _ []. }
  apply Forall_cons. split; [|apply Forall_cons; split; [|by constructor]]; (apply Hc; [|done]).
  - apply Forall_cons. split; [|apply Forall_cons; split; [|by constructor]]; apply Hd; vm_compute; congruence.
  - apply Forall_cons. split; [|by constructor]. apply Hd; vm_compute; congruence.
Qed.

Lemma tx_conserves_witness :
  let run := tx_chains 3 output tx_state in
  tx_sent (In:=PortInputFd) output run.2.1 = [65; 66; 255; 0; 1; 97] ∧
  tx_used (Q:=queue) run.2 = [(3, 5); (5, 1)] ∧
  ∃ rs : list (chain * bool), run.1 = Ret tt ∧
    tx_avail tx_state = rs.*1 ++ tx_avail run.2 ∧
    tx_sent (In:=PortInputFd) output run.2.1 =
      tx_sent (In:=PortInputFd) output tx_state.1 ++ concat (chain_bytes (tx_mem tx_state.1) <$> rs.*1) ∧
    tx_used run.2 = tx_used tx_state ++ tx_entries (tx_mem tx_state.1) rs ∧
    ∃ q, q_pop_descriptor_chain (tx_mem run.2.1) q = (None, run.2.2).
Proof.
  split; [vm_compute; reflexivity|]. split; [vm_compute; reflexivity|].
  exact (tx_conserves (In:=PortInputFd) 3 0 output tx_state sim_prompt
    ltac:(apply Nat.ltb_lt; vm_compute; reflexivity) tx_state_sendable).
Defined.

(** A buffer of which the second half is behind the end of guest memory *)
Definition half_mapped : Descriptor := MkDescriptor 8190 4.

Lemma tx_partial_descriptor_panics_witness :
  write_descs 1 output [half_mapped] 0 tx_of = (Panic, (write_desc_to_output 1 output half_mapped tx_of).2).
Proof.
  refine (tx_partial_descriptor_panics 1 output half_mapped [] 0 tx_of 2 _ _ ltac:(done) ltac:(done)).
  apply run_pair. vm_compute. reflexivity.
Defined.

Definition tx_blocked_state : TxEnv world mem * queue := (tx_of, Queue 16 [rx_chain; Chain 4 buffers []] []).

Lemma tx_empty_chain_blocks_witness :
  let run := tx_chains 1 output tx_blocked_state in
  run = (Ret tt, (tx_of, q_go_to_previous_position (Queue 16 [Chain 4 buffers []] [rx_chain]))) ∧
  q_avail run.2.2 (tx_mem run.2.1) = q_avail tx_blocked_state.2 memory ∧
  q_used run.2.2 (tx_mem run.2.1) = q_used tx_blocked_state.2 memory ∧
  head (q_avail run.2.2 (tx_mem run.2.1)) = Some rx_chain.
Proof.
  exact (tx_empty_chain_blocks 0 output tx_blocked_state rx_chain (Queue 16 [Chain 4 buffers []] [rx_chain])
    eq_refl eq_refl).
Defined.

(** ** Control queues *)

Definition open_msg : Payload := control_msg 0 VIRTIO_CONSOLE_PORT_OPEN 1.
Definition name_msg : Payload := PayloadBytes (replicate 20 65).
Definition add_msg : Payload := control_msg 1 VIRTIO_CONSOLE_PORT_ADD 0.

(** Three messages; the second one does not fit into the second chain. *)
Definition ctl_env : ConsoleEnv world mem :=
  MkConsoleEnv (world_of [] (λ _, None)) memory (MkConsoleControl [open_msg; name_msg; add_msg] 5).
Definition ctl_state : ConsoleEnv world mem * queue := (ctl_env, Queue 16 [rx_chain; Chain 4 [] buffers] []).

Lemma control_messages_in_order_witness :
  let run := deliver (R:=reader) (Wr:=writer) 3 false ctl_state in
  (run.1 = Ret true ∧ ctl_used run.2 = [(3, 8)] ∧ messages run.2.1 = [add_msg]) ∧
  match run.1 with
  | Ret _ => ∃ rs t1,
      runs (turn (R:=reader) (Wr:=writer)) rs ctl_state t1 ∧ last_turn t1 run.2 ∧
      ctl_chains ctl_state = rs.*1.*1 ++ ctl_chains run.2 ∧
      messages ctl_state.1 = rs.*1.*2 ++ messages run.2.1 ∧
      ctl_used run.2 = ctl_used ctl_state ++ delivered rs ∧
      (messages run.2.1 = [] ∨ ∃ q, q_pop_descriptor_chain (ce_mem run.2.1) q = (None, run.2.2))
  | Panic => ∃ (m : mem) (c : chain) e, chain_writer m c = Fail e
  | _ => False
  end.
Proof.
  split; [vm_compute; auto|].
  exact (control_messages_in_order (R:=reader) (Wr:=writer) 3 false ctl_state
    ltac:(apply Nat.ltb_lt; vm_compute; reflexivity)).
Defined.

Definition port0 : Port Z PortInputFd PortOutputFd := MkPort 0 "" true Inactive (Some input) (Some output).
Definition port1 : Port Z PortInputFd PortOutputFd := MkPort 1 "log" false Inactive None (Some output).

(** Chain 6 holds the command that the device is ready, at address 300. *)
Definition command_mem : mem := Mem (λ _, 0) (λ _, false) [] [].
Definition command_state : ConsoleEnv world mem * queue :=
  (MkConsoleEnv (world_of [] (λ _, None)) command_mem (MkConsoleControl [] 5),
   Queue 16 [Chain 6 [MkDescriptor 300 8] []] []).

Lemma control_commands_answer_head_zero_witness :
  chain_head_index <$> ctl_chains command_state = [6] ∧
  ctl_used (commands (R:=reader) 2 [port0; port1] false command_state).2 = [(0, 8)] ∧
  ∃ k, ctl_used (commands (R:=reader) 2 [port0; port1] false command_state).2 =
    ctl_used command_state ++ replicate k (0, 8).
Proof.
  split; [vm_compute; reflexivity|]. split; [vm_compute; reflexivity|].
  exact (control_commands_answer_head_zero (R:=reader) 2 [port0; port1] false command_state).
Defined.

Lemma device_ready_adds_ports_witness :
  ∃ s', handle_command [port0; port1] (MkVirtioConsoleControl 0 VIRTIO_CONSOLE_DEVICE_READY 1) ctl_env =
      (Ret tt, s') ∧
    messages s' = messages ctl_env ++
      ((λ i, control_msg (Z.of_nat i) VIRTIO_CONSOLE_PORT_ADD 0) <$> seq 0 2).
Proof.
  exact (device_ready_adds_ports [port0; port1] (MkVirtioConsoleControl 0 VIRTIO_CONSOLE_DEVICE_READY 1)
    ctl_env eq_refl ltac:(done)).
Defined.

Lemma port_ready_announces_witness :
  (∃ s', handle_command [port0; port1] (MkVirtioConsoleControl 1 VIRTIO_CONSOLE_PORT_READY 1) ctl_env =
      (Ret tt, s') ∧ messages s' = messages ctl_env ++ port_messages 1 port1) ∧
  handle_command [port0; port1] (MkVirtioConsoleControl 2 VIRTIO_CONSOLE_PORT_READY 1) ctl_env =
    (Panic, ctl_env).
Proof.
  split.
  - exact (port_ready_announces [port0; port1] (MkVirtioConsoleControl 1 VIRTIO_CONSOLE_PORT_READY 1)
      ctl_env eq_refl eq_refl).
  - exact (port_ready_announces [port0; port1] (MkVirtioConsoleControl 2 VIRTIO_CONSOLE_PORT_READY 1)
      ctl_env eq_refl eq_refl).
Defined.

(** ** Starting and stopping *)

Lemma clone_ok : ∀ fd (w : world), ∃ fd' w', efd_try_clone fd w = (Ret fd', w').
Proof. intros fd w. by eexists _, _. Qed.
Lemma new_ok : ∀ w : world, ∃ fd w', efd_new w = (Ret fd, w').
Proof. intros w. by eexists _, _. Qed.

(** The queues 0 to 5, for two ports and the control queues *)
Definition six_queues : gmap nat Z := list_to_map ((λ k : nat, (k, Z.of_nat k)) <$> seq 0 6).

Lemma six_queues_dom k : is_Some (six_queues !! k) ↔ (k < 6)%nat.
Proof.
  split.
  - intros [v Hv]. apply elem_of_list_to_map_2, list_elem_of_fmap in Hv as (k' & [= -> _] & Hin).
    apply elem_of_seq in Hin. lia.
  - intros Hk. do 6 (destruct k as [|k]; [by eexists|]). lia.
Qed.

Lemma main_worker_new_starts_witness :
  ∃ w s', main_worker_new dq_of arc_of 1 six_queues [port0; port1] 9 ctl_env = (Ret w, s') ∧
    six_queues !! CONTROL_RXQ_INDEX = Some (mw_control_rxq w) ∧
    six_queues !! CONTROL_TXQ_INDEX = Some (mw_control_txq w) ∧
    mw_port_queues w = ∅ ∧
    (∀ i p, [port0; port1] !! i = Some p → ∃ rx tx p',
      six_queues !! port_id_to_queue_idx Rx i = Some rx ∧ six_queues !! port_id_to_queue_idx Tx i = Some tx ∧
      mw_ports w !! i = Some p' ∧ runs_with rx tx p p').
Proof.
  refine (main_worker_new_starts dq_of arc_of clone_ok new_ok 1 six_queues [port0; port1] 9 ctl_env 1
    eq_refl _ six_queues_dom).
  repeat constructor.
Defined.

Definition descriptions : list (PortDescription PortInputFd PortOutputFd) :=
  [ConsolePort.Console (Some input) (Some output); OutputPipe "log" output].

Lemma console_activates_once_witness :
  ∃ c w1, console_new descriptions (ce_world ctl_env) = (Ret c, w1) ∧
    c_queues c = replicate 6 (MkQueueArgs 256) ∧
    ∃ c' w2 thread, console_activate dq_of arc_of 1 memory six_queues (c, w1) = (Ret tt, (c', w2)) ∧
      c_worker_thread c' = Some thread ∧ mw_port_queues (ct_worker thread) = ∅ ∧
      ∀ fuel' mem' queues' w3,
        (console_activate dq_of arc_of fuel' mem' queues' (c', w3)).1 = Panic.
Proof.
  refine (console_activates_once dq_of arc_of clone_ok new_ok 1 memory descriptions
    (ce_world ctl_env) (ConsolePort.Console (Some input) (Some output)) [OutputPipe "log" output] six_queues
    eq_refl eq_refl _ six_queues_dom).
  repeat constructor; by eexists.
Defined.

Definition started_worker : MainWorker Z PortInputFd PortOutputFd := MkMainWorker 2 3 ∅ [] 9.
Definition started_console : ConsoleDevice.Console Z mem PortInputFd PortOutputFd :=
  MkConsole [] [] (Some (MkConsoleThread started_worker memory (MkConsoleControl [] 5))) 9 AVAIL_FEATURES 0
    (console_config_new 80 24 2).

Lemma console_stop_never_returns_witness :
  (console_stop (R:=reader) (Wr:=writer) dq_of arc_of 10 (started_console, ce_world ctl_env)).1 ≠ Ret tt ∧
  ∀ b, (console_reset (R:=reader) (Wr:=writer) dq_of arc_of 10 (started_console, ce_world ctl_env)).1 ≠ Ret b.
Proof.
  exact (console_stop_never_returns (R:=reader) (Wr:=writer) dq_of arc_of 10
    (started_console, ce_world ctl_env) _ eq_refl).
Defined.

Lemma console_read_config_spec_witness :
  console_read_config 8 (replicate 6 7) (started_console, ce_world ctl_env) =
    Ret [0; 0; 0; 0; 7; 7] ∧
  match console_read_config 8 (replicate 6 7) (started_console, ce_world ctl_env) with
  | Ret bs => 8 < 12 ∧ length bs = 6%nat ∧
      ∀ i : nat, (i < 6)%nat →
        bs !! i = if decide (8 + Z.of_nat i < 12)
                  then as_slice (c_config started_console) !! (8 + i)%nat else replicate 6 7 !! i
  | Fail e => 12 ≤ 8 ∧ e = "Invalid offset"%string
  | _ => False
  end.
Proof.
  split; [vm_compute; reflexivity|].
  exact (console_read_config_spec 8 (replicate 6 7) (started_console, ce_world ctl_env)
    ltac:(by repeat split) ltac:(done) ltac:(done)).
Defined.
End ConsoleExamples.

(** ** Receiving during a migration *)
Module LoggedExamples.
Import Epoll.Sim SimQueue VringExamples ConsoleSim ConsoleExamples.

(** Two regions of two and one pages, and a log of one byte *)
Definition two_regions : list (MemRegion * AtomicBitmapMmap) :=
  [(MkMemRegion 0 8192, MkAtomicBitmapMmap 0 2); (MkMemRegion 8192 4096, MkAtomicBitmapMmap 2 1)].
Definition logged_mem : Type := lmem two_regions 1.

#[export] Instance two_regions_whole : WholePages two_regions 1.
Proof. repeat (apply Forall_cons; split); [..|by constructor]; by vm_compute. Qed.

#[export] Instance logged_descs : ChainDescs logged_mem chain := {|
  chain_readable_descs _ c := desc32 <$> c_readable c;
  chain_writable_descs _ c := desc32 <$> c_writable c;
|}.

#[export] Instance logged_descs_laws : ChainDescsLaws logged_mem chain.
Proof.
  split; intros m c; apply Forall_fmap, Forall_true; intros d; simpl; by apply in_width_wrap.
Qed.

(** The used ring, with room for one entry, at the start of the second region *)
Definition used_slot : VolatileSlice := MkSlice 8192 8.
Definition used_entry (head len : Z) : bytes := [head; 0; 0; 0; len; 0; 0; 0].

#[export] Instance logged_proc : QueueProc queue logged_mem chain := {|
  q_pop_descriptor_chain _ q :=
    match q_chains q with
    | [] => (None, q)
    | c :: cs => (Some c, Queue (q_size q) cs (c :: q_popped q))
    end;
  q_go_to_previous_position q :=
    match q_popped q with
    | [] => q
    | c :: cs => Queue (q_size q) (c :: q_chains q) cs
    end;
  q_add_used head len := λ '(q, m),
    (Ret tt, (q, mem_mark_dirty used_slot 0 8 (mem_fill used_slot (used_entry head len) m)));
  q_disable_notification := ret tt;
  q_enable_notification := gets (λ s, negb (bool_decide (length (q_chains s.1) = 0%nat)));
  chain_head_index := c_head;
  q_avail q _ := q_chains q;
  q_used _ m := [(mem_byte m 8192, mem_byte m 8196)];
|}.

Lemma used_slot_slice (m : logged_mem) : mem_slice m used_slot.
Proof. exists 4096. split; [by vm_compute|simpl; lia]. Qed.

Lemma logged_add_used head len (q : queue) (m : logged_mem) o q' m' :
  q_add_used (Chain:=chain) head len (q, m) = (o, (q', m')) →
  m' = mem_mark_dirty used_slot 0 8 (mem_fill used_slot (used_entry head len) m).
Proof. by intros [= _ _ <-]. Qed.

#[export] Instance logged_used : UsedRingLogged queue logged_mem chain.
Proof.
  split.
  - intros head len q m o q' m' a Hadd. rewrite (logged_add_used _ _ _ _ _ _ _ Hadd).
    rewrite mem_mark_byte, mem_fill_byte by done. case_bool_decide as Ha; [intros _|done].
    apply mem_mark_dirty_at; [apply mem_fill_slice, used_slot_slice|done..].
  - intros head len q m o q' m' a Hadd Hd. rewrite (logged_add_used _ _ _ _ _ _ _ Hadd).
    apply mem_mark_dirty_mono; [apply mem_fill_slice, used_slot_slice|done..|by rewrite mem_fill_dirty].
  - intros head len q m o q' m' v Hadd. rewrite (logged_add_used _ _ _ _ _ _ _ Hadd).
    by rewrite mem_mark_slice, mem_fill_slice.
Qed.

(** The input is ready, and a line goes into a buffer across two pages. *)
Definition ready_world : world :=
  World (Epoll.Sim.World ∅ [0] 0 5) (λ fd, if bool_decide (fd = 0) then [line] else []) (λ _, []) (λ _, [])
    (λ k, if bool_decide (k = 7) then Some (Queue 16 [Chain 3 [] [MkDescriptor 4094 8]] []) else None) 10.
Definition logged_env : ConsoleEnv world logged_mem :=
  MkConsoleEnv ready_world (LMem (λ _, 0) [0] eq_refl) (MkConsoleControl [] 5).
Definition logged_run : outcome errno unit * ConsoleEnv world logged_mem :=
  ProcessRx.process_rx (Q:=queue) (Chain:=chain) (DQ:=dq_of 7) arc_of 2 input 0 40 logged_env.

(** The same with an input that fails after it has written three bytes *)
Definition faulty_input : PortInputFd := MkPortInputFd FAULTY_FD.
Definition failing_world : world :=
  World (Epoll.Sim.World ∅ [FAULTY_FD] 0 5) (λ _, []) (λ _, []) (λ _, [])
    (λ k, if bool_decide (k = 7) then Some (Queue 16 [Chain 3 [] [MkDescriptor 4094 8]] []) else None) 10.
Definition failing_env : ConsoleEnv world logged_mem :=
  MkConsoleEnv failing_world (LMem (λ _, 0) [0] eq_refl) (MkConsoleControl [] 5).
Definition failing_run : outcome errno unit * ConsoleEnv world logged_mem :=
  ProcessRx.process_rx (Q:=queue) (Chain:=chain) (DQ:=dq_of 7) arc_of 2 faulty_input 0 40 failing_env.

Lemma rx_writes_in_log_witness :
  (mem_bytes (ce_mem logged_run.2) 4094 5 = line ∧ lm_log (ce_mem logged_run.2) = [7] ∧
   log_dirty (lm_log (ce_mem logged_run.2)) (page_number 4096) = true) ∧
  mem_bytes (ce_mem failing_run.2) 4094 4 = [1; 2; 3; 0] ∧ lm_log (ce_mem failing_run.2) = [3] ∧
  log_dirty (lm_log (ce_mem failing_run.2)) (page_number 4096) = true.
Proof.
  split; (split; [vm_compute; reflexivity|]; split; [vm_compute; reflexivity|]).
  - refine (rx_writes_in_log (Out:=PortOutputFd) (DQ:=dq_of 7) two_regions 1 arc_of 2 input 0 40
      logged_env 4096 _).
    vm_compute. discriminate.
  - refine (rx_writes_in_log (Out:=PortOutputFd) (DQ:=dq_of 7) two_regions 1 arc_of 2 faulty_input 0 40
      failing_env 4096 _).
    vm_compute. discriminate.
Defined.
End LoggedExamples.
