(* ===== verification/ConsoleSystem.v ===== *)
(** * The handler and the threads of the console, together

    The front-end's requests run on one thread; the console has a main worker, and for each
    port a thread that receives and one that transmits. They share the rings, guest memory
    and the messages that wait for the driver. A step of the system is a request, or a
    section of one of the other threads: a call into the world, registering with a ring,
    reading its kick, notifying the driver, appending a message, or the processing of a
    ring under its lock. [console_threads_step] shows that the threads' own programs are
    made of these sections; [console_system_refines] that every run of the system is one
    of the session's specification; and [console_messages_fifo] follows the messages from
    the threads to the driver.

    Guest memory is [ce_mem]; a request is given it and leaves it changed. *)

From S2P Require Import Prelude EventToken Epoll EventManager VirtQueue Bitmap Vring VhostBackend VhostHandler.
From S2P Require Import SessionSpec SessionRefinement DeviceRings Codec PortQueueMapping ConsoleControl PortIo.
From S2P Require Import ProcessRx ProcessTx ConsolePort ConsoleWorker.

(** ** Ports in the world of the handler *)

Section ports.
Context {D Mem Q W B In Out : Type} `{EpollOps W} `{GuestAccess Mem}
  `{!PortInput W Mem In} `{!PortOutput W Mem Out}.
Local Notation HD := (VhostUserHandler D Mem Q W B).

#[export] Instance handler_input : PortInput HD Mem In := {|
  pi_read_volatile i v :=
    zoom (λ s : HD * Mem, (env_world (h_env s.1), s.2))
      (λ wm s, (set_env (MkEnv (env_live (h_env s.1)) wm.1) s.1, wm.2)) (pi_read_volatile i v);
  pi_ready_event i := pi_ready_event (S:=W) (Mem:=Mem) i;
|}.

#[export] Instance handler_output : PortOutput HD Mem Out := {|
  po_write_volatile o v m := on_handler_world (po_write_volatile o v m);
  po_ready_event o := po_ready_event (S:=W) (Mem:=Mem) o;
  po_wait_until_writable o := on_handler_world (po_wait_until_writable (Mem:=Mem) o);
|}.

Context `{!PortStreams W In Out}.

#[export] Instance handler_streams : PortStreams HD In Out := {|
  pi_received i h := pi_received (Out:=Out) i (env_world (h_env h));
  po_sent o h := po_sent (In:=In) o (env_world (h_env h));
|}.

#[export] Instance handler_input_laws `{!PortInputLaws W Mem In Out} : PortInputLaws HD Mem In Out.
Proof.
  split; simpl; unfold zoom; simpl.
  - intros i v h m n h' m' Hlen. destruct (pi_read_volatile i v _) as [o [w m1]] eqn:Hr.
    intros ?; simplify_eq/=. by apply (pi_read_ok (Out:=Out)) in Hr.
  - intros i v h m e h' m' Hlen. destruct (pi_read_volatile i v _) as [o [w m1]] eqn:Hr.
    intros ?; simplify_eq/=. by apply (pi_read_fail (Out:=Out)) in Hr.
  - intros i v [h m]. simpl. destruct (pi_read_result (Out:=Out) i v (env_world (h_env h), m))
      as [(n & [w m1] & ->)|(e & [w m1] & ->)]; eauto.
Qed.

#[export] Instance handler_output_laws `{!PortOutputLaws W Mem In Out} : PortOutputLaws HD Mem In Out.
Proof.
  split; simpl; unfold on_handler_world, zoom.
  - intros o v m h n h' Hlen. destruct (po_write_volatile o v m _) as [x w] eqn:Hr.
    intros ?; simplify_eq/=. by apply (po_write_ok (In:=In)) in Hr.
  - intros o v m h e h'. destruct (po_write_volatile o v m _) as [x w] eqn:Hr.
    intros ?; simplify_eq/=. by apply (po_write_fail (In:=In)) in Hr.
  - intros o v m h. destruct (po_write_result (In:=In) o v m (env_world (h_env h)))
      as [(n & w & ->)|(e & w & ->)]; eauto.
  - intros o h. pose proof (po_wait_sent (Mem:=Mem) (In:=In) o (env_world (h_env h))) as Hs.
    by destruct (po_wait_until_writable (Mem:=Mem) o _).
Qed.
End ports.

(** ** The system *)

Section system.
Context {D Mem Q W B Sock Region Mmap File Chain R Wr In Out : Type}.
Context `{EpollLaws W} `{EventSetBits} `{!EventFdOps W, !EventFdLaws W, !EventFdMake W}
  `{!QueueConfig Q Mem, !QueueConfigLaws Q Mem}
  `{VhostUserBits} `{!VhostUserDevice D Mem (Vring Q) Sock} `{!BitmapReplace B}
  `{!GuestMemory Mem Region Mmap File}.
Context `{!QueueProc Q Mem Chain, !QueueProcLaws Q Mem Chain, !QueueProcSetup Q Mem Chain}
  `{!ChainDescs Mem Chain, !ChainDescsLaws Mem Chain} `{!GuestAccess Mem, !GuestAccessLaws Mem}
  `{!PortInput W Mem In, !PortOutput W Mem Out, !PortStreams W In Out,
    !PortInputLaws W Mem In Out, !PortOutputLaws W Mem In Out}
  `{ReaderOps R} `{WriterOps Wr} `{!ChainStreams Mem Chain R Wr}.
Context (checks : bool).

Local Notation HD := (VhostUserHandler D Mem Q W B).
Local Notation CE := (ConsoleEnv HD Mem).
Local Notation P := (Port nat In Out).
Implicit Types (h : HD) (s : CE).

(** A request works on the guest memory as it is. *)
Definition on_handler {E A} : M HD E A → M CE E A :=
  zoom (λ s, set_guest_mem (ce_mem s) (ce_world s))
    (λ h s, MkConsoleEnv h (gm_mem (h_atomic_mem h)) (ce_control s)).

(** A section of a port's thread, with the thread's variables *)
Definition with_rx {E A} (eof signal : bool) : M (RxEnv HD Mem) E A → M CE E A :=
  zoom (λ s, MkRxEnv s eof signal) (λ r _, rx_env r).
Definition with_tx {E A} (signal : bool) : M (TxEnv HD Mem) E A → M CE E A :=
  zoom (λ s, MkTxEnv (ce_world s) (ce_mem s) signal)
    (λ t s, MkConsoleEnv (tx_world t) (tx_mem t) (ce_control s)).

(** The sections of the threads: what one of them does without another in between *)
Inductive section : ∀ {E A}, M CE E A → Prop :=
| sec_world {E A} (m : M W E A) : section (on_world (on_handler_world m))
| sec_register i epoll token : section (on_world (dq_kick_register (DeviceQueue:=handler_queue i) epoll token))
| sec_read_kick i : section (on_world (dq_read_kick (DeviceQueue:=handler_queue i)))
| sec_signal i : section (on_world (dq_signal_used_queue (DeviceQueue:=handler_queue i)))
| sec_push {E} p : section (push_payload (E:=E) p)
| sec_rx i fuel (input : In) port_id eof signal :
    section (with_rx eof signal (rx_section (DQ:=handler_queue i) fuel input port_id))
| sec_tx i fuel (output : Out) signal :
    section (with_tx signal (tx_section (DQ:=handler_queue i) fuel output))
| sec_control_rx i fuel :
    section (control_rx_section (R:=R) (Wr:=Wr) (DQ:=handler_queue i) fuel)
| sec_control_tx i fuel (ports : list P) :
    section (control_tx_section (R:=R) (DQ:=handler_queue i) fuel ports).

(** A step of the system, labelled with the request it is, and its answer *)
Inductive console_step : option (exchange (Sock:=Sock) (File:=File)) → CE → CE → Prop :=
| console_request r s :
    is_answer (on_handler (reply_to checks r) s).1 →
    console_step (Some (r, (on_handler (reply_to checks r) s).1)) s (on_handler (reply_to checks r) s).2
| console_section {E A} (m : M CE E A) s : section m → console_step None s (m s).2
| console_guest mem s : console_step None s (MkConsoleEnv (ce_world s) mem (ce_control s)).

(** ** Sections are steps of the device *)

Local Notation device_step := (device_step (D:=D) (Mem:=Mem) (Q:=Q) (W:=W) (B:=B)).
Local Notation RE := (RxEnv HD Mem).
Local Notation TE := (TxEnv HD Mem).

(** What has happened since [h] are steps of the device; and of a thread that holds the
    lock of ring [i] since [h], with its copy of the queue. *)
Definition stays h s : Prop := device_step h (ce_world s).
Definition rx_stays h (r : RE) : Prop := stays h (rx_env r).
Definition tx_stays h (t : TE) : Prop := device_step h (tx_world t).
Definition held {St : Type} (I : HD → St → Prop) (i : nat) h (t : St * Q) : Prop :=
  holds i h t.2 ∧ I h t.1.

Lemma stays_world {E A} h (m : M HD E A) :
  (∀ h', device_step h' (m h').2) → preserves (stays h) (on_world m).
Proof.
  intros Hm. apply (preserves_zoom _ (device_step h)); [done|done|].
  intros h' Hh. eapply device_step_trans; [exact Hh|apply Hm].
Qed.

Lemma stays_push {E} h p : preserves (stays h) (push_payload (E:=E) p).
Proof.
  intros s Hs. rewrite push_payload_run. unfold stays. simpl.
  eapply device_step_trans; [exact Hs|apply device_step_world].
Qed.

Lemma holds_setup i h (q q' : Q) : holds i h q → q_same_setup q q' → holds i h q'.
Proof. intros (v & Hv & Hrun & Hq) Hs. exists v. split; [done|]. split; [done|]. by eapply same_setup_trans. Qed.

(** A thread that has taken the lock, and its release *)
Lemma held_locked {St : Type} (I : HD → St → Prop) i h (s : St) q :
  I h s → dq_try_lock_queue (DeviceQueue:=handler_queue i) h = Some q → held I i h (s, q).
Proof. intros Hs Hq. split; [by apply lock_holds|done]. Qed.

Lemma signal_stays i h : device_step h (dq_signal_used_queue (DeviceQueue:=handler_queue i) h).2.
Proof. apply device_step_vring, signal_device_vring. Qed.

(** *** Receiving *)

Lemma rx_stays_env {E A} h (m : M CE E A) : preserves (stays h) m → preserves (rx_stays h) (on_rx_env m).
Proof. intros Hm. by apply (preserves_zoom _ (stays h)). Qed.

Lemma rx_stays_set h f : (∀ r, rx_env (f r) = rx_env r) → preserves (E:=errno) (rx_stays h) (modify f).
Proof. intros Hf. apply preserves_modify. intros r. unfold rx_stays. by rewrite Hf. Qed.

Lemma rx_stays_io h (input : In) v r : rx_stays h r → rx_stays h (read_piece input v r).2.
Proof.
  revert r. change (preserves (rx_stays h) (read_piece input v)). unfold read_piece.
  apply preserves_bind; [|intros [e|n]].
  - apply preserves_attempt, rx_stays_env.
    apply (preserves_zoom _ (λ wm : HD * Mem, device_step h wm.1)); [done|done|].
    intros [h' m] Hh. unfold pi_read_volatile, handler_input, zoom. simpl in *.
    destruct (pi_read_volatile input v (env_world (h_env h'), m)) as [o [w m']] eqn:Hr. simpl.
    eapply device_step_trans; [exact Hh|]. exact (device_step_world (λ _, (Ret (E:=errno) tt, w)) h').
  - apply preserves_if; [apply preserves_ret|apply preserves_fail].
  - apply preserves_bind; [|intros _; apply preserves_ret].
    apply preserves_if; [by apply preserves_modify|apply preserves_ret].
Qed.

(** The proof rules of the loops of [process_rx] for any invariant *)
Lemma preserves_read_descs (I : RE → Prop) (input : In) descs n :
  (∀ v r, 0 ≤ vs_len v → I r → I (read_piece input v r).2) → (∀ r, I r → I (set_signal true r)) →
  Forall (λ d, 0 ≤ desc_len d) descs → preserves I (read_descs input descs n).
Proof.
  intros Hread Hset Hdescs. revert n. induction Hdescs as [|d descs Hd _ IH]; intros n; simpl; [apply preserves_ret|].
  apply preserves_bind.
  - apply preserves_attempt. intros r Hr. eapply accessed_preserves; [|exact Hr|by apply (read_to_desc_accessed (Out:=Out))].
    intros v r0 Hlen _. by apply Hread.
  - intros [e|k]; [apply IH|]. apply preserves_if; [apply preserves_ret|].
    apply preserves_bind; [by apply preserves_modify|intros _; apply IH].
Qed.

Lemma preserves_rx_chains (J : RE * Q → Prop) fuel (input : In) port_id :
  preserves J (rx_pop (E:=errno) (Chain:=Chain)) →
  (∀ descs, Forall (λ d, 0 ≤ desc_len d) descs → preserves J (on_rx (read_descs input descs 0))) →
  preserves (E:=errno) J (modify (λ t, (t.1, q_go_to_previous_position t.2))) →
  (∀ head len, preserves J (rx_add_used head len)) →
  preserves (E:=errno) J (on_rx (on_rx_env (port_open port_id false))) →
  preserves J (rx_chains fuel input port_id).
Proof.
  intros Hpop Hread Hback Hadd Hopen. induction fuel as [|fuel IH]; simpl; [by intros t|].
  apply preserves_bind; [done|intros [c|]; [|apply preserves_ret]].
  apply preserves_bind; [apply preserves_gets|intros m].
  apply preserves_bind; [apply Hread, writable_descs_len|intros n]. apply preserves_if.
  - apply preserves_bind; [done|intros _; apply preserves_ret].
  - apply preserves_bind; [by apply preserves_attempt|intros _].
    apply preserves_bind; [apply preserves_gets|intros eof]. apply preserves_if; [|done].
    apply preserves_bind; [done|intros _; apply preserves_ret].
Qed.

Lemma held_rx {E A} i h (m : M RE E A) :
  preserves (rx_stays h) m → preserves (held rx_stays i h) (on_rx (Q:=Q) m).
Proof.
  intros Hm. apply (preserves_zoom _ (rx_stays h)); [by intros t []|by intros t r [] ?|done].
Qed.

Lemma held_rx_pop {E} i h : preserves (held rx_stays i h) (rx_pop (E:=E) (Chain:=Chain)).
Proof.
  intros [r q] [Hq Hr]. unfold rx_pop. simpl in *.
  pose proof (q_pop_setup (ce_mem (rx_env r)) q) as Hp. destruct (q_pop_descriptor_chain _ q) as [c q'].
  split; [by eapply holds_setup|done].
Qed.

Lemma held_rx_add_used i h head len : preserves (held rx_stays i h) (rx_add_used head len).
Proof.
  intros [r q] [Hq Hr]. unfold rx_add_used, zoom. simpl in *.
  pose proof (q_add_used_setup head len (q, ce_mem (rx_env r))) as Hs.
  destruct (q_add_used head len _) as [o [q' m']]. split; [by eapply holds_setup|done].
Qed.

Lemma held_back {St E} (I : HD → St → Prop) i h :
  preserves (E:=E) (held I i h) (modify (λ t, (t.1, q_go_to_previous_position t.2))).
Proof.
  apply preserves_modify. intros [s q] [Hq Hs]. split; [|done]. eapply holds_setup; [exact Hq|].
  apply q_go_to_previous_setup.
Qed.

Lemma held_rx_chains i h fuel (input : In) port_id :
  preserves (held rx_stays i h) (rx_chains fuel input port_id).
Proof.
  apply preserves_rx_chains; [apply held_rx_pop| |apply held_back|intros; apply held_rx_add_used|].
  - intros descs Hdescs. apply held_rx, preserves_read_descs; [|done|done]. intros v r _. apply rx_stays_io.
  - apply held_rx, rx_stays_env, stays_push.
Qed.

Lemma held_rx_drain i h fuel (input : In) port_id :
  preserves (held rx_stays i h) (rx_drain (DQ:=handler_queue i) fuel input port_id).
Proof.
  apply preserves_bind; [apply held_rx_chains|intros []; try apply preserves_ret].
  apply preserves_bind; [apply preserves_gets|intros signal].
  apply preserves_bind; [|intros _; apply preserves_ret]. apply preserves_if; [|apply preserves_ret].
  apply preserves_unwrap, held_rx, rx_stays_env, stays_world, signal_stays.
Qed.

Lemma rx_section_stays i h fuel (input : In) port_id :
  preserves (rx_stays h) (rx_section (DQ:=handler_queue i) fuel input port_id).
Proof.
  intros r Hr. unfold rx_section. erewrite bind_Ret by done.
  destruct (dq_try_lock_queue _) as [q|] eqn:Hlock; [|done]. unfold rx_locked.
  destruct (held_rx_drain i (ce_world (rx_env r)) fuel input port_id (r, q)) as [Hq Hs].
  { apply held_locked; [apply device_step_refl|done]. }
  destruct (rx_drain _ _ _ _) as [o [r' q']]. unfold rx_stays, stays in *. simpl in *.
  eapply device_step_trans; [exact Hr|]. by apply store_device_step.
Qed.

(** *** Transmitting *)

Lemma tx_stays_world {E A} h (m : M HD E A) :
  (∀ h', device_step h' (m h').2) → preserves (tx_stays h) (on_tx_world m).
Proof.
  intros Hm. apply (preserves_zoom _ (device_step h)); [done|done|].
  intros h' Hh. eapply device_step_trans; [exact Hh|apply Hm].
Qed.

Lemma tx_stays_piece h fuel (output : Out) v : preserves (tx_stays h) (write_piece fuel output v).
Proof.
  apply preserves_loop. unfold write_turn. apply preserves_bind; [apply preserves_gets|intros m].
  apply preserves_bind; [apply preserves_attempt, tx_stays_world; intros; apply device_step_world|intros [e|n]].
  - apply preserves_if; [|apply preserves_fail]. apply preserves_bind; [|intros _; apply preserves_ret].
    apply preserves_unwrap, tx_stays_world. intros. apply device_step_world.
  - apply preserves_ret.
Qed.

(** The proof rules of the loops of [process_tx] for any invariant *)
Lemma preserves_write_descs (I : TE → Prop) fuel (output : Out) descs n :
  (∀ v, preserves I (write_piece fuel output v)) → (∀ t, I t → I (set_tx_signal true t)) →
  Forall (λ d, 0 ≤ desc_len d) descs → preserves I (write_descs fuel output descs n).
Proof.
  intros Hpiece Hset Hdescs. revert n. induction Hdescs as [|d descs Hd _ IH]; intros n; simpl; [apply preserves_ret|].
  apply preserves_bind.
  - apply preserves_attempt. intros t Ht. eapply accessed_preserves; [|exact Ht|by apply (write_desc_accessed (In:=In))].
    intros a len t0 _. apply Hpiece.
  - intros [e|k]; [apply IH|]. apply preserves_if; [apply preserves_ret|].
    apply preserves_bind; [apply preserves_assert|intros _].
    apply preserves_bind; [by apply preserves_modify|intros _; apply IH].
Qed.

Lemma held_tx_pop {E} i h : preserves (held tx_stays i h) (tx_pop (E:=E) (Chain:=Chain)).
Proof.
  intros [t q] [Hq Ht]. unfold tx_pop. simpl in *.
  pose proof (q_pop_setup (tx_mem t) q) as Hp. destruct (q_pop_descriptor_chain _ q) as [c q'].
  split; [by eapply holds_setup|done].
Qed.

Lemma held_tx_add_used i h head len : preserves (held tx_stays i h) (tx_add_used head len).
Proof.
  intros [t q] [Hq Ht]. unfold tx_add_used, zoom. simpl in *.
  pose proof (q_add_used_setup head len (q, tx_mem t)) as Hs.
  destruct (q_add_used head len _) as [o [q' m']]. split; [by eapply holds_setup|done].
Qed.

Lemma preserves_tx_chains (J : TE * Q → Prop) fuel (output : Out) :
  preserves J (tx_pop (E:=errno) (Chain:=Chain)) →
  (∀ fuel descs, Forall (λ d, 0 ≤ desc_len d) descs → preserves J (on_tx (write_descs fuel output descs 0))) →
  preserves (E:=errno) J (modify (λ t, (t.1, q_go_to_previous_position t.2))) →
  (∀ head len, preserves J (tx_add_used head len)) →
  preserves J (tx_chains fuel output).
Proof.
  intros Hpop Hwrite Hback Hadd. induction fuel as [|fuel IH]; cbn [tx_chains]; [by intros t|].
  apply preserves_bind; [done|intros [c|]; [|apply preserves_ret]].
  apply preserves_bind; [apply preserves_gets|intros m].
  apply preserves_bind; [apply Hwrite, readable_descs_len|intros n].
  apply preserves_if; [done|]. apply preserves_bind; [by apply preserves_attempt|intros _; exact IH].
Qed.

Lemma held_tx_chains i h fuel (output : Out) : preserves (held tx_stays i h) (tx_chains fuel output).
Proof.
  apply preserves_tx_chains; [apply held_tx_pop| |apply held_back|intros; apply held_tx_add_used].
  intros fuel' descs Hdescs. apply (preserves_zoom _ (tx_stays h)); [by intros t []|by intros t r [] ?|].
  apply preserves_write_descs; [intros v; apply tx_stays_piece|done|done].
Qed.

Lemma tx_section_stays i h fuel (output : Out) :
  preserves (tx_stays h) (tx_section (DQ:=handler_queue i) fuel output).
Proof.
  intros t Ht. unfold tx_section. erewrite bind_Ret by done.
  destruct (dq_try_lock_queue _) as [q|] eqn:Hlock; [|done].
  apply preserves_bind_run; [|by intros [] t1 _].
  unfold tx_locked. destruct (held_tx_chains i (tx_world t) fuel output (t, q)) as [Hq Hs].
  { apply held_locked; [apply device_step_refl|done]. }
  destruct (tx_chains _ _ _) as [o [t' q']]. unfold tx_stays in *. simpl in *.
  eapply device_step_trans; [exact Ht|]. by apply store_device_step.
Qed.

(** *** The control queues *)

Lemma held_ctl {E A} i h (m : M CE E A) :
  preserves (stays h) m → preserves (held stays i h) (on_console (Q:=Q) m).
Proof.
  intros Hm. apply (preserves_zoom _ (stays h)); [by intros t []|by intros t r [] ?|done].
Qed.

Lemma held_ctl_pop {E} i h : preserves (held stays i h) (ctl_pop (E:=E) (Chain:=Chain)).
Proof.
  intros [s q] [Hq Hs]. unfold ctl_pop. simpl in *.
  pose proof (q_pop_setup (ce_mem s) q) as Hp. destruct (q_pop_descriptor_chain _ q) as [c q'].
  split; [by eapply holds_setup|done].
Qed.

Lemma held_ctl_add_used i h head len : preserves (held stays i h) (ctl_add_used head len).
Proof.
  intros [s q] [Hq Hs]. unfold ctl_add_used, zoom. simpl in *.
  pose proof (q_add_used_setup head len (q, ce_mem s)) as Hsetup.
  destruct (q_add_used head len _) as [o [q' m']]. split; [by eapply holds_setup|done].
Qed.

Lemma held_ctl_write i h buf (w : Wr) : preserves (held stays i h) (ctl_write buf w).
Proof. intros [s q] [Hq Hs]. unfold ctl_write. simpl. by destruct (w_write buf w). Qed.

Lemma stays_pop {E} h : preserves (stays h) (queue_pop (E:=E)).
Proof. intros s Hs. by rewrite queue_pop_run. Qed.

#[local] Hint Resolve held_ctl held_ctl_pop held_ctl_add_used held_ctl_write held_back stays_push stays_pop
  : preserves.

(** The proof rule of the loop of the control receive queue for any invariant *)
Lemma preserves_deliver (J : CE * Q → Prop) fuel irq :
  preserves J (ctl_pop (E:=errno) (Chain:=Chain)) → preserves J (on_console (queue_pop (E:=errno))) →
  preserves (E:=errno) J (modify (λ t, (t.1, q_go_to_previous_position t.2))) →
  (∀ buf (w : Wr), preserves J (ctl_write buf w)) → (∀ head len, preserves J (ctl_add_used head len)) →
  preserves J (deliver (R:=R) (Wr:=Wr) fuel irq).
Proof.
  intros Hpop Hmsg Hback Hwrite Hadd. revert irq. induction fuel as [|fuel IH]; intros irq; simpl; [by intros t|].
  apply preserves_bind; [done|intros [c|]; [|auto with preserves]].
  apply preserves_bind; [done|intros [buf|]; [|auto with preserves]].
  apply preserves_bind; [auto with preserves|intros m].
  apply preserves_bind; [auto with preserves|intros w].
  apply preserves_bind; [auto with preserves|intros [e|n]]; [auto|].
  apply preserves_if; eauto 8 with preserves.
Qed.

Lemma held_deliver i h fuel irq : preserves (held stays i h) (deliver (R:=R) (Wr:=Wr) fuel irq).
Proof. apply preserves_deliver; auto with preserves. Qed.

Lemma stays_command h (ports : list P) cmd : preserves (stays h) (handle_command ports cmd).
Proof.
  unfold handle_command, port_ready, port_of, port_add, mark_console_port, port_open, console_resize,
    port_name, push_msg, push_vec. cbn [get_win_size]. eauto 12 with preserves.
Qed.

(** The proof rule of the loop of the control transmit queue for any invariant *)
Lemma preserves_commands (J : CE * Q → Prop) fuel (ports : list P) irq :
  preserves J (ctl_pop (E:=errno) (Chain:=Chain)) → (∀ head len, preserves J (ctl_add_used head len)) →
  (∀ cmd, preserves J (on_console (handle_command ports cmd))) → preserves J (commands (R:=R) fuel ports irq).
Proof.
  intros Hpop Hadd Hcmd. revert irq. induction fuel as [|fuel IH]; intros irq; simpl; [by intros t|].
  apply preserves_bind; [done|intros [c|]; [|apply preserves_ret]].
  apply preserves_bind; [apply preserves_gets|intros m].
  apply preserves_bind; [apply preserves_lift|intros r].
  destruct (read_obj r).1 as [cmd|e| |]; [|apply IH|by intros t|by intros t].
  apply preserves_bind; [by apply preserves_attempt|intros _].
  apply preserves_bind; [done|intros _; apply IH].
Qed.

Lemma held_commands i h fuel (ports : list P) irq :
  preserves (held stays i h) (commands (R:=R) fuel ports irq).
Proof.
  apply preserves_commands; [apply held_ctl_pop|intros; apply held_ctl_add_used|].
  intros cmd. apply held_ctl, stays_command.
Qed.

(** The whole of a section that works with the lock of a control queue *)
Lemma ctl_locked_stays {A} i h (m : M (CE * Q) errno A) s q :
  (∀ h, preserves (held stays i h) m) → stays h s →
  dq_try_lock_queue (DeviceQueue:=handler_queue i) (ce_world s) = Some q →
  stays h (ctl_locked (DQ:=handler_queue i) q m s).2.
Proof.
  intros Hm Hs Hlock. unfold ctl_locked.
  destruct (Hm (ce_world s) (s, q)) as [Hq Hs'].
  { apply held_locked; [apply device_step_refl|done]. }
  destruct (m (s, q)) as [o [s' q']]. unfold stays in *. simpl in *.
  eapply device_step_trans; [exact Hs|]. by apply store_device_step.
Qed.

Lemma held_and_signal i h (m : M (CE * Q) errno bool) :
  preserves (held stays i h) m →
  preserves (held stays i h)
    (let! raise_irq := m in
     if raise_irq : bool then unwrap (E':=errno) (on_console (on_world (dq_signal_used_queue (DeviceQueue:=handler_queue i))))
     else ret tt).
Proof.
  intros Hm. apply preserves_bind; [done|intros irq]. apply preserves_if; [|apply preserves_ret].
  apply preserves_unwrap, held_ctl, stays_world, signal_stays.
Qed.

Lemma section_stays {E A} (m : M CE E A) h : section m → preserves (stays h) m.
Proof.
  intros Hsec. destruct Hsec as [E A m|i epoll token|i|i|E p|i fuel input port_id eof signal
    |i fuel output signal|i fuel|i fuel ports].
  - apply stays_world. intros. apply device_step_world.
  - apply stays_world. intros. apply device_step_vring, register_device_vring.
  - apply stays_world. intros. apply device_step_vring, read_kick_device_vring.
  - apply stays_world, signal_stays.
  - apply stays_push.
  - apply (preserves_zoom _ (rx_stays h)); [done|done|apply rx_section_stays].
  - apply (preserves_zoom _ (tx_stays h)); [done|done|apply tx_section_stays].
  - intros s Hs. unfold control_rx_section. erewrite bind_Ret by done.
    destruct (dq_try_lock_queue _) eqn:Hlock; [|done]. apply ctl_locked_stays; [|done|done].
    intros h'. apply held_and_signal, held_deliver.
  - intros s Hs. unfold control_tx_section. erewrite bind_Ret by done.
    destruct (dq_try_lock_queue _) eqn:Hlock; [|done]. apply ctl_locked_stays; [|done|done].
    intros h'. apply held_and_signal, held_commands.
Qed.

(** ** The threads are made of sections *)

Section threads.
Context (s0 : CE).

(** What the threads, one section after another, make of [s0] *)
Definition reached s : Prop := rtc (console_step None) s0 s.

Lemma reached_section {E A} (m : M CE E A) : section m → preserves reached m.
Proof. intros Hm s Hs. eapply rtc_r; [exact Hs|by apply console_section]. Qed.

(** A program of the world alone, from a given memory and messages on *)
Definition reached_at mem control h : Prop := reached (MkConsoleEnv h mem control).

Lemma reached_world {E A} mem control (m : M W E A) :
  preserves (reached_at mem control) (on_handler_world m).
Proof.
  intros h Hh. pose proof (reached_section _ (sec_world m) _ Hh) as Hs.
  unfold on_world, zoom in Hs. simpl in Hs. unfold reached_at. by destruct (on_handler_world m h).
Qed.

Lemma reached_on_world {E A} (m : M HD E A) :
  (∀ mem control, preserves (reached_at mem control) m) → preserves reached (on_world m).
Proof.
  intros Hm [h mem control] Hs. specialize (Hm mem control h Hs). unfold on_world, zoom.
  simpl. by destruct (m h).
Qed.

Lemma reached_em_new mem control : preserves (reached_at mem control) em_new.
Proof. apply preserves_bind; [apply reached_world|intros ep; apply preserves_ret]. Qed.

Lemma reached_retry mem control fuel em timeout slots :
  preserves (reached_at mem control) (wait_retry fuel em timeout slots).
Proof.
  apply preserves_loop. intros h Hh. unfold wait_turn.
  pose proof (reached_world mem control (epoll_wait (em_epoll em) timeout slots) h Hh) as Hw.
  simpl. destruct (on_handler_world _ h) as [[evs|e| |] h']; [done| |done..]. by case_bool_decide.
Qed.

Lemma reached_wait {T} `{EventToken T} mem control fuel em :
  preserves (reached_at mem control) (em_wait (T:=T) fuel em).
Proof. apply preserves_bind; [apply reached_retry|intros es; apply preserves_lift]. Qed.

Lemma reached_wait_one {T} `{EventToken T} mem control fuel em :
  preserves (reached_at mem control) (em_wait_one (T:=T) fuel em).
Proof.
  apply preserves_bind; [apply reached_retry|intros es].
  apply preserves_bind; [apply preserves_assert|intros _].
  apply preserves_bind; [apply preserves_unwrap_opt|intros ev; apply preserves_lift].
Qed.

Lemma reached_add_event {T} `{EventToken T} mem control em fd (token : T) :
  preserves (reached_at mem control) (em_add em (MkEventFd fd) token).
Proof. apply reached_world. Qed.

Lemma reached_add_port {T} `{EventToken T} mem control em (event : PortEvent) (token : T) :
  preserves (reached_at mem control) (em_add em event token).
Proof. apply reached_world. Qed.

Lemma reached_register i epoll token :
  preserves reached (on_world (dq_kick_register (DeviceQueue:=handler_queue i) epoll token)).
Proof. apply reached_section, sec_register. Qed.

Lemma reached_read_kick i : preserves reached (on_world (dq_read_kick (DeviceQueue:=handler_queue i))).
Proof. apply reached_section, sec_read_kick. Qed.

Lemma reached_signal i : preserves reached (on_world (dq_signal_used_queue (DeviceQueue:=handler_queue i))).
Proof. apply reached_section, sec_signal. Qed.

(** *** A receiving thread *)

Definition rx_reached (r : RE) : Prop := reached (rx_env r).

Lemma rx_reached_env {E A} (m : M CE E A) : preserves reached m → preserves rx_reached (on_rx_env m).
Proof. intros Hm. by apply (preserves_zoom _ reached). Qed.

Lemma rx_reached_section i fuel (input : In) port_id :
  preserves rx_reached (rx_section (DQ:=handler_queue i) fuel input port_id).
Proof.
  intros [s eof signal] Hs. unfold rx_reached in *.
  pose proof (reached_section _ (sec_rx i fuel input port_id eof signal) s Hs) as Hr.
  unfold with_rx, zoom in Hr. by destruct (rx_section _ _ _ _).
Qed.

Lemma reached_process_rx (arc_of : Z → EpollArc) i fuel (input : In) port_id stopfd :
  preserves reached (ProcessRx.process_rx (DQ:=handler_queue i) arc_of fuel input port_id stopfd).
Proof.
  apply preserves_bind; [apply preserves_unwrap, reached_on_world; intros; apply reached_em_new|intros em].
  apply preserves_bind; [apply preserves_unwrap, reached_on_world; intros; apply reached_add_event|intros _].
  apply preserves_bind; [apply preserves_unwrap, reached_register|intros _].
  apply preserves_bind; [apply preserves_unwrap, reached_on_world; intros; apply reached_add_port|intros _].
  apply (preserves_zoom _ rx_reached); [done|done|]. apply preserves_loop.
  apply preserves_bind; [|intros _; apply preserves_bind].
  - apply preserves_bind; [apply preserves_gets|intros signal]. apply preserves_if; [|apply preserves_ret].
    apply preserves_bind; [apply preserves_unwrap, rx_reached_env, reached_signal|intros _].
    by apply preserves_modify.
  - apply preserves_unwrap, rx_reached_env, reached_on_world. intros. apply reached_wait_one.
  - intros [[] ? ? ?]; simpl; try apply preserves_ret;
      (apply preserves_bind; [apply preserves_unwrap, rx_reached_env, reached_read_kick|intros enabled];
       apply preserves_if; [apply preserves_ret|apply rx_reached_section]).
Qed.

(** *** A transmitting thread *)

Definition tx_reached control (t : TE) : Prop := reached (MkConsoleEnv (tx_world t) (tx_mem t) control).

Lemma tx_reached_world {E A} control (m : M HD E A) :
  preserves reached (on_world m) → preserves (tx_reached control) (on_tx_world m).
Proof.
  intros Hm [h mem signal] Hs. specialize (Hm _ Hs). unfold on_world, on_tx_world, zoom in *. simpl in *.
  by destruct (m h).
Qed.

Lemma tx_reached_section control i fuel (output : Out) :
  preserves (tx_reached control) (tx_section (DQ:=handler_queue i) fuel output).
Proof.
  intros [h mem signal] Hs.
  pose proof (reached_section _ (sec_tx i fuel output signal) _ Hs) as Hr.
  unfold with_tx, zoom in Hr. simpl in Hr. unfold tx_reached. by destruct (tx_section _ _ _).
Qed.

Lemma reached_process_tx (arc_of : Z → EpollArc) i fuel (output : Out) stopfd :
  preserves reached (ProcessTx.process_tx (DQ:=handler_queue i) arc_of fuel output stopfd).
Proof.
  apply preserves_bind; [apply preserves_unwrap, reached_on_world; intros; apply reached_em_new|intros em].
  apply preserves_bind; [apply preserves_unwrap, reached_on_world; intros; apply reached_add_event|intros _].
  apply preserves_bind; [apply preserves_unwrap, reached_register|intros _].
  apply preserves_bind; [apply preserves_unwrap, reached_on_world; intros; apply reached_add_port|intros _].
  intros [h mem control] Hs. unfold zoom. cbn [ce_world ce_mem ce_control].
  assert (preserves (tx_reached control) (loop fuel (tx_turn (DQ:=handler_queue i) fuel em output))) as Hloop.
  { apply preserves_loop. apply preserves_bind; [|intros _; apply preserves_bind].
    - apply preserves_bind; [apply preserves_gets|intros signal]. apply preserves_if; [|apply preserves_ret].
      apply preserves_bind; [apply preserves_unwrap, tx_reached_world, reached_signal|intros _].
      by apply preserves_modify.
    - apply preserves_unwrap, tx_reached_world, reached_on_world. intros. apply reached_wait_one.
    - intros [[] ? ? ?]; simpl; try apply preserves_ret;
        (apply preserves_bind; [apply preserves_unwrap, tx_reached_world, reached_read_kick|intros enabled];
         apply preserves_if; [apply preserves_ret|apply tx_reached_section]). }
  specialize (Hloop (MkTxEnv h mem false) Hs). by destruct (loop _ _ _).
Qed.

(** *** The main worker *)

Lemma reached_events (arc_of : Z → EpollArc) fuel (w : MainWorker nat In Out) events :
  preserves reached (handle_events (R:=R) (Wr:=Wr) handler_queue fuel w events).
Proof.
  induction events as [|[token ? ? ?] events IH]; simpl; [apply preserves_ret|].
  apply preserves_bind; [apply preserves_gets|intros control].
  apply preserves_bind; [apply preserves_unwrap, reached_section; exact (sec_world (efd_write _ _))|intros _].
  destruct token; [| |apply preserves_ret]; (apply preserves_bind; [|intros _; exact IH]).
  - apply preserves_bind; [apply preserves_unwrap, reached_read_kick|intros kick].
    apply preserves_if; [apply preserves_ret|]. apply preserves_bind; [apply preserves_gets|intros control'].
    apply preserves_bind; [apply preserves_attempt, reached_section; exact (sec_world (efd_read _))|intros _].
    apply reached_section, sec_control_rx.
  - apply preserves_bind; [apply preserves_unwrap, reached_read_kick|intros kick].
    apply preserves_if; [apply preserves_ret|]. apply reached_section, sec_control_tx.
Qed.

Lemma reached_main_worker (arc_of : Z → EpollArc) fuel (w : MainWorker nat In Out) :
  preserves reached (main_worker_run (R:=R) (Wr:=Wr) handler_queue arc_of fuel w).
Proof.
  apply preserves_bind; [apply preserves_unwrap, reached_on_world; intros; apply reached_em_new|intros em].
  apply preserves_bind; [apply preserves_unwrap, reached_register|intros _].
  apply preserves_bind; [apply preserves_unwrap, reached_register|intros _].
  apply preserves_bind; [apply preserves_gets|intros control].
  do 2 (apply preserves_bind; [apply preserves_unwrap, reached_on_world; intros; apply reached_add_event|intros _]).
  apply preserves_loop. apply preserves_bind; [|intros events].
  - apply preserves_unwrap, reached_on_world. intros. apply reached_wait.
  - apply preserves_bind; [by apply reached_events|intros _; apply preserves_ret].
Qed.
End threads.

(** The programs of the threads, run on their own, are sequences of steps of the system:
    nothing that they do is left out of [console_step]. *)
Theorem console_threads_step (arc_of : Z → EpollArc) s fuel stopfd :
  (∀ i (input : In) port_id, rtc (console_step None) s
    (ProcessRx.process_rx (DQ:=handler_queue i) arc_of fuel input port_id stopfd s).2) ∧
  (∀ i (output : Out), rtc (console_step None) s
    (ProcessTx.process_tx (DQ:=handler_queue i) arc_of fuel output stopfd s).2) ∧
  (∀ w : MainWorker nat In Out, rtc (console_step None) s
    (main_worker_run (R:=R) (Wr:=Wr) handler_queue arc_of fuel w s).2).
Proof.
  split_and!; intros.
  - apply (reached_process_rx s arc_of i), rtc_refl.
  - apply (reached_process_tx s arc_of i), rtc_refl.
  - apply (reached_main_worker s arc_of), rtc_refl.
Qed.

(** ** Runs of the system *)

Lemma abs_guest_mem mem h : abs (set_guest_mem mem h) = abs h.
Proof. by destruct h. Qed.

Lemma console_simulation calls l s s' :
  device_calls (Mem:=Mem) (Q:=Q) (Sock:=Sock) calls →
  console_step l s s' → spec_step l (abs (ce_world s)) (abs (ce_world s')).
Proof.
  intros Hcalls Hstep. destruct Hstep as [r s Ho|E A m s Hm|mem s].
  - rewrite <-(abs_guest_mem (ce_mem s)). unfold on_handler, zoom in *.
    pose proof (handler_request checks r (set_guest_mem (ce_mem s) (ce_world s))) as Hreq.
    destruct (reply_to checks r _) as [o h']. by apply (handler_simulation checks calls Hcalls), Hreq.
  - apply (handler_simulation checks calls Hcalls), handler_device. apply section_stays; [done|apply device_step_refl].
  - apply (handler_simulation checks calls Hcalls), handler_device, device_step_refl.
Qed.

(** Claim C3. The handler and the threads of the console implement the specification of a
    session together: however the front-end's requests, the main worker, the receiving and
    the transmitting threads of the ports and the guest interleave, every run of the system
    is a run of the specification, in which a request has the answer and the effect that it
    has there, and the threads only move the positions of rings that are running. *)
Theorem console_system_refines calls device mem env h0 control ls s :
  device_calls (Mem:=Mem) (Q:=Q) (Sock:=Sock) calls →
  handler_new (B:=B) (W:=W) device mem env = Ret h0 →
  runs console_step ls (MkConsoleEnv h0 (gm_mem mem) control) s →
  runs spec_step ls (spec_init (vud_avail_features device) (qa_max_size <$> vud_queues device))
    (abs (ce_world s)).
Proof.
  intros Hcalls Hnew Hruns. rewrite <-(handler_new_init _ _ _ _ Hnew).
  change h0 with (ce_world (MkConsoleEnv h0 (gm_mem mem) control)).
  apply (runs_simulation console_step spec_step (λ s, abs (ce_world s))); [|done].
  intros l s1 s2. by eapply console_simulation.
Qed.
End system.
