(* ===== verification/ConsoleFrame.v ===== *)
(** * What the threads of the console do elsewhere leaves a ring alone

    [console_messages_fifo], [output_stream] and their like follow one ring through runs of
    the system of [ConsoleSystem]. The other threads work on rings of their own, and on the
    world: the sections that do not belong to ring [i] ([elsewhere]) leave it, its queue and
    its two rings in guest memory as they are, as long as the driver has put its rings in
    different places ([QueuesApart]); and with them whatever about the world none of the calls
    of these sections changes ([world_kept]). So do the requests of the front-end that spare
    the ring ([request_frames]). *)

From S2P Require Import Prelude EventToken Epoll EventManager VirtQueue Bitmap Vring VhostBackend VhostHandler.
From S2P Require Import SessionSpec SessionRefinement DeviceRings RingFrame Codec PortQueueMapping ConsoleControl PortIo.
From S2P Require Import ProcessRx ProcessTx ConsolePort ConsoleWorker ConsoleSystem.

(** Something about the world that no call of the threads changes, but for those to the
    outputs that are [mine]. *)
Record world_kept {W Mem In Out : Type} `{EpollOps W} `{!EventFdOps W} `{!PortInput W Mem In}
    `{!PortOutput W Mem Out} (mine : Out → Prop) (Keep : W → Prop) : Prop := {
  wk_ctl ep op fd ev : preserves Keep (epoll_ctl ep op fd ev);
  wk_efd_read fd : preserves Keep (efd_read fd);
  wk_efd_write fd n : preserves Keep (efd_write fd n);
  wk_pi_read (input : In) v w (m : Mem) : Keep w → Keep (pi_read_volatile input v (w, m)).2.1;
  wk_po_write (output : Out) v (m : Mem) : ¬ mine output → preserves Keep (po_write_volatile output v m);
  wk_po_wait (output : Out) : ¬ mine output → preserves Keep (po_wait_until_writable (Mem:=Mem) output);
}.

Section frame.
Context {D Mem Q W B Sock Region Mmap File Chain R Wr In Out : Type}.
Context `{EpollLaws W} `{EventSetBits} `{!EventFdOps W, !EventFdLaws W, !EventFdMake W}
  `{!QueueConfig Q Mem, !QueueConfigLaws Q Mem}
  `{VhostUserBits} `{!VhostUserDevice D Mem (Vring Q) Sock} `{!BitmapReplace B}
  `{!GuestMemory Mem Region Mmap File}.
Context `{!QueueProc Q Mem Chain, !QueueProcLaws Q Mem Chain, !QueuesApart Q Mem Chain}
  `{!ChainDescs Mem Chain, !ChainDescsLaws Mem Chain} `{!GuestAccess Mem, !GuestAccessLaws Mem}
  `{!GuestAccessQueue Q Mem Chain}
  `{!PortInput W Mem In, !PortOutput W Mem Out, !PortStreams W In Out,
    !PortInputLaws W Mem In Out, !PortOutputLaws W Mem In Out}
  `{ReaderOps R} `{WriterOps Wr} `{!ChainStreams Mem Chain R Wr, !ChainStreamsLaws Q Mem Chain R Wr}.
Context (checks : bool).

Local Notation HD := (VhostUserHandler D Mem Q W B).
Local Notation CE := (ConsoleEnv HD Mem).
Local Notation RE := (RxEnv HD Mem).
Local Notation TE := (TxEnv HD Mem).
Local Notation P := (Port nat In Out).
Implicit Types (h : HD) (m : Mem) (s : CE).

Context (i : nat) (mine : Out → Prop) (Keep : W → Prop).
Context (Hkept : world_kept (Mem:=Mem) (In:=In) mine Keep).

(** The sections that do not belong to ring [i] *)
Inductive elsewhere : ∀ {E A}, M CE E A → Prop :=
| el_world {E A} (m : M W E A) : preserves Keep m → elsewhere (on_world (on_handler_world m))
| el_register j epoll token : elsewhere (on_world (dq_kick_register (DeviceQueue:=handler_queue j) epoll token))
| el_read_kick j : elsewhere (on_world (dq_read_kick (DeviceQueue:=handler_queue j)))
| el_signal j : elsewhere (on_world (dq_signal_used_queue (DeviceQueue:=handler_queue j)))
| el_push {E} p : elsewhere (push_payload (E:=E) p)
| el_rx j fuel (input : In) port_id eof signal :
    j ≠ i → elsewhere (with_rx eof signal (rx_section (DQ:=handler_queue j) fuel input port_id))
| el_tx j fuel (output : Out) signal :
    j ≠ i → ¬ mine output → elsewhere (with_tx signal (tx_section (DQ:=handler_queue j) fuel output))
| el_control_rx fuel :
    i ≠ CONTROL_RXQ_INDEX →
    elsewhere (control_rx_section (R:=R) (Wr:=Wr) (DQ:=handler_queue CONTROL_RXQ_INDEX) fuel)
| el_control_tx j fuel (ports : list P) :
    j ≠ i → elsewhere (control_tx_section (R:=R) (DQ:=handler_queue j) fuel ports).

(** They are sections of the system. *)
Lemma elsewhere_section {E A} (m : M CE E A) :
  elsewhere m → section (R:=R) (Wr:=Wr) (In:=In) (Out:=Out) m.
Proof. destruct 1; constructor. Qed.

(** ** A ring that is left alone *)

Section ring.
Context (q : Q) (chains : list Chain) (entries : list (Z * Z)).

Definition framed h m : Prop :=
  dq_try_lock_queue (DeviceQueue:=handler_queue i) h = Some q ∧
  q_avail q m = chains ∧ q_used q m = entries ∧ Keep (env_world (h_env h)).

Lemma framed_vring {E A} j (f : M (VE W Q) E A) h m :
  keeps_queue f → preserves (keeps_world Keep) f → framed h m → framed (on_vring j f h).2 m.
Proof.
  intros Hq Hw (Hl & Ha & Hu & Hk). unfold framed. rewrite frame_lock by done. split_and!; [done..|].
  unfold on_vring. destruct (h_vrings h !! j) as [v|]; [|done].
  specialize (Hw (v, h_env h) Hk). by destruct (f (v, h_env h)) as [o [v' env']].
Qed.

Lemma framed_env h m w : Keep w → framed h m → framed (set_env (MkEnv (env_live (h_env h)) w) h) m.
Proof. by intros Hk (Hl & Ha & Hu & _). Qed.

Lemma framed_handler_world {E A} (f : M W E A) h m :
  preserves Keep f → framed h m → framed (on_handler_world f h).2 m.
Proof.
  intros Hf Hh. pose proof (Hf (env_world (h_env h)) ltac:(apply Hh)) as Hk.
  unfold on_handler_world, zoom. destruct (f _) as [o w]. by apply framed_env.
Qed.

Lemma framed_signal j h m : framed h m → framed (dq_signal_used_queue (DeviceQueue:=handler_queue j) h).2 m.
Proof using Type*.
  apply framed_vring; [apply keeps_signal|]. unfold signal_used_queue.
  apply preserves_bind; [apply preserves_gets|intros [fd|]; [|apply preserves_ret]].
  apply world_keeps, (wk_efd_write _ _ Hkept).
Qed.

Lemma framed_register j epoll token h m :
  framed h m → framed (dq_kick_register (DeviceQueue:=handler_queue j) epoll token h).2 m.
Proof using Type*.
  apply framed_vring; [apply keeps_register|]. unfold kick_register_self.
  apply preserves_bind; [apply preserves_gets|intros [k|]; [|by intros s]].
  apply preserves_bind; [apply world_keeps, (wk_ctl _ _ Hkept)|intros _; by intros s].
Qed.

Lemma framed_read_kick j h m : framed h m → framed (dq_read_kick (DeviceQueue:=handler_queue j) h).2 m.
Proof using Type*.
  apply framed_vring; [apply keeps_read_kick|]. unfold read_kick.
  repeat first [ apply preserves_ret | apply preserves_gets | apply preserves_fail
    | apply world_keeps, (wk_efd_read _ _ Hkept) | apply preserves_attempt | apply preserves_bind
    | case_match | match goal with |- ∀ _, _ => intros ? end ].
Qed.

Lemma framed_store j q' h m :
  i ≠ j → framed h m → framed (dq_store (DeviceQueue:=handler_queue j) q' h) m.
Proof.
  intros Hne (Hl & Ha & Hu & Hk). unfold framed. rewrite frame_store by done. split_and!; [done..|].
  simpl. unfold on_vring. by destruct (h_vrings h !! j).
Qed.

(** *** Sections *)

Definition frames s : Prop := framed (ce_world s) (ce_mem s).
Definition rx_frames (r : RE) : Prop := frames (rx_env r).
Definition tx_frames (t : TE) : Prop := framed (tx_world t) (tx_mem t).

(** A thread that holds the lock of another ring, with that ring's queue *)
Definition beside {St : Type} (I : St → Prop) (t : St * Q) : Prop := I t.1 ∧ apart q t.2.

Lemma frames_world {E A} (f : M HD E A) :
  (∀ h m, framed h m → framed (f h).2 m) → preserves frames (on_world f).
Proof. intros Hf s Hs. specialize (Hf _ _ Hs). unfold on_world, zoom. by destruct (f (ce_world s)). Qed.

Lemma frames_push {E} p : preserves frames (push_payload (E:=E) p).
Proof using Type*.
  intros s Hs. rewrite push_payload_run. apply (framed_handler_world (efd_write _ 1)); [|exact Hs].
  apply (wk_efd_write _ _ Hkept).
Qed.

Lemma beside_fst {St E A} (I : St → Prop) (f : M St E A) :
  preserves I f → preserves (beside I) (zoom fst (λ x t, (x, t.2)) f).
Proof. intros Hf. by apply (preserves_zoom _ I); [intros t [? _]|intros t x [_ Hq]|]. Qed.

Lemma beside_back {St E} (I : St → Prop) :
  preserves (E:=E) (beside I) (modify (λ t, (t.1, q_go_to_previous_position t.2))).
Proof. apply preserves_modify. intros [s q'] [Hs Hq]. split; [done|by apply apart_back]. Qed.

Lemma framed_add_used head len q' h m o q1 m1 :
  apart q q' → q_add_used head len (q', m) = (o, (q1, m1)) → framed h m → framed h m1 ∧ apart q q1.
Proof.
  intros Hq Hadd (Hl & Ha & Hu & Hk). destruct (apart_add_used _ _ _ _ _ _ _ _ Hq Hadd) as (Hq1 & Ha1 & Hu1).
  split; [|done]. by split_and!; rewrite ?Ha1, ?Hu1.
Qed.

(** *** Receiving *)

Lemma frames_read (input : In) v r : 0 ≤ vs_len v → rx_frames r → rx_frames (read_piece input v r).2.
Proof using Type*.
  intros Hlen Hr. rewrite (read_piece_run (In:=In) (Out:=Out)). unfold input_call.
  cut (rx_frames (input_call input v r).2).
  { unfold input_call. destruct (pi_read_volatile input v _) as [[n|e| |] [w m]]; repeat case_bool_decide; done. }
  destruct Hr as (Hl & Ha & Hu & Hk). unfold input_call. simpl. unfold zoom. simpl.
  pose proof (wk_pi_read _ _ Hkept input v _ (rx_mem r) Hk) as Hk'.
  destruct (pi_read_result (Out:=Out) input v (env_world (h_env (ce_world (rx_env r))), rx_mem r))
    as [(n & [w m] & Hrun)|(e & [w m] & Hrun)]; rewrite Hrun in Hk' |- *; simpl.
  - apply (pi_read_ok (Out:=Out)) in Hrun as (data & _ & _ & _ & ->); [|done].
    split_and!; [done| | |done]; simpl; rewrite <-?Ha, <-?Hu.
    + by rewrite (proj1 (mem_mark_views _ _ _ _ _)), (proj1 (mem_fill_views _ _ _ _)).
    + by rewrite (proj2 (mem_mark_views _ _ _ _ _)), (proj2 (mem_fill_views _ _ _ _)).
  - apply (pi_read_fail (Out:=Out)) in Hrun as (_ & data & _ & ->); [|done].
    split_and!; [done| | |done]; simpl; rewrite <-?Ha, <-?Hu; case_bool_decide.
    + by rewrite (proj1 (mem_fill_views _ _ _ _)).
    + by rewrite (proj1 (mem_mark_views _ _ _ _ _)), (proj1 (mem_fill_views _ _ _ _)).
    + by rewrite (proj2 (mem_fill_views _ _ _ _)).
    + by rewrite (proj2 (mem_mark_views _ _ _ _ _)), (proj2 (mem_fill_views _ _ _ _)).
Qed.

Lemma beside_rx_env {E A} (f : M CE E A) :
  preserves frames f → preserves (beside rx_frames) (on_rx (Q:=Q) (on_rx_env f)).
Proof. intros Hf. by apply beside_fst, (preserves_zoom _ frames). Qed.

Lemma beside_rx_drain j fuel (input : In) port_id :
  preserves (beside rx_frames) (rx_drain (DQ:=handler_queue j) fuel input port_id).
Proof using Type*.
  apply preserves_bind; [|intros []; try apply preserves_ret].
  - apply preserves_rx_chains; [| |apply beside_back| |by apply beside_rx_env, frames_push].
    + intros [r q'] [Hr Hq]. unfold rx_pop. simpl in *.
      pose proof (apart_pop (ce_mem (rx_env r)) q q' Hq) as Hp.
      by destruct (q_pop_descriptor_chain _ q') as [c q1].
    + intros descs Hdescs. by apply beside_fst, preserves_read_descs; [apply frames_read|..].
    + intros head len [r q'] [Hr Hq]. unfold rx_add_used, zoom. simpl in *.
      destruct (q_add_used head len _) as [o [q1 m1]] eqn:Hadd.
      exact (framed_add_used _ _ _ _ _ _ _ _ Hq Hadd Hr).
  - apply preserves_bind; [apply preserves_gets|intros signal].
    apply preserves_bind; [|intros _; apply preserves_ret]. apply preserves_if; [|apply preserves_ret].
    apply preserves_unwrap, beside_rx_env, frames_world, framed_signal.
Qed.

(** *** Transmitting *)

Lemma frames_write (output : Out) fuel v : ¬ mine output → preserves tx_frames (write_piece fuel output v).
Proof using Type*.
  intros Hout. assert (∀ E A (f : M W E A), preserves Keep f → preserves tx_frames (on_tx_world (on_handler_world f))) as Hf.
  { intros E A f Hf t Ht. unfold on_tx_world, zoom. pose proof (framed_handler_world f _ _ Hf Ht) as Hw.
    by destruct (on_handler_world f (tx_world t)). }
  apply preserves_loop. unfold write_turn. apply preserves_bind; [apply preserves_gets|intros m].
  apply preserves_bind; [apply preserves_attempt, Hf, (wk_po_write _ _ Hkept output v m Hout)|intros [e|n]].
  - apply preserves_if; [|apply preserves_fail]. apply preserves_bind; [|intros _; apply preserves_ret].
    apply preserves_unwrap, Hf, (wk_po_wait _ _ Hkept output Hout).
  - apply preserves_ret.
Qed.

Lemma beside_tx_chains fuel (output : Out) : ¬ mine output → preserves (beside tx_frames) (tx_chains fuel output).
Proof using Type*.
  intros Hout. apply preserves_tx_chains; [| |apply beside_back|].
  - intros [t q'] [Ht Hq]. unfold tx_pop. simpl in *. pose proof (apart_pop (tx_mem t) q q' Hq) as Hp.
    by destruct (q_pop_descriptor_chain _ q') as [c q1].
  - intros fuel' descs Hdescs. apply beside_fst, preserves_write_descs; [intros v; by apply frames_write|done|done].
  - intros head len [t q'] [Ht Hq]. unfold tx_add_used, zoom. simpl in *.
    destruct (q_add_used head len _) as [o [q1 m1]] eqn:Hadd.
    exact (framed_add_used _ _ _ _ _ _ _ _ Hq Hadd Ht).
Qed.

(** *** The control queues *)

Lemma beside_console {E A} (f : M CE E A) : preserves frames f → preserves (beside frames) (on_console (Q:=Q) f).
Proof. apply beside_fst. Qed.

Lemma beside_ctl_pop {E} : preserves (beside frames) (ctl_pop (E:=E) (Chain:=Chain)).
Proof.
  intros [s q'] [Hs Hq]. unfold ctl_pop. simpl in *. pose proof (apart_pop (ce_mem s) q q' Hq) as Hp.
  by destruct (q_pop_descriptor_chain _ q') as [c q1].
Qed.

Lemma beside_ctl_add_used head len : preserves (beside frames) (ctl_add_used head len).
Proof.
  intros [s q'] [Hs Hq]. unfold ctl_add_used, zoom. simpl in *.
  destruct (q_add_used head len _) as [o [q1 m1]] eqn:Hadd.
  exact (framed_add_used _ _ _ _ _ _ _ _ Hq Hadd Hs).
Qed.

Lemma beside_deliver fuel irq : preserves (beside frames) (deliver (R:=R) (Wr:=Wr) fuel irq).
Proof using Type*.
  apply preserves_deliver; [apply beside_ctl_pop| |apply beside_back| |apply beside_ctl_add_used].
  - apply beside_console. intros s Hs. by rewrite queue_pop_run.
  - intros buf w [s q'] [(Hl & Ha & Hu & Hk) Hq]. unfold ctl_write. destruct (w_write buf w) as [o w']. simpl.
    split; [|done]. destruct (chain_commit_views w' q (ce_mem s)) as [Ha' Hu'].
    by split_and!; simpl; rewrite ?Ha', ?Hu'.
Qed.

Lemma frames_command (ports : list P) cmd : preserves frames (handle_command ports cmd).
Proof using Type*.
  pose proof (@frames_push errno) as Hpush.
  unfold handle_command, port_ready, port_of, port_add, mark_console_port, port_open, console_resize,
    port_name, push_msg, push_vec. cbn [get_win_size]. eauto 12 with preserves.
Qed.

Lemma beside_commands fuel (ports : list P) irq : preserves (beside frames) (commands (R:=R) fuel ports irq).
Proof using Type*.
  apply preserves_commands; [apply beside_ctl_pop|apply beside_ctl_add_used|].
  intros cmd. apply beside_console, frames_command.
Qed.

(** The lock of a control queue is held, the driver is notified, and the lock released. *)
Lemma frames_ctl_locked j (f : M (CE * Q) errno bool) q' s :
  i ≠ j → apart q q' → preserves (beside frames) f → frames s →
  frames (ctl_locked (DQ:=handler_queue j) q'
    (let! raise_irq := f in
     if raise_irq : bool then unwrap (E':=errno) (on_console (on_world (dq_signal_used_queue (DeviceQueue:=handler_queue j))))
     else ret tt) s).2.
Proof using Type*.
  intros Hne Hq Hf Hs. unfold ctl_locked.
  assert (preserves (beside frames) (let! raise_irq := f in
    if raise_irq : bool then unwrap (E':=errno) (on_console (on_world (dq_signal_used_queue (DeviceQueue:=handler_queue j))))
    else ret tt)) as Hrun.
  { apply preserves_bind; [done|intros irq]. apply preserves_if; [|apply preserves_ret].
    apply preserves_unwrap, beside_console, frames_world, framed_signal. }
  destruct (Hrun (s, q') (conj Hs Hq)) as [Hs' _]. destruct (bind _ _ (s, q')) as [o [s1 q1]].
  by apply framed_store.
Qed.

(** ** A section elsewhere *)

(** Another ring that is running lies apart from this one. *)
Definition ring_apart h : Prop :=
  ∀ j q', j ≠ i → dq_try_lock_queue (DeviceQueue:=handler_queue j) h = Some q' → apart q q'.

Lemma elsewhere_frames {E A} (f : M CE E A) s :
  elsewhere f → ring_apart (ce_world s) → frames s → frames (f s).2.
Proof using Type*.
  intros Hf Hapart Hs. destruct Hf as [E A f Hf|j epoll token|j|j|E p|j fuel input port_id eof signal Hne
    |j fuel output signal Hne Hout|fuel Hne|j fuel ports Hne].
  - apply frames_world; [|done]. intros h m. by apply framed_handler_world.
  - by apply frames_world; [apply framed_register|].
  - by apply frames_world; [apply framed_read_kick|].
  - by apply frames_world; [apply framed_signal|].
  - by apply frames_push.
  - unfold with_rx, zoom, rx_section. erewrite (bind_Ret _ _ _ (ce_world s)) by done.
    destruct (dq_try_lock_queue _) as [q'|] eqn:Hlock; [|done]. unfold rx_locked.
    pose proof (beside_rx_drain j fuel input port_id (MkRxEnv s eof signal, q') (conj Hs (Hapart j q' Hne Hlock))) as [Hr _].
    destruct (rx_drain _ _ _ _) as [o [r1 q1]]. by apply framed_store.
  - unfold with_tx, zoom, tx_section. erewrite (bind_Ret _ _ _ (ce_world s)) by done.
    destruct (dq_try_lock_queue _) as [q'|] eqn:Hlock; [|done]. unfold bind, tx_locked.
    pose proof (beside_tx_chains fuel output Hout (MkTxEnv (ce_world s) (ce_mem s) signal, q')
      (conj Hs (Hapart j q' Hne Hlock))) as [Ht _].
    destruct (tx_chains _ _ _) as [[] [t1 q1]]; by apply framed_store.
  - unfold control_rx_section. erewrite bind_Ret by done.
    destruct (dq_try_lock_queue _) as [q'|] eqn:Hlock; [|done].
    apply frames_ctl_locked; [done| |apply beside_deliver|done]. by eapply Hapart.
  - unfold control_tx_section. erewrite bind_Ret by done.
    destruct (dq_try_lock_queue _) as [q'|] eqn:Hlock; [|done].
    apply frames_ctl_locked; [done| |apply beside_commands|done]. by eapply Hapart.
Qed.

(** ** A request *)

Lemma request_frames r s :
  spares (Sock:=Sock) (File:=File) i r = true → q_ready q = true → frames s →
  frames (on_handler (reply_to checks r) s).2 ∧
  ce_mem (on_handler (reply_to checks r) s).2 = ce_mem s ∧
  ce_control (on_handler (reply_to checks r) s).2 = ce_control s.
Proof using Type*.
  intros Hr Hready (Hl & Ha & Hu & Hk). apply lock_iff in Hl as (v & Hv & Hvq & He & _).
  assert (undisturbed i q (ce_mem s) Keep (set_guest_mem (ce_mem s) (ce_world s))) as Hh by (split; [by exists v|done]).
  pose proof (request_spares checks i q (ce_mem s) Keep Hready (wk_ctl _ _ Hkept) r _ Hr Hh) as Hh'.
  unfold on_handler, zoom. destruct (reply_to checks r _) as [o h']. simpl in *.
  destruct (undisturbed_lock i q (ce_mem s) Keep Hready h' Hh') as (Hl' & Hm' & Hk').
  rewrite Hm'. split; [|done]. by split_and!.
Qed.
End ring.
End frame.
