(* ===== verification/ConsoleMessages.v ===== *)
(** * No message to the driver is lost or overtaken between the threads

    The messages of a console pass through several hands: the main worker appends them when
    it handles a command of the driver, a receiving thread when its input has ended, and the
    main worker takes them out again when the driver has given it a chain for each.
    [console_messages_fifo] follows them through runs of the whole system of
    [ConsoleSystem]; that the other threads leave the ring of the messages alone is in
    [ConsoleFrame]. *)

From S2P Require Import Prelude EventToken Epoll EventManager VirtQueue Bitmap Vring VhostBackend VhostHandler.
From S2P Require Import SessionSpec SessionRefinement DeviceRings RingFrame Codec PortQueueMapping ConsoleControl PortIo.
From S2P Require Import ProcessRx ProcessTx ConsolePort ConsoleWorker ConsoleSystem ConsoleFrame.

Section messages.
Context {D Mem Q W B Sock Region Mmap File Chain R Wr In Out : Type}.
Context `{EpollLaws W} `{EventSetBits} `{!EventFdOps W, !EventFdLaws W, !EventFdMake W}
  `{!QueueConfig Q Mem, !QueueConfigLaws Q Mem}
  `{VhostUserBits} `{!VhostUserDevice D Mem (Vring Q) Sock} `{!BitmapReplace B}
  `{!GuestMemory Mem Region Mmap File}.
Context `{!QueueProc Q Mem Chain, !QueueProcLaws Q Mem Chain, !QueueProcSetup Q Mem Chain, !QueuesApart Q Mem Chain}
  `{!ChainDescs Mem Chain, !ChainDescsLaws Mem Chain} `{!GuestAccess Mem, !GuestAccessLaws Mem}
  `{!GuestAccessQueue Q Mem Chain}
  `{!PortInput W Mem In, !PortOutput W Mem Out, !PortStreams W In Out,
    !PortInputLaws W Mem In Out, !PortOutputLaws W Mem In Out}
  `{ReaderLaws R} `{WriterLaws Wr} `{!ChainStreams Mem Chain R Wr, !ChainStreamsLaws Q Mem Chain R Wr}.

Context (checks : bool).

Local Notation HD := (VhostUserHandler D Mem Q W B).
Local Notation CE := (ConsoleEnv HD Mem).
Local Notation RE := (RxEnv HD Mem).
Local Notation P := (Port nat In Out).
Implicit Types (h : HD) (s : CE).

(** The control receive ring is running, and its lock shows the queue [q]. *)
Definition serving (q : Q) s : Prop :=
  dq_try_lock_queue (DeviceQueue:=handler_queue CONTROL_RXQ_INDEX) (ce_world s) = Some q.

Definition avail (q : Q) s : list Chain := q_avail q (ce_mem s).
Definition used (q : Q) s : list (Z * Z) := q_used q (ce_mem s).

(** What has been appended to the messages in between *)
Definition new_messages s s' : list Payload := drop (length (messages s)) (messages s').

(** The sections of the threads that do not belong to this ring *)
Local Notation elsewhere m :=
  (elsewhere (R:=R) (Wr:=Wr) (In:=In) (Out:=Out) CONTROL_RXQ_INDEX (λ _, False) (λ _, True) m).

(** A step of the system, with the chains and the messages that are new: the main worker
    goes over the ring; a thread does something elsewhere, and the rings that are running
    lie apart; the front-end makes a request that spares the ring; the guest makes chains
    available, and does not touch what was there. *)
Inductive message_step : list Chain → list Payload → CE → CE → Prop :=
| ms_deliver fuel q s s' :
    serving q s → (length (avail q s) < fuel)%nat →
    control_rx_section (R:=R) (Wr:=Wr) (DQ:=handler_queue CONTROL_RXQ_INDEX) fuel s = (Ret tt, s') →
    message_step [] [] s s'
| ms_section q {E A} (m : M CE E A) s :
    serving q s → elsewhere m → ring_apart CONTROL_RXQ_INDEX q (ce_world s) →
    message_step [] (new_messages s (m s).2) s (m s).2
| ms_request q r s :
    serving q s → spares (Sock:=Sock) (File:=File) CONTROL_RXQ_INDEX r = true →
    is_answer (on_handler (reply_to checks r) s).1 → message_step [] [] s (on_handler (reply_to checks r) s).2
| ms_guest q cs mem s :
    serving q s → q_avail q mem = avail q s ++ cs → q_used q mem = used q s →
    message_step cs [] s (MkConsoleEnv (ce_world s) mem (ce_control s)).

(** These are steps of the system of [ConsoleSystem]. *)
Lemma message_step_system cs ps s s' :
  message_step cs ps s s' →
  ∃ l, console_step (Sock:=Sock) (File:=File) (R:=R) (Wr:=Wr) (In:=In) (Out:=Out) checks l s s'.
Proof.
  intros Hstep. destruct Hstep as [fuel q s s' Hq Hfuel Hrun|q E A m s Hq Hm Hapart|q r s Hq Hr Hans|q cs mem s Hq Ha Hu].
  - exists None. replace s' with (control_rx_section (R:=R) (Wr:=Wr) (DQ:=handler_queue CONTROL_RXQ_INDEX) fuel s).2
      by (by rewrite Hrun). apply console_section, sec_control_rx.
  - exists None. by eapply console_section, elsewhere_section.
  - eexists. by apply console_request.
  - exists None. apply console_guest.
Qed.

Inductive message_run : list Chain → list Payload → CE → CE → Prop :=
| mr_nil s : message_run [] [] s s
| mr_cons cs ps cs' ps' s s1 s' :
    message_step cs ps s s1 → message_run cs' ps' s1 s' → message_run (cs ++ cs') (ps ++ ps') s s'.

(** ** Messages are appended *)

Definition appended (m0 : list Payload) s : Prop := ∃ ps, messages s = m0 ++ ps.

Lemma appended_world {E A} m0 (m : M HD E A) : preserves (appended m0) (on_world m).
Proof. intros s Hs. unfold on_world, zoom. by destruct (m _). Qed.

Lemma appended_push {E} m0 p : preserves (appended m0) (push_payload (E:=E) p).
Proof.
  intros s [ps Hs]. rewrite push_payload_run. exists (ps ++ [p]). unfold messages in *. simpl.
  by rewrite Hs, app_assoc.
Qed.

#[local] Hint Resolve appended_push : preserves.

Lemma appended_command m0 (ports : list P) cmd : preserves (appended m0) (handle_command ports cmd).
Proof.
  unfold handle_command, port_ready, port_of, port_add, mark_console_port, port_open, console_resize,
    port_name, push_msg, push_vec. cbn [get_win_size]. eauto 12 with preserves.
Qed.

Lemma appended_commands m0 i fuel (ports : list P) :
  preserves (appended m0) (control_tx_section (R:=R) (DQ:=handler_queue i) fuel ports).
Proof.
  intros s Hs. unfold control_tx_section. erewrite bind_Ret by done.
  destruct (dq_try_lock_queue _) as [q|]; [|done]. unfold ctl_locked.
  assert (preserves (λ t : CE * Q, appended m0 t.1)
    (let! raise_irq := commands (R:=R) fuel ports false in
     if raise_irq : bool then unwrap (E':=errno) (on_console (on_world (dq_signal_used_queue (DeviceQueue:=handler_queue i))))
     else ret tt)) as Hrun.
  { apply preserves_bind; [apply preserves_commands|intros irq].
    - intros [s1 q1] Hs1. unfold ctl_pop. simpl. by destruct (q_pop_descriptor_chain _ _).
    - intros head len [s1 q1] Hs1. unfold ctl_add_used, zoom. simpl. by destruct (q_add_used _ _ _) as [o []].
    - intros cmd. by apply (preserves_zoom _ (appended m0)); [..|apply appended_command].
    - apply preserves_if; [|apply preserves_ret].
      apply preserves_unwrap. by apply (preserves_zoom _ (appended m0)); [..|apply appended_world]. }
  specialize (Hrun (s, q) Hs). by destruct (bind _ _ (s, q)) as [o [s1 q1]].
Qed.

Lemma appended_rx_env {E A} m0 (m : M CE E A) :
  preserves (appended m0) m → preserves (λ r : RE, appended m0 (rx_env r)) (on_rx_env m).
Proof. intros Hm. by apply (preserves_zoom _ (appended m0)). Qed.

Lemma appended_receive m0 i fuel (input : In) port_id eof signal :
  preserves (appended m0) (with_rx eof signal (rx_section (DQ:=handler_queue i) fuel input port_id)).
Proof.
  apply (preserves_zoom _ (λ r : RE, appended m0 (rx_env r))); [done|done|].
  intros r Hr. unfold rx_section. erewrite bind_Ret by done.
  destruct (dq_try_lock_queue _) as [q|]; [|done]. unfold rx_locked.
  assert (preserves (λ t : RE * Q, appended m0 (rx_env t.1)) (rx_drain (DQ:=handler_queue i) fuel input port_id)) as Hrun.
  { apply preserves_bind; [apply preserves_rx_chains|intros []; try apply preserves_ret].
    - intros [r1 q1] Hr1. unfold rx_pop. simpl. by destruct (q_pop_descriptor_chain _ _).
    - intros descs Hdescs. apply (preserves_zoom _ (λ r : RE, appended m0 (rx_env r))); [done|done|].
      apply preserves_read_descs; [|done|done]. intros v r1 _ Hr1. rewrite (read_piece_run (Out:=Out)).
      unfold input_call. destruct (pi_read_volatile input v _) as [[n|e| |] [w m]]; by repeat case_bool_decide.
    - by apply preserves_modify.
    - intros head len [r1 q1] Hr1. unfold rx_add_used, zoom. simpl. by destruct (q_add_used _ _ _) as [o []].
    - apply (preserves_zoom _ (λ r : RE, appended m0 (rx_env r))); [done|done|].
      apply appended_rx_env, appended_push.
    - apply preserves_bind; [apply preserves_gets|intros sig].
      apply preserves_bind; [|intros _; apply preserves_ret]. apply preserves_if; [|apply preserves_ret].
      apply preserves_unwrap. apply (preserves_zoom _ (λ r : RE, appended m0 (rx_env r))); [done|done|].
      apply appended_rx_env, appended_world. }
  specialize (Hrun (r, q) Hr). by destruct (rx_drain _ _ _ _) as [o [r' q']].
Qed.

Lemma appended_new s s' : appended (messages s) s' → messages s ++ new_messages s s' = messages s'.
Proof. intros [ps Hps]. unfold new_messages. by rewrite Hps, drop_app_length. Qed.

Lemma appended_elsewhere {E A} m0 (m : M CE E A) : elsewhere m → preserves (appended m0) m.
Proof.
  intros Hm. destruct Hm as [E A m Hm|j epoll token|j|j|E p|j fuel input port_id eof signal Hne
    |j fuel output signal Hne Hout|fuel Hne|j fuel ports Hne];
    [apply appended_world..|apply appended_push|apply appended_receive| |done|apply appended_commands].
  intros s Hs. unfold with_tx, zoom. by destruct (tx_section _ _ _).
Qed.

(** ** Messages are delivered *)

(** Runs of the system *)
Lemma message_run_app cs ps cs' ps' s s1 s' :
  message_run cs ps s s1 → message_run cs' ps' s1 s' → message_run (cs ++ cs') (ps ++ ps') s s'.
Proof.
  induction 1 as [s|cs ps cs1 ps1 s s2 s1 Hstep _ IH]; intros Hrun; [done|].
  rewrite <-!app_assoc. eapply mr_cons; [done|by apply IH].
Qed.

(** In the run from [s] to [s'] there is a section of the main worker of which [r] is
    a turn, after the turns [rs]. *)
Definition carried_out s s' (r : delivery) : Prop :=
  ∃ cs ps cs' ps' s1 s2 fuel q rs t t',
    message_run cs ps s s1 ∧ serving q s1 ∧
    control_rx_section (R:=R) (Wr:=Wr) (DQ:=handler_queue CONTROL_RXQ_INDEX) fuel s1 = (Ret tt, s2) ∧
    message_run cs' ps' s2 s' ∧
    runs (turn (S:=HD) (R:=R) (Wr:=Wr)) rs (s1, q) t ∧ turn (S:=HD) (R:=R) (Wr:=Wr) r t t'.

Lemma carried_out_before cs ps s s1 s' r :
  message_run cs ps s s1 → carried_out s1 s' r → carried_out s s' r.
Proof.
  intros Hrun (cs1 & ps1 & cs2 & ps2 & s2 & s3 & fuel & q & rs & t & t' & Hrun1 & Hrest).
  exists (cs ++ cs1), (ps ++ ps1), cs2, ps2, s2, s3, fuel, q, rs, t, t'. split; [|done].
  by eapply message_run_app.
Qed.

(** What happened to messages and chains: for [rs], in order, chain and message were taken,
    and are in the used ring if they were delivered. *)
Definition passed (cs : list Chain) (ps : list Payload) (rs : list delivery) q s q' s' : Prop :=
  avail q s ++ cs = rs.*1.*1 ++ avail q' s' ∧ messages s ++ ps = rs.*1.*2 ++ messages s' ∧
  used q' s' = used q s ++ delivered rs.

(** Notifying the driver touches neither the ring nor the messages. *)
Lemma signal_keeps {E} i (t t1 : CE * Q) (o : outcome E unit) :
  unwrap (on_console (on_world (dq_signal_used_queue (DeviceQueue:=handler_queue i)))) t = (o, t1) →
  t1.2 = t.2 ∧ ce_mem t1.1 = ce_mem t.1 ∧ ce_control t1.1 = ce_control t.1.
Proof.
  unfold unwrap, on_console, on_world, zoom. destruct (dq_signal_used_queue _) as [o' h'].
  by intros [= _ <-].
Qed.

Lemma deliver_passed fuel q s s' :
  serving q s → (length (avail q s) < fuel)%nat →
  control_rx_section (R:=R) (Wr:=Wr) (DQ:=handler_queue CONTROL_RXQ_INDEX) fuel s = (Ret tt, s') →
  ∃ q' rs t, serving q' s' ∧ passed [] [] rs q s q' s' ∧ runs (turn (S:=HD) (R:=R) (Wr:=Wr)) rs (s, q) t.
Proof.
  intros Hq Hfuel Hrun. unfold control_rx_section in Hrun. erewrite bind_Ret in Hrun by done.
  unfold serving in Hq. rewrite Hq in Hrun. unfold ctl_locked in Hrun.
  pose proof (held_and_signal CONTROL_RXQ_INDEX (ce_world s) _
    (held_deliver (R:=R) (Wr:=Wr) CONTROL_RXQ_INDEX (ce_world s) fuel false) (s, q)) as Hheld.
  destruct Hheld as [Hholds Hstep]; [apply held_locked; [apply device_step_refl|done]|].
  pose proof (control_messages_in_order (R:=R) (Wr:=Wr) fuel false (s, q) Hfuel) as Hdel.
  unfold bind in Hrun, Hholds, Hstep.
  destruct (deliver fuel false (s, q)) as [[irq|e| |] [s1 q1]]; [|by destruct Hdel..].
  destruct Hdel as (rs & t & Hturns & _ & Hh & Hm & Hu & _). simpl in Hh, Hm, Hu.
  assert (∀ o t2, (if irq then unwrap (E':=errno) (on_console (on_world
    (dq_signal_used_queue (DeviceQueue:=handler_queue CONTROL_RXQ_INDEX)))) else ret tt) (s1, q1) = (o, t2) →
    t2.2 = q1 ∧ ce_mem t2.1 = ce_mem s1 ∧ ce_control t2.1 = ce_control s1) as Hsig.
  { intros o t2. destruct irq; [apply signal_keeps|by intros [= _ <-]]. }
  match type of Hstep with stays _ (?m.2.1) => destruct m as [o [s2 q2]] end.
  destruct (Hsig o (s2, q2) eq_refl) as (Hq2 & Hm2 & Hc2).
  simpl in *. subst q2. injection Hrun as -> <-. exists q1, rs, t.
  split; [by eapply store_lock|]. split; [|done]. unfold passed, avail, used, messages, ctl_chains, ctl_used in *.
  simpl in *. rewrite Hm2, Hc2, !app_nil_r. by split_and!.
Qed.

Lemma left_alone cs ps q s s' :
  serving q s' → avail q s' = avail q s ++ cs → used q s' = used q s → messages s' = messages s ++ ps →
  ∃ q', serving q' s' ∧ passed cs ps [] q s q' s'.
Proof.
  intros Hq Ha Hu Hm. exists q. split; [done|]. unfold passed. rewrite Hu, app_nil_r. by split_and!.
Qed.

Lemma nothing_kept : world_kept (W:=W) (Mem:=Mem) (In:=In) (λ _ : Out, False) (λ _, True).
Proof. by split. Qed.

(** A step that is not the main worker's at this ring *)
Lemma other_passed cs ps q s s' :
  serving q s → message_step cs ps s s' →
  (∃ q', serving q' s' ∧ passed cs ps [] q s q' s') ∨
  ∃ fuel, cs = [] ∧ ps = [] ∧ (length (avail q s) < fuel)%nat ∧
    control_rx_section (R:=R) (Wr:=Wr) (DQ:=handler_queue CONTROL_RXQ_INDEX) fuel s = (Ret tt, s').
Proof using All.
  intros Hq Hstep. assert (∀ q0, serving q0 s → q0 = q) as Hsame by (unfold serving in *; congruence).
  destruct Hstep as [fuel q0 s s' Hq0 Hfuel Hrun|q0 E A m s Hq0 Hm Hapart|q0 r s Hq0 Hr Hans|q0 cs mem s Hq0 Ha Hu];
    pose proof (Hsame q0 Hq0) as ->; [by right; eauto|left..].
  - destruct (elsewhere_frames _ _ _ nothing_kept q (avail q s) (used q s) m s Hm Hapart) as (Hl & Ha & Hu & _).
    { by split_and!. }
    apply left_alone; [done|by rewrite app_nil_r|done|]. symmetry. apply appended_new.
    apply (appended_elsewhere _ m Hm). exists []. by rewrite app_nil_r.
  - assert (q_ready q = true) as Hready by (by apply lock_iff in Hq as (v & _ & _ & _ & ?)).
    destruct (request_frames checks _ _ _ nothing_kept q (avail q s) (used q s) r s Hr Hready)
      as ((Hl & Ha & Hu & _) & _ & Hc); [by split_and!|].
    apply left_alone; [done|by rewrite app_nil_r|done|]. unfold messages. by rewrite Hc, app_nil_r.
  - apply left_alone; [done..|]. by rewrite app_nil_r.
Qed.

Lemma messages_passed_trans cs ps rs cs' ps' rs' q0 s q1 s1 q2 s' :
  passed cs ps rs q0 s q1 s1 → passed cs' ps' rs' q1 s1 q2 s' →
  passed (cs ++ cs') (ps ++ ps') (rs ++ rs') q0 s q2 s'.
Proof.
  intros (Ha & Hm & Hu) (Ha' & Hm' & Hu'). unfold passed.
  rewrite !fmap_app. split; [by rewrite <-app_assoc, <-Ha', !app_assoc, Ha|].
  split; [by rewrite <-app_assoc, <-Hm', !app_assoc, Hm|].
  rewrite Hu', Hu, <-app_assoc. unfold delivered. by rewrite filter_app, fmap_app.
Qed.

(** The turns of a section, in a run that begins with it *)
Lemma turns_carried_out fuel q s s1 cs' ps' s' rs t :
  serving q s →
  control_rx_section (R:=R) (Wr:=Wr) (DQ:=handler_queue CONTROL_RXQ_INDEX) fuel s = (Ret tt, s1) →
  message_run cs' ps' s1 s' → runs (turn (S:=HD) (R:=R) (Wr:=Wr)) rs (s, q) t → Forall (carried_out s s') rs.
Proof.
  intros Hq Hrun Hrest Hturns. apply Forall_forall. intros r (rs1 & rs2 & ->)%list_elem_of_split.
  apply runs_app_inv in Hturns as (t1 & Hbefore & Hturns). inversion Hturns as [|? ? ? t2 ? Hturn]; subst.
  exists [], [], cs', ps', s, s1, fuel, q, rs1, t1, t2. split; [apply mr_nil|]. done.
Qed.

(** Claim C7. No message to the driver is lost or overtaken anywhere in the system. As long
    as the control receive ring is running, no thread fails and the rings lie apart,
    however the main worker, the threads of the ports, the front-end with requests that
    spare the ring, and the guest interleave: the messages that the threads have appended
    are taken in that order, each with the next chain that the driver has made available.
    Each one that was taken was taken in a turn of the main worker's loop in this run; if
    that turn delivered it, it is in the used ring with its chain and its full length, and
    otherwise it could in that turn not be written to that chain, the chain was too small
    for it, or could not be returned ([turn]). The others are still waiting. *)
Theorem console_messages_fifo cs ps q s s' :
  serving q s → message_run cs ps s s' →
  ∃ q' (rs : list delivery), serving q' s' ∧
    avail q s ++ cs = rs.*1.*1 ++ avail q' s' ∧
    messages s ++ ps = rs.*1.*2 ++ messages s' ∧
    used q' s' = used q s ++ delivered rs ∧
    Forall (carried_out s s') rs.
Proof using All.
  intros Hq Hrun. cut (∃ q' rs, serving q' s' ∧ passed cs ps rs q s q' s' ∧ Forall (carried_out s s') rs).
  { intros (q' & rs & Hq' & (Ha & Hm & Hu) & Hall). exists q', rs. by split_and!. }
  revert q Hq. induction Hrun as [s|cs ps cs' ps' s s1 s' Hstep Hrest IH]; intros q Hq.
  - exists q, []. split; [done|]. split; [|done]. unfold passed. rewrite !app_nil_r. by split_and!.
  - assert (message_run cs ps s s1) as Hone.
    { rewrite <-(app_nil_r cs), <-(app_nil_r ps). eapply mr_cons; [done|apply mr_nil]. }
    destruct (other_passed _ _ _ _ _ Hq Hstep) as [(q1 & Hq1 & Hp1)|(fuel & -> & -> & Hfuel & Hsec)].
    + destruct (IH q1 Hq1) as (q' & rs & Hq' & Hp' & Hall). exists q', rs. split; [done|].
      split; [by eapply (messages_passed_trans _ _ [])|].
      eapply Forall_impl; [exact Hall|]. intros r. by eapply carried_out_before.
    + destruct (deliver_passed fuel q s s1 Hq Hfuel Hsec) as (q1 & rs1 & t & Hq1 & Hp1 & Hturns).
      destruct (IH q1 Hq1) as (q' & rs & Hq' & Hp' & Hall). exists q', (rs1 ++ rs). split; [done|].
      split; [by eapply (messages_passed_trans [] [])|]. apply Forall_app. split.
      * by eapply turns_carried_out.
      * eapply Forall_impl; [exact Hall|]. intros r. by eapply carried_out_before.
Qed.
End messages.
