(* ===== verification/ConsoleOutput.v ===== *)
(** * What the driver queues on a port comes out of it, over runs of the whole system

    [TxStream] is about one run of a transmitting thread. Here the runs are followed through
    the system of [ConsoleSystem], with the guest, the front-end and the other threads in
    between: the bytes that a port's output has been sent, followed by those that are still
    queued, are a stream that only the driver appends to ([output_stream]). That the other
    threads and the front-end leave the ring and the output alone is in [ConsoleFrame]. *)

From S2P Require Import Prelude EventToken Epoll EventManager VirtQueue Bitmap Vring VhostBackend VhostHandler.
From S2P Require Import SessionSpec SessionRefinement DeviceRings RingFrame Codec PortQueueMapping ConsoleControl PortIo.
From S2P Require Import ProcessRx ProcessTx TxStream ConsolePort ConsoleWorker ConsoleSystem ConsoleFrame.

Section output.
Context {D Mem Q W B Sock Region Mmap File Chain R Wr In Out : Type}.
Context `{EpollLaws W} `{EventSetBits} `{!EventFdOps W, !EventFdLaws W, !EventFdMake W}
  `{!QueueConfig Q Mem, !QueueConfigLaws Q Mem}
  `{VhostUserBits} `{!VhostUserDevice D Mem (Vring Q) Sock} `{!BitmapReplace B}
  `{!GuestMemory Mem Region Mmap File}.
Context `{!QueueProc Q Mem Chain, !QueueProcLaws Q Mem Chain, !QueueProcSetup Q Mem Chain, !QueuesApart Q Mem Chain}
  `{!ChainDescs Mem Chain, !ChainDescsLaws Mem Chain} `{!GuestAccess Mem, !GuestAccessLaws Mem}
  `{!UsedRing Q, !UsedRingLaws Q Mem Chain}
  `{!GuestAccessQueue Q Mem Chain}
  `{!PortInput W Mem In, !PortOutput W Mem Out, !PortStreams W In Out,
    !PortInputLaws W Mem In Out, !PortOutputLaws W Mem In Out, !OutputsApart W Mem In Out}
  `{ReaderOps R} `{WriterOps Wr} `{!ChainStreams Mem Chain R Wr, !ChainStreamsLaws Q Mem Chain R Wr}.
Context (checks : bool).

Local Notation HD := (VhostUserHandler D Mem Q W B).
Local Notation CE := (ConsoleEnv HD Mem).
Implicit Types (h : HD) (s : CE).

Context (i : nat) (output : Out).

(** The transmit ring of the port is running, and its lock shows the queue [q]. *)
Definition transmits (q : Q) s : Prop :=
  dq_try_lock_queue (DeviceQueue:=handler_queue i) (ce_world s) = Some q.

(** What the output has been sent, and what the driver has queued for it *)
Definition sent s : bytes := po_sent (In:=In) output (ce_world s).
Definition queued (q : Q) s : bytes := concat (chain_bytes (ce_mem s) <$> q_avail q (ce_mem s)).

(** An output that takes something before long does so in the world of the handler. *)
Lemma takes_handler k v m h :
  takes (S:=W) k output v m (env_world (h_env h)) → takes (S:=HD) k output v m h.
Proof.
  revert h. induction k as [|k IH]; intros h; simpl; unfold on_handler_world, zoom;
    destruct (po_write_volatile output v m (env_world (h_env h))) as [[n|e| |] w]; try done.
  intros [He Ht]. split; [done|]. simpl.
  destruct (po_wait_until_writable output w) as [[[]|e'| |] w2]; try done. by apply IH.
Qed.

Lemma prompt_handler k : prompt (S:=W) (Mem:=Mem) k output → prompt (S:=HD) (Mem:=Mem) k output.
Proof. intros Hp v m h Hv. by apply takes_handler, Hp. Qed.

Lemma sent_store q h :
  po_sent (In:=In) output (dq_store (DeviceQueue:=handler_queue i) q h) = po_sent (In:=In) output h.
Proof. simpl. unfold on_vring. by destruct (h_vrings h !! i). Qed.

(** The sections of the threads that do not belong to this ring and this output, while the
    output has been sent [bs] *)
Local Notation elsewhere bs m :=
  (elsewhere (R:=R) (Wr:=Wr) (In:=In) (Out:=Out) i (λ o, o = output) (λ w, po_sent (In:=In) output w = bs) m).

(** The queued chains say what they said. *)
Definition unspoilt (q : Q) (m m' : Mem) : Prop :=
  Forall (λ c, chain_bytes m' c = chain_bytes m c) (q_avail q m).

(** A step of the system, with the bytes that the driver has queued in it. The transmitting
    thread finds buffers that lie in guest memory. Another thread does something
    elsewhere, while the rings that are running lie apart and nothing is received into
    buffers that are queued to be sent; the front-end makes a request that spares the ring; the
    guest makes chains available, and leaves those that it has queued alone. *)
Inductive output_step : bytes → CE → CE → Prop :=
| os_transmit fuel k q signal s :
    transmits q s → prompt (S:=W) (Mem:=Mem) k output → (k + length (q_avail q (ce_mem s)) < fuel)%nat →
    Forall (sendable q (ce_mem s)) (q_avail q (ce_mem s)) →
    output_step [] s (with_tx signal (tx_section (DQ:=handler_queue i) fuel output) s).2
| os_section q {E A} (m : M CE E A) s :
    transmits q s → elsewhere (sent s) m → ring_apart i q (ce_world s) →
    unspoilt q (ce_mem s) (ce_mem (m s).2) → output_step [] s (m s).2
| os_request q r s :
    transmits q s → spares (Sock:=Sock) (File:=File) i r = true →
    is_answer (on_handler (reply_to checks r) s).1 → output_step [] s (on_handler (reply_to checks r) s).2
| os_guest q cs mem s :
    transmits q s → q_avail q mem = q_avail q (ce_mem s) ++ cs → unspoilt q (ce_mem s) mem →
    output_step (concat (chain_bytes mem <$> cs)) s (MkConsoleEnv (ce_world s) mem (ce_control s)).

(** These are steps of the system of [ConsoleSystem]. *)
Lemma output_step_system bs s s' :
  output_step bs s s' →
  ∃ l, console_step (Sock:=Sock) (File:=File) (R:=R) (Wr:=Wr) (In:=In) (Out:=Out) checks l s s'.
Proof.
  intros Hstep. destruct Hstep as [fuel k q signal s Hq Hprompt Hfuel Hok|q E A m s Hq Hm Hapart Hun|q r s Hq Hr Hans|q cs mem s Hq Ha Hun].
  - exists None. apply console_section, sec_tx.
  - exists None. by eapply console_section, elsewhere_section.
  - eexists. by apply console_request.
  - exists None. apply console_guest.
Qed.

Lemma output_kept bs :
  world_kept (W:=W) (Mem:=Mem) (In:=In) (λ o, o = output) (λ w, po_sent (In:=In) output w = bs).
Proof.
  split.
  - intros ep op fd ev w <-. apply (epoll_ctl_sent (Mem:=Mem)).
  - intros fd w <-. apply (efd_read_sent (Mem:=Mem)).
  - intros fd n w <-. apply (efd_write_sent (Mem:=Mem)).
  - intros input v w m <-. apply pi_read_sent.
  - intros o v m Ho w <-. by apply po_write_other.
  - intros o Ho w <-. by apply po_wait_other.
Qed.

(** The section of the transmitting thread moves bytes from the queue to the output. *)
Lemma tx_section_moves fuel k q signal s :
  transmits q s → prompt (S:=W) (Mem:=Mem) k output → (k + length (q_avail q (ce_mem s)) < fuel)%nat →
  Forall (sendable q (ce_mem s)) (q_avail q (ce_mem s)) →
  let run := with_tx signal (tx_section (DQ:=handler_queue i) fuel output) s in
  run.1 = Ret None ∧
  ∃ q', transmits q' run.2 ∧ sent run.2 ++ queued q' run.2 = sent s ++ queued q s.
Proof.
  intros Hq Hprompt Hfuel Hok. unfold with_tx, zoom, tx_section. erewrite (bind_Ret _ _ _ (ce_world s)) by done.
  unfold transmits in Hq. rewrite Hq. unfold tx_locked, bind.
  set (t := MkTxEnv (ce_world s) (ce_mem s) signal).
  destruct (tx_chains_outcome (In:=In) fuel k output (t, q) (prompt_handler k Hprompt) Hfuel Hok)
    as (rs & Hret & Ha & Hs & _ & _ & Hstay).
  destruct (held_tx_chains (In:=In) i (ce_world s) fuel output (t, q)) as [Hholds Hstep].
  { apply held_locked; [apply device_step_refl|done]. }
  destruct (tx_chains fuel output (t, q)) as [o [t' q']]. simpl in Hret. subst o. split; [done|].
  exists q'. split; [by eapply store_lock|]. unfold tx_avail, tx_sent, tx_stays, held in *.
  unfold sent, queued, ret. cbn [fst snd ce_world ce_mem tx_world tx_mem t] in *. rewrite sent_store, Hs, <-app_assoc.
  f_equal. rewrite Ha, fmap_app, concat_app. f_equal. f_equal. apply list_fmap_ext.
  intros j c Hc%list_elem_of_lookup_2. apply Hstay. rewrite Forall_forall in Hok. apply Hok.
  rewrite Ha. by apply elem_of_app; right.
Qed.

Lemma queued_same q s s' :
  q_avail q (ce_mem s') = q_avail q (ce_mem s) → unspoilt q (ce_mem s) (ce_mem s') → queued q s' = queued q s.
Proof.
  intros Ha Hun. unfold queued. rewrite Ha. f_equal. apply list_fmap_ext. intros j c Hc%list_elem_of_lookup_2.
  exact (proj1 (Forall_forall _ _) Hun c Hc).
Qed.

Lemma output_step_moves bs q s s' :
  transmits q s → output_step bs s s' →
  ∃ q', transmits q' s' ∧ sent s' ++ queued q' s' = sent s ++ queued q s ++ bs.
Proof using All.
  intros Hq Hstep. assert (∀ q0, transmits q0 s → q0 = q) as Hsame by (unfold transmits in *; congruence).
  destruct Hstep as [fuel k q0 signal s Hq0 Hprompt Hfuel Hok|q0 E A m s Hq0 Hm Hapart Hun|q0 r s Hq0 Hr Hans
    |q0 cs mem s Hq0 Ha Hun]; pose proof (Hsame q0 Hq0) as ->.
  - rewrite app_nil_r. exact (proj2 (tx_section_moves fuel k q signal s Hq0 Hprompt Hfuel Hok)).
  - exists q. destruct (elsewhere_frames _ _ _ (output_kept (sent s)) q (q_avail q (ce_mem s))
      (q_used q (ce_mem s)) m s Hm Hapart) as (Hl & Ha & _ & Hs); [by split_and!|].
    split; [exact Hl|]. rewrite app_nil_r, (queued_same q s) by done. f_equal. exact Hs.
  - exists q. assert (q_ready q = true) as Hready by (by apply lock_iff in Hq as (v & _ & _ & _ & ?)).
    destruct (request_frames checks _ _ _ (output_kept (sent s)) q (q_avail q (ce_mem s)) (q_used q (ce_mem s)) r s Hr Hready)
      as ((Hl & _ & _ & Hs) & Hm & _); [by split_and!|].
    split; [exact Hl|]. rewrite app_nil_r. unfold queued. rewrite Hm. f_equal. exact Hs.
  - exists q. split; [done|]. unfold queued. cbn [ce_mem]. rewrite Ha, fmap_app, concat_app. f_equal. f_equal. f_equal.
    apply list_fmap_ext. intros j c Hc%list_elem_of_lookup_2. exact (proj1 (Forall_forall _ _) Hun c Hc).
Qed.

(** Claim C8. Nothing that a driver queues on a port is lost, repeated or overtaken on its way
    out, when the output only ever fails for having to wait and takes something after at most
    [k] waits ([prompt]; any other error of the output loses what was to be written). However
    the port's transmitting thread, the other threads, the front-end with requests that
    spare the ring, and the guest interleave, as long as the ring is running, its buffers
    lie in guest memory, the rings lie apart, and neither the guest nor what is received
    overwrites a buffer that is queued: what the output has been sent, followed by what is
    still queued, is what it was, followed by what the driver has queued since. *)
Theorem output_stream bss q s s' :
  transmits q s → runs output_step bss s s' →
  ∃ q', transmits q' s' ∧ sent s' ++ queued q' s' = sent s ++ queued q s ++ concat bss.
Proof using All.
  intros Hq Hruns. revert q Hq. induction Hruns as [s|bs bss s s1 s' Hstep _ IH]; intros q Hq.
  { exists q. by rewrite app_nil_r. }
  destruct (output_step_moves bs q s s1 Hq Hstep) as (q1 & Hq1 & Hone).
  destruct (IH q1 Hq1) as (q' & Hq' & Hrest). exists q'. split; [done|].
  by rewrite Hrest, app_assoc, Hone, <-!app_assoc.
Qed.
End output.
