(* ===== verification/ConsoleInput.v ===== *)
(** * What the driver reads in its buffers, and what a port has received

    [RxStream] shows what one run over the receive queue leaves in guest memory. A driver
    sees of this the used ring and its buffers: it takes as many bytes of a chain's buffers,
    one after the other, as the entry in the used ring says ([driver_reads]). With one
    buffer in each chain that is what the input has delivered, over runs of the whole system
    of [ConsoleSystem] ([input_stream]). With more buffers it need not be
    ([late_data_leaves_gap]). *)

From S2P Require Import Prelude EventToken Epoll EventManager VirtQueue Bitmap Vring VhostBackend VhostHandler.
From S2P Require Import SessionSpec SessionRefinement DeviceRings Codec PortQueueMapping ConsoleControl PortIo.
From S2P Require Import ProcessRx ProcessTx TxStream RxStream ConsolePort ConsoleWorker ConsoleSystem.

(** ** The driver's side *)

Section reading.
Context {S Q Mem Chain In Out : Type} `{QueueProcLaws Q Mem Chain} `{!ChainDescs Mem Chain}
  `{!ChainDescsLaws Mem Chain} `{GuestAccess Mem} `{!GuestAccessLaws Mem}
  `{!GuestAccessQueue Q Mem Chain} `{PortInput S Mem In} `{PortStreams S In Out}
  `{!PortInputLaws S Mem In Out}.
Implicit Types (s : RxEnv S Mem) (c : Chain) (input : In).

(** The bytes of the buffers of a chain *)
Definition chain_buffer (m : Mem) c : bytes := concat (desc_bytes m <$> chain_writable_descs m c).

(** What a driver takes for a chain with its entry in the used ring *)
Definition driver_reads (m : Mem) c (entry : Z * Z) : bytes :=
  take (Z.to_nat entry.2) (chain_buffer m c).

(** One buffer, with the length of a [u32] *)
Definition one_buffer (m : Mem) c : Prop :=
  ∃ d, chain_writable_descs m c = [d] ∧ in_width 32 (desc_len d).

(** A single buffer holds what was received for it. *)
Lemma one_buffer_reads (m m' : Mem) c parts head :
  one_buffer m c → chain_writable_descs m' c = chain_writable_descs m c →
  sublist parts.*1 (chain_writable_descs m c) → filled m' parts →
  driver_reads m' c (head, wrap 32 (Z.of_nat (length (concat parts.*2)))) = concat parts.*2.
Proof.
  intros (d & Hd & Hlen) Hm Hsub Hf. unfold driver_reads, chain_buffer. rewrite Hm.
  rewrite Hd in Hsub |- *. simpl. rewrite app_nil_r. destruct parts as [|[d1 data] parts]; [done|].
  rewrite fmap_cons in Hsub. apply sublist_cons_l in Hsub as (k1 & k2 & Heq & Hsub).
  destruct k1 as [|? [|]]; simplify_eq/=. apply sublist_nil_r in Hsub. apply fmap_nil_inv in Hsub as ->.
  apply Forall_cons in Hf as [[Hle Hbytes] _]. simpl in *. rewrite app_nil_r.
  unfold in_width in Hlen. rewrite wrap_small by (unfold in_width; lia).
  unfold desc_bytes. by rewrite take_mem_bytes, Hbytes by lia.
Qed.

(** *** Two buffers *)

Context `{!GuestAccessDescs Mem Chain} `{!UsedRing Q, !UsedRingLaws Q Mem Chain}
  `{EpollOps S} `{EventSetBits} `{!EventFdOps S, !EventFdLaws S} `{!StreamsEventFd S In Out}.

(** The first two buffers take something, the first one not all it could. *)
Lemma read_two_descs input d1 d2 descs s n1 s1 n2 s2 :
  ProcessRx.reliable (S:=S) (Mem:=Mem) input → Forall (λ d, 0 ≤ desc_len d) (d1 :: d2 :: descs) →
  NoDup (descs ≫= desc_range) →
  read_to_desc input d1 s = (Ret n1, s1) → 0 < n1 →
  read_to_desc input d2 (set_signal true s1) = (Ret n2, s2) → 0 < n2 →
  ∃ data1 data2 data s', n1 = Z.of_nat (length data1) ∧ n2 = Z.of_nat (length data2) ∧ n2 ≤ desc_len d2 ∧
    read_descs input (d1 :: d2 :: descs) 0 s = (Ret (Z.of_nat (length (data1 ++ data2 ++ data))), s') ∧
    rx_received (Out:=Out) input s' = rx_received (Out:=Out) input s ++ data1 ++ data2 ++ data ∧
    stored (desc_addr d1) data1 (rx_mem s) (rx_mem s1) ∧
    stored (desc_addr d2) data2 (rx_mem s1) (rx_mem s2) ∧
    ∀ a, a ∉ descs ≫= desc_range → mem_byte (rx_mem s') a = mem_byte (rx_mem s2) a.
Proof.
  intros Hrel Hdescs Hdup Hrun1 Hn1 Hrun2 Hn2.
  apply Forall_cons in Hdescs as [Hd1 Hdescs]. apply Forall_cons in Hdescs as [Hd2 Hdescs].
  destruct (read_to_desc_data (Out:=Out) input d1 s n1 s1 Hd1 Hrun1) as (data1 & -> & Hle1 & Hr1 & Hst1).
  destruct (read_to_desc_data (Out:=Out) input d2 _ n2 s2 Hd2 Hrun2) as (data2 & -> & Hle2 & Hr2 & Hst2).
  destruct (read_descs_Ret (Out:=Out) input descs (Z.of_nat (length data1) + Z.of_nat (length data2))
    (set_signal true s2) Hdescs) as (n & s' & Hrun & _).
  destruct (rx_chain_filled (Out:=Out) input descs _ _ n s' Hrel Hdescs Hdup Hrun)
    as (parts & _ & _ & Hr3 & -> & Hframe).
  exists data1, data2, (concat parts.*2), s'. split; [done|]. split; [done|]. split; [done|].
  split; [|split; [|by split_and!]].
  - simpl. unfold bind at 1, attempt. rewrite Hrun1, bool_decide_eq_false_2 by lia.
    unfold bind at 1, modify, bind at 1, attempt. rewrite Hrun2, bool_decide_eq_false_2 by lia.
    unfold bind, modify. rewrite !length_app, !Nat2Z.inj_add, Z.add_assoc. exact Hrun.
  - rewrite Hr3. change (rx_received input (set_signal true s2)) with (rx_received (Out:=Out) input s2).
    rewrite Hr2. change (rx_received input (set_signal true s1)) with (rx_received (Out:=Out) input s1).
    by rewrite Hr1, <-!app_assoc.
Qed.

(** Claim C38. Data that arrives while a chain is being filled can leave a hole in it. When
    the input has no more for the first buffer, but has something again when the thread
    turns to the second one, that goes into the second buffer, behind a gap; the length that
    goes into the used ring does not tell. The driver, which takes that many bytes from the
    first buffer on, finds in the gap what was there before, instead of the next byte that
    was received. *)
Theorem late_data_leaves_gap input c d1 d2 descs s n1 s1 n2 s2 :
  ProcessRx.reliable (S:=S) (Mem:=Mem) input → chain_writable_descs (rx_mem s) c = d1 :: d2 :: descs →
  NoDup (buffers (rx_mem s) c) →
  read_to_desc input d1 s = (Ret n1, s1) → 0 < n1 < desc_len d1 →
  read_to_desc input d2 (set_signal true s1) = (Ret n2, s2) → 0 < n2 →
  ∃ data n s', read_descs input (chain_writable_descs (rx_mem s) c) 0 s = (Ret n, s') ∧
    n = Z.of_nat (length data) ∧ rx_received (Out:=Out) input s' = rx_received (Out:=Out) input s ++ data ∧
    data !! Z.to_nat n1 = Some (mem_byte (rx_mem s') (desc_addr d2)) ∧
    ∀ head, driver_reads (rx_mem s') c (head, n) !! Z.to_nat n1 =
      Some (mem_byte (rx_mem s) (desc_addr d1 + n1)).
Proof.
  intros Hrel Hc Hdup Hrun1 [Hn1 Hlt] Hrun2 Hn2.
  pose proof (writable_descs_len (rx_mem s) c) as Hdescs. unfold buffers in Hdup.
  pose proof (read_descs_descs (Out:=Out) input _ 0 s Hdescs c) as Hsame.
  rewrite Hc in Hdup, Hdescs, Hsame |- *. rewrite !bind_cons in Hdup.
  apply NoDup_app in Hdup as (_ & Hsep1 & Hdup). apply NoDup_app in Hdup as (_ & Hsep2 & Hdup).
  destruct (read_two_descs input d1 d2 descs s n1 s1 n2 s2 Hrel Hdescs Hdup Hrun1 Hn1 Hrun2 Hn2)
    as (data1 & data2 & data & s' & -> & -> & Hle2 & Hrun & Hr & Hst1 & Hst2 & Hframe).
  rewrite Hrun in Hsame. simpl in Hsame.
  exists (data1 ++ data2 ++ data), (Z.of_nat (length (data1 ++ data2 ++ data))), s'.
  rewrite Nat2Z.id. split; [done|]. split; [done|]. split; [done|]. split.
  - rewrite lookup_app_r, Nat.sub_diag by lia. destruct data2 as [|b data2]; [simpl in Hn2; lia|].
    simpl. rewrite Hframe by (apply Hsep2, elem_of_desc_range; simpl in *; lia).
    rewrite Hst2, bool_decide_eq_true_2 by (simpl; lia). by rewrite Z.sub_diag.
  - intros head. unfold driver_reads, chain_buffer. rewrite Hsame. simpl.
    rewrite lookup_take_lt by (rewrite !length_app; lia). rewrite lookup_app_l by (rewrite desc_bytes_length; lia).
    unfold desc_bytes, mem_bytes. rewrite list_lookup_fmap, lookup_seqZ_lt by lia. simpl. f_equal.
    set (a := desc_addr d1 + Z.of_nat (length data1)).
    assert (a ∉ desc_range d2 ++ (descs ≫= desc_range)) as [Ha2 Ha]%not_elem_of_app
      by (apply Hsep1, elem_of_desc_range; lia).
    rewrite elem_of_desc_range in Ha2. rewrite Hframe, Hst2, bool_decide_eq_false_2 by (done || lia).
    by rewrite Hst1, bool_decide_eq_false_2 by lia.
Qed.
End reading.

(** ** The system *)

Section input.
Context {D Mem Q W B Chain In Out : Type}.
Context `{EpollLaws W} `{EventSetBits} `{!EventFdOps W, !EventFdLaws W, !EventFdMake W}
  `{!QueueConfig Q Mem, !QueueConfigLaws Q Mem}.
Context `{!QueueProc Q Mem Chain, !QueueProcLaws Q Mem Chain, !QueueProcSetup Q Mem Chain}
  `{!ChainDescs Mem Chain, !ChainDescsLaws Mem Chain} `{!GuestAccess Mem, !GuestAccessLaws Mem}
  `{!GuestAccessQueue Q Mem Chain} `{!GuestAccessDescs Mem Chain} `{!UsedRing Q, !UsedRingLaws Q Mem Chain}
  `{!PortInput W Mem In, !PortStreams W In Out, !PortInputLaws W Mem In Out, !StreamsEventFd W In Out}.

Local Notation HD := (VhostUserHandler D Mem Q W B).
Local Notation CE := (ConsoleEnv HD Mem).
Implicit Types (h : HD) (s : CE).

#[local] Instance handler_event_fd : StreamsEventFd HD In Out.
Proof.
  split. intros i fd n h. simpl. unfold on_handler_world, zoom.
  pose proof (efd_write_received (Out:=Out) i fd n (env_world (h_env h))) as Hr.
  by destruct (efd_write fd n (env_world (h_env h))).
Qed.

Context (i : nat) (input : In).

(** The receive ring of the port is running, and its lock shows the queue [q]. *)
Definition receives (q : Q) s : Prop :=
  dq_try_lock_queue (DeviceQueue:=handler_queue i) (ce_world s) = Some q.

(** What the input has delivered *)
Definition received s : bytes := pi_received (Out:=Out) input (ce_world s).

Lemma signal_received h :
  pi_received (Out:=Out) input (dq_signal_used_queue (DeviceQueue:=handler_queue i) h).2 =
    pi_received (Out:=Out) input h.
Proof.
  simpl. unfold on_vring. destruct (h_vrings h !! i) as [v|]; [|done].
  unfold signal_used_queue, bind, gets, Vring.on_world, zoom. simpl.
  destruct (vs_call (vr_state v)) as [fd|]; simpl; [|done].
  pose proof (efd_write_received (Out:=Out) input fd 1 (env_world (h_env h))) as Hr.
  by destruct (efd_write fd 1 (env_world (h_env h))).
Qed.

Lemma received_store q h :
  pi_received (Out:=Out) input (dq_store (DeviceQueue:=handler_queue i) q h) = pi_received (Out:=Out) input h.
Proof. simpl. unfold on_vring. by destruct (h_vrings h !! i). Qed.

Lemma reliable_handler :
  ProcessRx.reliable (S:=W) (Mem:=Mem) input → ProcessRx.reliable (S:=HD) (Mem:=Mem) input.
Proof.
  intros Hrel v h m e wm. simpl. unfold zoom. simpl.
  destruct (pi_read_volatile input v (env_world (h_env h), m)) as [o [w m']] eqn:Hr.
  intros ?; simplify_eq. by eapply Hrel.
Qed.

(** Around the chains there is only the notification. *)
Lemma rx_drain_chains fuel port_id (t t' : RxEnv HD Mem * Q) o :
  rx_drain (DQ:=handler_queue i) fuel input port_id t = (o, t') →
  let run := (rx_chains fuel input port_id t).2 in
  t'.2 = run.2 ∧ rx_mem t'.1 = rx_mem run.1 ∧
  rx_received (Out:=Out) input t'.1 = rx_received (Out:=Out) input run.1.
Proof.
  unfold rx_drain, bind at 1. destruct (rx_chains fuel input port_id t) as [[[]|e| |] [r q]];
    try (unfold ret; intros Hrun; by simplify_eq).
  unfold bind, gets. simpl. destruct (rx_signal r); [|unfold ret; intros Hrun; by simplify_eq].
  unfold unwrap, on_rx, rx_world, on_rx_env, on_world, zoom, rx_received, rx_mem. simpl.
  pose proof (signal_received (ce_world (rx_env r))) as Hs. simpl in Hs.
  destruct (on_vring i signal_used_queue (ce_world (rx_env r))) as [[] h];
    unfold ret; simpl; intros Hrun; simplify_eq/=; (split; [done|split; [done|exact Hs]]).
Qed.

(** What the driver reads after a section, from the chains [taken] and the entries that are
    new in the used ring *)
Definition reads_of (m : Mem) (taken : list Chain) (new : list (Z * Z)) : bytes :=
  concat (zip_with (driver_reads m) taken new).

Lemma rx_entries_cons (r : answer) rs :
  rx_entries (r :: rs) =
    (if r.2 then [(chain_head_index r.1.1, wrap 32 (Z.of_nat (length (said r))))] else []) ++ rx_entries rs.
Proof. unfold rx_entries. rewrite filter_cons. by destruct r as [? []]. Qed.

Lemma rx_entries_all (rs : list answer) :
  length (rx_entries rs) = length rs → Forall (λ r : answer, r.2 = true) rs.
Proof.
  assert (∀ rs, (length (rx_entries rs) ≤ length rs)%nat) as Hle.
  { intros rs'. unfold rx_entries. rewrite length_fmap. apply length_filter. }
  induction rs as [|r rs IH]; intros Hlen; [done|]. rewrite rx_entries_cons, length_app in Hlen.
  specialize (Hle rs). destruct r as [r []]; simpl in Hlen; [|lia]. apply Forall_cons. split; [done|].
  apply IH. lia.
Qed.

Lemma reads_said (m m' : Mem) (rs : list answer) :
  Forall (one_buffer m) rs.*1.*1 → (∀ c, chain_writable_descs m' c = chain_writable_descs m c) →
  Forall (λ r : answer, sublist r.1.2.*1 (chain_writable_descs m r.1.1) ∧ filled m' r.1.2) rs →
  length (rx_entries rs) = length rs → reads_of m' rs.*1.*1 (rx_entries rs) = concat (said <$> rs).
Proof.
  intros Hone Hdescs Hrs Hok%rx_entries_all. unfold reads_of.
  induction rs as [|[[c parts] ok] rs IH]; [done|].
  apply Forall_cons in Hone as [Hc Hone]. apply Forall_cons in Hrs as [[Hsub Hf] Hrs].
  apply Forall_cons in Hok as [Hok' Hok]. simpl in Hok', Hc, Hsub, Hf. subst ok.
  rewrite rx_entries_cons, !fmap_cons. simpl. rewrite IH by done. f_equal.
  by apply (one_buffer_reads m).
Qed.

(** The run leaves the descriptors of the chains alone. *)
Lemma rx_chains_descs (m0 : Mem) fuel port_id (t : RxEnv HD Mem * Q) :
  (∀ c, chain_writable_descs (rx_mem t.1) c = chain_writable_descs m0 c) →
  ∀ c, chain_writable_descs (rx_mem (rx_chains fuel input port_id t).2.1) c = chain_writable_descs m0 c.
Proof.
  revert t.
  change (preserves (λ t : RxEnv HD Mem * Q,
    ∀ c, chain_writable_descs (rx_mem t.1) c = chain_writable_descs m0 c) (rx_chains fuel input port_id)).
  apply preserves_rx_chains.
  - intros [r q] Hr. unfold rx_pop. by destruct (q_pop_descriptor_chain _ _).
  - intros descs Hdescs [r q] Hr. unfold on_rx, zoom. simpl in *.
    pose proof (read_descs_descs (Out:=Out) input descs 0 r Hdescs) as Hd.
    destruct (read_descs input descs 0 r) as [o r']. intros c. by rewrite Hd.
  - by intros [r q].
  - intros head len t Ht c. destruct (rx_add_used_mem head len t) as (_ & Hd & _). by rewrite Hd.
  - intros [r q] Hr. unfold on_rx, on_rx_env, zoom, port_open, push_msg. simpl.
    by rewrite (push_payload_run (E:=errno)).
Qed.

(** The section of the receiving thread: what the input has delivered in it is what the
    driver reads. *)
Lemma rx_section_reads fuel port_id eof signal q q' taken new s :
  receives q s → ProcessRx.reliable (S:=W) (Mem:=Mem) input →
  (length (q_avail q (ce_mem s)) < fuel)%nat →
  receivable q (ce_mem s) (q_avail q (ce_mem s)) → Forall (one_buffer (ce_mem s)) (q_avail q (ce_mem s)) →
  let s' := (with_rx eof signal (rx_section (DQ:=handler_queue i) fuel input port_id) s).2 in
  receives q' s' → q_avail q (ce_mem s) = taken ++ q_avail q' (ce_mem s') →
  q_used q' (ce_mem s') = q_used q (ce_mem s) ++ new → length new = length taken →
  received s' = received s ++ reads_of (ce_mem s') taken new.
Proof.
  intros Hq Hrel Hfuel Hok Hone s' Hq' Ha Hu Hlen. unfold receives in Hq.
  set (t := MkRxEnv s eof signal).
  destruct (rx_chains_delivered (Out:=Out) fuel input port_id (t, q) (reliable_handler Hrel) Hfuel Hok)
    as (next & rs & Hret & Har & Hrs & Hrecv & Hused & _).
  pose proof (rx_chains_descs (ce_mem s) fuel port_id (t, q) ltac:(done)) as Hdescs.
  destruct (held_rx_drain (Out:=Out) i (ce_world s) fuel input port_id (t, q)) as [Hholds Hstep].
  { apply held_locked; [apply device_step_refl|done]. }
  destruct (rx_drain fuel input port_id (t, q)) as [o [r1 q1]] eqn:Hdrain.
  destruct (rx_drain_chains _ _ _ _ _ Hdrain) as (Hq1 & Hm1 & Hr1). cbn [fst snd] in *.
  assert (s' = MkConsoleEnv (dq_store (DeviceQueue:=handler_queue i) q1 (ce_world (rx_env r1)))
    (ce_mem (rx_env r1)) (ce_control (rx_env r1))) as Hs'.
  { unfold s', with_rx, zoom, rx_section. erewrite (bind_Ret _ _ _ (ce_world s)) by done.
    rewrite Hq. unfold rx_locked. fold t. by rewrite Hdrain. }
  assert (q' = q1) as ->.
  { unfold receives in Hq'. rewrite Hs' in Hq'. simpl ce_world in Hq'.
    rewrite (store_lock i (ce_world s) (ce_world (rx_env r1)) q1 Hholds Hstep) in Hq'. by injection Hq'. }
  unfold rx_avail, rx_used in *. rewrite <-Hq1, <-Hm1 in Har, Hused. rewrite <-Hm1 in Hdescs, Hrs.
  rewrite <-Hr1 in Hrecv. unfold received. rewrite Hs' in Ha, Hu |- *. cbn [ce_mem ce_world fst snd] in *.
  change (rx_mem t) with (ce_mem s) in *. unfold rx_mem in *.
  rewrite received_store. unfold rx_received in Hrecv. cbn [rx_env t] in Hrecv. rewrite Hrecv. f_equal.
  rewrite Ha in Har. apply app_inv_tail in Har as ->. rewrite Hu in Hused. apply app_inv_head in Hused as ->.
  symmetry. apply (reads_said (ce_mem s)); [|done|done|by rewrite Hlen, !length_fmap].
  rewrite Ha in Hone. by apply Forall_app in Hone as [Hone _].
Qed.

(** A step, with the bytes that the driver reads after it. The receiving thread finds
    chains of one buffer each, which overlap neither each other nor the used ring, and for
    each chain that it takes there is an entry in the used ring. Other steps leave the
    input to it. *)
Inductive input_step : bytes → CE → CE → Prop :=
| is_receive fuel port_id eof signal q q' taken new s s' :
    receives q s → ProcessRx.reliable (S:=W) (Mem:=Mem) input →
    (length (q_avail q (ce_mem s)) < fuel)%nat →
    receivable q (ce_mem s) (q_avail q (ce_mem s)) → Forall (one_buffer (ce_mem s)) (q_avail q (ce_mem s)) →
    s' = (with_rx eof signal (rx_section (DQ:=handler_queue i) fuel input port_id) s).2 →
    receives q' s' → q_avail q (ce_mem s) = taken ++ q_avail q' (ce_mem s') →
    q_used q' (ce_mem s') = q_used q (ce_mem s) ++ new → length new = length taken →
    input_step (reads_of (ce_mem s') taken new) s s'
| is_other s s' : received s' = received s → input_step [] s s'.

(** Claim C9. What a port receives is what the driver reads. However the receiving thread,
    the other threads, the front-end and the guest interleave, for an input that only ever
    fails for having nothing to read, and a driver with one buffer in each chain: if the
    driver goes over the new entries of the used ring after each section of the thread, and
    takes of each chain as many bytes as its entry says, then it has read, in order, every
    byte that the input has delivered, once, and nothing else. *)
Theorem input_stream bss s s' :
  runs input_step bss s s' → received s' = received s ++ concat bss.
Proof.
  induction 1 as [s|bs bss s s1 s' Hstep _ IH]; [by rewrite app_nil_r|].
  cbn [concat]. rewrite IH, app_assoc. f_equal.
  destruct Hstep as [fuel port_id eof signal q q' taken new sa sb Hq Hrel Hfuel Hok Hone -> Hq' Ha Hu Hlen
    |sa sb Hr]; [by eapply rx_section_reads|by rewrite Hr, app_nil_r].
Qed.
End input.
