(* ===== verification/ConsoleSession.v ===== *)
(** * A session with a console on a concrete machine

    The machine of [ConsoleSim] with the rings in guest memory, told apart by the address of
    their available ring, and a handler in front of them. The module runs the system of
    [ConsoleSystem]: the front-end sets up the rings, the driver gives a buffer to the
    console and one for messages, a line comes in, a message goes out, and the front-end
    stops a ring. In a second session the driver sends something through the port, in a third
    one it reads what the port has received. [LateExamples] has an input that pauses. *)

From S2P Require Import Prelude EventToken Epoll EventManager VirtQueue Bitmap Vring VhostBackend VhostHandler.
From S2P Require Import SessionSpec SessionRefinement DeviceRings RingFrame Codec PortQueueMapping ConsoleControl PortIo GuestRegions.
From S2P Require Import ProcessRx RxStream ProcessTx ConsolePort ConsoleWorker ConsoleSim ConsoleSystem ConsoleFrame ConsoleMessages TxStream ConsoleOutput ConsoleInput.

Module ConsoleSession.
Import Epoll.Sim SimQueue VringExamples BackendExamples ConsoleSim ConsoleExamples.

(** ** Guest memory with rings *)

Record cmem : Type := CMem {
  cm_mem : mem; cm_avail : Z → list chain; cm_used : Z → list (Z * Z);
}.

Definition on_cm (f : mem → mem) (m : cmem) : cmem := CMem (f (cm_mem m)) (cm_avail m) (cm_used m).

#[export] Instance cmem_access : GuestAccess cmem := {|
  mem_byte m := m_byte (cm_mem m);
  mem_mapped _ := mapped;
  mem_dirty m := m_dirty (cm_mem m);
  mem_fill v bs := on_cm (fill_bytes v bs);
  mem_mark_dirty v off len := on_cm (mark v off len);
  mem_slice _ := in_region;
  mem_try_access St _ := range_access room;
|}.

#[export] Instance cmem_access_laws : GuestAccessLaws cmem.
Proof.
  split; try done.
  - intros v off len m a _ _ _ Ha. apply orb_true_iff. right. by apply bool_decide_eq_true.
  - intros v off len m a _ _ _ _ Ha. apply orb_true_iff. by left.
  - intros St m count addr f s Hc Hf.
    apply range_access_accessed; [exact room_unmapped|exact room_pos|exact room_slice|done..].
Qed.

#[export] Instance cmem_config : QueueConfig SimQueue.queue cmem := {|
  q_new := SimQueue.new;
  q_try_set_desc_table_address := SimQueue.try_set 16 (λ a '(_, y, z), (a, y, z));
  q_try_set_avail_ring_address := SimQueue.try_set 2 (λ a '(x, _, z), (x, a, z));
  q_try_set_used_ring_address := SimQueue.try_set 4 (λ a '(x, y, _), (x, y, a));
  q_set_ready := SimQueue.set_ready;
  q_ready := SimQueue.sq_ready;
  q_set_size := SimQueue.set_size;
  VirtQueue.q_size := SimQueue.sq_size;
  q_max_size := SimQueue.sq_max_size;
  q_set_event_idx := SimQueue.set_event_idx;
  q_event_idx_enabled := SimQueue.sq_event_idx;
  q_set_next_avail := SimQueue.set_next_avail;
  q_next_avail := SimQueue.sq_next_avail;
  q_set_next_used := SimQueue.set_next_used;
  q_used_idx _ _ := Ret 0;
|}.

#[export] Instance cmem_config_laws : QueueConfigLaws SimQueue.queue cmem.
Proof. destruct SimQueue.config_laws. split; try assumption. Qed.

(** The address of the available ring *)
Definition ring_of (q : SimQueue.queue) : Z := (SimQueue.sq_addrs q).1.2.
Definition position (q : SimQueue.queue) : nat := Z.to_nat (SimQueue.sq_next_avail q).

#[export] Instance cmem_proc : QueueProc SimQueue.queue cmem chain := {|
  q_pop_descriptor_chain m q :=
    match cm_avail m (ring_of q) !! position q with
    | Some c => (Some c, SimQueue.set_next_avail (Z.of_nat (S (position q))) q)
    | None => (None, q)
    end;
  q_go_to_previous_position q := SimQueue.set_next_avail (Z.of_nat (position q - 1)) q;
  q_add_used head len := λ '(q, m),
    (Ret tt, (q, CMem (cm_mem m) (cm_avail m)
      (upd (ring_of q) (cm_used m (ring_of q) ++ [(head, len)]) (cm_used m))));
  q_disable_notification := ret tt;
  q_enable_notification := ret false;
  chain_head_index := c_head;
  q_avail q m := drop (position q) (cm_avail m (ring_of q));
  q_used q m := cm_used m (ring_of q);
|}.

#[export] Instance cmem_proc_laws : QueueProcLaws SimQueue.queue cmem chain.
Proof.
  split; simpl.
  - intros m q c q'. destruct (cm_avail m (ring_of q) !! position q) as [c'|] eqn:Hc; [|done].
    intros ?; simplify_eq. unfold ring_of, position in *. simpl. rewrite !Nat2Z.id.
    split; [by apply drop_S|]. split; [done|]. split; [|done].
    f_equal. lia.
  - intros m q q'. by destruct (cm_avail m (ring_of q) !! _); intros [= <-].
  - intros head len q m q' m' [= <- <-]. simpl. by rewrite upd_eq.
  - done.
  - intros head len [q m]. left. by eexists.
  - by intros q m q' m' o [= <- <- <-].
  - by intros q m q' m' o [= <- <- <-].
Qed.

#[export] Instance cmem_proc_setup : QueueProcSetup SimQueue.queue cmem chain.
Proof.
  split; simpl; [intros m q; by destruct (cm_avail m (ring_of q) !! _)|done|by intros head len [q m]|done..].
Qed.

(** Rings with other addresses lie apart. *)
#[export] Instance cmem_apart : QueuesApart SimQueue.queue cmem chain.
Proof.
  refine {| apart := λ q q', ring_of q ≠ ring_of q' |}.
  - intros m q q' Hne. simpl. by destruct (cm_avail m (ring_of q') !! position q').
  - done.
  - intros head len q q' m o q1 m1 Hne [= <- <- <-]. simpl. by rewrite upd_ne.
  - by intros q q' m o q1 m1 Hne [= <- <- <-].
  - by intros q q' m o q1 m1 Hne [= <- <- <-].
Defined.

#[export] Instance cmem_access_queue : GuestAccessQueue SimQueue.queue cmem chain.
Proof. by split. Qed.

#[export] Instance cmem_descs : ChainDescs cmem chain := {|
  chain_readable_descs _ c := desc32 <$> c_readable c;
  chain_writable_descs _ c := desc32 <$> c_writable c;
|}.

#[export] Instance cmem_access_descs : GuestAccessDescs cmem chain.
Proof. by split. Qed.

#[export] Instance cmem_descs_laws : ChainDescsLaws cmem chain.
Proof.
  split; intros m c; apply Forall_fmap, Forall_true; intros d; simpl; by apply in_width_wrap.
Qed.

#[export] Instance cmem_streams : ChainStreams cmem chain SimQueue.reader SimQueue.writer := {|
  chain_reader m c := chain_reader (cm_mem m) c;
  chain_writer m c := chain_writer (cm_mem m) c;
  chain_commit w := on_cm (chain_commit w);
|}.

#[export] Instance cmem_streams_laws : ChainStreamsLaws SimQueue.queue cmem chain SimQueue.reader SimQueue.writer.
Proof. split; [by eauto..|done]. Qed.

(** Guest memory as a new session maps it *)
Definition mapped_memory : cmem := CMem memory (λ _, []) (λ _, []).

#[export] Instance cmem_regions : GuestMemory cmem MemRegion VhostUserMemoryRegion Z := {|
  mmap_region r _ := Ret r;
  guest_region_new r gpa := Ret (MkMemRegion gpa (vm_memory_size r));
  region_as_ptr r := 2 ^ 40 + mr_start_addr r;
  region_info r := r;
  from_regions rs := if bool_decide (rs = []) then Fail 1 else Ret mapped_memory;
  insert_region m _ := Ret m;
  remove_region m _ _ := Ret m;
  mem_regions _ := [];
  file_fd f := f;
  mmap_log len _ _ := Ret (replicate (Z.to_nat len) 0);
|}.

(** ** A device with the queues of a console with one port *)

Record cdev : Type := CDev { cd_acked : Z; cd_activations : nat }.

#[export] Instance cdev_virtio (Q : Type) : VirtioDevice cdev cmem Q := {|
  vd_device_type _ := Ret 3;
  vd_avail_features _ := 2 ^ 32 + 3;
  vd_acked_features := cd_acked;
  vd_set_acked_features f := modify (λ d, CDev f (cd_activations d));
  vd_queues _ := replicate 4 (MkQueueArgs 256);
  vd_read_config offset data _ := Ret data;
  vd_write_config offset data := fail "read only"%string;
  vd_activate _ _ := modify (λ d, CDev (cd_acked d) (S (cd_activations d)));
  vd_stop := ret tt;
  vd_reset := default_reset (ret tt);
|}.

#[export] Instance cdev_vhost : VhostUserDevice cdev cmem (Vring SimQueue.queue) () :=
  implementer_device id (λ d _, d) (λ _, 0) default_set_gpu_socket.

Lemma cdev_calls : device_calls (Mem:=cmem) (Q:=SimQueue.queue) (Sock:=()) cd_activations.
Proof.
  split; intros; simpl; try done.
  unfold impl_set_acked_features, bind, assert, ret, panic, zoom, modify.
  by destruct (bool_decide _).
Qed.

Definition CHD : Type := VhostUserHandler cdev cmem SimQueue.queue world AtomicBitmapMmap.
Definition CSys : Type := ConsoleEnv CHD cmem.

(** A line waits on the standard input. *)
Definition session_env : Env world := MkEnv ∅ (world_of [line] (λ _, None)).
Definition no_memory : GuestMem cmem AtomicBitmapMmap := MkGuestMem mapped_memory ∅ [].
Definition new_queue : Vring SimQueue.queue :=
  MkVring (SimQueue.Queue false false 256 256 0 0 (0, 0, 0) [] [] true)
    (MkVringState false None None None []).
Definition chandler : CHD :=
  MkVhostUserHandler (CDev 0 0) false false (replicate 4 (MkQueueArgs 256)) false false 0 0 []
    no_memory (replicate 4 new_queue) session_env.

(** ** The run *)

Definition guest_region : VhostUserMemoryRegion := MkVhostUserMemoryRegion 0 65536 0x7f0000000000 0.
Definition ring_addr (index : Z) : Z := 0x7f0000000000 + 4096 * index.
Definition set_up : list (request () Z) :=
  [SET_OWNER; SET_FEATURES (2 ^ 32 + 2 ^ 30); SET_MEM_TABLE [guest_region] [3];
   SET_VRING_ADDR 0 0 (ring_addr 0) (ring_addr 0) (ring_addr 0) 0;
   SET_VRING_ADDR 2 0 (ring_addr 2) (ring_addr 2) (ring_addr 2) 0;
   SET_VRING_KICK 0 (Some 40); SET_VRING_KICK 2 (Some 42);
   SET_VRING_ENABLE 0 true; SET_VRING_ENABLE 2 true].

Definition request_all (rs : list (request () Z)) (s : CSys) : CSys :=
  foldl (λ s r, (on_handler (reply_to true r) s).2) s rs.

Fixpoint all_answered (rs : list (request () Z)) (s : CSys) : Prop :=
  match rs with
  | [] => True
  | r :: rs => is_answer (on_handler (reply_to true r) s).1 ∧ all_answered rs (on_handler (reply_to true r) s).2
  end.

Fixpoint exchanges (rs : list (request () Z)) (s : CSys) : list (option exchange) :=
  match rs with
  | [] => []
  | r :: rs => Some (r, (on_handler (reply_to true r) s).1) :: exchanges rs (on_handler (reply_to true r) s).2
  end.

Local Notation step :=
  (console_step (Sock:=()) (File:=Z) (R:=SimQueue.reader) (Wr:=SimQueue.writer) (In:=PortInputFd) (Out:=PortOutputFd) true).

Lemma requests_run rs s : all_answered rs s → runs step (exchanges rs s) s (request_all rs s).
Proof.
  revert s. induction rs as [|r rs IH]; intros s; [intros _; apply runs_nil|].
  intros [Hr Hrs]. eapply runs_cons; [by apply console_request|]. by apply IH.
Qed.

(** Chain 3 is for the input of the port, chain 7 for a message. *)
Definition with_chains : cmem :=
  CMem memory (upd 8192 [Chain 7 [] [MkDescriptor 300 16]] (upd 0 [rx_chain] (λ _, []))) (λ _, []).

Definition s0 : CSys := MkConsoleEnv chandler (gm_mem no_memory) (MkConsoleControl [] 5).
Definition s1 : CSys := request_all set_up s0.
Definition s2 : CSys := MkConsoleEnv (ce_world s1) with_chains (ce_control s1).
Definition s3 : CSys :=
  (with_rx false false (rx_section (DQ:=handler_queue 0) 3 input 0) s2).2.
Definition s4 : CSys := (push_payload (E:=errno) add_msg s3).2.
Definition s5 : CSys :=
  (control_rx_section (R:=SimQueue.reader) (Wr:=SimQueue.writer) (DQ:=handler_queue CONTROL_RXQ_INDEX) 3 s4).2.
Definition s6 : CSys := request_all [GET_VRING_BASE 0] s5.

(** The requests succeed, and the last one reports where the ring has come to. *)
Definition session : list (option exchange) :=
  ((λ r, Some (r, Ret Done)) <$> set_up) ++ [None; None; None; None; Some (GET_VRING_BASE 0, Ret (RingState 0 1))].

Lemma set_up_answers : exchanges set_up s0 = (λ r, Some (r, Ret Done)) <$> set_up.
Proof. vm_compute. reflexivity. Qed.

Lemma stop_answers : exchanges [GET_VRING_BASE 0] s5 = [Some (GET_VRING_BASE 0, Ret (RingState 0 1))].
Proof. vm_compute. reflexivity. Qed.

Lemma threads_run : runs step [None; None; None; None] s1 s5.
Proof.
  apply (runs_cons step None _ s1 s2 s5); [exact (console_guest true with_chains s1)|].
  apply (runs_cons step None _ s2 s3 s5).
  { exact (console_section true _ s2 (sec_rx 0 3 input 0 false false)). }
  apply (runs_cons step None _ s3 s4 s5); [exact (console_section true _ s3 (sec_push add_msg))|].
  apply (runs_cons step None _ s4 s5 s5); [|apply runs_nil].
  exact (console_section true _ s4 (sec_control_rx CONTROL_RXQ_INDEX 3)).
Qed.

Lemma set_up_run : runs step ((λ r, Some (r, Ret Done)) <$> set_up) s0 s1.
Proof. rewrite <-set_up_answers. apply requests_run. vm_compute. by split_and!. Qed.

Lemma stop_run : runs step [Some (GET_VRING_BASE 0, Ret (RingState 0 1))] s5 s6.
Proof. rewrite <-stop_answers. apply (requests_run [GET_VRING_BASE 0]). vm_compute. by split_and!. Qed.

Lemma session_run : runs step session s0 s6.
Proof.
  apply (runs_app step _ _ s0 s1 s6 set_up_run).
  exact (runs_app step [None; None; None; None] _ s1 s5 s6 threads_run stop_run).
Qed.

Lemma console_system_refines_witness :
  (cm_used (ce_mem s6) 0 = [(3, 5)] ∧ cm_used (ce_mem s6) 8192 = [(7, 8)] ∧
   rg_next_avail <$> ss_rings (abs (ce_world s6)) !! 0%nat = Some 1) ∧
  runs spec_step session
    (spec_init (vud_avail_features (Mem:=cmem) (Q:=Vring SimQueue.queue) (S:=()) (CDev 0 0))
      (qa_max_size <$> vud_queues (Mem:=cmem) (Q:=Vring SimQueue.queue) (S:=()) (CDev 0 0)))
    (abs (ce_world s6)).
Proof.
  split; [vm_compute; split_and!; reflexivity|].
  exact (console_system_refines (R:=SimQueue.reader) (Wr:=SimQueue.writer) (In:=PortInputFd) (Out:=PortOutputFd)
    true cd_activations (CDev 0 0) no_memory session_env chandler (MkConsoleControl [] 5) session s6
    cdev_calls eq_refl session_run).
Defined.

(** ** The messages of the run *)

Definition control_queue : SimQueue.queue :=
  SimQueue.Queue true false 256 256 0 0 (8192, 8192, 8192) [] [] true.

Lemma ring_serves : serving control_queue s1.
Proof. vm_compute. reflexivity. Qed.

(** The rings of the session lie apart. *)
Ltac rings_apart :=
  let j := fresh "j" in let q := fresh "q" in let Hj := fresh "Hj" in let Hl := fresh "Hl" in
  intros j q Hj Hl; do 4 (destruct j as [|j]; [vm_compute in Hl; simplify_eq; vm_compute; done|]); vm_compute in Hl; done.

Local Notation message_run :=
  (message_run (Sock:=()) (File:=Z) (R:=SimQueue.reader) (Wr:=SimQueue.writer) (In:=PortInputFd) (Out:=PortOutputFd) true).

Lemma messages_run : message_run [Chain 7 [] [MkDescriptor 300 16]] [add_msg] s1 s6.
Proof.
  apply (mr_cons true [Chain 7 [] [MkDescriptor 300 16]] [] [] [add_msg] s1 s2 s6).
  { apply (ms_guest true control_queue [Chain 7 [] [MkDescriptor 300 16]] with_chains s1); vm_compute; reflexivity. }
  apply (mr_cons true [] (new_messages s2 s3) [] [add_msg] s2 s3 s6).
  { apply (ms_section true control_queue _ s2); [vm_compute; reflexivity|by apply el_rx|rings_apart]. }
  apply (mr_cons true [] (new_messages s3 s4) [] [] s3 s4 s6).
  { apply (ms_section true control_queue _ s3); [vm_compute; reflexivity|apply el_push|rings_apart]. }
  apply (mr_cons true [] [] [] [] s4 s5 s6).
  { apply (ms_deliver true 3 control_queue s4 s5); [vm_compute; reflexivity|apply Nat.ltb_lt; vm_compute; reflexivity|].
    vm_compute. reflexivity. }
  apply (mr_cons true [] [] [] [] s5 s6 s6); [|apply mr_nil].
  apply (ms_request true (SimQueue.set_next_avail 1 control_queue) (GET_VRING_BASE 0) s5);
    [vm_compute; reflexivity|reflexivity|by vm_compute].
Qed.

Lemma console_messages_fifo_witness :
  (messages s6 = [] ∧ used control_queue s6 = [(7, 8)]) ∧
  ∃ q' (rs : list delivery), serving q' s6 ∧
    avail control_queue s1 ++ [Chain 7 [] [MkDescriptor 300 16]] = rs.*1.*1 ++ avail q' s6 ∧
    messages s1 ++ [add_msg] = rs.*1.*2 ++ messages s6 ∧
    used q' s6 = used control_queue s1 ++ delivered rs ∧
    Forall (carried_out (Sock:=()) (File:=Z) (R:=SimQueue.reader) (Wr:=SimQueue.writer)
      (In:=PortInputFd) (Out:=PortOutputFd) true s1 s6) rs.
Proof.
  split; [vm_compute; by split|].
  exact (console_messages_fifo (Sock:=()) (File:=Z) (R:=SimQueue.reader) (Wr:=SimQueue.writer)
    (In:=PortInputFd) (Out:=PortOutputFd) true
    [Chain 7 [] [MkDescriptor 300 16]] [add_msg] control_queue s1 s6 ring_serves messages_run).
Defined.

(** ** Output *)

#[export] Instance cmem_used_ring : UsedRing SimQueue.queue := λ _ _, False.

#[export] Instance cmem_used_ring_laws : UsedRingLaws SimQueue.queue cmem chain.
Proof. split; try done; by intros head len q m o q' m' c [= <- <- <-]. Qed.

Definition set_up_output : list (request () Z) :=
  [SET_OWNER; SET_FEATURES (2 ^ 32 + 2 ^ 30); SET_MEM_TABLE [guest_region] [3];
   SET_VRING_ADDR 1 0 (ring_addr 1) (ring_addr 1) (ring_addr 1) 0;
   SET_VRING_KICK 1 (Some 41); SET_VRING_ENABLE 1 true].

(** The guest makes chains of the output's ring available. *)
Definition queue_chains (cs : list chain) (s : CSys) : CSys :=
  MkConsoleEnv (ce_world s)
    (CMem (cm_mem (ce_mem s)) (upd 4096 (cm_avail (ce_mem s) 4096 ++ cs) (cm_avail (ce_mem s))) (cm_used (ce_mem s)))
    (ce_control s).
Definition transmit (s : CSys) : CSys := (with_tx false (tx_section (DQ:=handler_queue 1) 4 output) s).2.

(** Two chains, the second buffer of the first one across two regions; then one more *)
Definition o0 : CSys := request_all set_up_output s0.
Definition o1 : CSys :=
  queue_chains [Chain 3 [MkDescriptor 65 2; MkDescriptor 4095 3] []; Chain 5 [MkDescriptor 97 1] []] o0.
Definition o2 : CSys := transmit o1.
Definition o3 : CSys := queue_chains [Chain 6 [MkDescriptor 98 2] []] o2.
Definition o4 : CSys := transmit o3.
Definition tx_queue (n : Z) : SimQueue.queue :=
  SimQueue.Queue true false 256 256 n 0 (4096, 4096, 4096) [] [] true.

Lemma session_prompt : prompt (S:=world) (Mem:=cmem) 0 output.
Proof. intros v m w Hv. simpl. unfold mem_bytes. rewrite length_fmap, length_seqZ. lia. Qed.

(** Chains of buffers in the two regions *)
Definition in_regions (c : chain) : bool :=
  bool_decide (c_readable c ≠ []) &&
  forallb (λ d, bool_decide (0 < desc_len d ∧ 0 ≤ desc_addr d ∧ desc_addr d + desc_len d ≤ 8192))
    (desc32 <$> c_readable c).

Lemma session_sendable q m cs :
  forallb in_regions cs = true → Forall (sendable (Q:=SimQueue.queue) (Mem:=cmem) q m) cs.
Proof.
  rewrite forallb_forall. intros Hcs. apply Forall_forall. intros c Hc%list_elem_of_In%Hcs.
  apply andb_true_iff in Hc as [Hne%bool_decide_eq_true Hok]. rewrite forallb_forall in Hok.
  split; [|split].
  - simpl. by destruct (c_readable c).
  - apply Forall_forall. intros d Hd.
    apply list_elem_of_In in Hd. apply Hok, bool_decide_eq_true in Hd as (Hl & Ha & Hal).
    split; [done|]. simpl. intros b Hb. apply bool_decide_eq_true. lia.
  - apply Forall_true. by intros d a _ [].
Qed.

Local Notation output_step :=
  (output_step (Sock:=()) (File:=Z) (R:=SimQueue.reader) (Wr:=SimQueue.writer) (In:=PortInputFd) true 1 output).

(** The main worker appends a message, and the front-end asks for the features. *)
Definition o5 : CSys := (push_payload (E:=errno) add_msg o4).2.
Definition o6 : CSys := request_all [GET_FEATURES] o5.

Lemma unspoilt_nil q (m m' : cmem) : q_avail q m = [] → unspoilt (Q:=SimQueue.queue) q m m'.
Proof. unfold unspoilt. by intros ->. Qed.

(** The guest queues the chains that say [bs]. *)
Lemma guest_queues bs q cs m (s : CSys) :
  bs = concat (chain_bytes m <$> cs) → transmits 1 q s → q_avail q m = q_avail q (ce_mem s) ++ cs →
  unspoilt q (ce_mem s) m → output_step bs s (MkConsoleEnv (ce_world s) m (ce_control s)).
Proof. intros ->. apply os_guest. Qed.

Lemma output_run :
  runs output_step [[65; 66; 255; 0; 1; 97]; []; [98; 99]; []; []; []] o0 o6.
Proof.
  apply (runs_cons _ _ _ o0 o1).
  { apply (guest_queues _ (tx_queue 0)
      [Chain 3 [MkDescriptor 65 2; MkDescriptor 4095 3] []; Chain 5 [MkDescriptor 97 1] []] (ce_mem o1) o0);
      [vm_compute; reflexivity..|apply unspoilt_nil; vm_compute; reflexivity]. }
  apply (runs_cons _ _ _ o1 o2).
  { apply (os_transmit true 1 output 4 0 (tx_queue 0) false o1); [vm_compute; reflexivity|apply session_prompt
      |apply Nat.ltb_lt; vm_compute; reflexivity|].
    apply session_sendable. vm_compute. reflexivity. }
  apply (runs_cons _ _ _ o2 o3).
  { apply (guest_queues _ (tx_queue 2) [Chain 6 [MkDescriptor 98 2] []] (ce_mem o3) o2);
      [vm_compute; reflexivity..|apply unspoilt_nil; vm_compute; reflexivity]. }
  apply (runs_cons _ _ _ o3 o4).
  { apply (os_transmit true 1 output 4 0 (tx_queue 2) false o3); [vm_compute; reflexivity|apply session_prompt
      |apply Nat.ltb_lt; vm_compute; reflexivity|].
    apply session_sendable. vm_compute. reflexivity. }
  apply (runs_cons _ _ _ o4 o5).
  { apply (os_section true 1 output (tx_queue 3) _ o4); [vm_compute; reflexivity|apply el_push|rings_apart|apply unspoilt_nil; vm_compute; reflexivity]. }
  apply (runs_cons _ _ _ o5 o6); [|apply runs_nil].
  apply (os_request true 1 output (tx_queue 3) GET_FEATURES o5); [vm_compute; reflexivity|reflexivity|by vm_compute].
Qed.

Lemma output_stream_witness :
  sent (In:=PortInputFd) output o6 = [65; 66; 255; 0; 1; 97; 98; 99] ∧
  ∃ q', transmits 1 q' o6 ∧
    sent (In:=PortInputFd) output o6 ++ queued q' o6 =
      sent (In:=PortInputFd) output o0 ++ queued (tx_queue 0) o0 ++
        concat [[65; 66; 255; 0; 1; 97]; []; [98; 99]; []; []; []].
Proof.
  split; [vm_compute; reflexivity|].
  apply (output_stream (Sock:=()) (File:=Z) (R:=SimQueue.reader) (Wr:=SimQueue.writer) (In:=PortInputFd) true 1 output
    [[65; 66; 255; 0; 1; 97]; []; [98; 99]; []; []; []] (tx_queue 0) o0 o6);
    [vm_compute; reflexivity|apply output_run].
Defined.

(** ** Input *)

Definition set_up_input : list (request () Z) :=
  [SET_OWNER; SET_FEATURES (2 ^ 32 + 2 ^ 30); SET_MEM_TABLE [guest_region] [3];
   SET_VRING_ADDR 0 0 (ring_addr 0) (ring_addr 0) (ring_addr 0) 0;
   SET_VRING_KICK 0 (Some 40); SET_VRING_ENABLE 0 true].

Definition offer_chains (cs : list chain) (s : CSys) : CSys :=
  MkConsoleEnv (ce_world s)
    (CMem (cm_mem (ce_mem s)) (upd 0 (cm_avail (ce_mem s) 0 ++ cs) (cm_avail (ce_mem s))) (cm_used (ce_mem s)))
    (ce_control s).
Definition receive (s : CSys) : CSys :=
  (with_rx false false (rx_section (DQ:=handler_queue 0) 4 input 0) s).2.

(** The line of five bytes goes into a buffer of four, across two regions, and one of eight. *)
Definition i0 : CSys := request_all set_up_input s0.
Definition i1 : CSys := offer_chains [Chain 3 [] [MkDescriptor 4094 4]] i0.
Definition i2 : CSys := receive i1.
Definition i3 : CSys := offer_chains [Chain 4 [] [MkDescriptor 200 8]; Chain 5 [] [MkDescriptor 300 8]] i2.
Definition i4 : CSys := receive i3.
Definition rx_queue (n : Z) : SimQueue.queue :=
  SimQueue.Queue true false 256 256 n 0 (0, 0, 0) [] [] true.

Lemma session_reliable : ProcessRx.reliable (S:=world) (Mem:=cmem) input.
Proof.
  intros v w m e wm. simpl. unfold fd_read_volatile. simpl. unfold read_fd. simpl.
  destruct (w_script w 0); [|done]. intros ?; by simplify_eq.
Qed.

Definition has_one_buffer (c : chain) : bool := bool_decide (length (c_writable c) = 1%nat).

Lemma session_one_buffer m cs :
  forallb has_one_buffer cs = true → Forall (one_buffer (Mem:=cmem) m) cs.
Proof.
  rewrite forallb_forall. intros Hcs. apply Forall_forall. intros c Hc%list_elem_of_In%Hcs%bool_decide_eq_true.
  unfold one_buffer. simpl. destruct (c_writable c) as [|d []]; try done.
  exists (desc32 d). split; [done|]. simpl. by apply in_width_wrap.
Qed.

Lemma session_receivable q m cs :
  bool_decide (NoDup (cs ≫= RxStream.buffers (Mem:=cmem) m)) = true →
  receivable (Q:=SimQueue.queue) (Mem:=cmem) q m cs.
Proof. intros Hdup%bool_decide_eq_true. split; [done|by intros c a _ _ []]. Qed.

(** What the driver reads after the two sections *)
Definition first_read : bytes := reads_of (ce_mem i2) [Chain 3 [] [MkDescriptor 4094 4]] [(3, 4)].
Definition second_read : bytes := reads_of (ce_mem i4) [Chain 4 [] [MkDescriptor 200 8]] [(4, 1)].

Lemma input_run : runs (input_step 0 input) [[]; first_read; []; second_read] i0 i4.
Proof.
  apply (runs_cons _ _ _ i0 i1); [apply is_other; vm_compute; reflexivity|].
  apply (runs_cons _ _ _ i1 i2).
  { apply (is_receive 0 input 4 0 false false (rx_queue 0) (rx_queue 1)
      [Chain 3 [] [MkDescriptor 4094 4]] [(3, 4)] i1 i2);
      [vm_compute; reflexivity|apply session_reliable|apply Nat.ltb_lt; vm_compute; reflexivity
      |apply session_receivable; vm_compute; reflexivity|apply session_one_buffer; vm_compute; reflexivity
      |reflexivity|vm_compute; reflexivity..]. }
  apply (runs_cons _ _ _ i2 i3); [apply is_other; vm_compute; reflexivity|].
  apply (runs_cons _ _ _ i3 i4); [|apply runs_nil].
  apply (is_receive 0 input 4 0 false false (rx_queue 1) (rx_queue 2)
    [Chain 4 [] [MkDescriptor 200 8]] [(4, 1)] i3 i4);
    [vm_compute; reflexivity|apply session_reliable|apply Nat.ltb_lt; vm_compute; reflexivity
    |apply session_receivable; vm_compute; reflexivity|apply session_one_buffer; vm_compute; reflexivity
    |reflexivity|vm_compute; reflexivity..].
Qed.

Lemma input_stream_witness :
  (first_read = [104; 101; 108; 108] ∧ second_read = [111] ∧
   received (Out:=PortOutputFd) input i4 = line) ∧
  received (Out:=PortOutputFd) input i4 =
    received (Out:=PortOutputFd) input i0 ++ concat [[]; first_read; []; second_read].
Proof.
  split; [vm_compute; split_and!; reflexivity|].
  exact (input_stream (Q:=SimQueue.queue) (Chain:=chain) (Out:=PortOutputFd) 0 input _ i0 i4 input_run).
Defined.
End ConsoleSession.

(** ** An input that pauses *)
Module LateExamples.
Import Epoll.Sim ConsoleSim ConsoleExamples.

(** What each read finds (nothing yet, when it is empty), and what was delivered. *)
Record late_world : Type := Late { lw_script : list bytes; lw_received : bytes }.

Definition late_read (fd len : Z) (w : late_world) : bytes * option errno * late_world :=
  match lw_script w with
  | [] => ([], Some EAGAIN, w)
  | [] :: rest => ([], Some EAGAIN, Late rest (lw_received w))
  | bs :: rest =>
      let data := take (Z.to_nat len) bs in
      let rest := match drop (Z.to_nat len) bs with [] => rest | bs => bs :: rest end in
      (data, None, Late rest (lw_received w ++ data))
  end.

#[export] Instance late_fd_ops : FdOps late_world := {|
  sys_read := late_read;
  sys_write_volatile fd bs := ret (Z.of_nat (length bs));
  sys_poll_out _ := ret tt;
  sys_dup := ret;
  sys_getfl _ := ret 2;
  sys_setfl _ _ := ret tt;
  sys_close _ w := w;
|}.

#[export] Instance late_streams : PortStreams late_world PortInputFd PortOutputFd := {|
  pi_received _ := lw_received;
  po_sent _ _ := [];
|}.

#[export] Instance late_read_laws : FdReadLaws late_world PortOutputFd.
Proof.
  split; simpl; unfold late_read.
  - intros fd n w data err w' Hn. destruct (lw_script w) as [|[|b bs] rest]; intros ?; simplify_eq;
      rewrite ?length_take; simpl; lia.
  - intros i n w data w'. destruct (lw_script w) as [|[|b bs] rest]; intros ?; by simplify_eq.
  - intros i n w data e w'. destruct (lw_script w) as [|[|b bs] rest]; intros ?; by simplify_eq.
Qed.

Lemma late_reliable : ProcessRx.reliable (S:=late_world) (Mem:=mem) input.
Proof.
  intros v w m e wm. simpl. unfold fd_read_volatile, late_read.
  destruct (lw_script w) as [|[|b bs] rest]; [..|done]; intros ?; by simplify_eq.
Qed.

(** Two bytes, a pause, and three more, for two buffers of four *)
Definition late_state : RxEnv late_world mem :=
  MkRxEnv (MkConsoleEnv (Late [[104; 101]; []; [108; 108; 111]] []) memory (MkConsoleControl [] 5)) false false.
Definition d1 : Descriptor := MkDescriptor 100 4.
Definition d2 : Descriptor := MkDescriptor 200 4.
Definition after_first : RxEnv late_world mem := (read_to_desc input d1 late_state).2.
Definition after_second : RxEnv late_world mem := (read_to_desc input d2 (set_signal true after_first)).2.
Definition late_run : outcome errno Z * RxEnv late_world mem :=
  read_descs input (chain_writable_descs (rx_mem late_state) rx_chain) 0 late_state.

Lemma late_data_leaves_gap_witness :
  (late_run.1 = Ret 5 ∧ driver_reads (rx_mem late_run.2) rx_chain (3, 5) = [104; 101; 102; 103; 108]) ∧
  ∃ data n s',
    read_descs input (chain_writable_descs (rx_mem late_state) rx_chain) 0 late_state = (Ret n, s') ∧
    n = Z.of_nat (length data) ∧
    rx_received (Out:=PortOutputFd) input s' = rx_received (Out:=PortOutputFd) input late_state ++ data ∧
    data !! 2%nat = Some (mem_byte (rx_mem s') 200) ∧
    ∀ head, driver_reads (rx_mem s') rx_chain (head, n) !! 2%nat =
      Some (mem_byte (rx_mem late_state) 102).
Proof.
  split; [split; vm_compute; reflexivity|].
  apply (late_data_leaves_gap (Out:=PortOutputFd) input rx_chain d1 d2 [] late_state 2 after_first
    3 after_second); [exact late_reliable|reflexivity|apply (bool_decide_unpack _); vm_compute; exact I
    |apply run_pair; vm_compute; reflexivity|by vm_compute|apply run_pair; vm_compute; reflexivity|done].
Defined.
End LateExamples.
